(** * GpuScan (gpuscan.c): a shallow embedding and its verified properties

    The development follows the source file top-down:
    - machine integers and the PostgreSQL node values the file passes around;
    - [form_gpuscan_info] / [deform_gpuscan_info];
    - the qualifier code generator [codegen_gpuscan_quals];
    - [fixup_varnode_to_origin] and the executor state built by
      [ExecInitGpuScan];
    - the task factory [gpuscan_create_task];
    - the shared block cursor [gpuscan_parallel_nextpage];
    - the CPU fallback [gpuscan_next_tuple_fallback] / [gpuscan_next_tuple];
    - the task executor [gpuscan_process_task].

    Functions of other files (PostgreSQL's executor, the CUDA driver, the
    code generator for expressions, the data-store module) are either
    section variables or small models, each marked as such. *)

From Stdlib Require Import ZArith Floats.
From stdpp Require Import base option list numbers strings pretty sorting.

Open Scope Z_scope.

(** ** Machine integers *)

(** [cl_uint], [BlockNumber], [Index] and [Oid] are unsigned 32-bit,
    [size_t] and [pg_atomic_uint64] unsigned 64-bit, [long] signed 64-bit
    (LP64).  Values are kept in [Z]; every C operation that can wrap is
    written with the wrap. *)
Definition uint32 (z : Z) : Z := z mod 2 ^ 32.
Definition uint64 (z : Z) : Z := z mod 2 ^ 64.
Definition long (z : Z) : Z := (z + 2 ^ 63) mod 2 ^ 64 - 2 ^ 63.

Definition is_uint32 (z : Z) : Prop := 0 <= z < 2 ^ 32.
Definition is_uint64 (z : Z) : Prop := 0 <= z < 2 ^ 64.

(** ** Outcome of code that can [elog(ERROR, ...)]

    [elog(ERROR)] and [werror] do not return: the rest of the function is
    skipped and the message travels up.  The messages are kept without their
    formatted arguments. *)
Inductive result (A : Type) : Type :=
| OK (a : A)
| ERROR (msg : string).
Arguments OK {A} a.
Arguments ERROR {A} msg.

#[global] Instance result_ret : MRet result := fun A a => OK a.
#[global] Instance result_bind : MBind result := fun A B f m =>
  match m with
  | OK a => f a
  | ERROR msg => ERROR msg
  end.
#[global] Instance result_fmap : FMap result := fun A B f m =>
  match m with
  | OK a => OK (f a)
  | ERROR msg => ERROR msg
  end.

Definition or_error {A} (msg : string) (o : option A) : result A :=
  match o with
  | Some a => OK a
  | None => ERROR msg
  end.

(** ** PostgreSQL nodes

    Only the node kinds the file touches.  [NIL] (the C [NULL] list) is the
    empty Rocq list; a nullable [Expr *] is an [option Node]. *)
Definition Oid := Z.
Definition Datum := option Z.      (* [None] is the SQL NULL *)

Record Var := mkVar {
  varno : Z;        (* Index *)
  varattno : Z;     (* AttrNumber *)
  vartype : Oid
}.

#[local] Set Warnings "-register-all".

Inductive Node : Type :=
| T_String (str : string)
| T_Integer (ival : Z)
| T_List (elems : list Node)
| T_IntList (ints : list Z)
| T_Var (v : Var)
| T_Const (consttype : Oid) (constvalue : Datum)
| T_OpExpr (opfuncid : Oid) (args : list Node)
| T_BoolExpr_AND (args : list Node).

Record TargetEntry := mkTargetEntry {
  expr : Node;
  resno : Z;
  resjunk : bool
}.

Record CustomScan := mkCustomScan {
  flags : Z;
  custom_exprs : list Node;
  custom_private : list Node;
  custom_scan_tlist : list TargetEntry
}.

(** [makeString], [makeInteger(long)], [strVal], [intVal] and [list_nth]. *)
Definition makeString (s : string) : Node := T_String s.
Definition makeInteger (i : Z) : Node := T_Integer (long i).

Definition strVal (n : Node) : result string :=
  match n with
  | T_String s => OK s
  | _ => ERROR "strVal: not a String node"
  end.

Definition intVal (n : Node) : result Z :=
  match n with
  | T_Integer i => OK i
  | _ => ERROR "intVal: not an Integer node"
  end.

Definition list_nth {A} (l : list A) (n : Z) : result A :=
  if n <? 0 then ERROR "list_nth: index out of range"
  else or_error "list_nth: index out of range" (l !! Z.to_nat n).

(** A [List *] stored as a list element and read back with a cast. *)
Definition as_List (n : Node) : result (list Node) :=
  match n with
  | T_List l => OK l
  | _ => ERROR "not a List node"
  end.

Definition as_IntList (n : Node) : result (list Z) :=
  match n with
  | T_IntList l => OK l
  | T_List [] => OK []
  | _ => ERROR "not an integer List node"
  end.

(** ** form/deform interface of private field of CustomScan(GpuScan) *)

Record ExtensibleNode := mkExtensibleNode {
  ex_type : Z;                  (* NodeTag *)
  extnodename : option string
}.

Module gs_info.
Record t := mk {
  ex : ExtensibleNode;
  kern_source : string;         (* source of the CUDA kernel *)
  extra_flags : Z;              (* cl_uint *)
  proj_tuple_sz : Z;            (* cl_uint *)
  proj_extra_sz : Z;            (* cl_uint *)
  nrows_per_block : Z;          (* cl_uint *)
  ccache_refs : list Z;
  used_params : list Node;
  dev_quals : list Node         (* implicitly-ANDed device quals *)
}.
End gs_info.
Abbreviation GpuScanInfo := gs_info.t.

(** The integer fields of a [GpuScanInfo] are [cl_uint]. *)
Definition GpuScanInfo_wf (i : GpuScanInfo) : Prop :=
  is_uint32 (gs_info.extra_flags i) /\ is_uint32 (gs_info.proj_tuple_sz i) /\
  is_uint32 (gs_info.proj_extra_sz i) /\ is_uint32 (gs_info.nrows_per_block i).

Definition lappend {A} (l : list A) (x : A) : list A := l ++ [x].

Definition form_gpuscan_info (cscan : CustomScan) (gs_info : GpuScanInfo)
  : CustomScan :=
  let privs := [] in
  let exprs := [] in
  let privs := lappend privs (makeString (gs_info.kern_source gs_info)) in
  let privs := lappend privs (makeInteger (gs_info.extra_flags gs_info)) in
  let privs := lappend privs (makeInteger (gs_info.proj_tuple_sz gs_info)) in
  let privs := lappend privs (makeInteger (gs_info.proj_extra_sz gs_info)) in
  let privs := lappend privs (makeInteger (gs_info.nrows_per_block gs_info)) in
  let privs := lappend privs (T_IntList (gs_info.ccache_refs gs_info)) in
  let exprs := lappend exprs (T_List (gs_info.used_params gs_info)) in
  let exprs := lappend exprs (T_List (gs_info.dev_quals gs_info)) in
  {| flags := flags cscan;
     custom_exprs := exprs;
     custom_private := privs;
     custom_scan_tlist := custom_scan_tlist cscan |}.

(** [palloc0] leaves [ex] zeroed; an assignment to a [cl_uint] field
    reduces the [long] read by [intVal] modulo 2^32. *)
Definition deform_gpuscan_info (cscan : CustomScan) : result GpuScanInfo :=
  let privs := custom_private cscan in
  let exprs := custom_exprs cscan in
  let pindex := 0 in
  let eindex := 0 in
  kern_source ← list_nth privs pindex ≫= strVal;
  let pindex := pindex + 1 in
  extra_flags ← list_nth privs pindex ≫= intVal;
  let pindex := pindex + 1 in
  proj_tuple_sz ← list_nth privs pindex ≫= intVal;
  let pindex := pindex + 1 in
  proj_extra_sz ← list_nth privs pindex ≫= intVal;
  let pindex := pindex + 1 in
  nrows_per_block ← list_nth privs pindex ≫= intVal;
  let pindex := pindex + 1 in
  ccache_refs ← list_nth privs pindex ≫= as_IntList;
  used_params ← list_nth exprs eindex ≫= as_List;
  let eindex := eindex + 1 in
  dev_quals ← list_nth exprs eindex ≫= as_List;
  OK {| gs_info.ex := {| ex_type := 0; extnodename := None |};
        gs_info.kern_source := kern_source;
        gs_info.extra_flags := uint32 extra_flags;
        gs_info.proj_tuple_sz := uint32 proj_tuple_sz;
        gs_info.proj_extra_sz := uint32 proj_extra_sz;
        gs_info.nrows_per_block := uint32 nrows_per_block;
        gs_info.ccache_refs := ccache_refs;
        gs_info.used_params := used_params;
        gs_info.dev_quals := dev_quals |}.

(** ** Code generator for GpuScan's qualifier *)

Module devtype_info.
Record t := mk {
  type_oid : Oid;
  type_name : string
}.
End devtype_info.

Module context.
Record t := mk {
  var_label : string;           (* prefix of var reference *)
  used_params : list Node;
  used_vars : list Var;
  extra_flags : Z
}.
End context.
Abbreviation codegen_context := context.t.

(** The expression generator and the device type catalogue live in
    codegen.c; [codegen_gpuscan_quals] only calls them.
    [pgstrom_codegen_expression] returns the C expression text and leaves
    the referenced variables in the context;
    [pgstrom_codegen_param_declarations] returns the text it appends. *)
Class Codegen := {
  pgstrom_codegen_expression :
    Node -> codegen_context -> result (string * codegen_context);
  pgstrom_codegen_param_declarations : codegen_context -> string;
  pgstrom_devtype_lookup : Oid -> option devtype_info.t
}.

(** A [StringInfo] is the sequence of fragments appended to it, one per
    [appendStringInfo] call of this file; [render] is the text the call's
    format string produces and [data] the buffer's contents. *)
Inductive fragment : Type :=
| text (s : string)
| vref_tuple (type_name label : string) (varattno : Z)
| vref_column (type_name label : string) (varattno : Z)
| var_decl (type_name label : string) (varattno : Z)
| tuple_begin
| tuple_load (label : string) (varattno : Z) (type_name : string)
| column_load (label : string) (varattno : Z) (type_name : string)
| tuple_next
| tuple_end.

Definition StringInfo := list fragment.

Definition LF : string := String (Ascii.ascii_of_nat 10) EmptyString.

(** [%u] of an [int] argument. *)
Definition fmt_u (z : Z) : string := pretty (uint32 z).

Definition render (f : fragment) : string :=
  match f with
  | text s => s
  | vref_tuple type_name label varattno =>
      "  pg_" +:+ type_name +:+ "_t " +:+ label +:+ "_" +:+ fmt_u varattno
        +:+ ";" +:+ LF +:+ LF +:+
      "  addr = kern_get_datum_tuple(kds->colmeta,htup,"
        +:+ fmt_u (varattno - 1) +:+ ");" +:+ LF +:+
      "  " +:+ label +:+ "_" +:+ fmt_u varattno +:+ " = pg_" +:+ type_name
        +:+ "_datum_ref(kcxt,addr);" +:+ LF
  | vref_column type_name label varattno =>
      "  pg_" +:+ type_name +:+ "_t " +:+ label +:+ "_" +:+ fmt_u varattno
        +:+ ";" +:+ LF +:+ LF +:+
      "  addr = kern_get_datum_column(kds," +:+ fmt_u (varattno - 1)
        +:+ ",row_index);" +:+ LF +:+
      "  " +:+ label +:+ "_" +:+ fmt_u varattno +:+ " = pg_" +:+ type_name
        +:+ "_datum_ref(kcxt,addr);" +:+ LF
  | var_decl type_name label varattno =>
      "  pg_" +:+ type_name +:+ "_t " +:+ label +:+ "_" +:+ fmt_u varattno
        +:+ ";" +:+ LF
  | tuple_begin =>
      "  assert(htup != NULL);" +:+ LF +:+
      "  EXTRACT_HEAP_TUPLE_BEGIN(addr, kds, htup);" +:+ LF
  | tuple_load label varattno type_name =>
      "  " +:+ label +:+ "_" +:+ fmt_u varattno +:+ " = pg_" +:+ type_name
        +:+ "_datum_ref(kcxt,addr);" +:+ LF
  | column_load label varattno type_name =>
      "  addr = kern_get_datum_column(kds," +:+ fmt_u (varattno - 1)
        +:+ ",row_index);" +:+ LF +:+
      "  " +:+ label +:+ "_" +:+ fmt_u varattno +:+ " = pg_" +:+ type_name
        +:+ "_datum_ref(kcxt,addr);" +:+ LF
  | tuple_next => "  EXTRACT_HEAP_TUPLE_NEXT(addr);" +:+ LF
  | tuple_end => "  EXTRACT_HEAP_TUPLE_END();" +:+ LF
  end.

Definition data (buf : StringInfo) : string :=
  foldr (fun f s => render f +:+ s) "" buf.

Definition appendStringInfo (buf : StringInfo) (f : fragment) : StringInfo :=
  buf ++ [f].
Definition appendStringInfoString (buf : StringInfo) (s : string) : StringInfo :=
  buf ++ [text s].

(** [foreach (lc, l)] with the loop's variables threaded through. *)
Fixpoint foreach {A S} (l : list A) (body : S -> A -> result S) (s : S)
  : result S :=
  match l with
  | [] => OK s
  | x :: l' => s' ← body s x; foreach l' body s'
  end.

(** The text both predicate functions are wrapped in (the final
    [appendStringInfo] of [codegen_gpuscan_quals]). *)
Definition gpuscan_quals_eval_text (tfunc ret cfunc : string) : string :=
  "STATIC_FUNCTION(cl_bool)" +:+ LF +:+
  "gpuscan_quals_eval(kern_context *kcxt," +:+ LF +:+
  "                   kern_data_store *kds," +:+ LF +:+
  "                   ItemPointerData *t_self," +:+ LF +:+
  "                   HeapTupleHeaderData *htup)" +:+ LF +:+
  "{" +:+ LF +:+
  "  void *addr __attribute__((unused));" +:+ LF +:+
  tfunc +:+ LF +:+
  "  return " +:+ ret +:+ ";" +:+ LF +:+
  "}" +:+ LF +:+ LF +:+
  "STATIC_FUNCTION(cl_bool)" +:+ LF +:+
  "gpuscan_quals_eval_column(kern_context *kcxt," +:+ LF +:+
  "                          kern_data_store *kds," +:+ LF +:+
  "                          cl_uint row_index)" +:+ LF +:+
  "{" +:+ LF +:+
  "  void *addr __attribute__((unused));" +:+ LF +:+
  cfunc +:+ LF +:+
  "  return " +:+ ret +:+ ";" +:+ LF +:+
  "}" +:+ LF +:+ LF.

Section codegen_gpuscan_quals.
Context `{Codegen}.

(** Sanity check of used_vars. *)
Definition check_used_var (scanrelid : Z) (var : Var) : result () :=
  if negb (varno var =? scanrelid) then
    ERROR "unexpected var-node reference"
  else if varattno var =? 0 then
    ERROR "cannot have whole-row reference on GPU expression"
  else if varattno var <? 0 then
    ERROR "cannot have system column on GPU expression"
  else match pgstrom_devtype_lookup (vartype var) with
       | None => ERROR "failed to lookup device type"
       | Some _ => OK ()
       end.

(** [dtype->type_name] after a lookup. *)
Definition devtype_name (var : Var) : result string :=
  match pgstrom_devtype_lookup (vartype var) with
  | Some dtype => OK (devtype_info.type_name dtype)
  | None => ERROR "NULL devtype_info dereferenced"
  end.

(** [list_length(context->used_vars) <= 1]: one [pg_xxxx_vref] per
    variable. *)
Definition quals_vref_var (context : codegen_context)
    (bufs : StringInfo * StringInfo) (var : Var)
  : result (StringInfo * StringInfo) :=
  let '(tfunc, cfunc) := bufs in
  if varattno var <=? 0 then
    ERROR "Bug? system column appeared in expression"
  else
    type_name ← devtype_name var;
    let tfunc := appendStringInfo tfunc
      (vref_tuple type_name (context.var_label context) (varattno var)) in
    let cfunc := appendStringInfo cfunc
      (vref_column type_name (context.var_label context) (varattno var)) in
    OK (tfunc, cfunc).

Definition quals_vref_direct (context : codegen_context)
    (bufs : StringInfo * StringInfo) : result (StringInfo * StringInfo) :=
  foreach (context.used_vars context) (quals_vref_var context) bufs.

(** One round of [for (anum=1; anum <= varattno_max; anum++)]: the inner
    [foreach] stops at the first variable of attribute [anum]. *)
Definition quals_walk_attribute (context : codegen_context)
    (varattno_max : Z) (bufs : StringInfo * StringInfo) (anum : Z)
  : result (StringInfo * StringInfo) :=
  let '(tfunc, cfunc) := bufs in
  '(tfunc, cfunc) ←
    match find (fun var => varattno var =? anum) (context.used_vars context) with
    | Some var =>
        type_name ← devtype_name var;
        let tfunc := appendStringInfo tfunc
          (tuple_load (context.var_label context) (varattno var) type_name) in
        let cfunc := appendStringInfo cfunc
          (column_load (context.var_label context) (varattno var) type_name) in
        OK (tfunc, cfunc)
    | None => OK (tfunc, cfunc)
    end;
  let tfunc := if anum <? varattno_max
               then appendStringInfo tfunc tuple_next else tfunc in
  OK (tfunc, cfunc).

(** The [else] branch: declarations (collected in [temp], with the largest
    attribute number), then a walk over the attributes 1..varattno_max of
    the heap tuple. *)
Definition quals_declare_var (context : codegen_context)
    (acc : StringInfo * Z) (var : Var) : result (StringInfo * Z) :=
  let '(temp, varattno_max) := acc in
  type_name ← devtype_name var;
  let temp := appendStringInfo temp
    (var_decl type_name (context.var_label context) (varattno var)) in
  OK (temp, Z.max varattno_max (varattno var)).

Definition quals_vref_walk (context : codegen_context)
    (bufs : StringInfo * StringInfo) : result (StringInfo * StringInfo) :=
  let '(tfunc, cfunc) := bufs in
  '(temp, varattno_max) ←
    foreach (context.used_vars context) (quals_declare_var context) ([], 0);
  let tfunc := tfunc ++ temp in
  let cfunc := cfunc ++ temp in
  let tfunc := appendStringInfo tfunc tuple_begin in
  '(tfunc, cfunc) ←
    foreach (seqZ 1 varattno_max)
            (quals_walk_attribute context varattno_max) (tfunc, cfunc);
  let tfunc := appendStringInfo tfunc tuple_end in
  OK (tfunc, cfunc).

Definition codegen_gpuscan_quals (kern : StringInfo)
    (context : codegen_context) (scanrelid : Z) (dev_quals : option Node)
  : result (StringInfo * codegen_context) :=
  let tfunc := [] in
  let cfunc := [] in
  match dev_quals with
  | None =>
      OK (appendStringInfo kern
            (text (gpuscan_quals_eval_text (data tfunc) "true" (data cfunc))),
          context)
  | Some quals =>
      (* Let's walk on the device expression tree *)
      '(expr_code, context) ← pgstrom_codegen_expression quals context;
      (* Const/Param declarations *)
      let cfunc := appendStringInfoString cfunc
                     (pgstrom_codegen_param_declarations context) in
      let tfunc := appendStringInfoString tfunc
                     (pgstrom_codegen_param_declarations context) in
      _ ← foreach (context.used_vars context)
            (fun _ var => check_used_var scanrelid var) ();
      '(tfunc, cfunc) ←
        (if (Z.of_nat (length (context.used_vars context)) <=? 1)
         then quals_vref_direct context (tfunc, cfunc)
         else quals_vref_walk context (tfunc, cfunc));
      OK (appendStringInfo kern
            (text (gpuscan_quals_eval_text (data tfunc)
                     ("EVAL(" +:+ expr_code +:+ ")") (data cfunc))),
          context)
  end.

End codegen_gpuscan_quals.

(** What a generated function body does with the variables: the attributes
    read by the walk over the heap tuple, by the per-column loads, and by
    the direct [kern_get_datum_tuple] references, in emission order. *)
Definition tuple_loads (buf : StringInfo) : list Z :=
  omap (fun f => match f with tuple_load _ a _ => Some a | _ => None end) buf.
Definition column_loads (buf : StringInfo) : list Z :=
  omap (fun f => match f with column_load _ a _ => Some a | _ => None end) buf.
Definition direct_vrefs (buf : StringInfo) : list Z :=
  omap (fun f => match f with vref_tuple _ _ a => Some a | _ => None end) buf.

Definition is_declaration (f : fragment) : bool :=
  match f with text _ | var_decl _ _ _ => true | _ => false end.
Definition is_walk_step (f : fragment) : bool :=
  match f with tuple_load _ _ _ | tuple_next => true | _ => false end.

(** ** The variable loads as kernel text

    Second definitions, written from the specification's words and not from
    the generator, to compare the generated text with: what a single
    forward pass over the attribute stream of a heap tuple looks like in
    the kernel source, and what a direct offset-seek load looks like. *)
Section var_loads_text.
Context `{Codegen}.

Definition var_type_name (var : Var) : string :=
  match pgstrom_devtype_lookup (vartype var) with
  | Some dtype => devtype_info.type_name dtype
  | None => ""
  end.

(** [pg_<type>_t <label>_<attno>;] *)
Definition var_declaration_text (label : string) (var : Var) : string :=
  "  pg_" +:+ var_type_name var +:+ "_t " +:+ label +:+ "_"
    +:+ fmt_u (varattno var) +:+ ";" +:+ LF.

(** [<label>_<attno> = pg_<type>_datum_ref(kcxt,addr);]: the variable is
    read from the datum [addr] points at. *)
Definition var_load_text (label : string) (var : Var) : string :=
  "  " +:+ label +:+ "_" +:+ fmt_u (varattno var) +:+ " = pg_"
    +:+ var_type_name var +:+ "_datum_ref(kcxt,addr);" +:+ LF.

(** [n] steps to the next attribute of the tuple. *)
Fixpoint next_steps (n : nat) : string :=
  match n with
  | O => ""
  | S n => "  EXTRACT_HEAP_TUPLE_NEXT(addr);" +:+ LF +:+ next_steps n
  end.

(** A forward pass with [addr] at attribute [cursor]: for each variable in
    turn, step on to its attribute and load it there. *)
Fixpoint forward_pass (label : string) (cursor : Z) (loaded : list Var)
  : string :=
  match loaded with
  | [] => ""
  | var :: loaded =>
      next_steps (Z.to_nat (varattno var - cursor))
        +:+ var_load_text label var
        +:+ forward_pass label (varattno var) loaded
  end.

(** One pass over the tuple: it begins with [addr] at attribute 1. *)
Definition forward_pass_text (label : string) (loaded : list Var) : string :=
  "  assert(htup != NULL);" +:+ LF +:+
  "  EXTRACT_HEAP_TUPLE_BEGIN(addr, kds, htup);" +:+ LF +:+
  forward_pass label 1 loaded +:+
  "  EXTRACT_HEAP_TUPLE_END();" +:+ LF.

(** A load after seeking the attribute by its offset: in a heap tuple, and
    in a column store. *)
Definition tuple_seek_text (label : string) (var : Var) : string :=
  "  addr = kern_get_datum_tuple(kds->colmeta,htup,"
    +:+ fmt_u (varattno var - 1) +:+ ");" +:+ LF +:+ var_load_text label var.

Definition column_seek_text (label : string) (var : Var) : string :=
  "  addr = kern_get_datum_column(kds," +:+ fmt_u (varattno var - 1)
    +:+ ",row_index);" +:+ LF +:+ var_load_text label var.

Definition concat_text {A} (f : A -> string) (l : list A) : string :=
  foldr (fun x s => f x +:+ s) "" l.

End var_loads_text.

(** The kernel source of the two predicate functions around their bodies,
    as it is to read in the generated file. *)
Definition predicate_functions_text (row_body ret column_body : string)
  : string :=
"STATIC_FUNCTION(cl_bool)
gpuscan_quals_eval(kern_context *kcxt,
                   kern_data_store *kds,
                   ItemPointerData *t_self,
                   HeapTupleHeaderData *htup)
{
  void *addr __attribute__((unused));
" +:+ row_body +:+ "
  return " +:+ ret +:+ ";
}

STATIC_FUNCTION(cl_bool)
gpuscan_quals_eval_column(kern_context *kcxt,
                          kern_data_store *kds,
                          cl_uint row_index)
{
  void *addr __attribute__((unused));
" +:+ column_body +:+ "
  return " +:+ ret +:+ ";
}

".

(** ** Data stores and tasks *)

Inductive kds_format : Type :=
| KDS_FORMAT_ROW
| KDS_FORMAT_HASH
| KDS_FORMAT_BLOCK
| KDS_FORMAT_COLUMN.

#[global] Instance kds_format_eq_dec : EqDecision kds_format.
Proof. solve_decision. Defined.

(** [kern_data_store]: the header fields this file reads. *)
Module kds.
Record t := mk {
  length : Z;                   (* length of this data-store *)
  nitems : Z;                   (* number of rows (of blocks, if BLOCK) *)
  nrooms : Z;
  format : kds_format;
  nrows_per_block : Z;
  table_oid : Oid
}.
End kds.
Abbreviation kern_data_store := kds.t.

(** A heap tuple as the host evaluator sees it: its attribute values. *)
Definition HeapTuple := list Datum.

(** [pgstrom_data_store].  [rows] is the content of the chunk: the tuples
    [PDS_fetch_tuple] hands out, in order. *)
Module pds.
Record t := mk {
  kds : kern_data_store;
  nblocks_uncached : Z;         (* pages not (yet) in host memory *)
  rows : list HeapTuple
}.
End pds.
Abbreviation pgstrom_data_store := pds.t.

Module kerror.
Record t := mk {
  errcode : Z;
  kernel : Z;
  lineno : Z
}.
End kerror.
Abbreviation kern_errorbuf := kerror.t.

(** [memset(&kerror, 0, sizeof(kern_errorbuf))]. *)
Definition kern_errorbuf_zero : kern_errorbuf :=
  {| kerror.errcode := 0; kerror.kernel := 0; kerror.lineno := 0 |}.

Module kresults.
Record t := mk {
  nrels : Z;
  nrooms : Z;
  nitems : Z;
  all_visible : bool;
  results : list Z              (* offsets from the head of kds_src *)
}.
End kresults.
Abbreviation kern_resultbuf := kresults.t.

(** [kern_gpuscan]: error status, the kernel's counters and the result
    buffer that follows the parameter buffer. *)
Module kern.
Record t := mk {
  kerror : kern_errorbuf;
  nitems_in : Z;
  nitems_out : Z;
  extra_size : Z;
  resultbuf : kern_resultbuf    (* KERN_GPUSCAN_RESULTBUF(kgpuscan) *)
}.
End kern.
Abbreviation kern_gpuscan := kern.t.

Module task.
Record t := mk {
  kerror : kern_errorbuf;       (* error status of the task *)
  cpu_fallback : bool           (* true, if task needs CPU fallback *)
}.
End task.
Abbreviation GpuTask := task.t.

(** [GpuScanTask].  [kresults] is [true] when the pointer refers to the
    result buffer of [kern], [false] when it is NULL. *)
Module gscan.
Record t := mk {
  task : GpuTask;
  with_nvme_strom : bool;
  with_projection : bool;
  pds_src : pgstrom_data_store;
  pds_dst : option pgstrom_data_store;
  kresults : bool;
  kern : kern_gpuscan
}.
End gscan.
Abbreviation GpuScanTask := gscan.t.

Module rtstat.
Record t := mk {
  nitems_filtered : Z;          (* pg_atomic_uint64 *)
  ccache_count : Z              (* pg_atomic_uint64 *)
}.
End rtstat.
Abbreviation GpuScanRuntimeStat := rtstat.t.

(** [GpuScanState], with the fields of the embedded [GpuTaskState] that
    this file uses ([kern_params->length], the scan tuple descriptor's
    [natts], [curr_index]). *)
Module gss.
Record t := mk {
  kern_params_length : Z;       (* gts.kern_params->length *)
  scan_natts : Z;               (* GTS_GET_SCAN_TUPDESC(gss)->natts *)
  curr_index : Z;               (* gts.curr_index *)
  dev_quals : option Node;      (* quals to be run on the device *)
  dev_projection : bool;        (* true, if device projection is valid *)
  proj_tuple_sz : Z;
  proj_extra_sz : Z;
  base_proj : option (list TargetEntry)   (* resource for CPU fallback *)
}.
End gss.
Abbreviation GpuScanState := gss.t.

(** ** Sizes, alignment and floating point

    The structure layouts and [STROMALIGN_LEN] come from pg_strom.h and
    cuda_common.h. *)
Class Layout := {
  STROMALIGN_LEN : Z;
  offsetof_kds_colmeta : Z -> Z;        (* offsetof(kern_data_store, colmeta[n]) *)
  offsetof_gscan_kparams : Z;           (* offsetof(GpuScanTask, kern.kparams) *)
  offsetof_kresults_results : Z -> Z    (* offsetof(kern_resultbuf, results[n]) *)
}.

(** [TYPEALIGN(STROMALIGN_LEN, LEN)] on [uintptr_t]. *)
Definition STROMALIGN `{Layout} (len : Z) : Z :=
  Z.land (uint64 (len + (STROMALIGN_LEN - 1)))
         (uint64 (Z.lnot (STROMALIGN_LEN - 1))).

(** [(double)] of an unsigned 32-bit value is exact. *)
Definition double_of_uint (z : Z) : float :=
  PrimFloat.of_uint63 (Uint63.of_Z z).

(** [(Size)] of a [double]: the value truncated toward zero.  C leaves the
    conversion undefined when the truncated value is not a [Size]; that
    case is [None]. *)
Definition Size_of_double (f : float) : option Z :=
  match Prim2SF f with
  | S754_zero _ => Some 0
  | S754_finite sign m e =>
      let z := if 0 <=? e then Z.pos m * 2 ^ e else Z.pos m / 2 ^ (- e) in
      if sign then (if z =? 0 then Some 0 else None)
      else if z <? 2 ^ 64 then Some z else None
  | _ => None
  end.

(** The literal [1.2]: the nearest binary64 value. *)
Definition double_1_2 : float := 0x1.3333333333333p+0%float.

Inductive CUresult : Type :=
| CUDA_SUCCESS
| CUDA_ERROR_OUT_OF_MEMORY
| CUDA_ERROR_OTHER (code : Z).

(** Managed-memory allocation as the device answers it for a request of
    the given length. *)
Class DeviceMemory := {
  gpuMemAllocManaged : Z -> CUresult
}.

(** Modelled from the spec: [PDS_create_row] (datastore.c) is not among the
    sources.  It allocates a row-layout chunk of the requested byte length
    (spec 4.2), which is empty and, being a row chunk, has no page that is
    not host-resident (spec 3); allocation failure raises an error. *)
Definition PDS_create_row `{DeviceMemory} (length : Z)
  : result pgstrom_data_store :=
  match gpuMemAllocManaged length with
  | CUDA_SUCCESS =>
      OK {| pds.kds := {| kds.length := length; kds.nitems := 0;
                          kds.nrooms := 0; kds.format := KDS_FORMAT_ROW;
                          kds.nrows_per_block := 0; kds.table_oid := 0 |};
            pds.nblocks_uncached := 0;
            pds.rows := [] |}
  | _ => ERROR "out of managed memory"
  end.

(** ** gpuscan_create_task - constructor of GpuScanTask *)

Section gpuscan_create_task.
Context `{Layout} `{DeviceMemory}.

(** The [length] computed in the [else] branch: head, row index and the
    projected tuples (all [double] arithmetic as in the source). *)
Definition gpuscan_dest_length (gss : GpuScanState)
    (pds_src : pgstrom_data_store) : result Z :=
  let ntuples := double_of_uint (kds.nitems (pds.kds pds_src)) in
  let proj_tuple_sz := double_of_uint (gss.proj_tuple_sz gss) in
  let ntuples :=
    if decide (kds.format (pds.kds pds_src) = KDS_FORMAT_BLOCK)
    then PrimFloat.mul ntuples
           (double_of_uint (kds.nrows_per_block (pds.kds pds_src)))
    else ntuples in
  index_sz ← or_error "undefined conversion to Size"
    (Size_of_double (PrimFloat.mul (double_of_uint 4) ntuples));
  tuple_sz ← or_error "undefined conversion to Size"
    (Size_of_double
       (PrimFloat.mul (PrimFloat.mul double_1_2 proj_tuple_sz) ntuples));
  OK (uint64 (uint64 (STROMALIGN (offsetof_kds_colmeta (gss.scan_natts gss)) +
                      STROMALIGN index_sz) +
              STROMALIGN tuple_sz)).

Definition gpuscan_create_task (gss : GpuScanState)
    (pds_src : pgstrom_data_store) : result GpuScanTask :=
  (* allocation of destination buffer *)
  '(pds_dst, nresults) ←
    (if bool_decide (kds.format (pds.kds pds_src) = KDS_FORMAT_ROW)
        && negb (gss.dev_projection gss)
     then OK (None, kds.nitems (pds.kds pds_src))
     else
       length ← gpuscan_dest_length gss pds_src;
       pds_dst ← PDS_create_row length;
       OK (Some pds_dst, 0));
  (* allocation of pgstrom_gpuscan *)
  let length :=
    uint64 (uint64 (STROMALIGN offsetof_gscan_kparams +
                    STROMALIGN (gss.kern_params_length gss)) +
            STROMALIGN (offsetof_kresults_results nresults)) in
  match gpuMemAllocManaged length with
  | CUDA_SUCCESS =>
      OK {| gscan.task := {| task.kerror := kern_errorbuf_zero;
                             task.cpu_fallback := false |};
            gscan.with_nvme_strom :=
              bool_decide (kds.format (pds.kds pds_src) = KDS_FORMAT_BLOCK)
              && (0 <? pds.nblocks_uncached pds_src);
            gscan.with_projection := false;
            gscan.pds_src := pds_src;
            gscan.pds_dst := pds_dst;
            gscan.kresults := match pds_dst with None => true | Some _ => false end;
            gscan.kern :=
              {| kern.kerror := kern_errorbuf_zero;
                 kern.nitems_in := 0;
                 kern.nitems_out := 0;
                 kern.extra_size := 0;
                 kern.resultbuf :=
                   {| kresults.nrels := 1;
                      kresults.nrooms := nresults;
                      kresults.nitems := 0;
                      kresults.all_visible := false;
                      kresults.results := [] |} |} |}
  | _ => ERROR "failed on gpuMemAllocManaged"
  end.

End gpuscan_create_task.

(** The destination capacity in the words of the specification:
    the ceiling of 1.2 x average projected tuple size x expected rows. *)
Definition spec_dest_capacity (proj_tuple_sz rows : Z) : Z :=
  (6 * proj_tuple_sz * rows + 4) / 5.

(** The expected row count of a source chunk, as a [double]. *)
Definition expected_rows (pds_src : pgstrom_data_store) : float :=
  if decide (kds.format (pds.kds pds_src) = KDS_FORMAT_BLOCK)
  then PrimFloat.mul (double_of_uint (kds.nitems (pds.kds pds_src)))
         (double_of_uint (kds.nrows_per_block (pds.kds pds_src)))
  else double_of_uint (kds.nitems (pds.kds pds_src)).

(** ** gpuscan_parallel_nextpage

    The cursor shared by the cooperating workers.  [BlockNumber] is an
    unsigned 32-bit integer and [InvalidBlockNumber] its largest value. *)
Definition InvalidBlockNumber : Z := 0xFFFFFFFF.

(** [ParallelHeapScanDescData]: the fields under [phs_mutex]. *)
Module parallel_scan.
Record t := mk {
  phs_syncscan : bool;
  phs_startblock : Z;           (* starting block number *)
  phs_cblock : Z                (* current block number *)
}.
End parallel_scan.
Abbreviation ParallelHeapScanDesc := parallel_scan.t.

(** [HeapScanDescData]: the worker's own scan position. *)
Module scan.
Record t := mk {
  rs_nblocks : Z;               (* total number of blocks in rel *)
  rs_syncscan : bool;
  rs_cblock : Z;                (* current block # in scan, if any *)
  rs_numblocks : Z              (* max number of blocks to scan *)
}.
End scan.
Abbreviation HeapScanDesc := scan.t.

(** PostgreSQL's build constants and synchronized-scan machinery, and the
    columnar cache (ccache.c).  A cache chunk is known here only by what
    [pgstrom_ccache_is_empty] and [pgstrom_ccache_load_chunk] say of it. *)
Class Storage := {
  RELSEG_SIZE : Z;
  CCACHE_CHUNK_NBLOCKS : Z;
  ccacheChunk : Type;
  ss_get_location : Z -> Z;
  pgstrom_ccache_get_chunk : Z -> option ccacheChunk;
  pgstrom_ccache_is_empty : ccacheChunk -> bool;
  pgstrom_ccache_load_chunk : ccacheChunk -> result pgstrom_data_store
}.

(** What one call leaves behind. *)
Module nextpage.
Record t := mk {
  scan : HeapScanDesc;
  parallel_scan : ParallelHeapScanDesc;
  report_page : option Z;               (* ss_report_location, if called *)
  pds_column : result (option pgstrom_data_store)
}.
End nextpage.

Section gpuscan_parallel_nextpage.
Context `{Storage}.

(** The [while (pgstrom_ccache_is_empty(cc_chunk))] loop.  Nothing bounds
    the number of rounds but the cache itself, so the model takes [fuel]
    and answers [None] when it runs out. *)
Fixpoint ccache_skip_empty (fuel : nat) (cc_chunk : ccacheChunk)
    (phs_cblock : Z) : option (option ccacheChunk * Z) :=
  if pgstrom_ccache_is_empty cc_chunk then
    match fuel with
    | O => None
    | S fuel =>
        match pgstrom_ccache_get_chunk phs_cblock with
        | None => Some (None, phs_cblock)
        | Some cc_chunk =>
            ccache_skip_empty fuel cc_chunk
              (uint32 (phs_cblock + CCACHE_CHUNK_NBLOCKS))
        end
    end
  else Some (Some cc_chunk, phs_cblock).

(** Lines 2313-2322: the three cuts applied to the requested number of
    blocks. *)
Definition clamp_nr_blocks (page nr_blocks rs_nblocks phs_startblock : Z) : Z :=
  (* should never read multiple blocks across the segment boundary *)
  let nr_blocks :=
    if negb (page / RELSEG_SIZE =? uint32 (page + nr_blocks - 1) / RELSEG_SIZE)
    then uint32 (RELSEG_SIZE - page mod RELSEG_SIZE) else nr_blocks in
  (* terminate multiple block reads beyond end of the relation *)
  let nr_blocks :=
    if rs_nblocks <? uint32 (page + nr_blocks)
    then uint32 (rs_nblocks - page) else nr_blocks in
  (* terminate multiple block reads across start block *)
  let nr_blocks :=
    if (page <? phs_startblock) && (phs_startblock <=? uint32 (page + nr_blocks))
    then uint32 (phs_startblock - page) else nr_blocks in
  nr_blocks.

(** From [out_unlock] on: the cursor is stored, the location reported,
    the cached chunk (if one was found) loaded, and the worker's own scan
    position set.  An error raised by the load leaves that position as it
    was. *)
Definition nextpage_unlocked (scan : HeapScanDesc)
    (parallel_scan : ParallelHeapScanDesc) (page nr_blocks : Z)
    (cc_chunk : option ccacheChunk) (phs_cblock report_page : Z)
  : nextpage.t :=
  let parallel_scan :=
    {| parallel_scan.phs_syncscan := parallel_scan.phs_syncscan parallel_scan;
       parallel_scan.phs_startblock := parallel_scan.phs_startblock parallel_scan;
       parallel_scan.phs_cblock := phs_cblock |} in
  (* Report scan location. *)
  let report_page :=
    if scan.rs_syncscan scan then
      let report_page :=
        if report_page =? InvalidBlockNumber then page else report_page in
      if negb (report_page =? InvalidBlockNumber)
      then Some report_page else None
    else None in
  (* construction of PDS based on the columnar cache, if any *)
  let pds_column :=
    match cc_chunk with
    | Some cc_chunk => Some <$> pgstrom_ccache_load_chunk cc_chunk
    | None => OK None
    end in
  let scan :=
    match pds_column with
    | OK _ =>
        {| scan.rs_nblocks := scan.rs_nblocks scan;
           scan.rs_syncscan := scan.rs_syncscan scan;
           scan.rs_cblock := page;
           scan.rs_numblocks := nr_blocks |}
    | ERROR _ => scan
    end in
  {| nextpage.scan := scan;
     nextpage.parallel_scan := parallel_scan;
     nextpage.report_page := report_page;
     nextpage.pds_column := pds_column |}.

Definition gpuscan_parallel_nextpage (fuel : nat) (scan : HeapScanDesc)
    (parallel_scan : ParallelHeapScanDesc) (ccache_refs : bool)
    (nr_blocks : Z) : option nextpage.t :=
  (* If the scan's startblock has not yet been initialized, we must do so
     now; a synchronized scan asks for its starting position and retries. *)
  parallel_scan ←
    (if parallel_scan.phs_startblock parallel_scan =? InvalidBlockNumber then
       let sync_startpage := ss_get_location (scan.rs_nblocks scan) in
       if negb (parallel_scan.phs_syncscan parallel_scan) then
         Some {| parallel_scan.phs_syncscan := false;
                 parallel_scan.phs_startblock := 0;
                 parallel_scan.phs_cblock := 0 |}
       else if negb (sync_startpage =? InvalidBlockNumber) then
         Some {| parallel_scan.phs_syncscan := true;
                 parallel_scan.phs_startblock := sync_startpage;
                 parallel_scan.phs_cblock := sync_startpage |}
       else None                        (* retries for ever *)
     else Some parallel_scan);
  let phs_startblock := parallel_scan.phs_startblock parallel_scan in
  let page := parallel_scan.phs_cblock parallel_scan in
  '(nr_blocks, cc_chunk, phs_cblock, report_page) ←
    (if page =? InvalidBlockNumber then
       Some (nr_blocks, None, page, InvalidBlockNumber)     (* out_unlock *)
     else
       let nr_blocks :=
         clamp_nr_blocks page nr_blocks (scan.rs_nblocks scan) phs_startblock in
       (* try to lookup columnar cache if any *)
       let base := Z.land (uint32 (page + CCACHE_CHUNK_NBLOCKS - 1))
                          (uint32 (Z.lnot (CCACHE_CHUNK_NBLOCKS - 1))) in
       '(nr_blocks, cc_chunk, phs_cblock) ←
         (if ccache_refs
             && ((page <=? base) && (base <=? uint32 (page + nr_blocks)))
             && ((phs_startblock <=? base)
                 || (uint32 (base + CCACHE_CHUNK_NBLOCKS) <=? phs_startblock))
             && (uint32 (base + CCACHE_CHUNK_NBLOCKS) <=? scan.rs_nblocks scan)
          then
            match pgstrom_ccache_get_chunk base with
            | Some cc_chunk =>
                let nr_blocks := uint32 (base - page) in
                '(cc_chunk, phs_cblock) ←
                  ccache_skip_empty fuel cc_chunk
                    (uint32 (base + CCACHE_CHUNK_NBLOCKS));
                Some (nr_blocks, cc_chunk, phs_cblock)
            | None =>
                Some (nr_blocks, None, page)
            end
          else Some (nr_blocks, None, page));
       let phs_cblock :=
         match cc_chunk with
         | None => uint32 (page + nr_blocks)
         | Some _ => phs_cblock
         end in
       let phs_cblock :=
         if scan.rs_nblocks scan <=? phs_cblock then 0 else phs_cblock in
       if phs_cblock =? phs_startblock then
         Some (nr_blocks, cc_chunk, InvalidBlockNumber, phs_startblock)
       else
         Some (nr_blocks, cc_chunk, phs_cblock, InvalidBlockNumber));
  Some (nextpage_unlocked scan parallel_scan page nr_blocks cc_chunk
          phs_cblock report_page).

End gpuscan_parallel_nextpage.

(** A block range [start, start+count) that stays inside one storage
    segment of [RELSEG_SIZE] blocks. *)
Definition same_segment `{Storage} (start count : Z) : Prop :=
  forall b, start <= b < start + count -> b / RELSEG_SIZE = start / RELSEG_SIZE.

(** The shared cursor after initialisation: a start block inside the
    relation and a current block that is inside it or invalid. *)
Definition cursor_valid (rs_nblocks : Z) (ps : ParallelHeapScanDesc) : Prop :=
  0 <= parallel_scan.phs_startblock ps < rs_nblocks /\
  (parallel_scan.phs_cblock ps = InvalidBlockNumber \/
   0 <= parallel_scan.phs_cblock ps < rs_nblocks).

(** ** CPU fallback: the predicate over the original tuple layout *)

(** [fixup_varnode_to_origin]: with a device projection in place every
    [Var] is the position of an entry of [custom_scan_tlist] and is
    replaced by (a copy of) that entry's expression; the source asserts
    [varno == INDEX_VAR] and [1 <= varattno <= length].  Every other node
    is rebuilt by [expression_tree_mutator] around its rewritten children.
    [list_nth] past the end of the list is a failure. *)
Fixpoint fixup_varnode_to_origin (node : Node)
    (custom_scan_tlist : list TargetEntry) : result Node :=
  let fix mutate_list (l : list Node) : result (list Node) :=
    match l with
    | [] => OK []
    | n :: l =>
        n' ← fixup_varnode_to_origin n custom_scan_tlist;
        l' ← mutate_list l;
        OK (n' :: l')
    end in
  match node with
  | T_Var varnode =>
      match custom_scan_tlist with
      | [] => OK (T_Var varnode)
      | _ :: _ =>
          tle ← list_nth custom_scan_tlist (varattno varnode - 1);
          OK (expr tle)
      end
  | T_OpExpr opfuncid args => T_OpExpr opfuncid <$> mutate_list args
  | T_BoolExpr_AND args => T_BoolExpr_AND <$> mutate_list args
  | T_List elems => T_List <$> mutate_list elems
  | T_String _ | T_Integer _ | T_IntList _ | T_Const _ _ => OK node
  end.

Definition BOOLOID : Oid := 16.
Definition INDEX_VAR : Z := 65002.

(** PostgreSQL's [make_ands_explicit]. *)
Definition make_ands_explicit (andclauses : list Node) : Node :=
  match andclauses with
  | [] => T_Const BOOLOID (Some 1)
  | [clause] => clause
  | _ => T_BoolExpr_AND andclauses
  end.

(** [foreach ... if (cond) break; ...]: the entries before the first one
    that fails the test. *)
Fixpoint take_while {A} (keep : A -> bool) (l : list A) : list A :=
  match l with
  | [] => []
  | x :: l => if keep x then x :: take_while keep l else []
  end.

(** The part of [ExecInitGpuScan] that prepares the executor state read by
    the task factory and by the CPU fallback (lines 1751-1833).  The sizes
    filled in by [pgstromInitGpuTaskState] and the relation's descriptor
    are arguments. *)
Definition ExecInitGpuScan (cscan : CustomScan)
    (kern_params_length rel_natts : Z) : result GpuScanState :=
  gs_info ← deform_gpuscan_info cscan;
  (* valid @custom_scan_tlist means device projection is required *)
  let dev_projection :=
    match custom_scan_tlist cscan with [] => false | _ :: _ => true end in
  let scan_natts :=
    if dev_projection
    then Z.of_nat (length (filter (fun tle => resjunk tle = false)
                             (custom_scan_tlist cscan)))
    else rel_natts in
  (* @dev_quals for CPU fallback references raw tuples regardless of device
     projection. So, it must be initialized to reference the raw tuples. *)
  dev_quals_raw ←
    fixup_varnode_to_origin (T_List (gs_info.dev_quals gs_info))
      (custom_scan_tlist cscan) ≫= as_List;
  let dev_quals_expr := make_ands_explicit dev_quals_raw in
  let dev_tlist :=
    take_while (fun tle => negb (resjunk tle)) (custom_scan_tlist cscan) in
  OK {| gss.kern_params_length := kern_params_length;
        gss.scan_natts := scan_natts;
        gss.curr_index := 0;
        gss.dev_quals := Some dev_quals_expr;
        gss.dev_projection := dev_projection;
        gss.proj_tuple_sz := gs_info.proj_tuple_sz gs_info;
        gss.proj_extra_sz := gs_info.proj_extra_sz gs_info;
        gss.base_proj := if dev_projection then Some dev_tlist else None |}.

(** ** The host's expression evaluator

    PostgreSQL's: the operators are a parameter, the rest is the usual
    evaluation of an expression tree against the scan tuple, with SQL's
    three-valued AND. *)
Class HostEvaluator := {
  ExecEvalOper : Oid -> list Datum -> Datum
}.

Definition and3 (a b : Datum) : Datum :=
  match a, b with
  | Some 0, _ | _, Some 0 => Some 0
  | None, _ | _, None => None
  | Some _, Some _ => Some 1
  end.

Fixpoint ExecEvalExpr `{HostEvaluator} (node : Node) (scantuple : HeapTuple)
  : Datum :=
  match node with
  | T_Var v =>
      if varattno v <=? 0 then None
      else default None (scantuple !! Z.to_nat (varattno v - 1))
  | T_Const _ constvalue => constvalue
  | T_OpExpr opfuncid args =>
      ExecEvalOper opfuncid ((fun arg => ExecEvalExpr arg scantuple) <$> args)
  | T_BoolExpr_AND args | T_List args =>
      foldr and3 (Some 1) ((fun arg => ExecEvalExpr arg scantuple) <$> args)
  | T_String _ | T_Integer _ | T_IntList _ => None
  end.

(** [ExecQual]: a NULL result counts as false; no qualifier at all is true. *)
Definition ExecQual `{HostEvaluator} (dev_quals : option Node)
    (scantuple : HeapTuple) : bool :=
  match dev_quals with
  | None => true
  | Some qual =>
      match ExecEvalExpr qual scantuple with
      | Some v => negb (v =? 0)
      | None => false
      end
  end.

(** [ExecProject]: one output column per target entry. *)
Definition ExecProject `{HostEvaluator} (base_proj : list TargetEntry)
    (scantuple : HeapTuple) : HeapTuple :=
  (fun tle => ExecEvalExpr (expr tle) scantuple) <$> base_proj.

(** ** Runtime statistics *)

(** [pg_atomic_add_fetch_u64]: one indivisible read-modify-write on a
    64-bit counter. *)
Definition pg_atomic_add_fetch_u64 (value add : Z) : Z := uint64 (value + add).

(** ** gpuscan_next_tuple_fallback - GPU fallback case *)

(** Modelled from the spec: [PDS_fetch_tuple] (datastore.c) is not among
    the sources.  It reads the tuples of a chunk one at a time (spec 4.5):
    the tuple at [curr_index], advancing the index, or nothing once the
    chunk is exhausted. *)
Definition PDS_fetch_tuple (pds : pgstrom_data_store) (curr_index : Z)
  : option HeapTuple * Z :=
  match pds.rows pds !! Z.to_nat curr_index with
  | Some tuple => (Some tuple, curr_index + 1)
  | None => (None, curr_index)
  end.

Section gpuscan_next_tuple.
Context `{HostEvaluator}.

(** The [retry_next] loop over the tuples [PDS_fetch_tuple] has not handed
    out yet ([rest]): a rejected tuple is counted and the next one is
    fetched; the first tuple that passes is projected and returned. *)
Fixpoint fallback_retry_next (gss : GpuScanState) (rest : list HeapTuple)
    (curr_index : Z) (gs_rtstat : GpuScanRuntimeStat)
  : option HeapTuple * Z * GpuScanRuntimeStat :=
  match rest with
  | [] => (None, curr_index, gs_rtstat)
  | base_slot :: rest =>
      let curr_index := curr_index + 1 in
      (* (1) - Evaluation of dev_quals if any *)
      if negb (ExecQual (gss.dev_quals gss) base_slot) then
        let gs_rtstat :=
          {| rtstat.nitems_filtered :=
               pg_atomic_add_fetch_u64 (rtstat.nitems_filtered gs_rtstat) 1;
             rtstat.ccache_count := rtstat.ccache_count gs_rtstat |} in
        fallback_retry_next gss rest curr_index gs_rtstat
      else
        (* (2) - Makes a projection if any *)
        let slot :=
          match gss.base_proj gss with
          | None => base_slot
          | Some base_proj => ExecProject base_proj base_slot
          end in
        (Some slot, curr_index, gs_rtstat)
  end.

Definition set_curr_index (gss : GpuScanState) (curr_index : Z)
  : GpuScanState :=
  {| gss.kern_params_length := gss.kern_params_length gss;
     gss.scan_natts := gss.scan_natts gss;
     gss.curr_index := curr_index;
     gss.dev_quals := gss.dev_quals gss;
     gss.dev_projection := gss.dev_projection gss;
     gss.proj_tuple_sz := gss.proj_tuple_sz gss;
     gss.proj_extra_sz := gss.proj_extra_sz gss;
     gss.base_proj := gss.base_proj gss |}.

Definition gpuscan_next_tuple_fallback (gss : GpuScanState)
    (gscan : GpuScanTask) (gs_rtstat : GpuScanRuntimeStat)
  : option HeapTuple * GpuScanState * GpuScanRuntimeStat :=
  let pds_src := gscan.pds_src gscan in
  let '(slot, curr_index, gs_rtstat) :=
    fallback_retry_next gss
      (drop (Z.to_nat (gss.curr_index gss)) (pds.rows pds_src))
      (gss.curr_index gss) gs_rtstat in
  (slot, set_curr_index gss curr_index, gs_rtstat).

(** [KDS_ROW_REF_HTUP] / [KDS_BLOCK_REF_HTUP]: the tuple of a chunk at a
    byte offset.  The chunk's bytes are not modelled; offsets are taken to
    number the rows. *)
Definition KDS_REF_HTUP (pds : pgstrom_data_store) (kds_offset : Z)
  : option HeapTuple :=
  pds.rows pds !! Z.to_nat kds_offset.

(** [gpuscan_next_tuple]: the next result tuple of the current task. *)
Definition gpuscan_next_tuple (gss : GpuScanState) (gscan : GpuScanTask)
    (gs_rtstat : GpuScanRuntimeStat)
  : option HeapTuple * GpuScanState * GpuScanRuntimeStat :=
  if task.cpu_fallback (gscan.task gscan) then
    gpuscan_next_tuple_fallback gss gscan gs_rtstat
  else
    match gscan.pds_dst gscan with
    | Some pds_dst =>
        let '(slot, curr_index) := PDS_fetch_tuple pds_dst (gss.curr_index gss) in
        (slot, set_curr_index gss curr_index, gs_rtstat)
    | None =>
        let kresults := kern.resultbuf (gscan.kern gscan) in
        if gss.curr_index gss <? kresults.nitems kresults then
          let kds_offset :=
            default 0 (kresults.results kresults
                         !! Z.to_nat (gss.curr_index gss)) in
          (KDS_REF_HTUP (gscan.pds_src gscan) kds_offset,
           set_curr_index gss (gss.curr_index gss + 1), gs_rtstat)
        else (None, gss, gs_rtstat)
    end.

End gpuscan_next_tuple.

(** Modelled from the spec: the caller's pull protocol (gputasks.c is not
    among the sources).  After completion a task's results are drained
    one tuple at a time until exhausted (spec 3); [fuel] bounds the number
    of calls. *)
Fixpoint fetch_all `{HostEvaluator} (fuel : nat) (gss : GpuScanState)
    (gscan : GpuScanTask) (gs_rtstat : GpuScanRuntimeStat)
  : list HeapTuple * GpuScanState * GpuScanRuntimeStat :=
  match fuel with
  | O => ([], gss, gs_rtstat)
  | S fuel =>
      match gpuscan_next_tuple gss gscan gs_rtstat with
      | (None, gss, gs_rtstat) => ([], gss, gs_rtstat)
      | (Some slot, gss, gs_rtstat) =>
          let '(slots, gss, gs_rtstat) := fetch_all fuel gss gscan gs_rtstat in
          (slot :: slots, gss, gs_rtstat)
      end
  end.

(** ** gpuscan_process_task

    The CUDA driver is on the other side of every call: the model keeps
    the answers it is going to give (every call that returns a [CUresult]
    takes the next one, [CUDA_SUCCESS] when none is left), the calls made
    so far, and the runtime statistics shared with the other workers. *)
Inductive cuda_call : Type :=
| cuModuleGetFunction (kern_fname : string)
| gpuMemAllocIOMap (length : Z)
| gpuMemAlloc (length : Z)
| PDS_fillup_blocks
| cuMemPrefetchAsync_kern
| cuMemPrefetchAsync_kds_src (length : Z)
| cuMemPrefetchAsync_kds_dst_head
| cuMemcpyHtoDAsync (length : Z)
| gpuMemCopyFromSSD
| cuLaunchKernel (kern_fname : string)
| cuEventRecord
| cuEventSynchronize
| cuMemcpyDtoHAsync (nbytes : Z)
| cuMemPrefetchAsync_dst_extra (extra_size : Z)
| cuMemPrefetchAsync_dst_index (nitems_out : Z)
| cuMemPrefetchAsync_kresults (nitems_out : Z)
| gpuMemFree
| wnotice (msg : string).

Module world.
Record t := mk {
  answers : list CUresult;
  calls : list cuda_call;
  gs_rtstat : GpuScanRuntimeStat
}.
End world.

(** [werror] leaves the function at once. *)
Inductive outcome (A : Type) : Type :=
| Ret (a : A)
| Werror (msg : string).
Arguments Ret {A} a.
Arguments Werror {A} msg.

Definition M (A : Type) : Type := world.t -> outcome A * world.t.

#[global] Instance M_ret : MRet M := fun A a w => (Ret a, w).
#[global] Instance M_bind : MBind M := fun A B f m w =>
  match m w with
  | (Ret a, w) => f a w
  | (Werror msg, w) => (Werror msg, w)
  end.

Definition werror {A} (msg : string) : M A := fun w => (Werror msg, w).

(** A driver call that answers with a [CUresult]. *)
Definition cuda (c : cuda_call) : M CUresult := fun w =>
  (Ret (default CUDA_SUCCESS (head (world.answers w))),
   {| world.answers := tail (world.answers w);
      world.calls := world.calls w ++ [c];
      world.gs_rtstat := world.gs_rtstat w |}).

(** A call whose result the source does not look at. *)
Definition cuda_void (c : cuda_call) : M () := fun w =>
  (Ret (),
   {| world.answers := world.answers w;
      world.calls := world.calls w ++ [c];
      world.gs_rtstat := world.gs_rtstat w |}).

(** [if (rc != CUDA_SUCCESS) werror(...)]. *)
Definition expect_success (rc : CUresult) (msg : string) : M () :=
  match rc with
  | CUDA_SUCCESS => mret ()
  | _ => werror msg
  end.

Definition add_nitems_filtered (add : Z) : M () := fun w =>
  (Ret (),
   {| world.answers := world.answers w;
      world.calls := world.calls w;
      world.gs_rtstat :=
        {| rtstat.nitems_filtered :=
             pg_atomic_add_fetch_u64
               (rtstat.nitems_filtered (world.gs_rtstat w)) add;
           rtstat.ccache_count := rtstat.ccache_count (world.gs_rtstat w) |} |}).

(** The kernel error codes of cuda_common.h and the block size. *)
Class StromError := {
  StromError_Success : Z;
  StromError_CpuReCheck : Z;
  StromError_DataStoreNoSpace : Z;
  BLCKSZ : Z
}.

Definition set_task (gscan : GpuScanTask) (task : GpuTask) : GpuScanTask :=
  {| gscan.task := task;
     gscan.with_nvme_strom := gscan.with_nvme_strom gscan;
     gscan.with_projection := gscan.with_projection gscan;
     gscan.pds_src := gscan.pds_src gscan;
     gscan.pds_dst := gscan.pds_dst gscan;
     gscan.kresults := gscan.kresults gscan;
     gscan.kern := gscan.kern gscan |}.

Definition set_kern (gscan : GpuScanTask) (kern : kern_gpuscan) : GpuScanTask :=
  {| gscan.task := gscan.task gscan;
     gscan.with_nvme_strom := gscan.with_nvme_strom gscan;
     gscan.with_projection := gscan.with_projection gscan;
     gscan.pds_src := gscan.pds_src gscan;
     gscan.pds_dst := gscan.pds_dst gscan;
     gscan.kresults := gscan.kresults gscan;
     gscan.kern := kern |}.

(** Modelled from the spec: [PDS_fillup_blocks] (datastore.c) is not among
    the sources.  It forces the not-yet-resident pages of the chunk into
    host memory (spec 4.4), after which none is left uncached.  Here it
    also ends the bulk-transfer strategy of the task, as line 2866 does. *)
Definition fillup_blocks (gscan : GpuScanTask) : GpuScanTask :=
  {| gscan.task := gscan.task gscan;
     gscan.with_nvme_strom := false;
     gscan.with_projection := gscan.with_projection gscan;
     gscan.pds_src :=
       {| pds.kds := pds.kds (gscan.pds_src gscan);
          pds.nblocks_uncached := 0;
          pds.rows := pds.rows (gscan.pds_src gscan) |};
     gscan.pds_dst := gscan.pds_dst gscan;
     gscan.kresults := gscan.kresults gscan;
     gscan.kern := gscan.kern gscan |}.

Section gpuscan_process_task.
Context `{StromError}.

(** The label [out_of_resource]. *)
Definition out_of_resource (retval : Z) (gscan : GpuScanTask)
  : M (Z * GpuScanTask) :=
  _ ← (if 0 <? retval then cuda_void (wnotice "GpuScan: out of resource")
       else mret ());
  _ ← (if decide (kds.format (pds.kds (gscan.pds_src gscan)) = KDS_FORMAT_BLOCK)
       then cuda_void gpuMemFree else mret ());
  mret (retval, gscan).

(** Lines 2966-3056: what the executor does with the status the kernel
    left in [gscan->kern]. *)
Definition check_kernel_status (pgstrom_cpu_fallback_enabled : bool)
    (gscan : GpuScanTask) : M (Z * GpuScanTask) :=
  let pds_dst := gscan.pds_dst gscan in
  let retval := 0 in
  let nitems_in := kern.nitems_in (gscan.kern gscan) in
  let nitems_out := kern.nitems_out (gscan.kern gscan) in
  let extra_size := kern.extra_size (gscan.kern gscan) in
  let gscan :=
    set_task gscan {| task.kerror := kern.kerror (gscan.kern gscan);
                      task.cpu_fallback := task.cpu_fallback (gscan.task gscan) |} in
  if kerror.errcode (task.kerror (gscan.task gscan)) =? StromError_Success then
    _ ← add_nitems_filtered (uint64 (nitems_in - nitems_out));
    _ ← match pds_dst with
        | Some _ =>
            if 0 <? nitems_out then
              rc ← cuda (cuMemPrefetchAsync_dst_extra extra_size);
              _ ← expect_success rc "failed on cuMemPrefetchAsync";
              rc ← cuda (cuMemPrefetchAsync_dst_index nitems_out);
              expect_success rc "failed on cuMemPrefetchAsync"
            else mret ()
        | None =>
            rc ← cuda (cuMemPrefetchAsync_kresults nitems_out);
            expect_success rc "failed on cuMemPrefetchAsync"
        end;
    out_of_resource retval gscan
  else
    gscan ←
      (if pgstrom_cpu_fallback_enabled
          && ((kerror.errcode (task.kerror (gscan.task gscan))
                 =? StromError_CpuReCheck)
              || (kerror.errcode (kern.kerror (gscan.kern gscan))
                    =? StromError_DataStoreNoSpace))
       then
         let gscan := set_task gscan {| task.kerror := kern_errorbuf_zero;
                                        task.cpu_fallback := true |} in
         (* In case of NVMe-Strom, we have to write-back blocks that are
            not loaded onto CPU RAM yet, for fallback processing. *)
         need_writeback ←
           (if gscan.with_nvme_strom gscan then
              match pds_dst with
              | Some pds_dst => mret (0 <? pds.nblocks_uncached pds_dst)
              | None => werror "pds_dst is NULL"
              end
            else mret false);
         _ ← (if need_writeback : bool then
                rc ← cuda (cuMemcpyDtoHAsync
                             (pds.nblocks_uncached (gscan.pds_src gscan) * BLCKSZ));
                _ ← expect_success rc "failed on cuMemcpyDtoHAsync";
                rc ← cuda cuEventRecord;
                _ ← expect_success rc "failed on cuEventRecord";
                (* Point of synchronization *)
                rc ← cuda cuEventSynchronize;
                expect_success rc "failed on cuEventSynchronize"
              else mret ());
         mret gscan
       else mret gscan);
    out_of_resource retval gscan.

Definition gpuscan_process_task (pgstrom_cpu_fallback_enabled : bool)
    (kernel_result : kern_gpuscan) (gscan : GpuScanTask)
  : M (Z * GpuScanTask) :=
  let pds_src := gscan.pds_src gscan in
  let pds_dst := gscan.pds_dst gscan in
  let format := kds.format (pds.kds pds_src) in
  let retval := 100001 in
  (* Lookup GPU kernel functions *)
  kern_fname ←
    match format with
    | KDS_FORMAT_ROW => mret "gpuscan_exec_quals_row"
    | KDS_FORMAT_BLOCK => mret "gpuscan_exec_quals_block"
    | KDS_FORMAT_COLUMN => mret "gpuscan_exec_quals_column"
    | KDS_FORMAT_HASH => werror "GpuScan: unknown PDS format"
    end;
  rc ← cuda (cuModuleGetFunction kern_fname);
  _ ← expect_success rc "failed on cuModuleGetFunction";
  (* Allocation of device memory; [m_kds_src] is [true] once it is set *)
  '(gscan, m_kds_src) ←
    (if decide (format ≠ KDS_FORMAT_BLOCK) then mret (gscan, true)
     else if gscan.with_nvme_strom gscan then
       rc ← cuda (gpuMemAllocIOMap (kds.length (pds.kds pds_src)));
       match rc with
       | CUDA_SUCCESS => mret (gscan, true)
       | CUDA_ERROR_OUT_OF_MEMORY =>
           _ ← cuda_void PDS_fillup_blocks;
           mret (fillup_blocks gscan, false)
       | _ => werror "failed on gpuMemAllocIOMap"
       end
     else mret (gscan, false));
  rc_alloc ←
    (if m_kds_src : bool then mret CUDA_SUCCESS
     else cuda (gpuMemAlloc (kds.length (pds.kds pds_src))));
  match rc_alloc with
  | CUDA_ERROR_OUT_OF_MEMORY => out_of_resource retval gscan
  | CUDA_ERROR_OTHER _ => werror "failed on gpuMemAlloc"
  | CUDA_SUCCESS =>
      (* OK, enqueue a series of requests *)
      rc ← cuda cuMemPrefetchAsync_kern;
      _ ← expect_success rc "failed on cuMemPrefetchAsync";
      (* kern_data_store *kds_src *)
      _ ← (if decide (format ≠ KDS_FORMAT_BLOCK) then
             rc ← cuda (cuMemPrefetchAsync_kds_src (kds.length (pds.kds pds_src)));
             expect_success rc "failed on cuMemPrefetchAsync"
           else if negb (gscan.with_nvme_strom gscan) then
             rc ← cuda (cuMemcpyHtoDAsync (kds.length (pds.kds pds_src)));
             expect_success rc "failed on cuMemcpyHtoDAsync"
           else cuda_void gpuMemCopyFromSSD);
      (* head of the kds_dst, if any *)
      _ ← match pds_dst with
          | Some _ =>
              rc ← cuda cuMemPrefetchAsync_kds_dst_head;
              expect_success rc "failed on cuMemPrefetchAsync"
          | None => mret ()
          end;
      rc ← cuda (cuLaunchKernel kern_fname);
      _ ← expect_success rc "failed on cuLaunchKernel";
      rc ← cuda cuEventRecord;
      _ ← expect_success rc "failed on cuEventRecord";
      (* Point of synchronization *)
      rc ← cuda cuEventSynchronize;
      _ ← expect_success rc "failed on cuEventSynchronize";
      (* Check GPU kernel status and nitems/usage *)
      check_kernel_status pgstrom_cpu_fallback_enabled
        (set_kern gscan kernel_result)
  end.

End gpuscan_process_task.


(** The projection step of the fallback path. *)
Definition fallback_project `{HostEvaluator}
    (base_proj : option (list TargetEntry)) (base_tuple : HeapTuple)
  : HeapTuple :=
  match base_proj with
  | None => base_tuple
  | Some base_proj => ExecProject base_proj base_tuple
  end.

(** A tuple that passes a device qualifier on the host. *)
Definition passes `{HostEvaluator} (dev_quals : option Node)
    (base_tuple : HeapTuple) : Prop :=
  ExecQual dev_quals base_tuple = true.

#[global] Instance passes_dec `{HostEvaluator} dev_quals base_tuple :
  Decision (passes dev_quals base_tuple).
Proof. unfold passes. apply _. Defined.

(** ** A scan, chunk by chunk *)

(** What one chunk contributed: the rows that went into the predicate and
    the rows that came out.  On the accelerated path these are the
    kernel's counters; on the fallback path the tuples of the source chunk
    and the tuples returned. *)
Module chunk.
Record t := mk {
  rows_in : Z;
  rows_out : Z
}.
End chunk.

(** One unit of work for the executor: the task, what the kernel will
    leave in [gscan->kern], and the driver's answers. *)
Definition job : Type := GpuScanTask * kern_gpuscan * list CUresult.

Section scan_chunks.
Context `{StromError} `{HostEvaluator}.

(** Modelled from the spec: the task pipeline of gputasks.c is not among
    the sources.  A task is submitted exactly once to the executor; a
    fatal error (a [werror], or an error code left in the task) ends the
    scan; otherwise the task's results are drained one tuple at a time
    until exhausted (spec 3, 4.4, 7).  A task the executor could not run
    for lack of device memory also ends this model's scan. *)
Definition scan_chunk (pgstrom_cpu_fallback_enabled : bool)
    (gss : GpuScanState) (j : job) (gs_rtstat : GpuScanRuntimeStat)
  : option (chunk.t * list HeapTuple * GpuScanRuntimeStat) :=
  let '(gscan, kernel_result, answers) := j in
  match gpuscan_process_task pgstrom_cpu_fallback_enabled kernel_result gscan
          {| world.answers := answers; world.calls := [];
             world.gs_rtstat := gs_rtstat |} with
  | (Ret (retval, gscan), w) =>
      let fallback := task.cpu_fallback (gscan.task gscan) in
      if negb (retval =? 0) then None
      else if negb fallback
              && negb (kerror.errcode (task.kerror (gscan.task gscan))
                         =? StromError_Success) then None
      else
        let fuel :=
          S (length (pds.rows (gscan.pds_src gscan))
             + from_option (fun pds_dst => length (pds.rows pds_dst)) 0%nat
                 (gscan.pds_dst gscan)
             + Z.to_nat (kresults.nitems (kern.resultbuf (gscan.kern gscan)))) in
        let '(slots, _, gs_rtstat) :=
          fetch_all fuel (set_curr_index gss 0) gscan (world.gs_rtstat w) in
        let count :=
          if fallback then
            {| chunk.rows_in :=
                 Z.of_nat (length (pds.rows (gscan.pds_src gscan)));
               chunk.rows_out := Z.of_nat (length slots) |}
          else
            {| chunk.rows_in := kern.nitems_in (gscan.kern gscan);
               chunk.rows_out := kern.nitems_out (gscan.kern gscan) |} in
        Some (count, slots, gs_rtstat)
  | (Werror _, _) => None
  end.

Fixpoint scan_chunks (pgstrom_cpu_fallback_enabled : bool)
    (gss : GpuScanState) (jobs : list job) (gs_rtstat : GpuScanRuntimeStat)
  : option (list chunk.t * GpuScanRuntimeStat) :=
  match jobs with
  | [] => Some ([], gs_rtstat)
  | j :: jobs =>
      '(count, _, gs_rtstat) ←
        scan_chunk pgstrom_cpu_fallback_enabled gss j gs_rtstat;
      '(counts, gs_rtstat) ←
        scan_chunks pgstrom_cpu_fallback_enabled gss jobs gs_rtstat;
      Some (count :: counts, gs_rtstat)
  end.

End scan_chunks.

(** Rows in minus rows out, summed over the chunks. *)
Definition rows_rejected (counts : list chunk.t) : Z :=
  foldr (fun c total => chunk.rows_in c - chunk.rows_out c + total) 0 counts.

(** * Vocabulary of the statements below *)

(** The two functions emitted for an absent predicate. *)
Definition quals_always_true : string :=
"STATIC_FUNCTION(cl_bool)
gpuscan_quals_eval(kern_context *kcxt,
                   kern_data_store *kds,
                   ItemPointerData *t_self,
                   HeapTupleHeaderData *htup)
{
  void *addr __attribute__((unused));

  return true;
}

STATIC_FUNCTION(cl_bool)
gpuscan_quals_eval_column(kern_context *kcxt,
                          kern_data_store *kds,
                          cl_uint row_index)
{
  void *addr __attribute__((unused));

  return true;
}

".

(** [w'] comes after [w] by driver calls satisfying [P] only, with the
    statistics untouched. *)
Definition ext (P : cuda_call -> Prop) (w w' : world.t) : Prop :=
  world.gs_rtstat w' = world.gs_rtstat w /\
  exists cs, world.calls w' = world.calls w ++ cs /\ Forall P cs.

(** A computation that leaves the statistics alone and only makes driver
    calls satisfying [P]. *)
Definition quiet {A} (P : cuda_call -> Prop) (m : M A) : Prop :=
  forall w a w', m w = (Ret a, w') -> ext P w w'.

Definition not_writeback (c : cuda_call) : Prop :=
  match c with cuMemcpyDtoHAsync _ => False | _ => True end.

(** Whether the fallback branch decides to copy pages back: the test of
    line 2996, which reads the destination chunk. *)
Definition writeback_test (gscan : GpuScanTask) : bool :=
  gscan.with_nvme_strom gscan &&
  match gscan.pds_dst gscan with
  | Some pds_dst => 0 <? pds.nblocks_uncached pds_dst
  | None => false
  end.

(** The list traversal inside [fixup_varnode_to_origin], by itself. *)
Definition fixup_list (custom_scan_tlist : list TargetEntry)
  : list Node -> result (list Node) :=
  fix mutate_list (l : list Node) : result (list Node) :=
    match l with
    | [] => OK []
    | n :: l =>
        n' ← fixup_varnode_to_origin n custom_scan_tlist;
        l' ← mutate_list l;
        OK (n' :: l')
    end.

(** A task fresh from the factory: not yet flagged for fallback. *)
Definition fresh (j : job) : Prop :=
  task.cpu_fallback (gscan.task j.1.1) = false.

(** * Further vocabulary: the shared cursor over a run of calls *)

(** The blocks a worker reads after a call: [rs_numblocks] blocks from
    [rs_cblock], or none when the call found the scan at its end
    ([rs_cblock] is then [InvalidBlockNumber], which
    [gpuscanExecScanChunk] tests before it reads). *)
Definition reserved_blocks (r : nextpage.t) : list Z :=
  if scan.rs_cblock (nextpage.scan r) =? InvalidBlockNumber then []
  else seqZ (scan.rs_cblock (nextpage.scan r))
            (scan.rs_numblocks (nextpage.scan r)).

(** A run of calls under [phs_mutex], one per entry of [requests] (the
    number of blocks asked for), by workers whose scan descriptors agree
    with [scan] on the relation; no columnar cache is referenced.  The
    result is the blocks handed out, call by call, and the cursor left
    behind. *)
Fixpoint reservations `{Storage} (scan : HeapScanDesc)
    (parallel_scan : ParallelHeapScanDesc) (requests : list Z)
  : option (list (list Z) * ParallelHeapScanDesc) :=
  match requests with
  | [] => Some ([], parallel_scan)
  | nr_blocks :: requests =>
      r ← gpuscan_parallel_nextpage 0 scan parallel_scan false nr_blocks;
      '(ranges, parallel_scan') ←
        reservations scan (nextpage.parallel_scan r) requests;
      Some (reserved_blocks r :: ranges, parallel_scan')
  end.

(** The blocks a scan of [rs_nblocks] blocks still has to hand out: from
    the cursor onwards, wrapping at the end of the relation, up to the
    block before the start block; none once the cursor is invalid. *)
Definition blocks_left (rs_nblocks : Z) (ps : ParallelHeapScanDesc) : list Z :=
  let start := parallel_scan.phs_startblock ps in
  let page := parallel_scan.phs_cblock ps in
  if page =? InvalidBlockNumber then []
  else (fun i => (page + i) mod rs_nblocks)
         <$> seqZ 0 ((start - page - 1) mod rs_nblocks + 1).

(** * Further vocabulary: the variables of an expression *)

(** The [Var] nodes of an expression tree, left to right. *)
Fixpoint node_vars (node : Node) : list Var :=
  match node with
  | T_Var v => [v]
  | T_OpExpr _ args | T_BoolExpr_AND args | T_List args =>
      flat_map node_vars args
  | T_String _ | T_Integer _ | T_IntList _ | T_Const _ _ => []
  end.

(** * Further vocabulary: the driver calls of one task *)

(** [w'] comes after [w] by exactly the driver calls [cs], with the
    statistics untouched. *)
Definition trace (w w' : world.t) (cs : list cuda_call) : Prop :=
  world.calls w' = world.calls w ++ cs /\
  world.gs_rtstat w' = world.gs_rtstat w.

(** A computation that, when it returns, has made driver calls
    satisfying [P] only (the statistics may have changed). *)
Definition emits {A} (P : cuda_call -> Prop) (m : M A) : Prop :=
  forall w a w', m w = (Ret a, w') ->
    exists cs, world.calls w' = world.calls w ++ cs /\ Forall P cs.

(** A computation whose [werror] messages all satisfy [P]. *)
Definition raises {A} (P : string -> Prop) (m : M A) : Prop :=
  forall w msg w', m w = (Werror msg, w') -> P msg.

(** The calls that prepare a launch: the kernel function, device memory
    and the transfers towards the device. *)
Definition is_setup (c : cuda_call) : Prop :=
  match c with
  | cuModuleGetFunction _ | gpuMemAllocIOMap _ | gpuMemAlloc _
  | PDS_fillup_blocks | cuMemPrefetchAsync_kern
  | cuMemPrefetchAsync_kds_src _ | cuMemPrefetchAsync_kds_dst_head
  | cuMemcpyHtoDAsync _ | gpuMemCopyFromSSD => True
  | _ => False
  end.

(** The calls that bring results back to the host. *)
Definition is_completion (c : cuda_call) : Prop :=
  match c with
  | cuMemcpyDtoHAsync _ | cuEventRecord | cuEventSynchronize
  | cuMemPrefetchAsync_dst_extra _ | cuMemPrefetchAsync_dst_index _
  | cuMemPrefetchAsync_kresults _ => True
  | _ => False
  end.

(** The kernel function of a chunk format (lines 2830-2837). *)
Definition kern_fname_of (format : kds_format) : option string :=
  match format with
  | KDS_FORMAT_ROW => Some "gpuscan_exec_quals_row"
  | KDS_FORMAT_BLOCK => Some "gpuscan_exec_quals_block"
  | KDS_FORMAT_COLUMN => Some "gpuscan_exec_quals_column"
  | KDS_FORMAT_HASH => None
  end.

(** The release of the device copy of a block chunk at [out_of_resource]. *)
Definition release_calls (format : kds_format) : list cuda_call :=
  if decide (format = KDS_FORMAT_BLOCK) then [gpuMemFree] else [].

(** [werror "pds_dst is NULL"] stands for the dereference of a null
    [pds_dst] at line 2997. *)
Definition not_null_dereference (msg : string) : Prop :=
  msg <> "pds_dst is NULL".

(** * The device projection: [add_unique_expression] and
      [build_gpuscan_projection] *)

(** [AttrNumber] is a signed 16-bit integer. *)
Definition int16 (z : Z) : Z := (z + 2 ^ 15) mod 2 ^ 16 - 2 ^ 15.
Definition InvalidAttrNumber : Z := 0.

(** PostgreSQL's [equal]: two nodes are equal when they are of the same
    kind with equal fields, recursively. *)
Fixpoint equal (a b : Node) {struct a} : bool :=
  let fix equal_list (l1 l2 : list Node) {struct l1} : bool :=
    match l1, l2 with
    | [], [] => true
    | x :: l1, y :: l2 => equal x y && equal_list l1 l2
    | _, _ => false
    end in
  match a, b with
  | T_String s1, T_String s2 => bool_decide (s1 = s2)
  | T_Integer i1, T_Integer i2 => i1 =? i2
  | T_List l1, T_List l2 => equal_list l1 l2
  | T_IntList l1, T_IntList l2 => bool_decide (l1 = l2)
  | T_Var v1, T_Var v2 =>
      (varno v1 =? varno v2) && (varattno v1 =? varattno v2)
      && (vartype v1 =? vartype v2)
  | T_Const t1 v1, T_Const t2 v2 => (t1 =? t2) && bool_decide (v1 = v2)
  | T_OpExpr f1 l1, T_OpExpr f2 l2 => (f1 =? f2) && equal_list l1 l2
  | T_BoolExpr_AND l1, T_BoolExpr_AND l2 => equal_list l1 l2
  | _, _ => false
  end.

(** [add_unique_expression] - adds an expression node on the supplied
    target-list, then returns true, if new target-entry was added.  The
    list is passed by reference in the source; here the new list is the
    second component. *)
Definition add_unique_expression (expr0 : Node)
    (p_targetlist : list TargetEntry) (resjunk0 : bool)
  : bool * list TargetEntry :=
  if existsb (fun tle => equal expr0 (expr tle)) p_targetlist
  then (false, p_targetlist)
  else
    (* Not found, so add this expression *)
    let resno0 := int16 (Z.of_nat (length p_targetlist) + 1) in
    let tle := {| expr := expr0; resno := resno0; resjunk := resjunk0 |} in
    (true, lappend p_targetlist tle).

(** [Form_pg_attribute]: a column of the relation's tuple descriptor. *)
Module pg_attribute.
Record t := mk {
  attname : string;
  atttypid : Oid;
  attlen : Z;
  attnum : Z;
  attbyval : bool;
  atttypmod : Z
}.
End pg_attribute.
Abbreviation Form_pg_attribute := pg_attribute.t.
Abbreviation TupleDesc := (list pg_attribute.t).

(** What the planner-side code asks of other files: whether the device
    can run an expression (codegen.c), the variables of a list of
    expressions (PostgreSQL's [pull_vars_of_level] at level 0), the
    type modifier of a variable, a field [Var] above does not carry, and
    the conjunction of a list of clauses ([make_flat_ands_explicit],
    misc.c). *)
Class Planner := {
  pgstrom_device_expression : Node -> bool;
  pull_vars_of_level : list Node -> list Var;
  vartypmod : Var -> Z;
  make_flat_ands_explicit : list Node -> Node
}.

(** PostgreSQL's [expression_tree_walker]: the walker is applied to the
    children of the node, left to right, and the walk stops at the first
    child for which it returns true. *)
Definition walk_list {C} (walker : Node -> C -> bool * C)
  : list Node -> C -> bool * C :=
  fix go (l : list Node) (context : C) : bool * C :=
    match l with
    | [] => (false, context)
    | n :: l =>
        let '(retval, context) := walker n context in
        if retval : bool then (true, context) else go l context
    end.

Definition expression_tree_walker {C} (node : Node)
    (walker : Node -> C -> bool * C) (context : C) : bool * C :=
  match node with
  | T_OpExpr _ args | T_BoolExpr_AND args | T_List args =>
      walk_list walker args context
  | T_String _ | T_Integer _ | T_IntList _ | T_Var _ | T_Const _ _ =>
      (false, context)
  end.

(** [build_gpuscan_projection_context], without the two fields that never
    change ([scanrelid], [tupdesc]). *)
Module projection_context.
Record t := mk {
  attnum : Z;
  depth : Z;
  compatible_tlist : bool;
  tlist_dev : list TargetEntry
}.
End projection_context.
Abbreviation build_gpuscan_projection_context := projection_context.t.

Definition set_compatible_tlist (context : build_gpuscan_projection_context)
    (compatible_tlist : bool) : build_gpuscan_projection_context :=
  {| projection_context.attnum := projection_context.attnum context;
     projection_context.depth := projection_context.depth context;
     projection_context.compatible_tlist := compatible_tlist;
     projection_context.tlist_dev := projection_context.tlist_dev context |}.

Definition set_tlist_dev (context : build_gpuscan_projection_context)
    (tlist_dev : list TargetEntry) : build_gpuscan_projection_context :=
  {| projection_context.attnum := projection_context.attnum context;
     projection_context.depth := projection_context.depth context;
     projection_context.compatible_tlist :=
       projection_context.compatible_tlist context;
     projection_context.tlist_dev := tlist_dev |}.

Definition set_depth (context : build_gpuscan_projection_context)
    (depth : Z) : build_gpuscan_projection_context :=
  {| projection_context.attnum := projection_context.attnum context;
     projection_context.depth := depth;
     projection_context.compatible_tlist :=
       projection_context.compatible_tlist context;
     projection_context.tlist_dev := projection_context.tlist_dev context |}.

Definition set_attnum (context : build_gpuscan_projection_context)
    (attnum : Z) : build_gpuscan_projection_context :=
  {| projection_context.attnum := attnum;
     projection_context.depth := projection_context.depth context;
     projection_context.compatible_tlist :=
       projection_context.compatible_tlist context;
     projection_context.tlist_dev := projection_context.tlist_dev context |}.

Section build_gpuscan_projection.
Context `{Planner}.
Variable tupdesc : TupleDesc.

(** [build_gpuscan_projection_walker].  [tupdesc->attrs[attnum-1]] is read
    only when [varattno == attnum <= natts] and [varattno] is not 0;
    [build_gpuscan_projection] counts [attnum] from 1, so the read is in
    range, and the [None] branch below is never taken. *)
Fixpoint build_gpuscan_projection_walker (node : Node)
    (context : build_gpuscan_projection_context) {struct node}
  : bool * build_gpuscan_projection_context :=
  let attnum := projection_context.attnum context in
  match node with
  | T_Var varnode =>
      (* GPU projection cannot contain whole-row var *)
      if varattno varnode =? InvalidAttrNumber then (true, context)
      else
        (* check whether the original tlist matches the physical layout
           of the base relation. *)
        let context :=
          if negb (varattno varnode =? projection_context.attnum context)
             || (Z.of_nat (length tupdesc) <? attnum)
          then set_compatible_tlist context false
          else
            match tupdesc !! Z.to_nat (attnum - 1) with
            | Some attr =>
                (* See the logic in tlist_matches_tupdesc *)
                if negb (vartype varnode =? pg_attribute.atttypid attr)
                   || (negb (vartypmod varnode =? pg_attribute.atttypmod attr)
                       && negb (vartypmod varnode =? -1))
                then set_compatible_tlist context false
                else context
            | None => context
            end in
        (* add a primitive var-node on the tlist_dev *)
        let '(added, tlist_dev) :=
          add_unique_expression (T_Var varnode)
            (projection_context.tlist_dev context) false in
        let context := set_tlist_dev context tlist_dev in
        let context :=
          if negb added then set_compatible_tlist context false else context in
        (false, context)
  | _ =>
      if (projection_context.depth context =? 0)
         && match node with T_Const _ _ => true | _ => false end
      then
        (* no need to have top-level constant values on the device side *)
        (false, set_compatible_tlist context false)
      else if pgstrom_device_expression node then
        (* add device executable expression onto the tlist_dev *)
        let '(_, tlist_dev) :=
          add_unique_expression node
            (projection_context.tlist_dev context) false in
        let context := set_tlist_dev context tlist_dev in
        (* of course, it is not a physically compatible tlist *)
        (false, set_compatible_tlist context false)
      else
        (* walks down if expression is host-only. *)
        let depth_saved := projection_context.depth context in
        let context := set_depth context (depth_saved + 1) in
        let '(retval, context) :=
          expression_tree_walker node build_gpuscan_projection_walker context in
        let context := set_depth context depth_saved in
        (retval, set_compatible_tlist context false)
  end.

(** The loop over the target list: [attnum] counts the entries; a walker
    that returns true ends the function with NIL ([None] here). *)
Fixpoint projection_walk_tlist (tlist : list TargetEntry)
    (context : build_gpuscan_projection_context)
  : option build_gpuscan_projection_context :=
  match tlist with
  | [] => Some context
  | tle :: tlist =>
      let context :=
        set_attnum context (projection_context.attnum context + 1) in
      let '(retval, context) :=
        build_gpuscan_projection_walker (expr tle) context in
      if retval : bool then None else projection_walk_tlist tlist context
  end.

(** The two loops over the variables of the host and device quals: a
    whole-row variable ends the function with NIL ([None] here). *)
Fixpoint projection_add_vars (vars_list : list Var) (resjunk0 : bool)
    (tlist_dev : list TargetEntry) : option (list TargetEntry) :=
  match vars_list with
  | [] => Some tlist_dev
  | var :: vars_list =>
      if varattno var =? InvalidAttrNumber then None  (* no whole-row support *)
      else
        let '(_, tlist_dev) :=
          add_unique_expression (T_Var var) tlist_dev resjunk0 in
        projection_add_vars vars_list resjunk0 tlist_dev
  end.

(** [build_gpuscan_projection]: NIL is the empty list. *)
Definition build_gpuscan_projection (tlist : list TargetEntry)
    (host_quals dev_quals : list Node) : list TargetEntry :=
  let context :=
    {| projection_context.attnum := 0;
       projection_context.depth := 0;
       projection_context.compatible_tlist := true;
       projection_context.tlist_dev := [] |} in
  match projection_walk_tlist tlist context with
  | None => []
  | Some context =>
      (* Is the tlist shorter than relation's definition? *)
      let context :=
        if negb (Z.of_nat (length tupdesc) =? projection_context.attnum context)
        then set_compatible_tlist context false else context in
      (* Host quals need var-nodes *)
      match
        match host_quals with
        | [] => Some (projection_context.tlist_dev context)
        | _ :: _ =>
            projection_add_vars (pull_vars_of_level host_quals) false
              (projection_context.tlist_dev context)
        end
      with
      | None => []
      | Some tlist_dev =>
          (* Device quals need junk var-nodes *)
          match
            match dev_quals with
            | [] => Some tlist_dev
            | _ :: _ =>
                projection_add_vars (pull_vars_of_level dev_quals) true
                  tlist_dev
            end
          with
          | None => []
          | Some tlist_dev =>
              (* if compatible_tlist == true, the upper node expects a
                 physically compatible tuple: no device projection *)
              if projection_context.compatible_tlist context then []
              else tlist_dev
          end
      end
  end.

End build_gpuscan_projection.

(** Target entries numbered by their position, with no expression twice. *)
Definition tlist_numbered (tlist : list TargetEntry) : Prop :=
  forall i tle, tlist !! i = Some tle -> resno tle = int16 (Z.of_nat i + 1).

Definition is_Var (node : Node) : bool :=
  match node with T_Var _ => true | _ => false end.

(** [tlist'] comes from [tlist] by calls of [add_unique_expression] whose
    expression and junk flag satisfy [P]. *)
Inductive grows (P : Node -> bool -> Prop)
  : list TargetEntry -> list TargetEntry -> Prop :=
| grows_refl tlist : grows P tlist tlist
| grows_step tlist expr0 resjunk0 tlist' :
    P expr0 resjunk0 ->
    grows P (add_unique_expression expr0 tlist resjunk0).2 tlist' ->
    grows P tlist tlist'.

(** What the walker may put on the device target list: a variable or an
    expression the device can run, never as junk. *)
Definition device_entry `{Planner} (e : Node) (j : bool) : Prop :=
  j = false /\ (is_Var e = true \/ pgstrom_device_expression e = true).

(** The entries added for the variables of a list of quals. *)
Definition qual_entry (resjunk0 : bool) (e : Node) (j : bool) : Prop :=
  j = resjunk0 /\ is_Var e = true.

(** * EPQ recheck *)

(** [ExecReCheckGpuScan]: the tuple of the supplied slot is put into
    [base_slot] and the device qualifier is evaluated on it there; if it
    passes and a device projection is valid, the slot is cleared and
    filled with the projection of the tuple.  The result is the return
    value and the content of the slot afterwards. *)
Definition ExecReCheckGpuScan `{HostEvaluator} (gss : GpuScanState)
    (slot : HeapTuple) : bool * HeapTuple :=
  let tuple := slot in
  let base_slot := tuple in
  (* Does the tuple meet the device qual condition? *)
  let retval := ExecQual (gss.dev_quals gss) base_slot in
  match gss.base_proj gss with
  | Some base_proj =>
      if retval then (retval, ExecProject base_proj base_slot)
      else (retval, slot)
  | None => (retval, slot)
  end.

(** * [gpuscanExecScanChunk] - read the relation by one chunk *)

(** [HeapScanDescData]: the fields [gpuscanExecScanChunk] reads beside
    those of [scan.t].  [rs_parallel] is the shared cursor the descriptor
    points to when the scan is parallel, as the call finds it and as the
    call leaves it. *)
Module heapscan.
Record t := mk {
  desc : HeapScanDesc;
  rs_inited : bool;             (* false = scan not init'd yet *)
  rs_startblock : Z;            (* block # to start at *)
  rs_parallel : option ParallelHeapScanDesc
}.
End heapscan.

(** [NVMEScanState] (datastore.c), by the one field read here. *)
Module nvme_sstate.
Record t := mk {
  nblocks_per_chunk : Z
}.
End nvme_sstate.
Abbreviation NVMEScanState := nvme_sstate.t.

(** [GpuTaskState]: the fields of the relation scan. *)
Module gts.
Record t := mk {
  ss_currentScanDesc : option heapscan.t;
  outer_pds_suspend : option pgstrom_data_store;
  nvme_sstate : option NVMEScanState;
  ccache_refs : bool            (* referenced columns, if any *)
}.
End gts.
Abbreviation GpuTaskState := gts.t.

(** What the scan asks of PostgreSQL's heap access and of the data-store
    module (datastore.c) for the scanned relation: the descriptor
    [heap_beginscan] returns, the state [PDS_init_heapscan_state] leaves
    in [gts->nvme_sstate], the relation's Oid, the chunk size, a fresh
    block chunk, and [PDS_exec_heapscan], which loads the block
    [rs_cblock] into the chunk and answers the chunk so extended, or
    nothing (false) when the chunk has no room for the block. *)
Class HeapAccess := {
  heap_beginscan : heapscan.t;
  PDS_init_heapscan_state : option NVMEScanState;
  RelationGetRelid : Oid;
  pgstrom_chunk_size : Z;
  PDS_create_block : NVMEScanState -> result pgstrom_data_store;
  PDS_exec_heapscan : option NVMEScanState -> Z -> pgstrom_data_store
                      -> option pgstrom_data_store
}.

(** What a call did to the storage, in order. *)
Inductive scan_event : Type :=
| heap_read (page : Z)                  (* PDS_exec_heapscan took the block *)
| ccache_read (page : Z)                (* columnar chunk at [page] loaded *)
| ss_report_location (page : Z)
| parallel_nextpage (r : nextpage.t).

Definition set_rs_cblock (scan : heapscan.t) (rs_cblock : Z) : heapscan.t :=
  {| heapscan.desc :=
       {| scan.rs_nblocks := scan.rs_nblocks (heapscan.desc scan);
          scan.rs_syncscan := scan.rs_syncscan (heapscan.desc scan);
          scan.rs_cblock := rs_cblock;
          scan.rs_numblocks := scan.rs_numblocks (heapscan.desc scan) |};
     heapscan.rs_inited := heapscan.rs_inited scan;
     heapscan.rs_startblock := heapscan.rs_startblock scan;
     heapscan.rs_parallel := heapscan.rs_parallel scan |}.

Definition set_rs_numblocks (scan : heapscan.t) (rs_numblocks : Z)
  : heapscan.t :=
  {| heapscan.desc :=
       {| scan.rs_nblocks := scan.rs_nblocks (heapscan.desc scan);
          scan.rs_syncscan := scan.rs_syncscan (heapscan.desc scan);
          scan.rs_cblock := scan.rs_cblock (heapscan.desc scan);
          scan.rs_numblocks := rs_numblocks |};
     heapscan.rs_inited := heapscan.rs_inited scan;
     heapscan.rs_startblock := heapscan.rs_startblock scan;
     heapscan.rs_parallel := heapscan.rs_parallel scan |}.

Definition set_rs_inited (scan : heapscan.t) : heapscan.t :=
  {| heapscan.desc := heapscan.desc scan;
     heapscan.rs_inited := true;
     heapscan.rs_startblock := heapscan.rs_startblock scan;
     heapscan.rs_parallel := heapscan.rs_parallel scan |}.

Definition set_table_oid (pds : pgstrom_data_store) (table_oid : Oid)
  : pgstrom_data_store :=
  {| pds.kds :=
       {| kds.length := kds.length (pds.kds pds);
          kds.nitems := kds.nitems (pds.kds pds);
          kds.nrooms := kds.nrooms (pds.kds pds);
          kds.format := kds.format (pds.kds pds);
          kds.nrows_per_block := kds.nrows_per_block (pds.kds pds);
          kds.table_oid := table_oid |};
     pds.nblocks_uncached := pds.nblocks_uncached pds;
     pds.rows := pds.rows pds |}.

(** The local variables of the [for (;;)] loop and what it did. *)
Module chunk_loop.
Record t := mk {
  scan : heapscan.t;
  pds : option pgstrom_data_store;
  pds_column : option pgstrom_data_store;
  events : list scan_event
}.
End chunk_loop.

(** How the loop is left: by [goto out], by [break], or by an error
    raised on the way. *)
Inductive loop_exit : Type :=
| loop_out
| loop_break
| loop_error (msg : string).

Section gpuscanExecScanChunk.
Context `{Storage} `{HeapAccess} `{DeviceMemory}.

(** "move to the next block" (lines 2582-2595), after a block was taken. *)
Definition scan_next_block (scan : heapscan.t) (events : list scan_event)
  : heapscan.t * list scan_event :=
  let rs_cblock := uint32 (scan.rs_cblock (heapscan.desc scan) + 1) in
  let rs_cblock :=
    if scan.rs_nblocks (heapscan.desc scan) <=? rs_cblock then 0
    else rs_cblock in
  let scan := set_rs_cblock scan rs_cblock in
  let scan :=
    if negb (scan.rs_numblocks (heapscan.desc scan) =? InvalidBlockNumber)
    then set_rs_numblocks scan
           (uint32 (scan.rs_numblocks (heapscan.desc scan) - 1))
    else scan in
  let events :=
    if scan.rs_syncscan (heapscan.desc scan)
    then events ++ [ss_report_location rs_cblock] else events in
  (* end of the scan? *)
  let scan :=
    if rs_cblock =? heapscan.rs_startblock scan
    then set_rs_cblock scan InvalidBlockNumber else scan in
  (scan, events).

(** "allocation of row-based PDS on demand" and "scan next block" (lines
    2564-2580): the chunk so far with the block in it, or the reason to
    leave the loop. *)
Definition scan_load_block (gts : GpuTaskState) (st : chunk_loop.t)
  : chunk_loop.t + loop_exit * chunk_loop.t :=
  let scan := chunk_loop.scan st in
  let pds :=
    match chunk_loop.pds st with
    | Some pds => OK pds
    | None =>
        pds ← match gts.nvme_sstate gts with
              | Some nvme_sstate => PDS_create_block nvme_sstate
              | None => PDS_create_row pgstrom_chunk_size
              end;
        OK (set_table_oid pds RelationGetRelid)
    end in
  match pds with
  | ERROR msg => inr (loop_error msg, st)
  | OK pds =>
      let st := {| chunk_loop.scan := scan;
                   chunk_loop.pds := Some pds;
                   chunk_loop.pds_column := chunk_loop.pds_column st;
                   chunk_loop.events := chunk_loop.events st |} in
      if scan.rs_cblock (heapscan.desc scan) =? InvalidBlockNumber
      then inr (loop_break, st)
      else
        match PDS_exec_heapscan (gts.nvme_sstate gts)
                (scan.rs_cblock (heapscan.desc scan)) pds with
        | None => inr (loop_break, st)
        | Some pds =>
            let events :=
              chunk_loop.events st
                ++ [heap_read (scan.rs_cblock (heapscan.desc scan))] in
            let '(scan, events) := scan_next_block scan events in
            inl {| chunk_loop.scan := scan;
                   chunk_loop.pds := Some pds;
                   chunk_loop.pds_column := chunk_loop.pds_column st;
                   chunk_loop.events := events |}
        end
  end.

(** "move to the next position to load" (lines 2471-2562). *)
Definition scan_next_position (fuel : nat) (gts : GpuTaskState)
    (st : chunk_loop.t)
  : option (chunk_loop.t + loop_exit * chunk_loop.t) :=
  let scan := chunk_loop.scan st in
  let rs_nblocks := scan.rs_nblocks (heapscan.desc scan) in
  let rs_startblock := heapscan.rs_startblock scan in
  match heapscan.rs_parallel scan with
  | None =>
      let page := scan.rs_cblock (heapscan.desc scan) in
      (* try to fetch columnar-cache, if any *)
      if gts.ccache_refs gts
         && (Z.land page (CCACHE_CHUNK_NBLOCKS - 1) =? 0)
         && ((rs_startblock <=? page)
             || (uint32 (page + CCACHE_CHUNK_NBLOCKS) <=? rs_startblock))
         && (uint32 (page + CCACHE_CHUNK_NBLOCKS) <=? rs_nblocks)
      then
        match pgstrom_ccache_get_chunk page with
        | Some cc_chunk =>
            match pgstrom_ccache_load_chunk cc_chunk with
            | ERROR msg => Some (inr (loop_error msg, st))
            | OK pds_column =>
                let rs_cblock := uint32 (page + CCACHE_CHUNK_NBLOCKS) in
                let rs_cblock :=
                  if rs_nblocks <=? rs_cblock then 0 else rs_cblock in
                let events :=
                  chunk_loop.events st ++ [ccache_read page]
                    ++ (if scan.rs_syncscan (heapscan.desc scan)
                        then [ss_report_location rs_cblock] else []) in
                let rs_cblock :=
                  if rs_cblock =? rs_startblock
                  then InvalidBlockNumber else rs_cblock in
                Some (inr (loop_break,
                           {| chunk_loop.scan := set_rs_cblock scan rs_cblock;
                              chunk_loop.pds := chunk_loop.pds st;
                              chunk_loop.pds_column := Some pds_column;
                              chunk_loop.events := events |}))
            end
        | None => Some (inl st)
        end
      else Some (inl st)
  | Some parallel_scan =>
      if scan.rs_numblocks (heapscan.desc scan) =? 0 then
        (* Suspend the heap-scan of row-based PDS, and returns columnar
           PDS instead. *)
        if chunk_loop.pds_column st is Some _
        then Some (inr (loop_break, st))
        else
          let nblocks_atonce :=
            match gts.nvme_sstate gts, chunk_loop.pds st with
            | None, _ => Some 8
            | Some _, Some pds =>
                if kds.nrooms (pds.kds pds) <=? kds.nitems (pds.kds pds)
                then None       (* no more rooms in this PDS *)
                else Some (uint32 (kds.nrooms (pds.kds pds)
                                   - kds.nitems (pds.kds pds)))
            | Some nvme_sstate, None =>
                Some (nvme_sstate.nblocks_per_chunk nvme_sstate)
            end in
          match nblocks_atonce with
          | None => Some (inr (loop_break, st))
          | Some nblocks_atonce =>
              r ← gpuscan_parallel_nextpage fuel (heapscan.desc scan)
                    parallel_scan (gts.ccache_refs gts) nblocks_atonce;
              let scan :=
                {| heapscan.desc := nextpage.scan r;
                   heapscan.rs_inited := heapscan.rs_inited scan;
                   heapscan.rs_startblock := heapscan.rs_startblock scan;
                   heapscan.rs_parallel := Some (nextpage.parallel_scan r) |} in
              let events := chunk_loop.events st ++ [parallel_nextpage r] in
              match nextpage.pds_column r with
              | ERROR msg =>
                  Some (inr (loop_error msg,
                             {| chunk_loop.scan := scan;
                                chunk_loop.pds := chunk_loop.pds st;
                                chunk_loop.pds_column := None;
                                chunk_loop.events := events |}))
              | OK pds_column =>
                  let st := {| chunk_loop.scan := scan;
                               chunk_loop.pds := chunk_loop.pds st;
                               chunk_loop.pds_column := pds_column;
                               chunk_loop.events := events |} in
                  (* no more blocks to read? *)
                  if scan.rs_numblocks (heapscan.desc scan) =? 0
                  then Some (inr (loop_break, st))
                  else Some (inl st)
              end
          end
      else Some (inl st)
  end.

(** The head of the loop body (lines 2445-2469). *)
Definition scan_init (st : chunk_loop.t)
  : chunk_loop.t + loop_exit * chunk_loop.t :=
  let scan := chunk_loop.scan st in
  if negb (heapscan.rs_inited scan) then
    if scan.rs_nblocks (heapscan.desc scan) =? 0 then inr (loop_out, st)
    else
      let scan :=
        match heapscan.rs_parallel scan with
        | None => set_rs_cblock scan (heapscan.rs_startblock scan)
        | Some _ =>
            (* force to call gpuscan_parallel_nextpage() *)
            set_rs_numblocks (set_rs_cblock scan InvalidBlockNumber) 0
        end in
      inl {| chunk_loop.scan := set_rs_inited scan;
             chunk_loop.pds := chunk_loop.pds st;
             chunk_loop.pds_column := chunk_loop.pds_column st;
             chunk_loop.events := chunk_loop.events st |}
  else if scan.rs_cblock (heapscan.desc scan) =? InvalidBlockNumber
  then inr (loop_break, st)             (* no more blocks to read *)
  else inl st.

(** One round of the [for (;;)] loop: the state after a block was taken,
    or the way the loop is left. *)
Definition scan_round (fuel : nat) (gts : GpuTaskState) (st : chunk_loop.t)
  : option (chunk_loop.t + loop_exit * chunk_loop.t) :=
  match scan_init st with
  | inr e => Some (inr e)
  | inl st =>
      match scan_next_position fuel gts st with
      | None => None
      | Some (inr e) => Some (inr e)
      | Some (inl st) => Some (scan_load_block gts st)
      end
  end.

(** The [for (;;)] loop.  The number of rounds is bounded by what the
    relation and the chunk hold, which the model does not know in
    advance: it takes [fuel] and answers [None] when it runs out. *)
Fixpoint scan_loop (fuel : nat) (gts : GpuTaskState) (st : chunk_loop.t)
  : option (loop_exit * chunk_loop.t) :=
  match scan_round fuel gts st with
  | None => None
  | Some (inr e) => Some e
  | Some (inl st) =>
      match fuel with
      | O => None
      | S fuel => scan_loop fuel gts st
      end
  end.

(** [gpuscanExecScanChunk]: the chunk returned (NULL at the end of the
    scan) or the error raised, the task state left behind, and what was
    done to the storage.  The instrumentation calls and the move inside
    the block-number array of a block chunk that was not filled up (lines
    2614-2635), an array the model of a chunk does not hold, are left
    out. *)
Definition gpuscanExecScanChunk (fuel : nat) (gts : GpuTaskState)
  : option (result (option pgstrom_data_store) * GpuTaskState
            * list scan_event) :=
  (* Setup scan-descriptor, if the scan is not parallel, of if we're
     executing a scan that was intended to be parallel serially. *)
  let '(scan, nvme_sstate) :=
    match gts.ss_currentScanDesc gts with
    | None => (heap_beginscan, PDS_init_heapscan_state)
    | Some scan => (scan, gts.nvme_sstate gts)
    end in
  (* fetch suspended PDS, if any *)
  let st := {| chunk_loop.scan := scan;
               chunk_loop.pds := gts.outer_pds_suspend gts;
               chunk_loop.pds_column := None;
               chunk_loop.events := [] |} in
  let gts := {| gts.ss_currentScanDesc := Some scan;
                gts.outer_pds_suspend := None;
                gts.nvme_sstate := nvme_sstate;
                gts.ccache_refs := gts.ccache_refs gts |} in
  '(e, st) ← scan_loop fuel gts st;
  let leave outer_pds_suspend :=
    {| gts.ss_currentScanDesc := Some (chunk_loop.scan st);
       gts.outer_pds_suspend := outer_pds_suspend;
       gts.nvme_sstate := nvme_sstate;
       gts.ccache_refs := gts.ccache_refs gts |} in
  Some
    match e with
    | loop_error msg => (ERROR msg, leave None, chunk_loop.events st)
    | loop_out => (OK (chunk_loop.pds st), leave None, chunk_loop.events st)
    | loop_break =>
        match chunk_loop.pds_column st, chunk_loop.pds st with
        | Some pds_column, pds =>
            (OK (Some pds_column), leave pds, chunk_loop.events st)
        | None, None => (OK None, leave None, chunk_loop.events st)
        | None, Some pds =>
            if kds.nitems (pds.kds pds) =? 0
            then (OK None, leave None, chunk_loop.events st)
            else (OK (Some pds), leave None, chunk_loop.events st)
        end
    end.

End gpuscanExecScanChunk.

(** Calls in a row, up to [calls] of them; an error ends the run.  The
    result of each call, the task state left behind and what was done to
    the storage over the run. *)
Fixpoint gpuscan_scan_calls `{Storage} `{HeapAccess} `{DeviceMemory}
    (calls fuel : nat) (gts : GpuTaskState)
  : option (list (result (option pgstrom_data_store)) * GpuTaskState
            * list scan_event) :=
  match calls with
  | O => Some ([], gts, [])
  | S calls =>
      '(res, gts, events) ← gpuscanExecScanChunk fuel gts;
      match res with
      | ERROR _ => Some ([res], gts, events)
      | OK _ =>
          '(results, gts', events') ← gpuscan_scan_calls calls fuel gts;
          Some (res :: results, gts', events ++ events')
      end
  end.

(** The blocks a run has read: one per block taken from the heap, and
    [CCACHE_CHUNK_NBLOCKS] from its first block on per columnar chunk. *)
Definition blocks_read `{Storage} (events : list scan_event) : list Z :=
  flat_map (fun e => match e with
                     | heap_read page => [page]
                     | ccache_read page => seqZ page CCACHE_CHUNK_NBLOCKS
                     | _ => []
                     end) events.

(** The position of a serial scan as a cursor: its start block and the
    block it reads next, which before the first read is the start block,
    or none if the relation is empty. *)
Definition serial_cursor (scan : heapscan.t) : ParallelHeapScanDesc :=
  {| parallel_scan.phs_syncscan := scan.rs_syncscan (heapscan.desc scan);
     parallel_scan.phs_startblock := heapscan.rs_startblock scan;
     parallel_scan.phs_cblock :=
       if heapscan.rs_inited scan then scan.rs_cblock (heapscan.desc scan)
       else if scan.rs_nblocks (heapscan.desc scan) =? 0
            then InvalidBlockNumber
            else heapscan.rs_startblock scan |}.

(** The blocks a serial scan still has to read. *)
Definition serial_blocks_left (scan : heapscan.t) : list Z :=
  blocks_left (scan.rs_nblocks (heapscan.desc scan)) (serial_cursor scan).

(** A serial scan as [heap_beginscan] sets it up and as
    [gpuscanExecScanChunk] keeps it: no shared cursor, a relation that
    ends at least one cache chunk below 2^32 blocks, a start block inside
    the relation if it has blocks at all, and a current block that is
    inside the relation or invalid. *)
Definition serial_scan `{Storage} (scan : heapscan.t) : Prop :=
  let rs_nblocks := scan.rs_nblocks (heapscan.desc scan) in
  heapscan.rs_parallel scan = None /\
  0 <= rs_nblocks /\ rs_nblocks + CCACHE_CHUNK_NBLOCKS <= 2 ^ 32 /\
  (if heapscan.rs_inited scan
   then cursor_valid rs_nblocks (serial_cursor scan)
   else rs_nblocks = 0 \/ 0 <= heapscan.rs_startblock scan < rs_nblocks).

(** The scan descriptor a call works on. *)
Definition current_scan `{HeapAccess} (gts : GpuTaskState) : heapscan.t :=
  default heap_beginscan (gts.ss_currentScanDesc gts).

(** What holds when the loop of a serial scan is left: the scan is at
    its end, or a columnar chunk was taken, or the chunk at hand had no
    room for the next block. *)
Definition serial_exit `{HeapAccess} (gts : GpuTaskState) (e : loop_exit)
    (st : chunk_loop.t) : Prop :=
  match e with
  | loop_out => serial_blocks_left (chunk_loop.scan st) = []
  | loop_break =>
      chunk_loop.pds_column st = None ->
      serial_blocks_left (chunk_loop.scan st) = [] \/
      exists pds page,
        chunk_loop.pds st = Some pds /\
        PDS_exec_heapscan (gts.nvme_sstate gts) page pds = None
  | loop_error _ => True
  end.


(** The reservations a call made, in order. *)
Definition nextpages (events : list scan_event) : list nextpage.t :=
  flat_map (fun e => match e with
                     | parallel_nextpage r => [r]
                     | _ => []
                     end) events.

(** The blocks a parallel worker holds: what is left of its reservation,
    [rs_numblocks] blocks from [rs_cblock]. *)
Definition own_blocks (scan : heapscan.t) : list Z :=
  if heapscan.rs_inited scan
     && negb (scan.rs_cblock (heapscan.desc scan) =? InvalidBlockNumber)
  then seqZ (scan.rs_cblock (heapscan.desc scan))
            (scan.rs_numblocks (heapscan.desc scan))
  else [].

(** A worker of a parallel scan between two calls: the shared cursor is
    valid, the relation ends at least one segment below 2^32 blocks, and
    what the worker holds of its reservation lies inside the relation. *)
Definition parallel_worker `{Storage} (scan : heapscan.t) : Prop :=
  let rs_nblocks := scan.rs_nblocks (heapscan.desc scan) in
  let rs_cblock := scan.rs_cblock (heapscan.desc scan) in
  let rs_numblocks := scan.rs_numblocks (heapscan.desc scan) in
  (exists parallel_scan,
     heapscan.rs_parallel scan = Some parallel_scan /\
     cursor_valid rs_nblocks parallel_scan) /\
  rs_nblocks + RELSEG_SIZE <= 2 ^ 32 /\
  (heapscan.rs_inited scan = true ->
   rs_cblock = InvalidBlockNumber \/
   (0 <= rs_cblock /\ 0 <= rs_numblocks /\
    rs_cblock + rs_numblocks <= rs_nblocks)).

(** What a worker has read from the heap and what it still holds, in
    order, are found in that order among the blocks it held at first
    ([own]) followed by the blocks of the reservations it has made since. *)
Definition reads_reserved `{Storage} (own : list Z)
    (events : list scan_event) (scan : heapscan.t) : Prop :=
  sublist (blocks_read events ++ own_blocks scan)
          (own ++ concat (reserved_blocks <$> nextpages events)).

(** The blocks ahead of a parallel worker: those it holds and those the
    shared cursor has still to hand out. *)
Definition blocks_ahead (scan : heapscan.t) : nat :=
  (length (own_blocks scan)
   + match heapscan.rs_parallel scan with
     | Some parallel_scan =>
         length (blocks_left (scan.rs_nblocks (heapscan.desc scan))
                   parallel_scan)
     | None => 0
     end)%nat.

(** * [pgstrom_pullup_outer_scan] *)

(** [Path.pathtype]: the tag of the plan node a path makes. *)
Inductive PlanTag : Type :=
| T_SeqScan
| T_CustomScan
| T_Result
| T_OtherPlan (tag : Z).

#[global] Instance PlanTag_eq_dec : EqDecision PlanTag.
Proof. solve_decision. Defined.

(** [RelOptInfo]: the relation's index and the clauses of its
    [baserestrictinfo]. *)
Module rel.
Record t := mk {
  relid : Z;
  baserestrictinfo : list Node
}.
End rel.
Abbreviation RelOptInfo := rel.t.

(** [CustomPath.methods]: the address of a method table. *)
Inductive CustomPathMethods : Type :=
| gpuscan_path_methods
| other_path_methods (CustomName : string).

(** The fields of [Path] read here: [pathtype], [parent] and the
    expressions of [pathtarget]. *)
Module path.
Record t := mk {
  pathtype : PlanTag;
  parent : RelOptInfo;
  pathtarget : list Node
}.
End path.

(** A path node: a [CustomPath], a [ProjectionPath], or a node of another
    kind with no field of its own that is read here. *)
Inductive Path : Type :=
| T_Path (path : path.t)
| T_CustomPath (path : path.t) (methods : CustomPathMethods)
| T_ProjectionPath (path : path.t) (subpath : Path) (dummypp : bool).

Definition path_of (p : Path) : path.t :=
  match p with
  | T_Path path | T_CustomPath path _ | T_ProjectionPath path _ _ => path
  end.

(** [pgstrom_path_is_gpuscan] - true, if supplied path node is gpuscan. *)
Definition pgstrom_path_is_gpuscan (p : Path) : bool :=
  match p with
  | T_CustomPath path gpuscan_path_methods =>
      bool_decide (path.pathtype path = T_CustomScan)
  | _ => false
  end.

(** The [for (;;)] loop of [pgstrom_pullup_outer_scan]: whether a scan to
    pull up is found under the path.  A path of type [T_Result] is read
    as a [ProjectionPath] by a cast; for a node that is not one, what the
    read of [dummypp] finds is not defined: an error here. *)
Fixpoint pullup_outer_path (outer_path : Path) : result bool :=
  if decide (path.pathtype (path_of outer_path) = T_SeqScan) then OK true
  else if pgstrom_path_is_gpuscan outer_path then OK true
  else if decide (path.pathtype (path_of outer_path) = T_Result) then
    match outer_path with
    | T_ProjectionPath _ subpath dummypp =>
        if dummypp
        then pullup_outer_path subpath    (* Dive into one more deep level *)
        else OK false
    | _ => ERROR "not a ProjectionPath"
    end
  else OK false.                (* Elsewhere, we cannot pull-up the scan path *)

(** [pgstrom_pullup_outer_scan] - pull up outer_path if it is a simple
    relation scan with device executable qualifiers.  [None] is the
    return value false; otherwise the values stored through
    [p_outer_relid] and [p_outer_quals]. *)
Definition pgstrom_pullup_outer_scan `{Planner}
    (enable_pullup_outer_scan : bool) (outer_path : Path)
  : result (option (Z * option Node)) :=
  let baserel := path.parent (path_of outer_path) in
  let outer_target := path.pathtarget (path_of outer_path) in
  if negb enable_pullup_outer_scan then OK None
  else
    found ← pullup_outer_path outer_path;
    if negb found then OK None
    else
      (* qualifier has to be device executable *)
      if negb (forallb pgstrom_device_expression (rel.baserestrictinfo baserel))
      then OK None
      else
        let outer_quals := rel.baserestrictinfo baserel in
        (* target entry has to be *)
        if negb (forallb (fun expr =>
                            match expr with
                            | T_Var var =>
                                (* we don't support whole-row reference *)
                                negb (varattno var =? InvalidAttrNumber)
                            | _ => pgstrom_device_expression expr
                            end) outer_target)
        then OK None
        else
          OK (Some (rel.relid baserel,
                    match outer_quals with
                    | [] => None
                    | _ :: _ => Some (make_flat_ands_explicit outer_quals)
                    end)).

(** A path over a scan to pull up: a sequential scan, a GpuScan, or a
    dummy projection over such a path. *)
Inductive pullup_candidate : Path -> Prop :=
| candidate_seqscan p :
    path.pathtype (path_of p) = T_SeqScan -> pullup_candidate p
| candidate_gpuscan p :
    pgstrom_path_is_gpuscan p = true -> pullup_candidate p
| candidate_dummy path subpath :
    path.pathtype path = T_Result -> pullup_candidate subpath ->
    pullup_candidate (T_ProjectionPath path subpath true).

(** A target expression the device can produce: a column of the relation
    (no whole-row reference) or a device-executable expression. *)
Definition device_target `{Planner} (expr : Node) : Prop :=
  match expr with
  | T_Var var => varattno var <> InvalidAttrNumber
  | _ => pgstrom_device_expression expr = true
  end.

(** * The coordinate memory of a parallel GpuScan *)

(** [MAXALIGN(LEN)]: [TYPEALIGN(8, LEN)] on [uintptr_t]. *)
Definition MAXALIGN (len : Z) : Z :=
  Z.land (uint64 (len + 7)) (uint64 (Z.lnot 7)).

(** [sizeof(GpuScanSharedState)], and what PostgreSQL's
    [heap_parallelscan_estimate] answers for the snapshot: the size of the
    parallel scan descriptor that [heap_parallelscan_initialize] fills
    in. *)
Class CoordinateMemory := {
  sizeof_GpuScanSharedState : Z;
  heap_parallelscan_estimate : Z
}.

(** [ExecGpuScanEstimateDSM] - return required size of shared memory;
    [ss_currentRelation] says whether the node scans a relation. *)
Definition ExecGpuScanEstimateDSM `{CoordinateMemory}
    (ss_currentRelation : bool) : Z :=
  let required := MAXALIGN sizeof_GpuScanSharedState in
  if ss_currentRelation
  then uint64 (required + heap_parallelscan_estimate)
  else required.

(** [GpuScanSharedState], as [createGpuScanSharedState] fills it in. *)
Module gs_sstate.
Record t := mk {
  ss_handle : Z;                (* DSM segment handle *)
  ss_length : Z;                (* Length of the SharedState *)
  gs_rtstat : GpuScanRuntimeStat
}.
End gs_sstate.
Abbreviation GpuScanSharedState := gs_sstate.t.

Definition UINT_MAX : Z := 0xFFFFFFFF.

(** [createGpuScanSharedState]: the state is made at [dsm_addr] if there
    is one, and in newly allocated memory otherwise; [ss_length] bytes are
    cleared there.  The result is the address used ([None]: the new
    memory) and the state. *)
Definition createGpuScanSharedState `{CoordinateMemory}
    (pcxt_seg_handle : option Z) (dsm_addr : option Z)
  : option Z * GpuScanSharedState :=
  let ss_length := MAXALIGN sizeof_GpuScanSharedState in
  (dsm_addr,
   {| gs_sstate.ss_handle := default UINT_MAX pcxt_seg_handle;
      gs_sstate.ss_length := ss_length;
      gs_sstate.gs_rtstat :=
        {| rtstat.nitems_filtered := 0; rtstat.ccache_count := 0 |} |}).

(** Where a process finds its shared data in the coordinate memory: the
    address of the shared state, if the node is a GpuScan, and the
    address of the parallel scan descriptor, if the node scans a
    relation. *)
Module dsm.
Record t := mk {
  gs_sstate : option Z;
  pscan : option Z
}.
End dsm.

(** [ExecGpuScanInitDSM] - initialize the coordinate memory on the master
    backend: where the shared data are put, and the shared state written.
    [is_gpuscan] is [pgstrom_planstate_is_gpuscan] of the node (GpuJoin
    and GpuPreAgg call this function too). *)
Definition ExecGpuScanInitDSM `{CoordinateMemory} (is_gpuscan : bool)
    (ss_currentRelation : bool) (pcxt_seg_handle : Z) (coordinate : Z)
  : dsm.t * option GpuScanSharedState :=
  let '(gs_sstate, written, coordinate) :=
    if is_gpuscan then
      let '(addr, gs_sstate) :=
        createGpuScanSharedState (Some pcxt_seg_handle) (Some coordinate) in
      (addr, Some gs_sstate,
       uint64 (coordinate + MAXALIGN sizeof_GpuScanSharedState))
    else (None, None, coordinate) in
  ({| dsm.gs_sstate := gs_sstate;
      dsm.pscan := if ss_currentRelation then Some coordinate else None |},
   written).

(** [ExecGpuScanInitWorker] - initialize GpuScan on the backend worker
    process: where the shared data are looked for. *)
Definition ExecGpuScanInitWorker `{CoordinateMemory} (is_gpuscan : bool)
    (ss_currentRelation : bool) (coordinate : Z) : dsm.t :=
  let '(gs_sstate, coordinate) :=
    if is_gpuscan then
      (Some coordinate,
       uint64 (coordinate + MAXALIGN sizeof_GpuScanSharedState))
    else (None, coordinate) in
  {| dsm.gs_sstate := gs_sstate;
     dsm.pscan := if ss_currentRelation then Some coordinate else None |}.

(** The bytes [addr, addr + len) lie in [base, base + size). *)
Definition area_within (addr len base size : Z) : Prop :=
  base <= addr /\ addr + len <= base + size.

(** * [assign_gpuscan_session_info] *)

(** [%d] of an [int] argument. *)
Definition int32 (z : Z) : Z := (z + 2 ^ 31) mod 2 ^ 32 - 2 ^ 31.
Definition fmt_d (z : Z) : string := pretty (int32 z).

(** [assign_gpuscan_session_info] - gives some definitions to the static
    portion of GpuScan implementation.  [is_gpuscan] is
    [pgstrom_plan_is_gpuscan] of the node's plan; the scan slot's
    descriptor has [gss.scan_natts] attributes. *)
Definition assign_gpuscan_session_info (buf : StringInfo) (is_gpuscan : bool)
    (gss : GpuScanState) : StringInfo :=
  if is_gpuscan then
    let buf :=
      appendStringInfo buf
        (text ("#define GPUSCAN_KERNEL_REQUIRED                1" +:+ LF)) in
    let buf :=
      if gss.dev_projection gss
      then appendStringInfo buf
             (text ("#define GPUSCAN_HAS_DEVICE_PROJECTION          1" +:+ LF))
      else buf in
    let buf :=
      appendStringInfo buf
        (text ("#define GPUSCAN_DEVICE_PROJECTION_NFIELDS      "
                 +:+ fmt_d (gss.scan_natts gss) +:+ LF +:+
               "#define GPUSCAN_DEVICE_PROJECTION_EXTRA_SIZE   "
                 +:+ fmt_d (gss.proj_extra_sz gss) +:+ LF)) in
    match gss.dev_quals gss with
    | Some _ =>
        appendStringInfoString buf
          ("#define GPUSCAN_HAS_WHERE_QUALS                1" +:+ LF)
    | None => buf
    end
  else buf.

(** * Code generator for GpuScan's projection *)

(** PostgreSQL's system attribute numbers (sysattr.h, releases 9.6 to
    11, which this file is written for). *)
Definition SelfItemPointerAttributeNumber : Z := -1.
Definition TableOidAttributeNumber : Z := -7.
Definition FirstLowInvalidHeapAttributeNumber : Z := -8.

(** What the generator asks of PostgreSQL's catalogue and of the device
    type table beside the name of a type: the type of an expression, the
    definition of a system attribute (an error for a number that is none),
    and the [type_byval] and [extra_sz] fields of a device type. *)
Class Catalog := {
  exprType : Node -> Oid;
  SystemAttributeDefinition : Z -> result Form_pg_attribute;
  type_byval : devtype_info.t -> bool;
  extra_sz : devtype_info.t -> Z
}.

(** A [Bitmapset]: its members in ascending order, as [bms_next_member]
    walks them. *)
Definition Bitmapset := list Z.

Fixpoint bms_insert (x : Z) (a : Bitmapset) : Bitmapset :=
  match a with
  | [] => [x]
  | y :: a' =>
      if x <? y then x :: a
      else if x =? y then a
      else y :: bms_insert x a'
  end.

Definition bms_add_member (a : Bitmapset) (x : Z) : result Bitmapset :=
  if x <? 0 then ERROR "negative bitmapset member not allowed"
  else OK (bms_insert x a).

Definition bms_is_member (x : Z) (a : Bitmapset) : bool :=
  bool_decide (x ∈ a).

(** PostgreSQL's [pull_varattnos]: the attribute numbers of the variables
    of relation [varno0] in the expression, offset by
    [FirstLowInvalidHeapAttributeNumber]. *)
Definition pull_varattnos (node : Node) (varno0 : Z) (varattnos : Bitmapset)
  : result Bitmapset :=
  foreach (filter (fun var => varno var = varno0) (node_vars node))
    (fun varattnos var =>
       bms_add_member varattnos
         (varattno var - FirstLowInvalidHeapAttributeNumber))
    varattnos.

(** The fragments appended to the five buffers of
    [codegen_gpuscan_projection], one per [appendStringInfo] call of the
    function. *)
Inductive pfragment : Type :=
| ptext (s : string)
| kvar_decl (type_name : string) (anum : Z)
| sys_tableoid (attname : string) (i : Z)
| sys_ctid (attname : string) (i : Z)
| sys_getsysatt (attname : string) (i : Z)
| sys_column_addr (attname : string) (attnum i : Z)
| sys_column_ptr (i : Z)
| sys_column_int (i bits : Z)
| extract_begin
| tuple_store_int (j bits : Z)
| tuple_store_ptr (j : Z)
| column_addr (colidx : Z)
| column_store_int (j bits : Z)
| column_store_ptr (j : Z)
| kvar_load_tuple (attnum : Z) (type_name : string)
| kvar_load_column (attnum : Z) (type_name : string)
| extract_next
| extract_end
| expr_decl (type_name : string) (resno : Z)
| expr_eval (resno : Z) (code : string)
| slot_isnull (j resno : Z)
| slot_byval (resno j : Z) (type_name : string)
| slot_extra (resno : Z) (type_name : string) (j : Z)
| slot_ptr (resno j : Z).

Definition prender (f : pfragment) : string :=
  match f with
  | ptext s => s
  | kvar_decl type_name anum =>
      "  pg_" +:+ type_name +:+ "_t KVAR_" +:+ fmt_u anum +:+ ";" +:+ LF
  | sys_tableoid attname i =>
      "  /* " +:+ attname +:+ " system column */" +:+ LF +:+
      "  tup_isnull[" +:+ fmt_d i +:+ "] = !htup;" +:+ LF +:+
      "  tup_values[" +:+ fmt_d i +:+ "] = kds_src->table_oid;" +:+ LF
  | sys_ctid attname i =>
      "  /* " +:+ attname +:+ " system column */" +:+ LF +:+
      "  tup_isnull[" +:+ fmt_d i +:+ "] = !t_self;" +:+ LF +:+
      "  if (t_self)" +:+ LF +:+
      "  {" +:+ LF +:+
      "    tup_values[" +:+ fmt_d i +:+ "] = PointerGetDatum(tup_extra);"
        +:+ LF +:+
      "    memcpy(tup_extra, t_self, sizeof(ItemPointerData));" +:+ LF +:+
      "    tup_extra += MAXALIGN(sizeof(ItemPointerData));" +:+ LF +:+
      "  }" +:+ LF
  | sys_getsysatt attname i =>
      "  /* " +:+ attname +:+ " system column */" +:+ LF +:+
      "  tup_isnull[" +:+ fmt_d i +:+ "] = !htup;" +:+ LF +:+
      "  if (!htup)" +:+ LF +:+
      "    tup_values[" +:+ fmt_d i +:+ "] = kern_getsysatt_" +:+ attname
        +:+ "(htup);" +:+ LF
  | sys_column_addr attname attnum i =>
      "  /* " +:+ attname +:+ " system column */" +:+ LF +:+
      "  addr = kern_get_datum_column(kds_src,kds_src->ncols"
        +:+ fmt_d attnum +:+ ",src_index);" +:+ LF +:+
      "  tup_isnull[" +:+ fmt_d i +:+ "] = !addr;" +:+ LF
  | sys_column_ptr i =>
      "  tup_values[" +:+ fmt_d i +:+ "] = PointerGetDatum(addr);" +:+ LF
  | sys_column_int i bits =>
      "  tup_values[" +:+ fmt_d i +:+ "] = READ_INT" +:+ fmt_d bits
        +:+ "_PTR(addr);" +:+ LF
  | extract_begin =>
      "  EXTRACT_HEAP_TUPLE_BEGIN(curr, kds_src, htup);" +:+ LF
  | tuple_store_int j bits =>
      "  tup_isnull[" +:+ fmt_d j +:+ "] = !curr;" +:+ LF +:+
      "  if (curr)" +:+ LF +:+
      "    tup_values[" +:+ fmt_d j +:+ "] = READ_INT" +:+ fmt_d bits
        +:+ "_PTR(curr);" +:+ LF
  | tuple_store_ptr j =>
      "  tup_isnull[" +:+ fmt_d j +:+ "] = !curr;" +:+ LF +:+
      "  if (curr)" +:+ LF +:+
      "    tup_values[" +:+ fmt_d j +:+ "] = PointerGetDatum(curr);" +:+ LF
  | column_addr colidx =>
      "  addr = kern_get_datum_column(kds_src," +:+ fmt_u colidx
        +:+ ",src_index);" +:+ LF
  | column_store_int j bits =>
      "  tup_isnull[" +:+ fmt_d j +:+ "] = !addr;" +:+ LF +:+
      "  if (addr)" +:+ LF +:+
      "    tup_values[" +:+ fmt_d j +:+ "] = READ_INT" +:+ fmt_d bits
        +:+ "_PTR(addr);" +:+ LF
  | column_store_ptr j =>
      "  tup_isnull[" +:+ fmt_d j +:+ "] = !addr;" +:+ LF +:+
      "  if (addr)" +:+ LF +:+
      "    tup_values[" +:+ fmt_d j +:+ "] = PointerGetDatum(addr);" +:+ LF
  | kvar_load_tuple attnum type_name =>
      "  KVAR_" +:+ fmt_u attnum +:+ " = pg_" +:+ type_name
        +:+ "_datum_ref(kcxt,curr);" +:+ LF
  | kvar_load_column attnum type_name =>
      "  KVAR_" +:+ fmt_u attnum +:+ " = pg_" +:+ type_name
        +:+ "_datum_ref(kcxt,addr);" +:+ LF
  | extract_next => "  EXTRACT_HEAP_TUPLE_NEXT(curr);" +:+ LF
  | extract_end => "  EXTRACT_HEAP_TUPLE_END();" +:+ LF +:+ LF
  | expr_decl type_name resno =>
      "  pg_" +:+ type_name +:+ "_t expr_" +:+ fmt_u resno +:+ "_v;" +:+ LF
  | expr_eval resno code =>
      "  expr_" +:+ fmt_u resno +:+ "_v = " +:+ code +:+ ";" +:+ LF
  | slot_isnull j resno =>
      "  tup_isnull[" +:+ fmt_d j +:+ "] = expr_" +:+ fmt_u resno
        +:+ "_v.isnull;" +:+ LF
  | slot_byval resno j type_name =>
      "  if (!expr_" +:+ fmt_u resno +:+ "_v.isnull)" +:+ LF +:+
      "    tup_values[" +:+ fmt_d j +:+ "] = pg_" +:+ type_name
        +:+ "_as_datum(&expr_" +:+ fmt_u resno +:+ "_v.value);" +:+ LF
  | slot_extra resno type_name j =>
      "  if (!expr_" +:+ fmt_u resno +:+ "_v.isnull)" +:+ LF +:+
      "  {" +:+ LF +:+
      "    len = pg_" +:+ type_name +:+ "_datum_store(kcxt,tup_extra,expr_"
        +:+ fmt_u resno +:+ "_v);" +:+ LF +:+
      "    tup_values[" +:+ fmt_d j +:+ "] = PointerGetDatum(tup_extra);"
        +:+ LF +:+
      "    tup_extra += MAXALIGN(len);" +:+ LF +:+
      "  }" +:+ LF
  | slot_ptr resno j =>
      "  if (!expr_" +:+ fmt_u resno +:+ "_v.isnull)" +:+ LF +:+
      "    tup_values[" +:+ fmt_d j +:+ "] = PointerGetDatum(expr_"
        +:+ fmt_u resno +:+ "_v.value);" +:+ LF
  end.

Definition pdata (buf : list pfragment) : string :=
  foldr (fun f s => prender f +:+ s) "" buf.

(** A C array read and written by index; an index outside the array is
    not defined in C and an error here. *)
Definition array_ref {A} (a : list A) (idx : Z) : result A :=
  if idx <? 0 then ERROR "array index out of range"
  else or_error "array index out of range" (a !! Z.to_nat idx).

Definition array_set {A} (a : list A) (idx : Z) (x : A) : result (list A) :=
  if (0 <=? idx) && (idx <? Z.of_nat (length a))
  then OK (<[Z.to_nat idx := x]> a)
  else ERROR "array index out of range".

(** The four buffers the function builds ([temp] is local to each part). *)
Module pbufs.
Record t := mk {
  tdecl : list pfragment;
  tbody : list pfragment;
  cdecl : list pfragment;
  cbody : list pfragment
}.
End pbufs.

Definition projection_tuple_head : string :=
  "STATIC_FUNCTION(void)" +:+ LF +:+
  "gpuscan_projection_tuple(kern_context *kcxt," +:+ LF +:+
  "                         kern_data_store *kds_src," +:+ LF +:+
  "                         HeapTupleHeaderData *htup," +:+ LF +:+
  "                         ItemPointerData *t_self," +:+ LF +:+
  "                         Datum *tup_values," +:+ LF +:+
  "                         cl_bool *tup_isnull," +:+ LF +:+
  "                         char *tup_extra)" +:+ LF +:+
  "{" +:+ LF +:+
  "  void    *curr __attribute__((unused));" +:+ LF +:+
  "  cl_int   len __attribute__((unused));" +:+ LF.

Definition projection_column_head : string :=
  "STATIC_FUNCTION(void)" +:+ LF +:+
  "gpuscan_projection_column(kern_context *kcxt," +:+ LF +:+
  "                          kern_data_store *kds_src," +:+ LF +:+
  "                          size_t src_index," +:+ LF +:+
  "                          Datum *tup_values," +:+ LF +:+
  "                          cl_bool *tup_isnull," +:+ LF +:+
  "                          char *tup_extra)" +:+ LF +:+
  "{" +:+ LF +:+
  "  void    *addr __attribute__((unused));" +:+ LF +:+
  "  cl_uint  len  __attribute__((unused));" +:+ LF.

(** The local variables of the loop over the columns of the relation
    (lines 879-974). *)
Module extract.
Record t := mk {
  tbody : list pfragment;
  cbody : list pfragment;
  temp : list pfragment;
  has_extract_tuple : bool
}.
End extract.

Section codegen_gpuscan_projection.
Context `{Codegen} `{Catalog}.
Variable scanrelid : Z.
Variable tupdesc : TupleDesc.

(** step.1, first loop (lines 748-775): a simple Var-node is loaded into
    its slot regardless of the data type, and [varremaps] tracks which
    column is the source of the entry; the variables of the other
    expressions are collected in [varattnos]. *)
Definition projection_track (acc : list Z * Bitmapset) (tle : TargetEntry)
  : result (list Z * Bitmapset) :=
  let '(varremaps, varattnos) := acc in
  match expr tle with
  | T_Var var =>
      varremaps ← array_set varremaps (resno tle - 1) (varattno var);
      OK (varremaps, varattnos)
  | expr0 =>
      varattnos ← pull_varattnos expr0 scanrelid varattnos;
      OK (varremaps, varattnos)
  end.

(** step.1, second loop (lines 777-799): a KVAR_xx per collected
    attribute. *)
Definition projection_declare_kvar (decls : list pfragment * list pfragment)
    (prev : Z) : result (list pfragment * list pfragment) :=
  let '(tdecl, cdecl) := decls in
  let anum := int16 (prev + FirstLowInvalidHeapAttributeNumber) in
  attr ← (if anum <? 0 then SystemAttributeDefinition anum
          else array_ref tupdesc (anum - 1));
  dtype ← or_error "Bug? failed to lookup device supported type"
            (pgstrom_devtype_lookup (pg_attribute.atttypid attr));
  if anum <? 0 then ERROR "Bug? system column appear in device expression"
  else
    let decl := kvar_decl (devtype_info.type_name dtype) anum in
    OK (tdecl ++ [decl], cdecl ++ [decl]).

(** System columns reference if any (lines 804-869). *)
Definition projection_system_column (varremaps : list Z)
    (bodies : list pfragment * list pfragment) (i : Z)
  : result (list pfragment * list pfragment) :=
  let '(tbody, cbody) := bodies in
  remap ← array_ref varremaps i;
  if 0 <=? remap then OK (tbody, cbody)
  else
    attr ← SystemAttributeDefinition remap;
    let attname := pg_attribute.attname attr in
    if pg_attribute.attnum attr =? TableOidAttributeNumber then
      let temp := [sys_tableoid attname i] in
      OK (tbody ++ temp, cbody ++ temp)
    else
      let tbody :=
        if pg_attribute.attnum attr =? SelfItemPointerAttributeNumber
        then tbody ++ [sys_ctid attname i]
        else tbody ++ [sys_getsysatt attname i] in
      let cbody :=
        cbody ++ [sys_column_addr attname (pg_attribute.attnum attr) i] in
      let cbody :=
        if negb (pg_attribute.attbyval attr)
        then cbody ++ [sys_column_ptr i]
        else cbody ++ [sys_column_int i (8 * pg_attribute.attlen attr)] in
      OK (tbody, cbody).

(** Put values on tup_values/tup_isnull if referenced (lines 888-939):
    one round of the loop over the slots. *)
Definition projection_store_slot (varremaps : list Z)
    (attr : Form_pg_attribute)
    (acc : list pfragment * list pfragment * bool) (j : Z)
  : result (list pfragment * list pfragment * bool) :=
  let '(temp, cbody, referenced) := acc in
  remap ← array_ref varremaps j;
  if negb (remap =? pg_attribute.attnum attr) then OK (temp, cbody, referenced)
  else
    let bits := 8 * pg_attribute.attlen attr in
    (* tuple *)
    let temp :=
      if pg_attribute.attbyval attr
      then temp ++ [tuple_store_int j bits]
      else temp ++ [tuple_store_ptr j] in
    (* column *)
    let cbody :=
      if negb referenced
      then cbody ++ [column_addr (pg_attribute.attnum attr - 1)]
      else cbody in
    let cbody :=
      if pg_attribute.attbyval attr
      then cbody ++ [column_store_int j bits]
      else cbody ++ [column_store_ptr j] in
    OK (temp, cbody, true).

Definition projection_extract_column (nslots : Z) (varremaps : list Z)
    (varattnos : Bitmapset) (st : extract.t) (attr : Form_pg_attribute)
  : result extract.t :=
  let dtype := pgstrom_devtype_lookup (pg_attribute.atttypid attr) in
  '(temp, cbody, referenced) ←
    foreach (seqZ 0 nslots) (projection_store_slot varremaps attr)
      (extract.temp st, extract.cbody st, false);
  (* Load values to KVAR_xx *)
  let k := pg_attribute.attnum attr - FirstLowInvalidHeapAttributeNumber in
  '(temp, cbody, referenced) ←
    (if bms_is_member k varattnos then
       dtype ← or_error "NULL devtype_info dereferenced" dtype;
       let type_name := devtype_info.type_name dtype in
       let temp :=
         temp ++ [kvar_load_tuple (pg_attribute.attnum attr) type_name] in
       let cbody :=
         if negb referenced
         then cbody ++ [column_addr (pg_attribute.attnum attr - 1)]
         else cbody in
       let cbody :=
         cbody ++ [kvar_load_column (pg_attribute.attnum attr) type_name] in
       OK (temp, cbody, true)
     else OK (temp, cbody, referenced));
  let st :=
    if referenced : bool
    then {| extract.tbody := extract.tbody st ++ temp;
            extract.cbody := cbody;
            extract.temp := [];
            extract.has_extract_tuple := true |}
    else {| extract.tbody := extract.tbody st;
            extract.cbody := cbody;
            extract.temp := temp;
            extract.has_extract_tuple := extract.has_extract_tuple st |} in
  OK {| extract.tbody := extract.tbody st;
        extract.cbody := extract.cbody st;
        extract.temp := extract.temp st ++ [extract_next];
        extract.has_extract_tuple := extract.has_extract_tuple st |}.

(** step.3 - execute expression node, then store the result onto KVAR_xx
    (lines 984-1015). *)
Definition projection_eval_entry (acc : pbufs.t * codegen_context)
    (tle : TargetEntry) : result (pbufs.t * codegen_context) :=
  let '(bufs, context) := acc in
  match expr tle with
  | T_Var _ => OK (bufs, context)
  | expr0 =>
      dtype ← or_error "Bug? device supported type is missing"
                (pgstrom_devtype_lookup (exprType expr0));
      let decl := expr_decl (devtype_info.type_name dtype) (resno tle) in
      '(code, context) ← pgstrom_codegen_expression expr0 context;
      let eval := expr_eval (resno tle) code in
      OK ({| pbufs.tdecl := pbufs.tdecl bufs ++ [decl];
             pbufs.tbody := pbufs.tbody bufs ++ [eval];
             pbufs.cdecl := pbufs.cdecl bufs ++ [decl];
             pbufs.cbody := pbufs.cbody bufs ++ [eval] |}, context)
  end.

(** step.5 - Store the expressions on the slot (lines 1021-1079). *)
Definition projection_store_entry (varremaps : list Z)
    (temp : list pfragment) (tle : TargetEntry) : result (list pfragment) :=
  remap ← array_ref varremaps (resno tle - 1);
  (* host pointer should be already set *)
  if negb (remap =? 0) then OK temp
  else
    dtype ← or_error "Bug? device supported type is missing"
              (pgstrom_devtype_lookup (exprType (expr tle)));
    let temp := temp ++ [slot_isnull (resno tle - 1) (resno tle)] in
    if type_byval dtype then
      OK (temp ++ [slot_byval (resno tle) (resno tle - 1)
                     (devtype_info.type_name dtype)])
    else if 0 <? extra_sz dtype then
      OK (temp ++ [slot_extra (resno tle) (devtype_info.type_name dtype)
                     (resno tle - 1)])
    else
      OK (temp ++ [slot_ptr (resno tle) (resno tle - 1)]).

(** The buffers [codegen_gpuscan_projection] has built when it writes the
    kernel source back, and the context the expressions left. *)
Definition codegen_gpuscan_projection_buffers (context : codegen_context)
    (__tlist_dev : list TargetEntry) : result (pbufs.t * codegen_context) :=
  (* step.0 - extract non-junk attributes *)
  let tlist_dev := filter (fun tle => resjunk tle = false) __tlist_dev in
  let nslots := Z.of_nat (length tlist_dev) in
  (* step.1 - declaration of functions and KVAR_xx for expressions *)
  let tdecl := [ptext projection_tuple_head] in
  let cdecl := [ptext projection_column_head] in
  '(varremaps, varattnos) ←
    foreach tlist_dev projection_track (replicate (length tlist_dev) 0, []);
  '(tdecl, cdecl) ←
    foreach varattnos projection_declare_kvar (tdecl, cdecl);
  (* System columns reference if any *)
  '(tbody, cbody) ←
    foreach (seqZ 0 nslots) (projection_system_column varremaps) ([], []);
  (* Extract regular tuples *)
  st ← foreach tupdesc (projection_extract_column nslots varremaps varattnos)
         {| extract.tbody := tbody; extract.cbody := cbody;
            extract.temp := [extract_begin];
            extract.has_extract_tuple := false |};
  let tbody :=
    if extract.has_extract_tuple st
    then extract.tbody st ++ [extract_end] else extract.tbody st in
  let cbody := extract.cbody st in
  (* step.3 - execute expression node, then store the result onto KVAR_xx *)
  '(bufs, context) ←
    foreach tlist_dev projection_eval_entry
      ({| pbufs.tdecl := tdecl; pbufs.tbody := tbody;
          pbufs.cdecl := cdecl; pbufs.cbody := cbody |}, context);
  (* step.5 - Store the expressions on the slot. *)
  temp ← foreach tlist_dev (projection_store_entry varremaps) [];
  let tail := temp ++ [ptext ("}" +:+ LF)] in
  (* parameter references *)
  let params := ptext (pgstrom_codegen_param_declarations context) in
  OK ({| pbufs.tdecl := pbufs.tdecl bufs ++ [params];
         pbufs.tbody := pbufs.tbody bufs ++ tail;
         pbufs.cdecl := pbufs.cdecl bufs ++ [params];
         pbufs.cbody := pbufs.cbody bufs ++ tail |}, context).

(** [codegen_gpuscan_projection]: the kernel source written back. *)
Definition codegen_gpuscan_projection (kern : StringInfo)
    (context : codegen_context) (__tlist_dev : list TargetEntry)
  : result (StringInfo * codegen_context) :=
  '(bufs, context) ← codegen_gpuscan_projection_buffers context __tlist_dev;
  OK (appendStringInfo kern
        (text (pdata (pbufs.tdecl bufs) +:+ LF +:+
               pdata (pbufs.tbody bufs) +:+ LF +:+
               pdata (pbufs.cdecl bufs) +:+ LF +:+
               pdata (pbufs.cbody bufs))),
      context).

End codegen_gpuscan_projection.

(** The slot of [tup_values] a fragment assigns, if it assigns one. *)
Definition slot_written (f : pfragment) : option Z :=
  match f with
  | sys_tableoid _ i | sys_ctid _ i | sys_getsysatt _ i
  | sys_column_ptr i | sys_column_int i _ => Some i
  | tuple_store_int j _ | tuple_store_ptr j
  | column_store_int j _ | column_store_ptr j => Some j
  | slot_byval _ j _ | slot_extra _ _ j | slot_ptr _ j => Some j
  | _ => None
  end.


(** The KVAR_xx variables a declaration buffer declares and a body loads,
    in order. *)
Definition kvar_declared (f : pfragment) : option Z :=
  match f with
  | kvar_decl _ anum => Some anum
  | _ => None
  end.

Definition kvar_loaded (f : pfragment) : option Z :=
  match f with
  | kvar_load_tuple attnum _ | kvar_load_column attnum _ => Some attnum
  | _ => None
  end.


(** ** Sample inputs used by the examples below *)

(** A stand-in for codegen.c: it collects the variables of the expression
    in order of first appearance and knows two device types. *)
Fixpoint sample_pull_vars (n : Node) : list Var :=
  match n with
  | T_Var v => [v]
  | T_OpExpr _ args | T_BoolExpr_AND args | T_List args =>
      flat_map sample_pull_vars args
  | _ => []
  end.

#[local] Instance VarEqDec : EqDecision Var.
Proof. solve_decision. Defined.

Definition sample_codegen : Codegen := {|
  pgstrom_codegen_expression := fun node context =>
    OK ("pgfn_boolop_and(kcxt, pgfn_int4gt(kcxt, KVAR_3, KVAR_1), KVAR_3)",
        {| context.var_label := context.var_label context;
           context.used_params := context.used_params context;
           context.used_vars :=
             fold_left (fun acc var =>
                          if bool_decide (var ∈ acc) then acc else acc ++ [var])
                       (sample_pull_vars node) (context.used_vars context);
           context.extra_flags := context.extra_flags context |});
  pgstrom_codegen_param_declarations := fun _ => "";
  pgstrom_devtype_lookup := fun oid =>
    if oid =? 23 then Some (devtype_info.mk 23 "int4")
    else if oid =? 16 then Some (devtype_info.mk 16 "bool")
    else None
|}.

Definition sample_context : codegen_context :=
  {| context.var_label := "KVAR"; context.used_params := [];
     context.used_vars := []; context.extra_flags := 0 |}.

(** [c > a AND c], over columns 3 and 1 of relation 1. *)
Definition sample_quals : Node :=
  T_BoolExpr_AND
    [T_OpExpr 147 [T_Var (mkVar 1 3 23); T_Var (mkVar 1 1 23)];
     T_Var (mkVar 1 3 23)].

(** A layout for the examples: 16-byte alignment, a 56-byte data-store
    head followed by 24 bytes per column, and so on. *)
Definition sample_layout : Layout := {|
  STROMALIGN_LEN := 16;
  offsetof_kds_colmeta := fun n => 56 + 24 * n;
  offsetof_gscan_kparams := 160;
  offsetof_kresults_results := fun n => 16 + 4 * n
|}.

Definition sample_device : DeviceMemory := {|
  gpuMemAllocManaged := fun length =>
    if length <? 2 ^ 30 then CUDA_SUCCESS else CUDA_ERROR_OUT_OF_MEMORY
|}.

Definition sample_gss (dev_projection : bool) : GpuScanState :=
  {| gss.kern_params_length := 64; gss.scan_natts := 3; gss.curr_index := 0;
     gss.dev_quals :=
       Some (T_OpExpr 147 [T_Var (mkVar 1 3 23); T_Const 23 (Some 30)]);
     gss.dev_projection := dev_projection;
     gss.proj_tuple_sz := 48; gss.proj_extra_sz := 0;
     gss.base_proj := None |}.

(** A chunk of [nitems] items (rows, or blocks of 120 rows each). *)
Definition sample_pds (format : kds_format) (nitems nblocks_uncached : Z)
    (rows : list HeapTuple) : pgstrom_data_store :=
  {| pds.kds := {| kds.length := 65536; kds.nitems := nitems;
                   kds.nrooms := 1000; kds.format := format;
                   kds.nrows_per_block := 120; kds.table_oid := 16384 |};
     pds.nblocks_uncached := nblocks_uncached;
     pds.rows := rows |}.

(** PostgreSQL's default build (1GB segments of 8kB blocks), 128MB cache
    chunks, and an empty columnar cache. *)
Definition sample_storage : Storage := {|
  RELSEG_SIZE := 131072;
  CCACHE_CHUNK_NBLOCKS := 16384;
  ccacheChunk := Empty_set;
  ss_get_location := fun nblocks => 0;
  pgstrom_ccache_get_chunk := fun _ => None;
  pgstrom_ccache_is_empty := fun _ => true;
  pgstrom_ccache_load_chunk := fun _ => ERROR "no such chunk"
|}.

Definition sample_scan (rs_nblocks : Z) : HeapScanDesc :=
  {| scan.rs_nblocks := rs_nblocks; scan.rs_syncscan := false;
     scan.rs_cblock := InvalidBlockNumber; scan.rs_numblocks := 0 |}.

Definition sample_parallel_scan (phs_startblock phs_cblock : Z)
  : ParallelHeapScanDesc :=
  {| parallel_scan.phs_syncscan := false;
     parallel_scan.phs_startblock := phs_startblock;
     parallel_scan.phs_cblock := phs_cblock |}.

(** Error codes and block size for the examples. *)
Definition sample_errors : StromError := {|
  StromError_Success := 0;
  StromError_CpuReCheck := 1000;
  StromError_DataStoreNoSpace := 2001;
  BLCKSZ := 8192
|}.

(** An operator table for the examples: 147 is integer greater-than. *)
Definition sample_evaluator : HostEvaluator := {|
  ExecEvalOper := fun opfuncid args =>
    match opfuncid, args with
    | 147, [Some a; Some b] => Some (if b <? a then 1 else 0)
    | _, _ => None
    end
|}.

Definition sample_world : world.t :=
  {| world.answers := []; world.calls := [];
     world.gs_rtstat := {| rtstat.nitems_filtered := 0;
                           rtstat.ccache_count := 0 |} |}.

(** What a kernel leaves behind: an error code and its counters. *)
Definition sample_kernel_result (errcode nitems_in nitems_out : Z)
  : kern_gpuscan :=
  {| kern.kerror := {| kerror.errcode := errcode; kerror.kernel := 1;
                       kerror.lineno := 100 |};
     kern.nitems_in := nitems_in;
     kern.nitems_out := nitems_out;
     kern.extra_size := 0;
     kern.resultbuf := {| kresults.nrels := 1; kresults.nrooms := 0;
                          kresults.nitems := 0; kresults.all_visible := false;
                          kresults.results := [] |} |}.

(** Three-column rows; the sample qualifier asks for column 3 > 30. *)
Definition sample_rows : list HeapTuple :=
  [[Some 1; Some 10; Some 25]; [Some 2; Some 20; Some 31];
   [Some 3; None; Some 99];    [Some 4; Some 40; None]].

(** A plan with a device projection that puts column 3 first and column 1
    second; the plan's qualifier, [c3 > 30], refers to the projected row. *)
Definition sample_projected_cscan : CustomScan :=
  form_gpuscan_info
    {| flags := 0; custom_exprs := []; custom_private := [];
       custom_scan_tlist :=
         [ {| expr := T_Var (mkVar 1 3 23); resno := 1; resjunk := false |};
           {| expr := T_Var (mkVar 1 1 23); resno := 2; resjunk := false |} ] |}
    {| gs_info.ex := {| ex_type := 0; extnodename := None |};
       gs_info.kern_source := "";
       gs_info.extra_flags := 0;
       gs_info.proj_tuple_sz := 48;
       gs_info.proj_extra_sz := 0;
       gs_info.nrows_per_block := 120;
       gs_info.ccache_refs := [1; 3];
       gs_info.used_params := [];
       gs_info.dev_quals :=
         [T_OpExpr 147 [T_Var (mkVar INDEX_VAR 1 23); T_Const 23 (Some 30)]] |}.

(** A task flagged for fallback whose destination chunk holds a partial,
    unrelated result. *)
Definition sample_fallback_task : GpuScanTask :=
  {| gscan.task := {| task.kerror := kern_errorbuf_zero;
                      task.cpu_fallback := true |};
     gscan.with_nvme_strom := false;
     gscan.with_projection := false;
     gscan.pds_src := sample_pds KDS_FORMAT_ROW 4 0 sample_rows;
     gscan.pds_dst := Some (sample_pds KDS_FORMAT_ROW 1 0 [[Some 777; Some 0]]);
     gscan.kresults := false;
     gscan.kern := sample_kernel_result 2001 4 1 |}.

(** The task the factory makes of a chunk (for inputs it accepts). *)
Definition sample_task (dev_projection : bool) (pds_src : pgstrom_data_store)
  : GpuScanTask :=
  match gpuscan_create_task (H := sample_layout) (H0 := sample_device)
          (sample_gss dev_projection) pds_src with
  | OK gscan => gscan
  | ERROR _ => sample_fallback_task
  end.

(** Two chunks of four rows each: the kernel completes the first and
    reports 4 rows in, 2 out; it asks for a recheck of the second, a block
    chunk read by direct transfer. *)
Definition sample_jobs : list job :=
  [ (sample_task false (sample_pds KDS_FORMAT_ROW 4 0 sample_rows),
     sample_kernel_result 0 4 2, []);
    (sample_task false (sample_pds KDS_FORMAT_BLOCK 1 1 sample_rows),
     sample_kernel_result 1000 0 0, []) ].

Definition sample_rtstat : GpuScanRuntimeStat :=
  {| rtstat.nitems_filtered := 0; rtstat.ccache_count := 0 |}.

Definition sample_gs_info : GpuScanInfo :=
  {| gs_info.ex := {| ex_type := 0; extnodename := None |};
     gs_info.kern_source := "STATIC_FUNCTION(cl_bool) gpuscan_quals_eval";
     gs_info.extra_flags := 4294967295;
     gs_info.proj_tuple_sz := 48;
     gs_info.proj_extra_sz := 0;
     gs_info.nrows_per_block := 120;
     gs_info.ccache_refs := [1; 3];
     gs_info.used_params := [T_Const 23 (Some 30)];
     gs_info.dev_quals :=
       [T_OpExpr 147 [T_Var (mkVar 1 3 23); T_Const 23 (Some 30)]] |}.

Definition sample_cscan : CustomScan :=
  {| flags := 0; custom_exprs := []; custom_private := [];
     custom_scan_tlist := [] |}.

(** The cursor positions the workers can bring about, starting from the
    uninitialised cursor of a relation of 2^32-1 blocks and asking for 8
    blocks each time. *)
Inductive cursor_reached : ParallelHeapScanDesc -> Prop :=
| reached_init :
    cursor_reached (sample_parallel_scan InvalidBlockNumber InvalidBlockNumber)
| reached_next ps scan r :
    cursor_reached ps ->
    scan.rs_nblocks scan = 0xFFFFFFFF ->
    gpuscan_parallel_nextpage (H := sample_storage) 0 scan ps false 8 = Some r ->
    cursor_reached (nextpage.parallel_scan r).


(** ** Further sample inputs *)

(** A completed index-only task: the kernel kept rows 1 and 2 of the four
    rows of the source chunk; the result buffer has room for four. *)
Definition sample_index_only_task : GpuScanTask :=
  {| gscan.task := {| task.kerror := kern_errorbuf_zero;
                      task.cpu_fallback := false |};
     gscan.with_nvme_strom := false;
     gscan.with_projection := false;
     gscan.pds_src := sample_pds KDS_FORMAT_ROW 4 0 sample_rows;
     gscan.pds_dst := None;
     gscan.kresults := true;
     gscan.kern :=
       {| kern.kerror := kern_errorbuf_zero;
          kern.nitems_in := 4; kern.nitems_out := 2; kern.extra_size := 0;
          kern.resultbuf :=
            {| kresults.nrels := 1; kresults.nrooms := 4;
               kresults.nitems := 2; kresults.all_visible := false;
               kresults.results := [1; 2; 0; 0] |} |} |}.

(** Rows 1 and 2 of [sample_rows], and their projection on columns 3, 1. *)
Definition sample_selected_rows : list HeapTuple :=
  [[Some 2; Some 20; Some 31]; [Some 3; None; Some 99]].
Definition sample_projected_rows : list HeapTuple :=
  [[Some 31; Some 2]; [Some 99; Some 3]].

(** A completed task with a destination chunk of two projected rows. *)
Definition sample_destination_task : GpuScanTask :=
  {| gscan.task := {| task.kerror := kern_errorbuf_zero;
                      task.cpu_fallback := false |};
     gscan.with_nvme_strom := false;
     gscan.with_projection := false;
     gscan.pds_src := sample_pds KDS_FORMAT_ROW 4 0 sample_rows;
     gscan.pds_dst :=
       Some (sample_pds KDS_FORMAT_ROW 2 0 sample_projected_rows);
     gscan.kresults := false;
     gscan.kern := sample_kernel_result 0 4 2 |}.

(** A driver that gives the listed answers to the calls that return a
    result, in order, and succeeds afterwards. *)
Definition sample_world_answering (answers : list CUresult) : world.t :=
  {| world.answers := answers; world.calls := [];
     world.gs_rtstat := sample_rtstat |}.

(** A planner for the examples: the device runs operator 147 and handles
    integer variables and constants; variables are collected left to
    right; no variable has a type modifier; a single clause is its own
    conjunction. *)
Definition sample_planner : Planner := {|
  pgstrom_device_expression := fun node =>
    match node with
    | T_OpExpr opfuncid _ => opfuncid =? 147
    | T_Var v => vartype v =? 23
    | T_Const consttype _ => consttype =? 23
    | _ => false
    end;
  pull_vars_of_level := flat_map sample_pull_vars;
  vartypmod := fun _ => -1;
  make_flat_ands_explicit := fun clauses =>
    match clauses with
    | [clause] => clause
    | _ => T_BoolExpr_AND clauses
    end
|}.

(** A relation of three integer columns. *)
Definition sample_tupdesc : TupleDesc :=
  [ {| pg_attribute.attname := "a"; pg_attribute.atttypid := 23;
       pg_attribute.attlen := 4; pg_attribute.attnum := 1;
       pg_attribute.attbyval := true; pg_attribute.atttypmod := -1 |};
    {| pg_attribute.attname := "b"; pg_attribute.atttypid := 23;
       pg_attribute.attlen := 4; pg_attribute.attnum := 2;
       pg_attribute.attbyval := true; pg_attribute.atttypmod := -1 |};
    {| pg_attribute.attname := "c"; pg_attribute.atttypid := 23;
       pg_attribute.attlen := 4; pg_attribute.attnum := 3;
       pg_attribute.attbyval := true; pg_attribute.atttypmod := -1 |} ].

Definition sample_column (varattno resno : Z) : TargetEntry :=
  {| expr := T_Var (mkVar 1 varattno 23); resno := resno; resjunk := false |}.

(** [c > 30], over the base relation. *)
Definition sample_base_qual : Node :=
  T_OpExpr 147 [T_Var (mkVar 1 3 23); T_Const 23 (Some 30)].

(** A small cache for the examples: chunks of four blocks, the chunk of
    blocks 0..3 cached with two rows, everything else not. *)
Definition sample_cached_storage : Storage := {|
  RELSEG_SIZE := 131072;
  CCACHE_CHUNK_NBLOCKS := 4;
  ccacheChunk := Z;
  ss_get_location := fun nblocks => 0;
  pgstrom_ccache_get_chunk := fun page => if page =? 0 then Some 0 else None;
  pgstrom_ccache_is_empty := fun _ => false;
  pgstrom_ccache_load_chunk := fun _ =>
    OK (sample_pds KDS_FORMAT_COLUMN 2 0 sample_selected_rows)
|}.

(** A relation of ten blocks with one row per block, scanned serially
    from block 6 without NVMe-Strom; a row chunk takes three rows. *)
Definition sample_heap : HeapAccess := {|
  heap_beginscan :=
    {| heapscan.desc :=
         {| scan.rs_nblocks := 10; scan.rs_syncscan := false;
            scan.rs_cblock := 0; scan.rs_numblocks := InvalidBlockNumber |};
       heapscan.rs_inited := false;
       heapscan.rs_startblock := 6;
       heapscan.rs_parallel := None |};
  PDS_init_heapscan_state := None;
  RelationGetRelid := 16384;
  pgstrom_chunk_size := 65536;
  PDS_create_block := fun _ => ERROR "no NVMe-Strom";
  PDS_exec_heapscan := fun _ page pds =>
    if kds.nitems (pds.kds pds) <? 3 then
      Some {| pds.kds :=
                {| kds.length := kds.length (pds.kds pds);
                   kds.nitems := kds.nitems (pds.kds pds) + 1;
                   kds.nrooms := kds.nrooms (pds.kds pds);
                   kds.format := kds.format (pds.kds pds);
                   kds.nrows_per_block := kds.nrows_per_block (pds.kds pds);
                   kds.table_oid := kds.table_oid (pds.kds pds) |};
              pds.nblocks_uncached := pds.nblocks_uncached pds;
              pds.rows := pds.rows pds ++ [[Some page]] |}
    else None
|}.

(** The task state before the first call. *)
Definition sample_gts (ccache_refs : bool) : GpuTaskState :=
  {| gts.ss_currentScanDesc := None;
     gts.outer_pds_suspend := None;
     gts.nvme_sstate := None;
     gts.ccache_refs := ccache_refs |}.

(** A worker of a parallel scan of the relation of twenty blocks, before
    its first call: the shared cursor starts at block 5. *)
Definition sample_parallel_gts : GpuTaskState :=
  {| gts.ss_currentScanDesc :=
       Some {| heapscan.desc :=
                 {| scan.rs_nblocks := 20; scan.rs_syncscan := false;
                    scan.rs_cblock := 0;
                    scan.rs_numblocks := InvalidBlockNumber |};
               heapscan.rs_inited := false;
               heapscan.rs_startblock := 5;
               heapscan.rs_parallel := Some (sample_parallel_scan 5 5) |};
     gts.outer_pds_suspend := None;
     gts.nvme_sstate := None;
     gts.ccache_refs := false |}.

(** A shared state of 44 bytes and a parallel scan descriptor of 100. *)
Definition sample_coordinate_memory : CoordinateMemory := {|
  sizeof_GpuScanSharedState := 44;
  heap_parallelscan_estimate := 100
|}.

(** A catalogue for the examples: the usual types of variables and
    constants, [bool] for an operator; the system columns [ctid] and
    [tableoid]; device types passed by value. *)
Definition sample_catalog : Catalog := {|
  exprType := fun node =>
    match node with
    | T_Var var => vartype var
    | T_Const consttype _ => consttype
    | _ => 16
    end;
  SystemAttributeDefinition := fun attno =>
    if attno =? SelfItemPointerAttributeNumber then
      OK {| pg_attribute.attname := "ctid"; pg_attribute.atttypid := 27;
            pg_attribute.attlen := 6; pg_attribute.attnum := attno;
            pg_attribute.attbyval := false; pg_attribute.atttypmod := -1 |}
    else if attno =? TableOidAttributeNumber then
      OK {| pg_attribute.attname := "tableoid"; pg_attribute.atttypid := 26;
            pg_attribute.attlen := 4; pg_attribute.attnum := attno;
            pg_attribute.attbyval := true; pg_attribute.atttypmod := -1 |}
    else ERROR "invalid system attribute number";
  type_byval := fun _ => true;
  extra_sz := fun _ => 0
|}.

(** [SELECT c, c > 30, ctid], with column [b] carried along as junk. *)
Definition sample_projection_tlist : list TargetEntry :=
  [ sample_column 3 1;
    {| expr := sample_base_qual; resno := 2; resjunk := false |};
    {| expr := T_Var (mkVar 1 (-1) 27); resno := 3; resjunk := false |};
    {| expr := T_Var (mkVar 1 2 23); resno := 4; resjunk := true |} ].

(** * Properties *)

(** ** Machine integers *)

Lemma uint32_id z : is_uint32 z -> uint32 z = z.
Proof. intros H. apply Z.mod_small, H. Qed.

Lemma uint64_id z : is_uint64 z -> uint64 z = z.
Proof. intros H. apply Z.mod_small, H. Qed.

Lemma uint32_range z : is_uint32 (uint32 z).
Proof. apply Z.mod_pos_bound. lia. Qed.

Lemma uint64_range z : is_uint64 (uint64 z).
Proof. apply Z.mod_pos_bound. lia. Qed.

Lemma long_of_uint32 z : is_uint32 z -> long z = z.
Proof.
  intros [H0 H1]. unfold long.
  rewrite Z.mod_small; lia.
Qed.


(** ** The [result] monad and [foreach] *)

Lemma bind_OK {A B} (m : result A) (f : A -> result B) (b : B) :
  m ≫= f = OK b -> exists a, m = OK a /\ f a = OK b.
Proof. destruct m as [a | msg]; [eauto | discriminate]. Qed.

Lemma bind_OK_l {A B} (m : result A) (f : A -> result B) (a : A) :
  m = OK a -> m ≫= f = f a.
Proof. by intros ->. Qed.

(** Peel one [x ← m; k] off a hypothesis that says the whole returned. *)
Tactic Notation "bind_inv" hyp(H) "as" simple_intropattern(x) ident(Hx) :=
  apply bind_OK in H as (x & Hx & H).

Lemma foreach_app {A S} (l1 l2 : list A) (body : S -> A -> result S) s :
  foreach (l1 ++ l2) body s = foreach l1 body s ≫= foreach l2 body.
Proof.
  revert s. induction l1 as [| x l1 IH]; intros s; [reflexivity |].
  cbn [app foreach]. destruct (body s x) as [s' | msg]; [apply IH | reflexivity].
Qed.

(** A loop that only checks: it returns iff every element passes. *)
Lemma foreach_check_OK {A} (l : list A) (check : A -> result ()) u :
  foreach l (fun _ x => check x) () = OK u <-> Forall (fun x => check x = OK ()) l.
Proof.
  destruct u. induction l as [| x l IH]; cbn [foreach].
  - split; [constructor | reflexivity].
  - destruct (check x) as [[] | msg] eqn:E; cbn.
    + rewrite IH. split; [by constructor | by inversion 1].
    + split; [discriminate | inversion 1; congruence].
Qed.

(** ** form/deform of the plan-node private fields *)

(** What [deform_gpuscan_info] reads back from a formed plan node. *)
Lemma deform_form_gpuscan_info_result cscan info :
  GpuScanInfo_wf info ->
  deform_gpuscan_info (form_gpuscan_info cscan info) =
  OK {| gs_info.ex := {| ex_type := 0; extnodename := None |};
        gs_info.kern_source := gs_info.kern_source info;
        gs_info.extra_flags := gs_info.extra_flags info;
        gs_info.proj_tuple_sz := gs_info.proj_tuple_sz info;
        gs_info.proj_extra_sz := gs_info.proj_extra_sz info;
        gs_info.nrows_per_block := gs_info.nrows_per_block info;
        gs_info.ccache_refs := gs_info.ccache_refs info;
        gs_info.used_params := gs_info.used_params info;
        gs_info.dev_quals := gs_info.dev_quals info |}.
Proof.
  intros (Hf & Ht & He & Hn).
  cbv -[long uint32].
  rewrite !long_of_uint32, !uint32_id by assumption. reflexivity.
Qed.

(** C10: deforming the private fields that [form_gpuscan_info] stored gives
    back a [GpuScanInfo] with the same kern_source, extra_flags,
    proj_tuple_sz, proj_extra_sz, nrows_per_block, ccache_refs, used_params
    and dev_quals. *)
Theorem deform_form_gpuscan_info (cscan : CustomScan) (info : GpuScanInfo) :
  GpuScanInfo_wf info ->
  exists info',
    deform_gpuscan_info (form_gpuscan_info cscan info) = OK info' /\
    gs_info.kern_source info' = gs_info.kern_source info /\
    gs_info.extra_flags info' = gs_info.extra_flags info /\
    gs_info.proj_tuple_sz info' = gs_info.proj_tuple_sz info /\
    gs_info.proj_extra_sz info' = gs_info.proj_extra_sz info /\
    gs_info.nrows_per_block info' = gs_info.nrows_per_block info /\
    gs_info.ccache_refs info' = gs_info.ccache_refs info /\
    gs_info.used_params info' = gs_info.used_params info /\
    gs_info.dev_quals info' = gs_info.dev_quals info.
Proof.
  intros Hwf. eexists. split.
  - apply deform_form_gpuscan_info_result, Hwf.
  - repeat split.
Qed.

(** The round trip restores the whole record when [ex] was zeroed, as
    [palloc0] leaves it. *)
Lemma deform_form_gpuscan_info_eq cscan info :
  GpuScanInfo_wf info ->
  gs_info.ex info = {| ex_type := 0; extnodename := None |} ->
  deform_gpuscan_info (form_gpuscan_info cscan info) = OK info.
Proof.
  intros Hwf Hex. rewrite deform_form_gpuscan_info_result by assumption.
  destruct info; simpl in *. by subst.
Qed.

(** Forming touches nothing but the two private lists. *)
Lemma form_gpuscan_info_frame cscan info :
  flags (form_gpuscan_info cscan info) = flags cscan /\
  custom_scan_tlist (form_gpuscan_info cscan info) = custom_scan_tlist cscan.
Proof. split; reflexivity. Qed.

Lemma deform_form_gpuscan_info_witness :
  GpuScanInfo_wf sample_gs_info /\
  exists info',
    deform_gpuscan_info (form_gpuscan_info sample_cscan sample_gs_info)
      = OK info' /\
    gs_info.kern_source info' = gs_info.kern_source sample_gs_info /\
    gs_info.extra_flags info' = gs_info.extra_flags sample_gs_info /\
    gs_info.proj_tuple_sz info' = gs_info.proj_tuple_sz sample_gs_info /\
    gs_info.proj_extra_sz info' = gs_info.proj_extra_sz sample_gs_info /\
    gs_info.nrows_per_block info' = gs_info.nrows_per_block sample_gs_info /\
    gs_info.ccache_refs info' = gs_info.ccache_refs sample_gs_info /\
    gs_info.used_params info' = gs_info.used_params sample_gs_info /\
    gs_info.dev_quals info' = gs_info.dev_quals sample_gs_info.
Proof.
  assert (Hwf : GpuScanInfo_wf sample_gs_info)
    by (unfold GpuScanInfo_wf, is_uint32; simpl; lia).
  split; [exact Hwf |].
  exact (deform_form_gpuscan_info sample_cscan sample_gs_info Hwf).
Defined.

(** ** The qualifier code generator *)

Section codegen_props.
Context `{Codegen}.

Lemma string_app_assoc (s1 s2 s3 : string) :
  (s1 +:+ s2) +:+ s3 = s1 +:+ (s2 +:+ s3).
Proof.
  induction s1 as [| c s1 IH]; [reflexivity |].
  change (String c ((s1 +:+ s2) +:+ s3) = String c (s1 +:+ (s2 +:+ s3))).
  by rewrite IH.
Qed.

Lemma data_app buf1 buf2 : data (buf1 ++ buf2) = data buf1 +:+ data buf2.
Proof.
  induction buf1 as [| f buf1 IH]; [reflexivity |].
  change (render f +:+ data (buf1 ++ buf2) =
          (render f +:+ data buf1) +:+ data buf2).
  by rewrite IH, string_app_assoc.
Qed.

(** C7: for an absent device predicate the generator never fails, leaves
    the context alone and appends exactly the two predicate functions
    (tuple and column layout) whose only statement is [return true]. *)
Theorem codegen_gpuscan_quals_null (kern : StringInfo)
    (context : codegen_context) (scanrelid : Z) :
  exists kern',
    codegen_gpuscan_quals kern context scanrelid None = OK (kern', context) /\
    data kern' = data kern +:+ quals_always_true.
Proof.
  eexists. split; [reflexivity |].
  unfold appendStringInfo. rewrite data_app. reflexivity.
Qed.

(** *** Variable loads *)

Lemma check_used_var_OK scanrelid var :
  check_used_var scanrelid var = OK () ->
  varno var = scanrelid /\ 0 < varattno var /\
  exists dtype, pgstrom_devtype_lookup (vartype var) = Some dtype.
Proof.
  unfold check_used_var.
  destruct (varno var =? scanrelid) eqn:E1; [| discriminate].
  destruct (varattno var =? 0) eqn:E2; [discriminate |].
  destruct (varattno var <? 0) eqn:E3; [discriminate |].
  destruct (pgstrom_devtype_lookup (vartype var)) as [dtype |]; [| discriminate].
  intros _. repeat split; [lia | lia | eauto].
Qed.

Lemma tuple_loads_app b1 b2 :
  tuple_loads (b1 ++ b2) = tuple_loads b1 ++ tuple_loads b2.
Proof. apply omap_app. Qed.

Lemma column_loads_app b1 b2 :
  column_loads (b1 ++ b2) = column_loads b1 ++ column_loads b2.
Proof. apply omap_app. Qed.

Lemma direct_vrefs_app b1 b2 :
  direct_vrefs (b1 ++ b2) = direct_vrefs b1 ++ direct_vrefs b2.
Proof. apply omap_app. Qed.

Lemma tuple_loads_load label a type_name b :
  tuple_loads (tuple_load label a type_name :: b) = a :: tuple_loads b.
Proof. reflexivity. Qed.

Lemma tuple_loads_next b : tuple_loads (tuple_next :: b) = tuple_loads b.
Proof. reflexivity. Qed.

Lemma column_loads_load label a type_name b :
  column_loads (column_load label a type_name :: b) = a :: column_loads b.
Proof. reflexivity. Qed.

Lemma find_varattno (vars : list Var) (anum : Z) :
  match find (fun var => varattno var =? anum) vars with
  | Some var => varattno var = anum /\ var ∈ vars
  | None => anum ∉ varattno <$> vars
  end.
Proof.
  induction vars as [| v vars IH]; cbn [find].
  - intros Hin. by apply elem_of_nil in Hin.
  - destruct (varattno v =? anum) eqn:E.
    + split; [lia | left].
    + destruct (find _ vars) as [var |].
      * destruct IH as [IH1 IH2]. split; [exact IH1 | by right].
      * rewrite fmap_cons. intros [Hin | Hin]%elem_of_cons; [lia | by apply IH].
Qed.

(** The walk over [anums]: what it appends to the two bodies. *)
Lemma quals_walk_OK context varattno_max anums tfunc cfunc tfunc' cfunc' :
  foreach anums (quals_walk_attribute context varattno_max) (tfunc, cfunc)
    = OK (tfunc', cfunc') ->
  exists walk cols,
    tfunc' = tfunc ++ walk /\ cfunc' = cfunc ++ cols /\
    Forall is_walk_step walk /\
    tuple_loads walk =
      filter (fun a => a ∈ varattno <$> context.used_vars context) anums /\
    column_loads cols = tuple_loads walk.
Proof.
  revert tfunc cfunc.
  induction anums as [| anum anums IH]; intros tfunc cfunc Hrun.
  - cbn in Hrun. injection Hrun as <- <-. exists [], [].
    rewrite !app_nil_r. repeat split. constructor.
  - cbn [foreach] in Hrun. bind_inv Hrun as [tf1 cf1] Ha.
    apply IH in Hrun as (walk & cols & -> & -> & Hstep & Hloads & Hcols).
    unfold quals_walk_attribute in Ha.
    pose proof (find_varattno (context.used_vars context) anum) as Hfind.
    destruct (find _ (context.used_vars context)) as [var |].
    + destruct Hfind as [Hatt Hin].
      bind_inv Ha as [tf0 cf0] Hld.
      bind_inv Hld as a Hty. injection Hld as <- <-. injection Ha as <- <-.
      assert (Hmem : anum ∈ varattno <$> context.used_vars context).
      { subst anum. by apply list_elem_of_fmap_2. }
      unfold appendStringInfo.
      set (ld := tuple_load (context.var_label context) (varattno var) a).
      set (cl := column_load (context.var_label context) (varattno var) a).
      destruct (anum <? varattno_max);
        [exists (ld :: tuple_next :: walk), (cl :: cols)
        |exists (ld :: walk), (cl :: cols)];
        (split; [by rewrite <- ?app_assoc |]);
        (split; [by rewrite <- ?app_assoc |]);
        (split; [repeat constructor; exact Hstep |]);
        rewrite filter_cons_True by exact Hmem; subst ld cl;
        rewrite !tuple_loads_load, ?tuple_loads_next, column_loads_load,
          Hcols, Hloads, Hatt; split; reflexivity.
    + cbn in Ha. injection Ha as <- <-.
      unfold appendStringInfo.
      destruct (anum <? varattno_max).
      * exists (tuple_next :: walk), cols.
        rewrite <- app_assoc. repeat split; [by constructor | |].
        -- rewrite filter_cons_False by exact Hfind. exact Hloads.
        -- exact Hcols.
      * exists walk, cols. repeat split; [exact Hstep | | exact Hcols].
        rewrite filter_cons_False by exact Hfind. exact Hloads.
Qed.

(** The declaration loop: declarations only, and the largest attribute. *)
Lemma quals_declare_OK context vars temp0 m0 temp m :
  foreach vars (quals_declare_var context) (temp0, m0) = OK (temp, m) ->
  exists decls,
    temp = temp0 ++ decls /\ Forall is_declaration decls /\
    m0 <= m /\ forall a, a ∈ varattno <$> vars -> a <= m.
Proof.
  revert temp0 m0. induction vars as [| var vars IH]; intros temp0 m0 Hrun.
  - cbn in Hrun. injection Hrun as <- <-. exists [].
    rewrite app_nil_r. repeat split; [constructor | lia |].
    intros a Hin. by apply elem_of_nil in Hin.
  - cbn [foreach] in Hrun. bind_inv Hrun as [temp1 m1] Ha.
    unfold quals_declare_var in Ha. bind_inv Ha as ty Hty. injection Ha as <- <-.
    apply IH in Hrun as (decls & -> & Hdecl & Hle & Hmax).
    unfold appendStringInfo. eexists (_ :: decls). rewrite <- app_assoc.
    split; [reflexivity |]. split; [by constructor |]. split; [lia |].
    intros b [-> | Hin]%elem_of_cons; [lia | by apply Hmax].
Qed.

Lemma StronglySorted_seqZ m n : StronglySorted Z.lt (seqZ m n).
Proof.
  destruct (Z.le_gt_cases n 0) as [Hn | Hn].
  { rewrite seqZ_nil by lia. constructor. }
  rewrite <- (Z2Nat.id n) by lia. generalize (Z.to_nat n) as k. clear.
  intros k. revert m. induction k as [| k IH]; intros m.
  - rewrite seqZ_nil by lia. constructor.
  - rewrite seqZ_cons by lia. constructor.
    + replace (Z.pred (Z.of_nat (S k))) with (Z.of_nat k) by lia. apply IH.
    + apply Forall_seqZ. lia.
Qed.

Lemma StronglySorted_filter_lt (P : Z -> Prop) `{!forall a, Decision (P a)} l :
  StronglySorted Z.lt l -> StronglySorted Z.lt (filter P l).
Proof.
  induction 1 as [| a l Hs IH Hall]; [constructor |].
  rewrite filter_cons. destruct (decide (P a)); [| exact IH].
  constructor; [exact IH |].
  apply Forall_forall. intros b [_ Hb]%list_elem_of_filter.
  by eapply Forall_forall in Hall.
Qed.

Lemma Forall_walk_no_vref walk :
  Forall is_walk_step walk -> direct_vrefs walk = [].
Proof.
  induction 1 as [| f walk Hf _ IH]; [reflexivity |].
  destruct f; try done; exact IH.
Qed.

Lemma Forall_declaration_quiet decls :
  Forall is_declaration decls ->
  direct_vrefs decls = [] /\ tuple_loads decls = [].
Proof.
  induction 1 as [| f decls Hf _ IH]; [done |].
  destruct f; try done; exact IH.
Qed.

Lemma Forall_declaration_columns decls :
  Forall is_declaration decls -> column_loads decls = [].
Proof.
  induction 1 as [| f decls Hf _ IH]; [done |].
  destruct f; try done; exact IH.
Qed.

(** The direct branch: one [vref] per variable and nothing else. *)
Lemma quals_vref_direct_OK context vars tfunc cfunc tfunc' cfunc' :
  foreach vars (quals_vref_var context) (tfunc, cfunc) = OK (tfunc', cfunc') ->
  exists vt vc,
    tfunc' = tfunc ++ vt /\ cfunc' = cfunc ++ vc /\
    direct_vrefs vt = varattno <$> vars /\ tuple_loads vt = [] /\
    (tuple_begin ∉ vt) /\ (tuple_next ∉ vt) /\ (tuple_end ∉ vt).
Proof.
  revert tfunc cfunc. induction vars as [| var vars IH]; intros tfunc cfunc Hrun.
  - cbn in Hrun. injection Hrun as <- <-. exists [], [].
    rewrite !app_nil_r. repeat split; apply not_elem_of_nil.
  - cbn [foreach] in Hrun. bind_inv Hrun as [tf1 cf1] Ha.
    unfold quals_vref_var in Ha.
    destruct (varattno var <=? 0); [discriminate |].
    bind_inv Ha as ty Hty. injection Ha as <- <-.
    apply IH in Hrun as (vt & vc & -> & -> & Hv & Hl & Hb & Hn & He).
    unfold appendStringInfo. eexists (_ :: vt), (_ :: vc).
    rewrite <- !app_assoc. split; [reflexivity |]. split; [reflexivity |].
    split; [cbn; by rewrite <- Hv |]. split; [exact Hl |].
    repeat split; intros [? | ?]%elem_of_cons; done.
Qed.

Lemma string_app_nil_r (s : string) : s +:+ "" = s.
Proof.
  induction s as [| c s IH]; [reflexivity |].
  change (String c (s +:+ "") = String c s). by rewrite IH.
Qed.

Lemma devtype_name_OK (var : Var) (type_name : string) :
  devtype_name var = OK type_name ->
  type_name = var_type_name var /\
  is_Some (pgstrom_devtype_lookup (vartype var)).
Proof.
  unfold devtype_name, var_type_name.
  destruct (pgstrom_devtype_lookup (vartype var)) as [dtype |];
    [| discriminate].
  intros [= <-]. split; [reflexivity | by eexists].
Qed.

(** A pass that does not load at the cursor begins with one step. *)
Lemma forward_pass_step (label : string) (cursor : Z) (loaded : list Var) :
  match loaded with
  | var :: _ => cursor < varattno var
  | [] => False
  end ->
  forward_pass label cursor loaded
  = ("  EXTRACT_HEAP_TUPLE_NEXT(addr);" +:+ LF)
      +:+ forward_pass label (cursor + 1) loaded.
Proof.
  destruct loaded as [| var loaded]; [done |]. intros Hlt.
  cbn [forward_pass].
  replace (Z.to_nat (varattno var - cursor))
    with (S (Z.to_nat (varattno var - (cursor + 1)))) by lia.
  cbn [next_steps]. by rewrite !string_app_assoc.
Qed.

(** The declaration loop, as text; the largest attribute number is one of
    the variables'. *)
Lemma quals_declare_text context vars temp0 m0 temp m :
  foreach vars (quals_declare_var context) (temp0, m0) = OK (temp, m) ->
  exists decls,
    temp = temp0 ++ decls /\
    data decls
    = concat_text (var_declaration_text (context.var_label context)) vars /\
    (m = m0 \/ m ∈ varattno <$> vars).
Proof.
  revert temp0 m0. induction vars as [| var vars IH]; intros temp0 m0 Hrun.
  - cbn in Hrun. injection Hrun as <- <-. exists [].
    rewrite app_nil_r. repeat split. by left.
  - cbn [foreach] in Hrun. bind_inv Hrun as [temp1 m1] Ha.
    unfold quals_declare_var in Ha. bind_inv Ha as ty Hty. injection Ha as <- <-.
    apply devtype_name_OK in Hty as [-> _].
    apply IH in Hrun as (decls & -> & Htext & Hmax).
    unfold appendStringInfo. eexists (_ :: decls). rewrite <- app_assoc.
    split; [reflexivity |]. split.
    + change (data (?f :: decls)) with (render f +:+ data decls).
      rewrite Htext. reflexivity.
    + rewrite fmap_cons. destruct Hmax as [-> | Hin].
      * destruct (Z.max_spec m0 (varattno var)) as [[_ ->] | [_ ->]];
          [right; by left | by left].
      * right. by right.
Qed.

(** The walk over the attributes [cursor] .. [varattno_max], as text: a
    forward pass from [cursor], and one column seek per loaded variable. *)
Lemma quals_walk_text context varattno_max (k : nat) cursor
    tfunc cfunc tfunc' cfunc' :
  cursor + Z.of_nat k = varattno_max + 1 ->
  (k <> 0%nat -> varattno_max ∈ varattno <$> context.used_vars context) ->
  foreach (seqZ cursor (Z.of_nat k))
    (quals_walk_attribute context varattno_max) (tfunc, cfunc)
    = OK (tfunc', cfunc') ->
  exists walk cols loaded,
    tfunc' = tfunc ++ walk /\ cfunc' = cfunc ++ cols /\
    varattno <$> loaded
    = filter (fun a => a ∈ varattno <$> context.used_vars context)
        (seqZ cursor (Z.of_nat k)) /\
    Forall (fun var => var ∈ context.used_vars context) loaded /\
    data walk = forward_pass (context.var_label context) cursor loaded /\
    data cols
    = concat_text (column_seek_text (context.var_label context)) loaded.
Proof.
  revert cursor tfunc cfunc.
  induction k as [| k IH]; intros cursor tfunc cfunc Hend Hmax Hrun.
  - cbn in Hrun. injection Hrun as <- <-. exists [], [], [].
    rewrite !app_nil_r. repeat split. constructor.
  - rewrite seqZ_cons in Hrun |- * by lia.
    replace (Z.pred (Z.of_nat (S k))) with (Z.of_nat k) in Hrun |- * by lia.
    replace (Z.succ cursor) with (cursor + 1) in Hrun |- * by lia.
    cbn [foreach] in Hrun. bind_inv Hrun as [tf1 cf1] Ha.
    unfold quals_walk_attribute in Ha.
    pose proof (find_varattno (context.used_vars context) cursor) as Hfind.
    destruct (cursor <? varattno_max) eqn:Hlt;
      [apply Z.ltb_lt in Hlt | apply Z.ltb_ge in Hlt].
    + (* the walk goes on *)
      apply IH in Hrun
        as (walk & cols & loaded & -> & -> & Hloaded & Hin & Hwalk & Hcols);
        [| lia | intros _; apply Hmax; lia].
      clear IH.
      assert (Hrest :
        forward_pass (context.var_label context) cursor loaded
        = ("  EXTRACT_HEAP_TUPLE_NEXT(addr);" +:+ LF)
            +:+ forward_pass (context.var_label context) (cursor + 1) loaded).
      { apply forward_pass_step.
        assert (Hm : varattno_max ∈ varattno <$> loaded).
        { rewrite Hloaded. apply list_elem_of_filter.
          split; [apply Hmax; lia |]. apply elem_of_seqZ. lia. }
        destruct loaded as [| var loaded]; [by apply elem_of_nil in Hm |].
        assert (Hv : varattno var ∈ varattno <$> var :: loaded) by left.
        rewrite Hloaded in Hv.
        apply list_elem_of_filter in Hv as [_ Hv%elem_of_seqZ]. lia. }
      destruct (find _ (context.used_vars context)) as [var |].
      * destruct Hfind as [Hatt Hvar].
        bind_inv Ha as [tf0 cf0] Hld. bind_inv Hld as ty Hty.
        apply devtype_name_OK in Hty as [-> _].
        injection Hld as <- <-. injection Ha as <- <-.
        unfold appendStringInfo.
        eexists (_ :: _ :: walk), (_ :: cols), (var :: loaded).
        rewrite <- !app_assoc.
        split; [reflexivity |]. split; [reflexivity |]. split.
        { rewrite fmap_cons, filter_cons_True, Hloaded, Hatt; [done |].
          rewrite <- Hatt. by apply list_elem_of_fmap_2. }
        split; [by constructor |]. split.
        -- change (data (?f :: ?g :: walk))
             with (render f +:+ (render g +:+ data walk)).
           change (render (tuple_load ?l (varattno var) (var_type_name var)))
             with (var_load_text l var).
           change (render tuple_next)
             with ("  EXTRACT_HEAP_TUPLE_NEXT(addr);" +:+ LF).
           rewrite Hwalk. cbn [forward_pass].
           replace (Z.to_nat (varattno var - cursor)) with 0%nat by lia.
           rewrite Hatt, Hrest. reflexivity.
        -- change (data (?f :: cols)) with (render f +:+ data cols).
           rewrite Hcols. reflexivity.
      * cbn in Ha. injection Ha as <- <-. unfold appendStringInfo.
        exists (tuple_next :: walk), cols, loaded. rewrite <- !app_assoc.
        split; [reflexivity |]. split; [reflexivity |]. split.
        { by rewrite filter_cons_False. }
        split; [exact Hin |]. split; [| exact Hcols].
        change (data (tuple_next :: walk))
          with (render tuple_next +:+ data walk).
        by rewrite Hwalk, Hrest.
    + (* the last attribute *)
      assert (k = 0%nat) as -> by lia. clear IH.
      cbn in Hrun. injection Hrun as <- <-.
      destruct (find _ (context.used_vars context)) as [var |].
      * destruct Hfind as [Hatt Hvar].
        bind_inv Ha as [tf0 cf0] Hld. bind_inv Hld as ty Hty.
        apply devtype_name_OK in Hty as [-> _].
        injection Hld as <- <-. injection Ha as <- <-.
        unfold appendStringInfo. eexists [_], [_], [var].
        split; [reflexivity |]. split; [reflexivity |]. split.
        { cbn [fmap list_fmap]. rewrite filter_cons_True, Hatt; [done |].
          rewrite <- Hatt. by apply list_elem_of_fmap_2. }
        split; [by repeat constructor |].
        cbn [forward_pass].
        replace (Z.to_nat (varattno var - cursor)) with 0%nat by lia.
        by split.
      * exfalso. apply Hfind. replace cursor with varattno_max by lia.
        by apply Hmax.
Qed.

(** C8: in the generated predicate code, a qualifier with more than one
    used variable gets its variables loaded inside one
    EXTRACT_HEAP_TUPLE_BEGIN .. END walk, in strictly ascending attribute
    number, every referenced attribute once and nothing else: the text of
    the row-format function is the parameter and variable declarations
    followed by a single forward pass that starts at attribute 1, steps
    with EXTRACT_HEAP_TUPLE_NEXT up to each referenced attribute and loads
    it there, and the column-format function seeks the same variables in
    the same order.  A qualifier with exactly one used variable gets a
    direct [kern_get_datum_tuple] offset seek and no walk.  These bodies
    are what the kernel source gets between the heads and the return
    statements of the two predicate functions. *)
Theorem codegen_gpuscan_quals_var_loads (kern : StringInfo)
    (context : codegen_context) (scanrelid : Z) (quals : Node)
    (kern' : StringInfo) (context' : codegen_context) :
  codegen_gpuscan_quals kern context scanrelid (Some quals)
    = OK (kern', context') ->
  exists expr_code tfunc cfunc,
    pgstrom_codegen_expression quals context = OK (expr_code, context') /\
    kern' = kern ++ [text (gpuscan_quals_eval_text (data tfunc)
                             ("EVAL(" +:+ expr_code +:+ ")") (data cfunc))] /\
    data kern'
    = data kern +:+ predicate_functions_text (data tfunc)
                      ("EVAL(" +:+ expr_code +:+ ")") (data cfunc) /\
    let vars := context.used_vars context' in
    let attnos := varattno <$> vars in
    let label := context.var_label context' in
    let params := pgstrom_codegen_param_declarations context' in
    Forall (fun var => 0 < varattno var /\
                       is_Some (pgstrom_devtype_lookup (vartype var))) vars /\
    ((1 < length attnos)%nat ->
       (exists decls walk,
          tfunc = decls ++ [tuple_begin] ++ walk ++ [tuple_end] /\
          Forall is_declaration decls /\ Forall is_walk_step walk) /\
       StronglySorted Z.lt (tuple_loads tfunc) /\
       (forall a, a ∈ tuple_loads tfunc <-> a ∈ attnos) /\
       direct_vrefs tfunc = [] /\
       column_loads cfunc = tuple_loads tfunc /\
       exists loaded,
         varattno <$> loaded = tuple_loads tfunc /\
         Forall (fun var => var ∈ vars) loaded /\
         data tfunc
         = params +:+ concat_text (var_declaration_text label) vars
             +:+ forward_pass_text label loaded /\
         data cfunc
         = params +:+ concat_text (var_declaration_text label) vars
             +:+ concat_text (column_seek_text label) loaded) /\
    (length attnos = 1%nat ->
       direct_vrefs tfunc = attnos /\ tuple_loads tfunc = [] /\
       (tuple_begin ∉ tfunc) /\ (tuple_next ∉ tfunc) /\
       exists var,
         vars = [var] /\
         data tfunc
         = params +:+ var_declaration_text label var +:+ LF
             +:+ tuple_seek_text label var /\
         data cfunc
         = params +:+ var_declaration_text label var +:+ LF
             +:+ column_seek_text label var).
Proof.
  intros Hrun. unfold codegen_gpuscan_quals in Hrun.
  bind_inv Hrun as [expr_code ctx] Ha.
  bind_inv Hrun as u Ha0. bind_inv Hrun as [tfunc cfunc] Ha1.
  injection Hrun as <- <-.
  exists expr_code, tfunc, cfunc. split; [exact Ha |]. split; [reflexivity |].
  split.
  { unfold appendStringInfo. rewrite data_app.
    change (data [text ?s]) with (s +:+ ""). rewrite string_app_nil_r.
    reflexivity. }
  apply foreach_check_OK in Ha0.
  assert (Hpos : forall b, b ∈ varattno <$> context.used_vars ctx -> 0 < b).
  { intros b (var & -> & Hin)%list_elem_of_fmap.
    eapply Forall_forall in Ha0; [| exact Hin].
    by apply check_used_var_OK in Ha0 as (_ & Hp & _). }
  cbn zeta. rewrite length_fmap. split.
  { eapply Forall_impl; [exact Ha0 |]. cbn. intros var Hvar.
    apply check_used_var_OK in Hvar as (_ & Hp & dtype & Hdt).
    split; [exact Hp | by eexists]. }
  split.
  - intros Hlen.
    destruct (Z.of_nat (length (context.used_vars ctx)) <=? 1) eqn:E; [lia |].
    unfold quals_vref_walk in Ha1. bind_inv Ha1 as [temp vmax] Hd.
    bind_inv Ha1 as [tf cf] Ha2. injection Ha1 as <- <-.
    pose proof Hd as Hdt.
    apply quals_declare_OK in Hd as (decls & -> & Hdecl & _ & Hmax).
    apply quals_declare_text in Hdt as (decls' & Hdecls' & Hdtext & Hvmax).
    apply (app_inv_head []) in Hdecls' as <-.
    pose proof Ha2 as Hwt.
    apply quals_walk_OK in Ha2 as (walk & cols & -> & -> & Hstep & Hloads & Hcols).
    assert (Hin_max : vmax ∈ varattno <$> context.used_vars ctx).
    { destruct Hvmax as [-> | Hin]; [| exact Hin].
      destruct (context.used_vars ctx) as [| var vars]; [cbn in Hlen; lia |].
      exfalso. specialize (Hpos (varattno var) ltac:(by left)).
      specialize (Hmax (varattno var) ltac:(by left)). lia. }
    assert (Hvpos : 0 < vmax) by (by apply Hpos).
    replace vmax with (Z.of_nat (Z.to_nat vmax)) in Hwt at 1 by lia.
    apply quals_walk_text in Hwt
      as (walk' & cols' & loaded & Hw' & Hc' & Hloaded & Hin & Hwtext & Hctext);
      [| lia | intros _; exact Hin_max].
    apply app_inv_head in Hw' as <-. apply app_inv_head in Hc' as <-.
    replace (Z.of_nat (Z.to_nat vmax)) with vmax in Hloaded by lia.
    unfold appendStringInfo, appendStringInfoString in *.
    cbn [app] in *.
    assert (Hquiet := Forall_declaration_quiet _ Hdecl).
    destruct Hquiet as [Hdv Hdl].
    assert (Hall : tuple_loads
              (text (pgstrom_codegen_param_declarations ctx)
                 :: (decls ++ [tuple_begin]) ++ walk ++ [tuple_end])
            = tuple_loads walk).
    { change (text ?t :: ?r) with ([text t] ++ r).
      rewrite !tuple_loads_app, Hdl. cbn [tuple_loads omap app].
      by rewrite app_nil_r. }
    split; [| split; [| split; [| split; [| split]]]].
    + exists (text (pgstrom_codegen_param_declarations ctx) :: decls), walk.
      rewrite <- !app_assoc. split; [reflexivity |]. split; [| exact Hstep].
      by constructor.
    + rewrite <- app_assoc, Hall, Hloads.
      apply StronglySorted_filter_lt, StronglySorted_seqZ.
    + intros b. rewrite <- app_assoc, Hall, Hloads, list_elem_of_filter, elem_of_seqZ.
      split; [tauto |]. intros Hb. split; [exact Hb |].
      specialize (Hpos _ Hb). specialize (Hmax _ Hb). lia.
    + change (text ?t :: ?r) with ([text t] ++ r).
      rewrite !direct_vrefs_app, Hdv, (Forall_walk_no_vref _ Hstep). reflexivity.
    + change (text ?t :: ?r) with ([text t] ++ r).
      rewrite !column_loads_app, Hcols, (Forall_declaration_columns _ Hdecl).
      rewrite !tuple_loads_app, Hdl. cbn [tuple_loads column_loads omap app].
      by rewrite app_nil_r.
    + exists loaded. split; [by rewrite <- app_assoc, Hall, Hloads |].
      split; [exact Hin |]. split.
      * change (text ?t :: ?r) with ([text t] ++ r).
        rewrite !data_app, Hdtext, Hwtext. unfold forward_pass_text.
        cbn [data foldr render]. rewrite !string_app_nil_r.
        by rewrite !string_app_assoc.
      * change (text ?t :: ?r) with ([text t] ++ r).
        rewrite !data_app, Hdtext, Hctext.
        cbn [data foldr render]. by rewrite !string_app_nil_r.
  - intros Hlen.
    destruct (Z.of_nat (length (context.used_vars ctx)) <=? 1) eqn:E; [| lia].
    unfold quals_vref_direct in Ha1. pose proof Ha1 as Hone.
    apply quals_vref_direct_OK in Ha1 as (vt & vc & -> & -> & Hv & Hl & Hb & Hn & _).
    unfold appendStringInfoString. cbn [app].
    split; [exact Hv |]. split; [exact Hl |].
    split; [intros [? | ?]%elem_of_cons; done |].
    split; [intros [? | ?]%elem_of_cons; done |].
    destruct (context.used_vars ctx) as [| var [| var' vars]];
      [discriminate Hlen | | discriminate Hlen].
    exists var. split; [reflexivity |].
    cbn [foreach] in Hone. bind_inv Hone as [tf1 cf1] Hvar.
    unfold quals_vref_var in Hvar.
    destruct (varattno var <=? 0); [discriminate |].
    bind_inv Hvar as ty Hty. apply devtype_name_OK in Hty as [-> _].
    injection Hvar as <- <-.
    unfold appendStringInfo, appendStringInfoString in Hone.
    cbn [app] in Hone. injection Hone as <- <-.
    cbn [data foldr render]. rewrite !string_app_nil_r.
    unfold var_declaration_text, tuple_seek_text, column_seek_text,
      var_load_text.
    by rewrite !string_app_assoc.
Qed.

End codegen_props.

Section codegen_samples.
#[local] Existing Instance sample_codegen.

Lemma codegen_gpuscan_quals_var_loads_witness :
  Forall (fun quals =>
    exists kern' context',
      codegen_gpuscan_quals [] sample_context 1 (Some quals)
        = OK (kern', context') /\
      exists expr_code tfunc cfunc,
        pgstrom_codegen_expression quals sample_context
          = OK (expr_code, context') /\
        kern' = [] ++ [text (gpuscan_quals_eval_text (data tfunc)
                               ("EVAL(" +:+ expr_code +:+ ")") (data cfunc))] /\
        data kern'
        = data [] +:+ predicate_functions_text (data tfunc)
                        ("EVAL(" +:+ expr_code +:+ ")") (data cfunc) /\
        let vars := context.used_vars context' in
        let attnos := varattno <$> vars in
        let label := context.var_label context' in
        let params := pgstrom_codegen_param_declarations context' in
        Forall (fun var => 0 < varattno var /\
                           is_Some (pgstrom_devtype_lookup (vartype var)))
          vars /\
        ((1 < length attnos)%nat ->
           (exists decls walk,
              tfunc = decls ++ [tuple_begin] ++ walk ++ [tuple_end] /\
              Forall is_declaration decls /\ Forall is_walk_step walk) /\
           StronglySorted Z.lt (tuple_loads tfunc) /\
           (forall a, a ∈ tuple_loads tfunc <-> a ∈ attnos) /\
           direct_vrefs tfunc = [] /\
           column_loads cfunc = tuple_loads tfunc /\
           exists loaded,
             varattno <$> loaded = tuple_loads tfunc /\
             Forall (fun var => var ∈ vars) loaded /\
             data tfunc
             = params +:+ concat_text (var_declaration_text label) vars
                 +:+ forward_pass_text label loaded /\
             data cfunc
             = params +:+ concat_text (var_declaration_text label) vars
                 +:+ concat_text (column_seek_text label) loaded) /\
        (length attnos = 1%nat ->
           direct_vrefs tfunc = attnos /\ tuple_loads tfunc = [] /\
           (tuple_begin ∉ tfunc) /\ (tuple_next ∉ tfunc) /\
           exists var,
             vars = [var] /\
             data tfunc
             = params +:+ var_declaration_text label var +:+ LF
                 +:+ tuple_seek_text label var /\
             data cfunc
             = params +:+ var_declaration_text label var +:+ LF
                 +:+ column_seek_text label var))
    (* two variables, columns 3 and 1; one variable, column 3 *)
    [sample_quals; sample_base_qual].
Proof.
  constructor; [| constructor; [| constructor]].
  - eexists _, _. split; [vm_compute; reflexivity |].
    apply (codegen_gpuscan_quals_var_loads [] sample_context 1 sample_quals).
    vm_compute. reflexivity.
  - eexists _, _. split; [vm_compute; reflexivity |].
    apply (codegen_gpuscan_quals_var_loads [] sample_context 1
             sample_base_qual).
    vm_compute. reflexivity.
Defined.

(** The two texts the claim speaks of, for columns 1 and 3 of type int4:
    the forward pass steps twice between the loads. *)
Example forward_pass_text_sample :
  forward_pass_text "KVAR" [mkVar 1 1 23; mkVar 1 3 23] =
"  assert(htup != NULL);
  EXTRACT_HEAP_TUPLE_BEGIN(addr, kds, htup);
  KVAR_1 = pg_int4_datum_ref(kcxt,addr);
  EXTRACT_HEAP_TUPLE_NEXT(addr);
  EXTRACT_HEAP_TUPLE_NEXT(addr);
  KVAR_3 = pg_int4_datum_ref(kcxt,addr);
  EXTRACT_HEAP_TUPLE_END();
" /\
  tuple_seek_text "KVAR" (mkVar 1 3 23) =
"  addr = kern_get_datum_tuple(kds->colmeta,htup,2);
  KVAR_3 = pg_int4_datum_ref(kcxt,addr);
".
Proof. split; vm_compute; reflexivity. Qed.

End codegen_samples.
(** The text generated for the sample qualifier: attribute 1 is read
    first although the expression mentions attribute 3 first. *)
Example codegen_gpuscan_quals_sample :
  exists kern' context',
    codegen_gpuscan_quals (H := sample_codegen) [] sample_context 1
      (Some sample_quals) = OK (kern', context') /\
    data kern' =
"STATIC_FUNCTION(cl_bool)
gpuscan_quals_eval(kern_context *kcxt,
                   kern_data_store *kds,
                   ItemPointerData *t_self,
                   HeapTupleHeaderData *htup)
{
  void *addr __attribute__((unused));
  pg_int4_t KVAR_3;
  pg_int4_t KVAR_1;
  assert(htup != NULL);
  EXTRACT_HEAP_TUPLE_BEGIN(addr, kds, htup);
  KVAR_1 = pg_int4_datum_ref(kcxt,addr);
  EXTRACT_HEAP_TUPLE_NEXT(addr);
  EXTRACT_HEAP_TUPLE_NEXT(addr);
  KVAR_3 = pg_int4_datum_ref(kcxt,addr);
  EXTRACT_HEAP_TUPLE_END();

  return EVAL(pgfn_boolop_and(kcxt, pgfn_int4gt(kcxt, KVAR_3, KVAR_1), KVAR_3));
}

STATIC_FUNCTION(cl_bool)
gpuscan_quals_eval_column(kern_context *kcxt,
                          kern_data_store *kds,
                          cl_uint row_index)
{
  void *addr __attribute__((unused));
  pg_int4_t KVAR_3;
  pg_int4_t KVAR_1;
  addr = kern_get_datum_column(kds,0,row_index);
  KVAR_1 = pg_int4_datum_ref(kcxt,addr);
  addr = kern_get_datum_column(kds,2,row_index);
  KVAR_3 = pg_int4_datum_ref(kcxt,addr);

  return EVAL(pgfn_boolop_and(kcxt, pgfn_int4gt(kcxt, KVAR_3, KVAR_1), KVAR_3));
}

".
Proof.
  eexists _, _. split; [vm_compute; reflexivity |]. vm_compute. reflexivity.
Qed.

(** ** The task factory *)

Section create_task_props.
Context `{Layout} `{DeviceMemory}.

Lemma PDS_create_row_OK length pds_dst :
  PDS_create_row length = OK pds_dst ->
  kds.format (pds.kds pds_dst) = KDS_FORMAT_ROW /\
  kds.length (pds.kds pds_dst) = length /\
  pds.nblocks_uncached pds_dst = 0.
Proof.
  unfold PDS_create_row. destruct (gpuMemAllocManaged length); try discriminate.
  by intros [= <-].
Qed.

(** What a returned task looks like, by the branch taken. *)
Lemma gpuscan_create_task_OK gss pds_src gscan :
  gpuscan_create_task gss pds_src = OK gscan ->
  gscan.pds_src gscan = pds_src /\
  gscan.task gscan = {| task.kerror := kern_errorbuf_zero;
                        task.cpu_fallback := false |} /\
  gscan.with_nvme_strom gscan =
    bool_decide (kds.format (pds.kds pds_src) = KDS_FORMAT_BLOCK)
    && (0 <? pds.nblocks_uncached pds_src) /\
  if bool_decide (kds.format (pds.kds pds_src) = KDS_FORMAT_ROW)
     && negb (gss.dev_projection gss)
  then gscan.pds_dst gscan = None /\ gscan.kresults gscan = true /\
       kresults.nrooms (kern.resultbuf (gscan.kern gscan))
         = kds.nitems (pds.kds pds_src)
  else exists length pds_dst,
       gpuscan_dest_length gss pds_src = OK length /\
       PDS_create_row length = OK pds_dst /\
       gscan.pds_dst gscan = Some pds_dst /\ gscan.kresults gscan = false /\
       kresults.nrooms (kern.resultbuf (gscan.kern gscan)) = 0.
Proof.
  unfold gpuscan_create_task. intros Hrun.
  bind_inv Hrun as [pds_dst nresults] Hdst.
  destruct (gpuMemAllocManaged _); try discriminate.
  injection Hrun as <-. cbn.
  split; [reflexivity |]. split; [reflexivity |]. split; [reflexivity |].
  destruct (bool_decide _ && negb _).
  - by injection Hdst as <- <-.
  - bind_inv Hdst as length Hlen. bind_inv Hdst as d Hd.
    injection Hdst as <- <-. eauto 10.
Qed.

(** C5: a created task is index-only (no destination chunk, the result
    buffer of the task has room for [nitems] source-row offsets) exactly
    when the source chunk is in row layout, like every destination chunk,
    and no device projection is requested; in every other case it owns a
    row-layout destination chunk. *)
Theorem gpuscan_create_task_index_only (gss : GpuScanState)
    (pds_src : pgstrom_data_store) (gscan : GpuScanTask) :
  gpuscan_create_task gss pds_src = OK gscan ->
  (gscan.pds_dst gscan = None <->
     kds.format (pds.kds pds_src) = KDS_FORMAT_ROW /\
     gss.dev_projection gss = false) /\
  (gscan.pds_dst gscan = None ->
     gscan.kresults gscan = true /\
     kresults.nrooms (kern.resultbuf (gscan.kern gscan))
       = kds.nitems (pds.kds pds_src)) /\
  (kds.format (pds.kds pds_src) <> KDS_FORMAT_ROW \/
   gss.dev_projection gss = true ->
     exists pds_dst,
       gscan.pds_dst gscan = Some pds_dst /\
       kds.format (pds.kds pds_dst) = KDS_FORMAT_ROW /\
       gscan.kresults gscan = false).
Proof.
  intros Hrun. apply gpuscan_create_task_OK in Hrun as (_ & _ & _ & Hbr).
  destruct (bool_decide _ && negb _) eqn:E.
  - apply andb_true_iff in E as [Hrow%bool_decide_eq_true Hproj%negb_true_iff].
    destruct Hbr as (Hnone & Hk & Hrooms).
    split; [tauto |]. split; [tauto |].
    intros [Hne | Hp]; [contradiction | congruence].
  - destruct Hbr as (length & pds_dst & _ & Hrow & Hdst & Hk & _).
    apply PDS_create_row_OK in Hrow as (Hfmt & _ & _).
    split; [| split].
    + split; [congruence |]. intros [Hrow Hproj].
      rewrite Hproj, (bool_decide_eq_true_2 _ Hrow) in E. discriminate.
    + congruence.
    + eauto.
Qed.

(** With enough device memory the index-only case always returns. *)
Lemma gpuscan_create_task_index_only_total gss pds_src :
  (forall length, gpuMemAllocManaged length = CUDA_SUCCESS) ->
  kds.format (pds.kds pds_src) = KDS_FORMAT_ROW ->
  gss.dev_projection gss = false ->
  exists gscan, gpuscan_create_task gss pds_src = OK gscan.
Proof.
  intros Hmem Hrow Hproj. unfold gpuscan_create_task.
  rewrite Hproj, (bool_decide_eq_true_2 _ Hrow). cbn.
  rewrite Hmem. eauto.
Qed.

Lemma gpuscan_dest_length_OK gss pds_src length :
  gpuscan_dest_length gss pds_src = OK length ->
  exists index_sz tuple_sz,
    Size_of_double (PrimFloat.mul (double_of_uint 4) (expected_rows pds_src))
      = Some index_sz /\
    Size_of_double
      (PrimFloat.mul
         (PrimFloat.mul double_1_2 (double_of_uint (gss.proj_tuple_sz gss)))
         (expected_rows pds_src)) = Some tuple_sz /\
    length =
      uint64 (uint64 (STROMALIGN (offsetof_kds_colmeta (gss.scan_natts gss)) +
                      STROMALIGN index_sz) +
              STROMALIGN tuple_sz).
Proof.
  unfold gpuscan_dest_length, expected_rows. intros Hrun.
  destruct (decide _);
    destruct (Size_of_double (PrimFloat.mul (double_of_uint 4) _))
      as [index_sz |]; try discriminate;
    cbn in Hrun;
    destruct (Size_of_double (PrimFloat.mul (PrimFloat.mul _ _) _))
      as [tuple_sz |]; try discriminate;
    injection Hrun as <-; eauto.
Qed.

(** C6 (amended): the byte length of an allocated destination chunk is the
    aligned head for the scan's columns, plus the aligned row-index array
    (4 bytes per expected row), plus the aligned tuple area, where the
    tuple area is 1.2 x proj_tuple_sz x expected rows computed in double
    precision and truncated; the expected row count is the item count,
    times the rows per block for a block-layout source. *)
Theorem gpuscan_create_task_dest_length (gss : GpuScanState)
    (pds_src : pgstrom_data_store) (gscan : GpuScanTask)
    (pds_dst : pgstrom_data_store) :
  gpuscan_create_task gss pds_src = OK gscan ->
  gscan.pds_dst gscan = Some pds_dst ->
  exists index_sz tuple_sz,
    Size_of_double (PrimFloat.mul (double_of_uint 4) (expected_rows pds_src))
      = Some index_sz /\
    Size_of_double
      (PrimFloat.mul
         (PrimFloat.mul double_1_2 (double_of_uint (gss.proj_tuple_sz gss)))
         (expected_rows pds_src)) = Some tuple_sz /\
    kds.length (pds.kds pds_dst) =
      uint64 (uint64 (STROMALIGN (offsetof_kds_colmeta (gss.scan_natts gss)) +
                      STROMALIGN index_sz) +
              STROMALIGN tuple_sz) /\
    expected_rows pds_src =
      (if decide (kds.format (pds.kds pds_src) = KDS_FORMAT_BLOCK)
       then PrimFloat.mul (double_of_uint (kds.nitems (pds.kds pds_src)))
              (double_of_uint (kds.nrows_per_block (pds.kds pds_src)))
       else double_of_uint (kds.nitems (pds.kds pds_src))).
Proof.
  intros Hrun Hdst. apply gpuscan_create_task_OK in Hrun as (_ & _ & _ & Hbr).
  destruct (bool_decide _ && negb _).
  - destruct Hbr as (Hnone & _). congruence.
  - destruct Hbr as (length & d & Hlen & Hrow & Hd & _).
    assert (d = pds_dst) as -> by congruence.
    apply PDS_create_row_OK in Hrow as (_ & -> & _).
    apply gpuscan_dest_length_OK in Hlen as (index_sz & tuple_sz & Hi & Ht & ->).
    exists index_sz, tuple_sz. repeat split; assumption.
Qed.

End create_task_props.

Lemma gpuscan_create_task_index_only_witness :
  exists gscan,
    gpuscan_create_task (H := sample_layout) (H0 := sample_device)
      (sample_gss false) (sample_pds KDS_FORMAT_ROW 100 0 []) = OK gscan /\
    (gscan.pds_dst gscan = None <->
       kds.format (pds.kds (sample_pds KDS_FORMAT_ROW 100 0 []))
         = KDS_FORMAT_ROW /\
       gss.dev_projection (sample_gss false) = false) /\
    (gscan.pds_dst gscan = None ->
       gscan.kresults gscan = true /\
       kresults.nrooms (kern.resultbuf (gscan.kern gscan))
         = kds.nitems (pds.kds (sample_pds KDS_FORMAT_ROW 100 0 []))) /\
    (kds.format (pds.kds (sample_pds KDS_FORMAT_ROW 100 0 []))
       <> KDS_FORMAT_ROW \/
     gss.dev_projection (sample_gss false) = true ->
       exists pds_dst,
         gscan.pds_dst gscan = Some pds_dst /\
         kds.format (pds.kds pds_dst) = KDS_FORMAT_ROW /\
         gscan.kresults gscan = false).
Proof.
  eexists. split; [vm_compute; reflexivity |].
  apply (gpuscan_create_task_index_only (H := sample_layout)
           (H0 := sample_device) (sample_gss false)
           (sample_pds KDS_FORMAT_ROW 100 0 [])).
  vm_compute. reflexivity.
Defined.

(** The three kinds of source chunk, with and without device projection. *)
Example gpuscan_create_task_samples :
  let dst gss pds :=
    match gpuscan_create_task (H := sample_layout) (H0 := sample_device)
            gss pds with
    | OK gscan =>
        Some (kds.length ∘ pds.kds <$> gscan.pds_dst gscan,
              kresults.nrooms (kern.resultbuf (gscan.kern gscan)))
    | ERROR _ => None
    end in
  dst (sample_gss false) (sample_pds KDS_FORMAT_ROW 100 0 [])
    = Some (None, 100) /\
  dst (sample_gss true) (sample_pds KDS_FORMAT_ROW 100 0 [])
    = Some (Some 6288, 0) /\
  dst (sample_gss false) (sample_pds KDS_FORMAT_BLOCK 10 4 [])
    = Some (Some 74048, 0) /\
  dst (sample_gss false) (sample_pds KDS_FORMAT_COLUMN 100 0 [])
    = Some (Some 6288, 0).
Proof. vm_compute. repeat split. Qed.

(** The tuple area of that destination chunk: the double product
    1.2 * 48 * 100 is just below 5760 and truncates to 5759. *)
Example tuple_area_truncates :
  Size_of_double
    (PrimFloat.mul (PrimFloat.mul double_1_2 (double_of_uint 48))
       (double_of_uint 100)) = Some 5759 /\
  spec_dest_capacity 48 100 = 5760.
Proof. vm_compute. split; reflexivity. Qed.

(** C6, as stated, fails: for a 100-row chunk projected to 48-byte tuples
    the destination chunk is 6288 bytes long, not
    ceil(1.2 * 48 * 100) = 5760. *)
Lemma gpuscan_create_task_capacity_counterexample :
  exists gscan pds_dst,
    gpuscan_create_task (H := sample_layout) (H0 := sample_device)
      (sample_gss true) (sample_pds KDS_FORMAT_ROW 100 0 []) = OK gscan /\
    gscan.pds_dst gscan = Some pds_dst /\
    kds.length (pds.kds pds_dst) = 6288 /\
    kds.length (pds.kds pds_dst) <>
      spec_dest_capacity (gss.proj_tuple_sz (sample_gss true))
        (kds.nitems (pds.kds (sample_pds KDS_FORMAT_ROW 100 0 []))).
Proof.
  eexists _, _. split; [vm_compute; reflexivity |].
  split; [reflexivity |]. split; [reflexivity |]. vm_compute. discriminate.
Qed.

Lemma gpuscan_create_task_dest_length_witness :
  exists gscan pds_dst,
    gpuscan_create_task (H := sample_layout) (H0 := sample_device)
      (sample_gss false) (sample_pds KDS_FORMAT_BLOCK 10 4 []) = OK gscan /\
    gscan.pds_dst gscan = Some pds_dst /\
    exists index_sz tuple_sz,
      Size_of_double
        (PrimFloat.mul (double_of_uint 4)
           (expected_rows (sample_pds KDS_FORMAT_BLOCK 10 4 [])))
        = Some index_sz /\
      Size_of_double
        (PrimFloat.mul
           (PrimFloat.mul double_1_2
              (double_of_uint (gss.proj_tuple_sz (sample_gss false))))
           (expected_rows (sample_pds KDS_FORMAT_BLOCK 10 4 [])))
        = Some tuple_sz /\
      kds.length (pds.kds pds_dst) =
        uint64 (uint64 (STROMALIGN (H := sample_layout)
                          (@offsetof_kds_colmeta sample_layout
                             (gss.scan_natts (sample_gss false))) +
                        STROMALIGN (H := sample_layout) index_sz) +
                STROMALIGN (H := sample_layout) tuple_sz) /\
      expected_rows (sample_pds KDS_FORMAT_BLOCK 10 4 []) =
        (if decide (kds.format (pds.kds (sample_pds KDS_FORMAT_BLOCK 10 4 []))
                    = KDS_FORMAT_BLOCK)
         then PrimFloat.mul
                (double_of_uint
                   (kds.nitems (pds.kds (sample_pds KDS_FORMAT_BLOCK 10 4 []))))
                (double_of_uint
                   (kds.nrows_per_block
                      (pds.kds (sample_pds KDS_FORMAT_BLOCK 10 4 []))))
         else double_of_uint
                (kds.nitems (pds.kds (sample_pds KDS_FORMAT_BLOCK 10 4 [])))).
Proof.
  eexists _, _. split; [vm_compute; reflexivity |].
  split; [reflexivity |].
  eapply (gpuscan_create_task_dest_length (H := sample_layout)
            (H0 := sample_device) (sample_gss false)
            (sample_pds KDS_FORMAT_BLOCK 10 4 [])).
  - vm_compute. reflexivity.
  - reflexivity.
Defined.

(** ** The shared block cursor *)

Section parallel_nextpage_props.
Context `{Storage}.

Lemma same_segment_shrink start count count' :
  count' <= count -> same_segment start count -> same_segment start count'.
Proof. intros Hle Hseg b Hb. apply Hseg. lia. Qed.

Lemma same_segment_to_boundary page :
  0 < RELSEG_SIZE -> 0 <= page ->
  same_segment page (RELSEG_SIZE - page mod RELSEG_SIZE).
Proof.
  intros HR Hp b Hb.
  assert (Hne : RELSEG_SIZE <> 0) by lia.
  pose proof (Z.div_mod page RELSEG_SIZE Hne) as Hdm.
  pose proof (Z.mod_pos_bound page RELSEG_SIZE HR) as Hm.
  symmetry. apply Z.div_unique with (r := page mod RELSEG_SIZE + (b - page)); lia.
Qed.

Lemma same_segment_last page nr :
  0 < RELSEG_SIZE ->
  (page + nr - 1) / RELSEG_SIZE = page / RELSEG_SIZE ->
  same_segment page nr.
Proof.
  intros HR Hlast b Hb. apply Z.le_antisymm.
  - rewrite <- Hlast. apply Z.div_le_mono; lia.
  - apply Z.div_le_mono; lia.
Qed.

(** The three cuts, for a relation that ends at least one segment below
    2^32 blocks, so that no sum of block numbers wraps. *)
Lemma clamp_nr_blocks_spec page nr_blocks rs_nblocks phs_startblock :
  0 < RELSEG_SIZE ->
  rs_nblocks + RELSEG_SIZE <= 2 ^ 32 ->
  0 <= page < rs_nblocks ->
  0 < nr_blocks < RELSEG_SIZE ->
  0 <= phs_startblock ->
  let n := clamp_nr_blocks page nr_blocks rs_nblocks phs_startblock in
  0 < n <= nr_blocks /\
  same_segment page n /\
  page + n <= rs_nblocks /\
  (page < phs_startblock -> page + n <= phs_startblock).
Proof.
  intros HR Hmax Hpage Hnr Hstart. unfold clamp_nr_blocks.
  pose proof (Z.mod_pos_bound page RELSEG_SIZE HR) as Hm.
  rewrite (uint32_id (page + nr_blocks - 1)) by (unfold is_uint32; lia).
  rewrite (uint32_id (RELSEG_SIZE - _)) by (unfold is_uint32; lia).
  set (n1 := if negb _ then _ else _).
  assert (H1 : 0 < n1 <= nr_blocks /\ same_segment page n1).
  { subst n1. destruct (_ =? _) eqn:E; cbn [negb].
    - split; [lia |]. apply same_segment_last; [lia |]. symmetry. lia.
    - assert (Hlt : page / RELSEG_SIZE < (page + nr_blocks - 1) / RELSEG_SIZE).
      { assert (Hmono : page / RELSEG_SIZE <= (page + nr_blocks - 1) / RELSEG_SIZE)
          by (apply Z.div_le_mono; lia).
        lia. }
      assert (RELSEG_SIZE - page mod RELSEG_SIZE <= nr_blocks).
      { apply Z.nlt_ge. intros Hc.
        assert (Hs : (page + nr_blocks - 1) / RELSEG_SIZE = page / RELSEG_SIZE)
          by (apply same_segment_to_boundary; lia).
        lia. }
      split; [lia |]. apply same_segment_to_boundary; lia. }
  destruct H1 as [Hn1 Hseg1]. clearbody n1.
  rewrite (uint32_id (page + n1)) by (unfold is_uint32; lia).
  rewrite (uint32_id (rs_nblocks - page)) by (unfold is_uint32; lia).
  set (n2 := if _ <? _ then _ else _).
  assert (H2 : 0 < n2 <= n1 /\ page + n2 <= rs_nblocks).
  { subst n2. destruct (_ <? _) eqn:E; lia. }
  destruct H2 as [Hn2 Hend]. clearbody n2.
  rewrite (uint32_id (page + n2)) by (unfold is_uint32; lia).
  destruct ((page <? phs_startblock) && (phs_startblock <=? page + n2)) eqn:E.
  - apply andb_true_iff in E as [E1 E2].
    rewrite uint32_id by (unfold is_uint32; lia).
    split; [lia |]. split; [| lia].
    eapply same_segment_shrink; [| exact Hseg1]. lia.
  - apply andb_false_iff in E.
    split; [lia |]. split; [| split; [lia |]].
    + eapply same_segment_shrink; [| exact Hseg1]. lia.
    + intros Hlt. destruct E as [E | E]; lia.
Qed.

Lemma ccache_skip_empty_range fuel cc_chunk phs_cblock cc_chunk' phs_cblock' :
  is_uint32 phs_cblock ->
  ccache_skip_empty fuel cc_chunk phs_cblock = Some (cc_chunk', phs_cblock') ->
  is_uint32 phs_cblock'.
Proof.
  revert cc_chunk phs_cblock.
  induction fuel as [| fuel IH]; intros cc_chunk phs_cblock Hr; cbn;
    destruct (pgstrom_ccache_is_empty cc_chunk); try discriminate;
    try (by intros [= <- <-]).
  destruct (pgstrom_ccache_get_chunk phs_cblock); [| by intros [= <- <-]].
  apply IH, uint32_range.
Qed.

(** Every reservation of an initialised cursor, for a relation that ends
    at least one segment below 2^32 blocks: the range handed to the worker
    stays in one segment, inside the relation and before the start block
    it has not reached yet, and the cursor left behind is invalid or a
    block other than the start block. *)
Lemma gpuscan_parallel_nextpage_reservation fuel scan ps ccache_refs nr_blocks r :
  0 < RELSEG_SIZE ->
  scan.rs_nblocks scan + RELSEG_SIZE <= 2 ^ 32 ->
  0 < nr_blocks < RELSEG_SIZE ->
  cursor_valid (scan.rs_nblocks scan) ps ->
  gpuscan_parallel_nextpage fuel scan ps ccache_refs nr_blocks = Some r ->
  (exists pds_column, nextpage.pds_column r = OK pds_column) ->
  let page := parallel_scan.phs_cblock ps in
  let start := parallel_scan.phs_startblock ps in
  let count := scan.rs_numblocks (nextpage.scan r) in
  let cursor := parallel_scan.phs_cblock (nextpage.parallel_scan r) in
  parallel_scan.phs_startblock (nextpage.parallel_scan r) = start /\
  scan.rs_cblock (nextpage.scan r) = page /\
  (page <> InvalidBlockNumber ->
     0 <= count <= nr_blocks /\
     same_segment page count /\
     page + count <= scan.rs_nblocks scan /\
     (page < start -> page + count <= start) /\
     (cursor = InvalidBlockNumber \/
      (0 <= cursor < scan.rs_nblocks scan /\ cursor <> start))).
Proof.
  intros HR Hmax Hnr [Hstart Hcur] Hrun [pds_column Hpds].
  unfold gpuscan_parallel_nextpage in Hrun.
  assert (Hinit : (parallel_scan.phs_startblock ps =? InvalidBlockNumber) = false).
  { apply Z.eqb_neq. unfold InvalidBlockNumber. lia. }
  rewrite Hinit in Hrun. cbn [mbind option_bind] in Hrun.
  destruct (parallel_scan.phs_cblock ps =? InvalidBlockNumber) eqn:Einv.
  { cbn in Hrun. injection Hrun as <-. cbn in Hpds |- *.
    split; [reflexivity |]. split; [reflexivity | lia]. }
  apply Z.eqb_neq in Einv. destruct Hcur as [Hcur | Hcur]; [contradiction |].
  set (page := parallel_scan.phs_cblock ps) in *.
  set (start := parallel_scan.phs_startblock ps) in *.
  destruct (clamp_nr_blocks_spec page nr_blocks (scan.rs_nblocks scan) start
              HR Hmax Hcur Hnr ltac:(lia)) as (Hn & Hseg & Hend & Hbefore).
  set (n := clamp_nr_blocks _ _ _ _) in *. clearbody n.
  set (base := Z.land _ _) in Hrun. clearbody base.
  rewrite (uint32_id (page + n)) in Hrun by (unfold is_uint32; lia).
  (* the reservation and the cursor before the wrap test *)
  assert (Hcc : exists n' cc_chunk c,
    0 <= n' <= n /\ is_uint32 c /\
    (let phs_cblock := if scan.rs_nblocks scan <=? c then 0 else c in
     if phs_cblock =? start
     then Some (n', cc_chunk, InvalidBlockNumber, start)
     else Some (n', cc_chunk, phs_cblock, InvalidBlockNumber))
    ≫= (fun '(nr_blocks, cc_chunk, phs_cblock, report_page) =>
          Some (nextpage_unlocked scan ps page nr_blocks cc_chunk
                  phs_cblock report_page)) = Some r).
  { destruct (_ && _ && _ && _) eqn:Econd.
    - apply andb_true_iff in Econd as [Econd _].
      apply andb_true_iff in Econd as [Econd _].
      apply andb_true_iff in Econd as [_ Econd].
      apply andb_true_iff in Econd as [Eb1 Eb2].
      destruct (pgstrom_ccache_get_chunk base) as [cc |].
      + cbn [mbind option_bind] in Hrun.
        destruct (ccache_skip_empty _ _ _) as [[cc' c] |] eqn:Eskip;
          [| discriminate].
        pose proof (ccache_skip_empty_range _ _ _ _ _ (uint32_range _) Eskip).
        cbn [mbind option_bind] in Hrun.
        rewrite (uint32_id (base - page)) in Hrun by (unfold is_uint32; lia).
        destruct cc' as [cc' |].
        * exists (base - page), (Some cc'), c.
          split; [lia |]. split; [assumption | exact Hrun].
        * exists (base - page), None, (page + (base - page)).
          split; [lia |]. split; [unfold is_uint32; lia |].
          rewrite (uint32_id (page + (base - page))) in Hrun
            by (unfold is_uint32; lia).
          exact Hrun.
      + cbn [mbind option_bind] in Hrun.
        rewrite (uint32_id (page + n)) in Hrun by (unfold is_uint32; lia).
        exists n, None, (page + n). split; [lia |].
        split; [unfold is_uint32; lia | exact Hrun].
    - cbn [mbind option_bind] in Hrun.
      rewrite (uint32_id (page + n)) in Hrun by (unfold is_uint32; lia).
      exists n, None, (page + n). split; [lia |].
      split; [unfold is_uint32; lia | exact Hrun]. }
  clear Hrun. destruct Hcc as (n' & cc_chunk & c & Hn' & Hc & Hrun).
  cbn zeta in Hrun.
  assert (Hwrap : 0 <= (if scan.rs_nblocks scan <=? c then 0 else c)
                    < scan.rs_nblocks scan).
  { destruct (_ <=? c) eqn:E; unfold is_uint32 in Hc; lia. }
  set (w := if scan.rs_nblocks scan <=? c then 0 else c) in *. clearbody w.
  destruct (w =? start) eqn:Ew; cbn [mbind option_bind] in Hrun;
    injection Hrun as <-; unfold nextpage_unlocked in Hpds |- *;
    cbn [nextpage.pds_column] in Hpds; rewrite Hpds;
    cbn; (split; [reflexivity |]); (split; [reflexivity |]); intros _;
    (split; [lia |]);
    (split; [eapply same_segment_shrink; [| exact Hseg]; lia |]);
    (split; [lia |]); (split; [lia |]).
  - by left.
  - right. apply Z.eqb_neq in Ew. lia.
Qed.

End parallel_nextpage_props.

(** *** A relation that reaches into the last segment below 2^32 blocks *)

(** One reservation of 8 blocks at a cursor that is a multiple of 8, with
    PostgreSQL's default segment size and no columnar cache, on a relation
    of 2^32-1 blocks scanned from block 0: the worker gets 8 blocks and
    the cursor moves on by 8, as long as the sum does not wrap. *)
Lemma gpuscan_parallel_nextpage_step8 (k : Z) :
  0 <= k -> 8 * k + 8 < 2 ^ 32 ->
  exists r,
    gpuscan_parallel_nextpage (H := sample_storage) 0 (sample_scan 0xFFFFFFFF)
      (sample_parallel_scan 0 (8 * k)) false 8 = Some r /\
    nextpage.parallel_scan r = sample_parallel_scan 0 (8 * k + 8) /\
    scan.rs_numblocks (nextpage.scan r) = 8.
Proof.
  intros Hk Hmax. eexists. split; [| split].
  - unfold gpuscan_parallel_nextpage, sample_parallel_scan, sample_scan.
    cbn [parallel_scan.phs_startblock parallel_scan.phs_cblock
         parallel_scan.phs_syncscan scan.rs_nblocks andb].
    change (0 =? InvalidBlockNumber) with false.
    cbn [mbind option_bind parallel_scan.phs_startblock
         parallel_scan.phs_cblock parallel_scan.phs_syncscan].
    assert (Hc : (8 * k =? InvalidBlockNumber) = false)
      by (apply Z.eqb_neq; unfold InvalidBlockNumber; lia).
    rewrite Hc.
    assert (Hclamp : clamp_nr_blocks (H := sample_storage) (8 * k) 8
                       0xFFFFFFFF 0 = 8).
    { unfold clamp_nr_blocks. cbn [RELSEG_SIZE sample_storage].
      rewrite (uint32_id (8 * k + 8 - 1)) by (unfold is_uint32; lia).
      assert (Hseg : 8 * k / 131072 = (8 * k + 8 - 1) / 131072).
      { pose proof (Z.div_mod (8 * k) 131072 ltac:(lia)).
        pose proof (Z.mod_pos_bound (8 * k) 131072 ltac:(lia)).
        apply Z.div_unique with (r := 8 * k mod 131072 + 7); lia. }
      rewrite <- Hseg, Z.eqb_refl. cbn [negb].
      rewrite (uint32_id (8 * k + 8)) by (unfold is_uint32; lia).
      destruct (4294967295 <? 8 * k + 8) eqn:E1; [lia |].
      destruct (8 * k <? 0) eqn:E2; [lia | reflexivity]. }
    rewrite Hclamp. cbn [mbind option_bind].
    rewrite (uint32_id (8 * k + 8)) by (unfold is_uint32; lia).
    destruct (4294967295 <=? 8 * k + 8) eqn:E1; [lia |].
    destruct (8 * k + 8 =? 0) eqn:E2; [lia |].
    cbn [mbind option_bind]. reflexivity.
  - reflexivity.
  - reflexivity.
Qed.

Lemma cursor_reached_multiple_of_8 (k : Z) :
  0 <= k -> 8 * k + 8 < 2 ^ 32 ->
  cursor_reached (sample_parallel_scan 0 (8 * k + 8)).
Proof.
  intros Hk. pattern k. apply natlike_ind; [| | exact Hk]; clear k Hk.
  - intros _.
    apply (reached_next _ (sample_scan 0xFFFFFFFF)
             (nextpage_unlocked (H := sample_storage) (sample_scan 0xFFFFFFFF)
                (sample_parallel_scan 0 0) 0 8 None 8 InvalidBlockNumber)
             reached_init); [reflexivity | vm_compute; reflexivity].
  - intros k Hk IH Hmax.
    destruct (gpuscan_parallel_nextpage_step8 (k + 1) ltac:(lia) ltac:(lia))
      as (r & Hr & Hps & _).
    replace (8 * Z.succ k + 8) with (8 * (k + 1) + 8) by lia.
    rewrite <- Hps.
    apply (reached_next (sample_parallel_scan 0 (8 * (k + 1)))
             (sample_scan 0xFFFFFFFF) r); [| reflexivity | exact Hr].
    replace (8 * (k + 1)) with (8 * k + 8) by lia. apply IH. lia.
Qed.

(** C9 (the code misses it): on a relation of 2^32-1 blocks scanned from
    block 0 in reservations of 8 blocks, the workers bring the cursor to
    block 0xFFFFFFF8, and the reservation taken there is (0xFFFFFFF8, 8):
    the sum [page + nr_blocks] wraps to 0, the cut at the end of the
    relation is skipped, and the range reaches one block past the end. *)
Theorem gpuscan_parallel_nextpage_past_end :
  cursor_reached (sample_parallel_scan 0 0xFFFFFFF8) /\
  exists r,
    gpuscan_parallel_nextpage (H := sample_storage) 0 (sample_scan 0xFFFFFFFF)
      (sample_parallel_scan 0 0xFFFFFFF8) false 8 = Some r /\
    scan.rs_cblock (nextpage.scan r) = 0xFFFFFFF8 /\
    scan.rs_numblocks (nextpage.scan r) = 8 /\
    scan.rs_nblocks (nextpage.scan r) <
      scan.rs_cblock (nextpage.scan r) + scan.rs_numblocks (nextpage.scan r) /\
    parallel_scan.phs_cblock (nextpage.parallel_scan r) = InvalidBlockNumber.
Proof.
  split.
  - apply (cursor_reached_multiple_of_8 536870910); lia.
  - eexists. split; [vm_compute; reflexivity |]. vm_compute. repeat split.
Qed.

(** ** The task executor *)

Lemma M_bind_Ret {A B} (m : M A) (f : A -> M B) w b w' :
  (m ≫= f) w = (Ret b, w') ->
  exists a w1, m w = (Ret a, w1) /\ f a w1 = (Ret b, w').
Proof.
  unfold mbind, M_bind. destruct (m w) as [[a | msg] w1]; [eauto | discriminate].
Qed.

(** Peel one monadic step off a hypothesis that says the whole returned. *)
Tactic Notation "step" hyp(H) "as" simple_intropattern(x) ident(w) ident(Hx) :=
  apply M_bind_Ret in H as (x & w & Hx & H).

Lemma ext_refl P w : ext P w w.
Proof. split; [reflexivity |]. exists []. by rewrite app_nil_r. Qed.

Lemma ext_trans P w1 w2 w3 : ext P w1 w2 -> ext P w2 w3 -> ext P w1 w3.
Proof.
  intros (Hs1 & cs1 & Hc1 & HP1) (Hs2 & cs2 & Hc2 & HP2).
  split; [congruence |]. exists (cs1 ++ cs2).
  rewrite Hc2, Hc1, app_assoc. split; [reflexivity | by apply Forall_app].
Qed.

Lemma quiet_mret {A} P (a : A) : quiet P (mret a).
Proof.
  intros w a' w' [= <- <-]. split; [reflexivity |].
  exists []. by rewrite app_nil_r.
Qed.

Lemma quiet_werror {A} P msg : quiet P (@werror A msg).
Proof. intros w a w' Hr. discriminate. Qed.

Lemma quiet_bind {A B} P (m : M A) (f : A -> M B) :
  quiet P m -> (forall a, quiet P (f a)) -> quiet P (m ≫= f).
Proof.
  intros Hm Hf w b w' Hr. step Hr as a w1 Ha.
  apply Hm in Ha as (Hs1 & cs1 & Hc1 & HP1).
  apply Hf in Hr as (Hs2 & cs2 & Hc2 & HP2).
  split; [congruence |]. exists (cs1 ++ cs2).
  rewrite Hc2, Hc1, app_assoc. split; [reflexivity | by apply Forall_app].
Qed.

Lemma quiet_cuda P c : P c -> quiet P (cuda c).
Proof.
  intros Hc w a w' [= <- <-]. split; [reflexivity |].
  exists [c]. split; [reflexivity | by constructor].
Qed.

Lemma quiet_cuda_void P c : P c -> quiet P (cuda_void c).
Proof.
  intros Hc w a w' [= <- <-]. split; [reflexivity |].
  exists [c]. split; [reflexivity | by constructor].
Qed.

Lemma quiet_expect_success P rc msg : quiet P (expect_success rc msg).
Proof. destruct rc; [apply quiet_mret | apply quiet_werror ..]. Qed.

Ltac quiet_steps :=
  repeat first
    [ apply quiet_mret | apply quiet_werror | apply quiet_expect_success
    | apply quiet_cuda | apply quiet_cuda_void
    | apply quiet_bind; [| intros ?] ].

(** Replace a hypothesis [m w = (Ret a, w')] by [ext not_writeback w w'],
    leaving [quiet not_writeback m] to prove. *)
Ltac quiet_in H :=
  match type of H with
  | ?m ?w = (Ret ?a, ?w') =>
      let Q := fresh "Q" in
      assert (Q : quiet not_writeback m); [| apply Q in H; clear Q]
  end.

Section process_task_props.
Context `{StromError}.

Lemma out_of_resource_Ret P retval gscan w r w' :
  P gpuMemFree -> (forall msg, P (wnotice msg)) ->
  out_of_resource retval gscan w = (Ret r, w') ->
  r = (retval, gscan) /\
  world.gs_rtstat w' = world.gs_rtstat w /\
  exists cs, world.calls w' = world.calls w ++ cs /\ Forall P cs.
Proof.
  intros Hfree Hnote Hr. unfold out_of_resource in Hr.
  step Hr as [] w1 H1. step Hr as [] w2 H2. injection Hr as <- <-.
  assert (Q1 : quiet P (if 0 <? retval
                        then cuda_void (wnotice "GpuScan: out of resource")
                        else mret ()))
    by (destruct (0 <? retval); quiet_steps; auto).
  assert (Q2 : quiet P (if decide (kds.format (pds.kds (gscan.pds_src gscan))
                                   = KDS_FORMAT_BLOCK)
                        then cuda_void gpuMemFree else mret ()))
    by (destruct (decide _); quiet_steps; auto).
  apply Q1 in H1 as (Hs1 & cs1 & Hc1 & HP1).
  apply Q2 in H2 as (Hs2 & cs2 & Hc2 & HP2).
  split; [reflexivity |]. split; [congruence |].
  exists (cs1 ++ cs2). rewrite Hc2, Hc1, app_assoc.
  split; [reflexivity | by apply Forall_app].
Qed.

(** What [check_kernel_status] returns, by the kernel's error code. *)
Lemma check_kernel_status_Ret enabled gscan w r w' :
  check_kernel_status enabled gscan w = (Ret r, w') ->
  let kern := gscan.kern gscan in
  let code := kerror.errcode (kern.kerror kern) in
  exists task' cs,
    r = (0, set_task gscan task') /\
    world.calls w' = world.calls w ++ cs /\
    if code =? StromError_Success then
      task' = {| task.kerror := kern.kerror kern;
                 task.cpu_fallback := task.cpu_fallback (gscan.task gscan) |} /\
      world.gs_rtstat w' =
        {| rtstat.nitems_filtered :=
             pg_atomic_add_fetch_u64
               (rtstat.nitems_filtered (world.gs_rtstat w))
               (uint64 (kern.nitems_in kern - kern.nitems_out kern));
           rtstat.ccache_count := rtstat.ccache_count (world.gs_rtstat w) |} /\
      Forall not_writeback cs
    else
      world.gs_rtstat w' = world.gs_rtstat w /\
      if enabled && ((code =? StromError_CpuReCheck)
                     || (code =? StromError_DataStoreNoSpace)) then
        task' = {| task.kerror := kern_errorbuf_zero;
                   task.cpu_fallback := true |} /\
        if writeback_test gscan
        then cuMemcpyDtoHAsync
               (pds.nblocks_uncached (gscan.pds_src gscan) * BLCKSZ) ∈ cs
        else Forall not_writeback cs
      else
        task' = {| task.kerror := kern.kerror kern;
                   task.cpu_fallback := task.cpu_fallback (gscan.task gscan) |} /\
        Forall not_writeback cs.
Proof.
  intros Hr kern code. unfold check_kernel_status in Hr.
  cbn [gscan.task set_task task.kerror gscan.kern gscan.pds_dst
       gscan.with_nvme_strom gscan.pds_src] in Hr.
  fold kern in Hr. fold code in Hr.
  destruct (code =? StromError_Success) eqn:Ecode.
  - step Hr as [] w1 H1. step Hr as [] w2 H2.
    apply (out_of_resource_Ret not_writeback) in Hr
      as (-> & Hs3 & cs3 & Hc3 & HP3); [| exact I | intros; exact I].
    injection H1 as <-.
    assert (Q2 : quiet not_writeback
      (match gscan.pds_dst gscan with
       | Some _ =>
           if 0 <? kern.nitems_out kern
           then rc ← cuda (cuMemPrefetchAsync_dst_extra (kern.extra_size kern));
                _ ← expect_success rc "failed on cuMemPrefetchAsync";
                rc0 ← cuda (cuMemPrefetchAsync_dst_index (kern.nitems_out kern));
                expect_success rc0 "failed on cuMemPrefetchAsync"
           else mret ()
       | None =>
           rc ← cuda (cuMemPrefetchAsync_kresults (kern.nitems_out kern));
           expect_success rc "failed on cuMemPrefetchAsync"
       end)).
    { destruct (gscan.pds_dst gscan); [destruct (0 <? _) |];
        quiet_steps; exact I. }
    apply Q2 in H2 as (Hs2 & cs2 & Hc2 & HP2).
    eexists _, (cs2 ++ cs3). split; [reflexivity |].
    split; [by rewrite Hc3, Hc2, app_assoc |].
    split; [reflexivity |]. split; [| by apply Forall_app].
    rewrite Hs3, Hs2. reflexivity.
  - step Hr as g1 w1 H1.
    apply (out_of_resource_Ret not_writeback) in Hr
      as (-> & Hs3 & cs3 & Hc3 & HP3); [| exact I | intros; exact I].
    destruct (enabled && _) eqn:Efb.
    + step H1 as wb w2 H2. step H1 as [] w3 H3. injection H1 as <- <-.
      assert (Hwb : wb = writeback_test gscan /\ w2 = w).
      { unfold writeback_test. destruct (gscan.with_nvme_strom gscan).
        - destruct (gscan.pds_dst gscan); [by injection H2 as <- <- | discriminate].
        - by injection H2 as <- <-. }
      destruct Hwb as [-> ->]. clear H2.
      destruct (writeback_test gscan).
      * step H3 as rc1 w4 H4. injection H4 as <- <-.
        assert (Q : quiet (fun _ => True)
          (_ ← expect_success
                 (default CUDA_SUCCESS (head (world.answers w)))
                 "failed on cuMemcpyDtoHAsync";
           rc ← cuda cuEventRecord;
           _ ← expect_success rc "failed on cuEventRecord";
           rc0 ← cuda cuEventSynchronize;
           expect_success rc0 "failed on cuEventSynchronize"))
          by (quiet_steps; exact I).
        apply Q in H3 as (Hs & cs & Hc & _). cbn in Hs, Hc.
        eexists _, ((_ :: cs) ++ cs3).
        split; [reflexivity |]. split.
        { rewrite Hc3, Hc, <- !app_assoc. reflexivity. }
        split; [congruence |]. split; [reflexivity |].
        apply elem_of_app. left. left.
      * injection H3 as <-. eexists _, cs3. split; [reflexivity |].
        split; [exact Hc3 |]. split; [exact Hs3 |]. split; [reflexivity | exact HP3].
    + injection H1 as <- <-. eexists _, cs3. split.
      { destruct gscan as [[]]; reflexivity. }
      split; [exact Hc3 |]. split; [exact Hs3 |].
      split; [reflexivity | exact HP3].
Qed.

(** Up to the synchronisation point the executor only moves data towards
    the device: either it gives up for lack of device memory (and returns
    100001 with the task untouched but for a forced read of its pages), or
    it reaches the status check with the kernel's results in [kern]. *)
Lemma gpuscan_process_task_Ret enabled kernel_result gscan w r w' :
  gpuscan_process_task enabled kernel_result gscan w = (Ret r, w') ->
  exists g0 w0,
    (g0 = gscan \/ g0 = fillup_blocks gscan) /\
    ext not_writeback w w0 /\
    ((r = (100001, g0) /\ ext not_writeback w0 w') \/
     check_kernel_status enabled (set_kern g0 kernel_result) w0 = (Ret r, w')).
Proof.
  intros Hr. unfold gpuscan_process_task in Hr.
  step Hr as kern_fname w1 H1.
  assert (E1 : ext not_writeback w w1).
  { destruct (kds.format _); try discriminate; injection H1 as <- <-;
      apply ext_refl. }
  clear H1.
  step Hr as rc w2 H2. apply (quiet_cuda not_writeback) in H2; [| exact I].
  step Hr as [] w3 H3. apply (quiet_expect_success not_writeback) in H3.
  step Hr as [g0 m_kds_src] w4 H4.
  assert (E4 : (g0 = gscan \/ g0 = fillup_blocks gscan) /\
               ext not_writeback w3 w4).
  { destruct (decide _); [injection H4 as <- <- <-; split; [by left | apply ext_refl] |].
    destruct (gscan.with_nvme_strom gscan);
      [| injection H4 as <- <- <-; split; [by left | apply ext_refl]].
    step H4 as rc4 w5 H5. apply (quiet_cuda not_writeback) in H5; [| exact I].
    destruct rc4; try discriminate.
    - injection H4 as <- <- <-. by split; [left |].
    - step H4 as [] w6 H6.
      apply (quiet_cuda_void not_writeback) in H6; [| exact I].
      injection H4 as <- <- <-. split; [by right |]. by eapply ext_trans. }
  destruct E4 as [Hg0 E4]. clear H4.
  step Hr as rc_alloc w5 H5.
  assert (E5 : ext not_writeback w4 w5).
  { destruct m_kds_src; [injection H5 as <- <-; apply ext_refl |].
    by apply (quiet_cuda not_writeback) in H5. }
  clear H5.
  assert (E05 : ext not_writeback w w5) by eauto using ext_trans.
  clear E1 H2 H3 E4 E5 w1 w2 w3 w4.
  destruct rc_alloc; [| | discriminate].
  - step Hr as rc1 w6 H6. apply (quiet_cuda not_writeback) in H6; [| exact I].
    step Hr as [] w7 H7. apply (quiet_expect_success not_writeback) in H7.
    step Hr as [] w8 H8.
    quiet_in H8;
      [destruct (decide _); [| destruct (negb _)]; quiet_steps; exact I |].
    step Hr as [] w9 H9.
    quiet_in H9; [destruct (gscan.pds_dst gscan); quiet_steps; exact I |].
    step Hr as rc2 w10 H10. apply (quiet_cuda not_writeback) in H10; [| exact I].
    step Hr as [] w11 H11. apply (quiet_expect_success not_writeback) in H11.
    step Hr as rc3 w12 H12. apply (quiet_cuda not_writeback) in H12; [| exact I].
    step Hr as [] w13 H13. apply (quiet_expect_success not_writeback) in H13.
    step Hr as rc4 w14 H14. apply (quiet_cuda not_writeback) in H14; [| exact I].
    step Hr as [] w15 H15. apply (quiet_expect_success not_writeback) in H15.
    exists g0, w15. split; [exact Hg0 |]. split; [| by right].
    eauto 20 using ext_trans.
  - exists g0, w5. split; [exact Hg0 |]. split; [exact E05 |]. left.
    apply (out_of_resource_Ret not_writeback) in Hr
      as (-> & Hs & Hcs); [| exact I | intros; exact I].
    by split.
Qed.

Lemma fillup_blocks_task gscan :
  gscan.task (fillup_blocks gscan) = gscan.task gscan /\
  gscan.pds_dst (fillup_blocks gscan) = gscan.pds_dst gscan /\
  pds.rows (gscan.pds_src (fillup_blocks gscan)) = pds.rows (gscan.pds_src gscan).
Proof. repeat split. Qed.

(** A task that comes back with return value 0 went through the status
    check, on its own chunks and with the kernel's results. *)
Lemma gpuscan_process_task_checked enabled kernel_result gscan w gscan' w' :
  gpuscan_process_task enabled kernel_result gscan w = (Ret (0, gscan'), w') ->
  exists g0 w0,
    (g0 = gscan \/ g0 = fillup_blocks gscan) /\
    ext not_writeback w w0 /\
    check_kernel_status enabled (set_kern g0 kernel_result) w0
      = (Ret (0, gscan'), w').
Proof.
  intros Hr. apply gpuscan_process_task_Ret in Hr
    as (g0 & w0 & Hg0 & E0 & [[[=] _] | Hr]).
  eauto.
Qed.

(** The task's status after a checked run, as a function of the kernel's
    error code. *)
Lemma gpuscan_process_task_status enabled kernel_result gscan gscan' w w' :
  gpuscan_process_task enabled kernel_result gscan w = (Ret (0, gscan'), w') ->
  gscan.task gscan' =
    let errcode := kerror.errcode (kern.kerror kernel_result) in
    if errcode =? StromError_Success then
      {| task.kerror := kern.kerror kernel_result;
         task.cpu_fallback := task.cpu_fallback (gscan.task gscan) |}
    else if enabled && ((errcode =? StromError_CpuReCheck)
                        || (errcode =? StromError_DataStoreNoSpace)) then
      {| task.kerror := kern_errorbuf_zero; task.cpu_fallback := true |}
    else
      {| task.kerror := kern.kerror kernel_result;
         task.cpu_fallback := task.cpu_fallback (gscan.task gscan) |}.
Proof.
  intros Hr.
  apply gpuscan_process_task_checked in Hr as (g0 & w0 & Hg0 & _ & Hr).
  apply check_kernel_status_Ret in Hr as (task' & cs & [= ->] & _ & Hcase).
  cbn [gscan.kern set_kern gscan.task set_task] in Hcase |- *. cbn zeta.
  assert (Hbefore : gscan.task g0 = gscan.task gscan)
    by (by destruct Hg0 as [-> | ->]).
  rewrite Hbefore in Hcase.
  destruct (_ =? StromError_Success); [by destruct Hcase as (-> & _) |].
  destruct Hcase as (_ & Hcase).
  destruct (enabled && _); by destruct Hcase as (-> & _).
Qed.

(** C3: after kernel completion the error code decides.  Success: the task
    keeps its (unset) fallback flag.  Recheck-required or
    destination-too-small, with CPU fallback enabled: the task's error is
    cleared and its cpu_fallback flag set.  Any other code, or fallback
    disabled: the task's error stays as the kernel reported it, fallback
    flag untouched, for the caller to raise. *)
Theorem gpuscan_process_task_classifies (enabled : bool)
    (kernel_result : kern_gpuscan) (gscan gscan' : GpuScanTask)
    (w w' : world.t) :
  gpuscan_process_task enabled kernel_result gscan w = (Ret (0, gscan'), w') ->
  let errcode := kerror.errcode (kern.kerror kernel_result) in
  let before := gscan.task gscan in
  let after := gscan.task gscan' in
  (errcode = StromError_Success ->
     task.cpu_fallback after = task.cpu_fallback before /\
     task.kerror after = kern.kerror kernel_result) /\
  (errcode <> StromError_Success -> enabled = true ->
   errcode = StromError_CpuReCheck \/ errcode = StromError_DataStoreNoSpace ->
     task.kerror after = kern_errorbuf_zero /\
     task.cpu_fallback after = true) /\
  (errcode <> StromError_Success ->
   enabled = false \/
   (errcode <> StromError_CpuReCheck /\
    errcode <> StromError_DataStoreNoSpace) ->
     task.kerror after = kern.kerror kernel_result /\
     kerror.errcode (task.kerror after) <> StromError_Success /\
     task.cpu_fallback after = task.cpu_fallback before).
Proof.
  intros Hr errcode before after. subst after.
  rewrite (gpuscan_process_task_status _ _ _ _ _ _ Hr). cbn zeta.
  fold errcode. fold before.
  destruct (errcode =? StromError_Success) eqn:E.
  - apply Z.eqb_eq in E. split; [by intros _ |]. split; intros; contradiction.
  - apply Z.eqb_neq in E. split; [intros; contradiction |]. split.
    + intros _ -> [Hc | Hc]; rewrite Hc, Z.eqb_refl, ?orb_true_r; by cbn.
    + intros _ [-> | [Hc1%Z.eqb_neq Hc2%Z.eqb_neq]].
      * by cbn.
      * rewrite Hc1, Hc2, andb_false_r. by cbn.
Qed.

(** The executor's whole effect on the shared statistics: the difference
    of the kernel's counters is added when, and only when, the kernel
    reported success. *)
Lemma gpuscan_process_task_filtered enabled kernel_result gscan w r w' :
  gpuscan_process_task enabled kernel_result gscan w = (Ret r, w') ->
  world.gs_rtstat w' =
    if (r.1 =? 0)
       && (kerror.errcode (kern.kerror kernel_result) =? StromError_Success)
    then {| rtstat.nitems_filtered :=
              pg_atomic_add_fetch_u64
                (rtstat.nitems_filtered (world.gs_rtstat w))
                (uint64 (kern.nitems_in kernel_result
                         - kern.nitems_out kernel_result));
            rtstat.ccache_count := rtstat.ccache_count (world.gs_rtstat w) |}
    else world.gs_rtstat w.
Proof.
  intros Hr. apply gpuscan_process_task_Ret in Hr
    as (g0 & w0 & Hg0 & (Hs0 & _) & [[-> (Hs1 & _)] | Hr]).
  - cbn. congruence.
  - apply check_kernel_status_Ret in Hr as (task' & cs & -> & _ & Hcase).
    cbn [gscan.kern set_kern fst] in Hcase |- *.
    destruct (_ =? StromError_Success).
    + destruct Hcase as (_ & -> & _). cbn. by rewrite Hs0.
    + destruct Hcase as (-> & _). cbn. exact Hs0.
Qed.

(** The executor copies pages back only when the test on the destination
    chunk says so; the state of the source chunk plays no part. *)
Lemma gpuscan_process_task_writeback enabled kernel_result gscan w r w' :
  gpuscan_process_task enabled kernel_result gscan w = (Ret r, w') ->
  writeback_test gscan = false ->
  exists cs, world.calls w' = world.calls w ++ cs /\ Forall not_writeback cs.
Proof.
  intros Hr Htest. apply gpuscan_process_task_Ret in Hr
    as (g0 & w0 & Hg0 & E0 & [[-> E1] | Hr]).
  - by destruct (ext_trans _ _ _ _ E0 E1).
  - assert (Htest0 : writeback_test (set_kern g0 kernel_result) = false).
    { destruct Hg0 as [-> | ->]; [exact Htest | reflexivity]. }
    apply check_kernel_status_Ret in Hr as (task' & cs & -> & Hcs & Hcase).
    assert (Forall not_writeback cs).
    { destruct (_ =? StromError_Success); [by destruct Hcase as (_ & _ & ?) |].
      destruct Hcase as (_ & Hcase). destruct (enabled && _).
      - rewrite Htest0 in Hcase. by destruct Hcase.
      - by destruct Hcase. }
    destruct E0 as (_ & cs0 & Hc0 & HP0). exists (cs0 ++ cs).
    rewrite Hcs, Hc0, app_assoc. split; [reflexivity | by apply Forall_app].
Qed.

End process_task_props.

(** Every task the factory builds fails the write-back test: its
    destination chunk, when it has one, is a fresh row chunk. *)
Lemma gpuscan_create_task_writeback_test `{Layout} `{DeviceMemory}
    gss pds_src gscan :
  gpuscan_create_task gss pds_src = OK gscan -> writeback_test gscan = false.
Proof.
  intros Hrun. apply gpuscan_create_task_OK in Hrun as (_ & _ & _ & Hbr).
  unfold writeback_test. destruct (bool_decide _ && negb _).
  - destruct Hbr as (-> & _). apply andb_false_r.
  - destruct Hbr as (length & pds_dst & _ & Hrow & -> & _).
    apply PDS_create_row_OK in Hrow as (_ & _ & ->). apply andb_false_r.
Qed.

(** C2 (the code misses it): a block chunk with 4 pages that are only on
    the device, sent by direct storage-to-device transfer; the kernel asks
    for a CPU recheck.  The task comes back flagged for fallback, still
    marked as bulk-transferred and with its 4 pages uncached, and no
    device-to-host copy was issued: line 2997 tests the destination
    chunk's [nblocks_uncached], which is 0. *)
Theorem gpuscan_process_task_skips_writeback :
  exists gscan gscan' w',
    gpuscan_create_task (H := sample_layout) (H0 := sample_device)
      (sample_gss false) (sample_pds KDS_FORMAT_BLOCK 10 4 sample_rows)
      = OK gscan /\
    gpuscan_process_task (H := sample_errors) true
      (sample_kernel_result 1000 0 0) gscan sample_world
      = (Ret (0, gscan'), w') /\
    task.cpu_fallback (gscan.task gscan') = true /\
    gscan.with_nvme_strom gscan' = true /\
    pds.nblocks_uncached (gscan.pds_src gscan') = 4 /\
    gpuMemCopyFromSSD ∈ world.calls w' /\
    Forall not_writeback (world.calls w').
Proof.
  eexists _, _, _. split; [vm_compute; reflexivity |].
  split; [vm_compute; reflexivity |].
  split; [reflexivity |]. split; [reflexivity |]. split; [reflexivity |].
  split.
  - apply list_elem_of_In. vm_compute. tauto.
  - repeat constructor.
Qed.

Lemma gpuscan_process_task_classifies_witness :
  exists gscan gscan' w',
    gpuscan_create_task (H := sample_layout) (H0 := sample_device)
      (sample_gss true) (sample_pds KDS_FORMAT_ROW 4 0 sample_rows)
      = OK gscan /\
    gpuscan_process_task (H := sample_errors) true
      (sample_kernel_result 2001 4 1) gscan sample_world
      = (Ret (0, gscan'), w') /\
    let errcode := kerror.errcode (kern.kerror (sample_kernel_result 2001 4 1)) in
    let before := gscan.task gscan in
    let after := gscan.task gscan' in
    (errcode = @StromError_Success sample_errors ->
       task.cpu_fallback after = task.cpu_fallback before /\
       task.kerror after = kern.kerror (sample_kernel_result 2001 4 1)) /\
    (errcode <> @StromError_Success sample_errors -> true = true ->
     errcode = @StromError_CpuReCheck sample_errors \/
     errcode = @StromError_DataStoreNoSpace sample_errors ->
       task.kerror after = kern_errorbuf_zero /\
       task.cpu_fallback after = true) /\
    (errcode <> @StromError_Success sample_errors ->
     true = false \/
     (errcode <> @StromError_CpuReCheck sample_errors /\
      errcode <> @StromError_DataStoreNoSpace sample_errors) ->
       task.kerror after = kern.kerror (sample_kernel_result 2001 4 1) /\
       kerror.errcode (task.kerror after) <> @StromError_Success sample_errors /\
       task.cpu_fallback after = task.cpu_fallback before).
Proof.
  eexists _, _, _. split; [vm_compute; reflexivity |].
  split; [vm_compute; reflexivity |].
  eapply (gpuscan_process_task_classifies (H := sample_errors) true
            (sample_kernel_result 2001 4 1) _ _ sample_world).
  vm_compute. reflexivity.
Defined.

(** ** The CPU fallback *)

(** Induction over expression trees, with the hypothesis for every child
    of a node that has a list of them. *)
Lemma Node_ind_nested (P : Node -> Prop) :
  (forall str, P (T_String str)) ->
  (forall ival, P (T_Integer ival)) ->
  (forall elems, Forall P elems -> P (T_List elems)) ->
  (forall ints, P (T_IntList ints)) ->
  (forall v, P (T_Var v)) ->
  (forall consttype constvalue, P (T_Const consttype constvalue)) ->
  (forall opfuncid args, Forall P args -> P (T_OpExpr opfuncid args)) ->
  (forall args, Forall P args -> P (T_BoolExpr_AND args)) ->
  forall node, P node.
Proof.
  intros Hstr Hint Hlist Hints Hvar Hconst Hop Hand.
  fix IH 1. intros [str | ival | elems | ints | v | ty val | f args | args].
  - apply Hstr.
  - apply Hint.
  - apply Hlist. induction elems as [| n l IHl]; constructor; [apply IH | exact IHl].
  - apply Hints.
  - apply Hvar.
  - apply Hconst.
  - apply Hop. induction args as [| n l IHl]; constructor; [apply IH | exact IHl].
  - apply Hand. induction args as [| n l IHl]; constructor; [apply IH | exact IHl].
Qed.

Lemma fixup_list_OK tlist l l' :
  fixup_list tlist l = OK l' ->
  Forall2 (fun n n' => fixup_varnode_to_origin n tlist = OK n') l l'.
Proof.
  revert l'. induction l as [| n l IH]; intros l' Hrun.
  - injection Hrun as <-. constructor.
  - cbn [fixup_list] in Hrun. bind_inv Hrun as n' Hn. bind_inv Hrun as l0 Hl.
    injection Hrun as <-. constructor; [exact Hn | by apply IH].
Qed.

Lemma fmap_result_OK {A B} (f : A -> B) (m : result A) b :
  f <$> m = OK b -> exists a, m = OK a /\ b = f a.
Proof. destruct m as [a | msg]; [intros [= <-]; eauto | discriminate]. Qed.

Section fallback_props.
Context `{HostEvaluator}.




(** What [ExecInitGpuScan] makes of the plan node. *)
Lemma ExecInitGpuScan_OK cscan kern_params_length rel_natts gss :
  ExecInitGpuScan cscan kern_params_length rel_natts = OK gss ->
  exists gs_info dev_quals_raw,
    deform_gpuscan_info cscan = OK gs_info /\
    fixup_list (custom_scan_tlist cscan) (gs_info.dev_quals gs_info)
      = OK dev_quals_raw /\
    gss.dev_quals gss = Some (make_ands_explicit dev_quals_raw) /\
    gss.dev_projection gss
      = (if custom_scan_tlist cscan is [] then false else true) /\
    gss.base_proj gss
      = (if custom_scan_tlist cscan is [] then None
         else Some (take_while (fun tle => negb (resjunk tle))
                      (custom_scan_tlist cscan))) /\
    gss.proj_tuple_sz gss = gs_info.proj_tuple_sz gs_info /\
    gss.curr_index gss = 0.
Proof.
  unfold ExecInitGpuScan. intros Hrun.
  bind_inv Hrun as gs_info Hinfo. bind_inv Hrun as raw Hraw.
  injection Hrun as <-. bind_inv Hraw as node Hnode.
  cbn [fixup_varnode_to_origin] in Hnode.
  fold (fixup_list (custom_scan_tlist cscan)) in Hnode.
  apply fmap_result_OK in Hnode as (l' & Hl & ->). injection Hraw as <-.
  exists gs_info, l'. cbn. repeat split; try assumption.
  all: by destruct (custom_scan_tlist cscan).
Qed.

(** One call of the fallback loop: either every remaining tuple fails the
    qualifier, each one counted; or some tuples fail and are counted, and
    the first one that passes is projected and returned. *)
Lemma fallback_retry_next_spec gss rest i st :
  match fallback_retry_next gss rest i st with
  | (Some slot, i', st') =>
      exists pre t post,
        rest = pre ++ t :: post /\
        Forall (fun t => ~ passes (gss.dev_quals gss) t) pre /\ passes (gss.dev_quals gss) t /\
        slot = fallback_project (gss.base_proj gss) t /\
        i' = i + Z.of_nat (length pre) + 1 /\
        uint64 (rtstat.nitems_filtered st')
          = uint64 (rtstat.nitems_filtered st + Z.of_nat (length pre)) /\
        (is_uint64 (rtstat.nitems_filtered st) ->
         is_uint64 (rtstat.nitems_filtered st')) /\
        rtstat.ccache_count st' = rtstat.ccache_count st
  | (None, i', st') =>
      Forall (fun t => ~ passes (gss.dev_quals gss) t) rest /\
      i' = i + Z.of_nat (length rest) /\
      uint64 (rtstat.nitems_filtered st')
        = uint64 (rtstat.nitems_filtered st + Z.of_nat (length rest)) /\
      (is_uint64 (rtstat.nitems_filtered st) ->
       is_uint64 (rtstat.nitems_filtered st')) /\
      rtstat.ccache_count st' = rtstat.ccache_count st
  end.
Proof.
  revert i st. induction rest as [| t rest IH]; intros i st.
  - cbn. split_and!; [constructor | lia | f_equal; lia | done | done].
  - cbn [fallback_retry_next].
    destruct (ExecQual (gss.dev_quals gss) t) eqn:Eq; cbn [negb].
    + exists [], t, rest. cbn.
      split_and!; [done | constructor | done | done | lia | f_equal; lia
                  | done | done].
    + assert (Hfail : ~ passes (gss.dev_quals gss) t) by (unfold passes; congruence).
      specialize (IH (i + 1)
        {| rtstat.nitems_filtered :=
             pg_atomic_add_fetch_u64 (rtstat.nitems_filtered st) 1;
           rtstat.ccache_count := rtstat.ccache_count st |}).
      destruct (fallback_retry_next _ _ _ _) as [[[slot |] i'] st'].
      * destruct IH as (pre & t' & post & -> & Hpre & Ht & -> & -> & Hcnt & Hr & Hcc).
        exists (t :: pre), t', post.
        cbn [app length rtstat.nitems_filtered rtstat.ccache_count] in *.
        split_and!; [done | by constructor | done | done | lia | | | done].
        -- rewrite Hcnt. unfold pg_atomic_add_fetch_u64, uint64.
           rewrite Zplus_mod_idemp_l. f_equal. lia.
        -- intros _. apply Hr, uint64_range.
      * destruct IH as (Hrest & -> & Hcnt & Hr & Hcc).
        cbn [length rtstat.nitems_filtered rtstat.ccache_count] in *.
        split_and!; [by constructor | lia | | | done].
        -- rewrite Hcnt. unfold pg_atomic_add_fetch_u64, uint64.
           rewrite Zplus_mod_idemp_l. f_equal. lia.
        -- intros _. apply Hr, uint64_range.
Qed.

Lemma filter_none {A} (P : A -> Prop) `{!forall x, Decision (P x)} (l : list A) :
  Forall (fun x => ~ P x) l -> filter P l = [].
Proof.
  induction 1 as [| x l Hx _ IH]; [reflexivity |].
  by rewrite filter_cons_False.
Qed.

(** Draining a task flagged for fallback, from wherever its cursor stands:
    the tuples returned are the remaining tuples of the source chunk that
    pass the qualifier, each projected, in order; each of the others has
    been counted as filtered. *)
Lemma fetch_all_fallback fuel gss gscan st :
  task.cpu_fallback (gscan.task gscan) = true ->
  0 <= gss.curr_index gss ->
  let rest := drop (Z.to_nat (gss.curr_index gss))
                (pds.rows (gscan.pds_src gscan)) in
  (length rest < fuel)%nat ->
  exists gss' st',
    fetch_all fuel gss gscan st
      = (fallback_project (gss.base_proj gss) <$> filter (passes (gss.dev_quals gss)) rest, gss', st') /\
    uint64 (rtstat.nitems_filtered st')
      = uint64 (rtstat.nitems_filtered st
                + (Z.of_nat (length rest)
                   - Z.of_nat (length (filter (passes (gss.dev_quals gss)) rest)))) /\
    (is_uint64 (rtstat.nitems_filtered st) ->
     is_uint64 (rtstat.nitems_filtered st')) /\
    rtstat.ccache_count st' = rtstat.ccache_count st.
Proof.
  intros Hfb. revert gss st.
  induction fuel as [| fuel IH]; intros gss st Hidx rest Hfuel; [lia |].
  cbn [fetch_all]. unfold gpuscan_next_tuple. rewrite Hfb.
  unfold gpuscan_next_tuple_fallback. fold rest.
  pose proof (fallback_retry_next_spec gss rest (gss.curr_index gss) st) as Hspec.
  destruct (fallback_retry_next _ _ _ _) as [[[slot |] i'] st1].
  - destruct Hspec as (pre & t & post & Hrest & Hpre & Ht & -> & -> & Hcnt & Hr & Hcc).
    set (gss1 := set_curr_index gss _).
    assert (Hrest1 : drop (Z.to_nat (gss.curr_index gss1))
                       (pds.rows (gscan.pds_src gscan)) = post).
    { subst gss1. cbn [gss.curr_index set_curr_index].
      replace (Z.to_nat (gss.curr_index gss + Z.of_nat (length pre) + 1))
        with (Z.to_nat (gss.curr_index gss) + S (length pre))%nat by lia.
      rewrite <- drop_drop. fold rest. rewrite Hrest.
      rewrite drop_app_ge by lia.
      by replace (S (length pre) - length pre)%nat with 1%nat by lia. }
    destruct (IH gss1 st1) as (gss' & st' & Hrun & Hcnt' & Hr' & Hcc').
    { subst gss1. cbn. lia. }
    { rewrite Hrest1. rewrite Hrest, length_app in Hfuel. cbn in Hfuel. lia. }
    rewrite Hrest1 in Hrun, Hcnt'. rewrite Hrun.
    change (gss.dev_quals gss1) with (gss.dev_quals gss) in *.
    change (gss.base_proj gss1) with (gss.base_proj gss) in *.
    exists gss', st'.
    assert (Hfilter : filter (passes (gss.dev_quals gss)) rest = t :: filter (passes (gss.dev_quals gss)) post).
    { rewrite Hrest, filter_app, (filter_none _ _ Hpre).
      by rewrite filter_cons_True. }
    rewrite Hfilter. split_and!.
    + reflexivity.
    + rewrite Hcnt'. unfold uint64 in *.
      rewrite <- Zplus_mod_idemp_l, Hcnt, Zplus_mod_idemp_l.
      f_equal. rewrite Hrest, length_app. cbn [length]. lia.
    + auto.
    + congruence.
  - destruct Hspec as (Hall & -> & Hcnt & Hr & Hcc).
    rewrite (filter_none _ _ Hall). eexists _, _. split_and!.
    + reflexivity.
    + rewrite Hcnt. f_equal. cbn [length]. lia.
    + exact Hr.
    + exact Hcc.
Qed.



End fallback_props.

(** ** Conservation of the rows-filtered statistic *)

Section conservation.
Context `{StromError} `{HostEvaluator}.

(** A checked task carries the kernel's results and its own chunks. *)
Lemma gpuscan_process_task_frame enabled kernel_result gscan w gscan' w' :
  gpuscan_process_task enabled kernel_result gscan w = (Ret (0, gscan'), w') ->
  gscan.kern gscan' = kernel_result /\
  gscan.pds_dst gscan' = gscan.pds_dst gscan /\
  pds.rows (gscan.pds_src gscan') = pds.rows (gscan.pds_src gscan).
Proof.
  intros Hr. apply gpuscan_process_task_checked in Hr as (g0 & w0 & Hg0 & _ & Hr).
  apply check_kernel_status_Ret in Hr as (task' & cs & [= ->] & _).
  destruct Hg0 as [-> | ->]; repeat split.
Qed.

(** Pulling the results of a task that is not flagged for fallback does
    not touch the statistics. *)
Lemma fetch_all_accelerated fuel gss gscan st :
  task.cpu_fallback (gscan.task gscan) = false ->
  (fetch_all fuel gss gscan st).2 = st.
Proof.
  intros Hfb. revert gss.
  induction fuel as [| fuel IH]; intros gss; [reflexivity |].
  cbn [fetch_all]. unfold gpuscan_next_tuple. rewrite Hfb.
  destruct (gscan.pds_dst gscan) as [pds_dst |].
  - destruct (PDS_fetch_tuple pds_dst (gss.curr_index gss)) as [[slot |] i];
      [| reflexivity].
    specialize (IH (set_curr_index gss i)).
    by destruct (fetch_all fuel _ gscan st) as [[slots gss'] st'].
  - destruct (gss.curr_index gss <? _); [| reflexivity].
    destruct (KDS_REF_HTUP _ _); [| reflexivity].
    specialize (IH (set_curr_index gss (gss.curr_index gss + 1))).
    by destruct (fetch_all fuel _ gscan st) as [[slots gss'] st'].
Qed.

(** One chunk: whichever path handled it, the statistic grows by the rows
    the predicate rejected. *)
Lemma scan_chunk_filtered enabled gss (j : job) st count slots st' :
  task.cpu_fallback (gscan.task j.1.1) = false ->
  scan_chunk enabled gss j st = Some (count, slots, st') ->
  uint64 (rtstat.nitems_filtered st')
    = uint64 (rtstat.nitems_filtered st
              + (chunk.rows_in count - chunk.rows_out count)) /\
  (is_uint64 (rtstat.nitems_filtered st) ->
   is_uint64 (rtstat.nitems_filtered st')) /\
  rtstat.ccache_count st' = rtstat.ccache_count st.
Proof.
  destruct j as [[gscan kernel_result] answers]. cbn [fst]. intros Hfresh.
  unfold scan_chunk.
  destruct (gpuscan_process_task _ _ _ _) as [[[retval g'] | msg] w'] eqn:Hrun;
    [| discriminate].
  destruct (retval =? 0) eqn:Eret; [| discriminate]. cbn [negb].
  apply Z.eqb_eq in Eret as ->.
  pose proof (gpuscan_process_task_filtered _ _ _ _ _ _ Hrun) as Hstat.
  pose proof (gpuscan_process_task_status _ _ _ _ _ _ Hrun) as Htask.
  pose proof (gpuscan_process_task_frame _ _ _ _ _ _ Hrun) as (Hkern & _ & Hrows).
  cbn [fst world.gs_rtstat] in Hstat. change (0 =? 0) with true in Hstat.
  cbn [andb] in Hstat. cbn zeta in Htask.
  rewrite Hfresh in Htask. rewrite Htask. clear Htask.
  set (fuel := S _).
  destruct (kerror.errcode (kern.kerror kernel_result) =? StromError_Success)
    eqn:Ecode; cbn [task.cpu_fallback task.kerror negb andb] in *.
  - (* the kernel succeeded: the executor added the difference *)
    rewrite Ecode. cbn [negb].
    assert (Hflag : task.cpu_fallback (gscan.task g') = false).
    { rewrite (gpuscan_process_task_status _ _ _ _ _ _ Hrun). cbn zeta.
      by rewrite Ecode, Hfresh. }
    pose proof (fetch_all_accelerated fuel (set_curr_index gss 0) g'
                  (world.gs_rtstat w') Hflag) as Hfetch.
    destruct (fetch_all _ _ _ _) as [[slots0 gss0] st0]. cbn [snd] in Hfetch.
    subst st0. intros [= <- <- <-]. cbn [chunk.rows_in chunk.rows_out].
    rewrite Hstat, Hkern. cbn [rtstat.nitems_filtered rtstat.ccache_count].
    unfold pg_atomic_add_fetch_u64. split_and!.
    + unfold uint64. rewrite Z.mod_mod by lia.
      rewrite Zplus_mod_idemp_r. reflexivity.
    + intros _. apply uint64_range.
    + reflexivity.
  - (* the kernel reported an error: only a fallback goes on *)
    destruct (enabled && _) eqn:Efb;
      cbn [task.cpu_fallback task.kerror negb andb].
    + assert (Hflag : task.cpu_fallback (gscan.task g') = true).
      { rewrite (gpuscan_process_task_status _ _ _ _ _ _ Hrun). cbn zeta.
        by rewrite Ecode, Efb. }
      destruct (fetch_all_fallback fuel (set_curr_index gss 0) g'
                  (world.gs_rtstat w') Hflag)
        as (gss1 & st1 & Hfetch & Hcnt & Hrange & Hcc).
      { cbn. lia. }
      { subst fuel. cbn [gss.curr_index set_curr_index].
        change (Z.to_nat 0) with 0%nat. rewrite drop_0. lia. }
      rewrite Hfetch. intros [= <- <- <-].
      cbn [chunk.rows_in chunk.rows_out gss.curr_index set_curr_index
           gss.dev_quals gss.base_proj] in *.
      change (Z.to_nat 0) with 0%nat in *. rewrite drop_0 in *.
      rewrite Hstat in Hcnt, Hrange, Hcc. rewrite length_fmap.
      split_and!; assumption.
    + rewrite Ecode. discriminate.
Qed.

Lemma scan_chunks_filtered enabled gss jobs st counts st' :
  Forall fresh jobs ->
  scan_chunks enabled gss jobs st = Some (counts, st') ->
  uint64 (rtstat.nitems_filtered st')
    = uint64 (rtstat.nitems_filtered st + rows_rejected counts) /\
  (is_uint64 (rtstat.nitems_filtered st) ->
   is_uint64 (rtstat.nitems_filtered st')).
Proof.
  intros Hfresh. revert st counts st'.
  induction Hfresh as [| j jobs Hj _ IH]; intros st counts st' Hrun.
  - injection Hrun as <- <-. cbn. split; [f_equal; lia | done].
  - cbn [scan_chunks] in Hrun.
    destruct (scan_chunk enabled gss j st) as [[[count slots] st1] |] eqn:Hc;
      [| discriminate].
    cbn [mbind option_bind] in Hrun.
    destruct (scan_chunks enabled gss jobs st1) as [[counts1 st2] |] eqn:Hcs;
      [| discriminate].
    injection Hrun as <- <-.
    apply scan_chunk_filtered in Hc as (Hcnt & Hrange & _); [| exact Hj].
    apply IH in Hcs as (Hcnt' & Hrange').
    split; [| auto].
    rewrite Hcnt'. cbn [rows_rejected foldr]. fold (rows_rejected counts1).
    unfold uint64 in *. rewrite <- Zplus_mod_idemp_l, Hcnt, Zplus_mod_idemp_l.
    f_equal. lia.
Qed.

(** C1: over all chunks of a scan, whichever path handled each of them --
    the executor adding (rows in - rows out) for a task the kernel
    completed, the fallback adding 1 for every tuple it rejects -- the
    shared rows-filtered counter ends at its initial value plus the sum of
    rows_in - rows_out, as a 64-bit counter; from 0 it is that sum. *)
Theorem nitems_filtered_conservation (enabled : bool) (gss : GpuScanState)
    (jobs : list job) (gs_rtstat gs_rtstat' : GpuScanRuntimeStat)
    (counts : list chunk.t) :
  Forall fresh jobs ->
  is_uint64 (rtstat.nitems_filtered gs_rtstat) ->
  scan_chunks enabled gss jobs gs_rtstat = Some (counts, gs_rtstat') ->
  rtstat.nitems_filtered gs_rtstat'
    = uint64 (rtstat.nitems_filtered gs_rtstat + rows_rejected counts) /\
  (rtstat.nitems_filtered gs_rtstat = 0 ->
   rtstat.nitems_filtered gs_rtstat' = uint64 (rows_rejected counts)).
Proof.
  intros Hfresh Hrange Hrun.
  apply scan_chunks_filtered in Hrun as [Hcnt Hrange']; [| exact Hfresh].
  rewrite (uint64_id (rtstat.nitems_filtered gs_rtstat')) in Hcnt by auto.
  split; [exact Hcnt |]. intros Hzero. by rewrite Hcnt, Hzero.
Qed.

End conservation.

(** ** Examples on the sample plan and chunks *)

(** The fallback on the sample plan: rows 2 and 3 have column 3 above 30
    and come out as (column 3, column 1); the destination chunk's content
    never shows; the two other rows are counted. *)
Example cpu_fallback_sample :
  exists gss,
    ExecInitGpuScan sample_projected_cscan 64 3 = OK gss /\
    gss.dev_quals gss
      = Some (T_OpExpr 147 [T_Var (mkVar 1 3 23); T_Const 23 (Some 30)]) /\
    let '(slots, _, gs_rtstat) :=
      fetch_all (H := sample_evaluator) 5 gss sample_fallback_task
        sample_rtstat in
    slots = [[Some 31; Some 2]; [Some 99; Some 3]] /\
    rtstat.nitems_filtered gs_rtstat = 2.
Proof. eexists. split; [vm_compute; reflexivity |]. vm_compute. auto. Qed.


(** The sample scan: each chunk rejects 2 of its 4 rows, one on the
    device and one on the host, and the counter ends at 4. *)
Example scan_chunks_sample :
  scan_chunks (H := sample_errors) (H0 := sample_evaluator) true
    (sample_gss false) sample_jobs sample_rtstat
  = Some ([ {| chunk.rows_in := 4; chunk.rows_out := 2 |};
            {| chunk.rows_in := 4; chunk.rows_out := 2 |} ],
          {| rtstat.nitems_filtered := 4; rtstat.ccache_count := 0 |}).
Proof. vm_compute. reflexivity. Qed.

Lemma nitems_filtered_conservation_witness :
  exists counts gs_rtstat',
    Forall fresh sample_jobs /\
    is_uint64 (rtstat.nitems_filtered sample_rtstat) /\
    scan_chunks (H := sample_errors) (H0 := sample_evaluator) true
      (sample_gss false) sample_jobs sample_rtstat
      = Some (counts, gs_rtstat') /\
    rtstat.nitems_filtered gs_rtstat'
      = uint64 (rtstat.nitems_filtered sample_rtstat + rows_rejected counts) /\
    (rtstat.nitems_filtered sample_rtstat = 0 ->
     rtstat.nitems_filtered gs_rtstat' = uint64 (rows_rejected counts)).
Proof.
  assert (Hfresh : Forall fresh sample_jobs) by (repeat constructor).
  assert (Hrange : is_uint64 (rtstat.nitems_filtered sample_rtstat))
    by (unfold is_uint64; cbn; lia).
  eexists _, _. split; [exact Hfresh |]. split; [exact Hrange |].
  split; [vm_compute; reflexivity |].
  apply (nitems_filtered_conservation (H := sample_errors)
           (H0 := sample_evaluator) true (sample_gss false) sample_jobs
           sample_rtstat _ _ Hfresh Hrange).
  vm_compute. reflexivity.
Defined.

(** * Further properties *)

(** ** The shared block cursor over a run of calls *)

Section parallel_cursor_props.
Context `{Storage}.

(** One call at a valid cursor without columnar cache, for a relation that
    ends at least one segment below 2^32 blocks: the worker gets the
    clamped range at the cursor and the cursor moves past it, to block 0
    at the end of the relation and to [InvalidBlockNumber] on reaching the
    start block. *)
Lemma gpuscan_parallel_nextpage_plain fuel scan ps nr_blocks :
  0 < RELSEG_SIZE ->
  scan.rs_nblocks scan + RELSEG_SIZE <= 2 ^ 32 ->
  0 < nr_blocks < RELSEG_SIZE ->
  0 <= parallel_scan.phs_startblock ps < scan.rs_nblocks scan ->
  0 <= parallel_scan.phs_cblock ps < scan.rs_nblocks scan ->
  let page := parallel_scan.phs_cblock ps in
  let start := parallel_scan.phs_startblock ps in
  let n := clamp_nr_blocks page nr_blocks (scan.rs_nblocks scan) start in
  let next := if scan.rs_nblocks scan <=? page + n then 0 else page + n in
  exists r,
    gpuscan_parallel_nextpage fuel scan ps false nr_blocks = Some r /\
    scan.rs_cblock (nextpage.scan r) = page /\
    scan.rs_numblocks (nextpage.scan r) = n /\
    nextpage.parallel_scan r =
      {| parallel_scan.phs_syncscan := parallel_scan.phs_syncscan ps;
         parallel_scan.phs_startblock := start;
         parallel_scan.phs_cblock :=
           if next =? start then InvalidBlockNumber else next |}.
Proof.
  intros HR Hmax Hnr Hstart Hcur page start n next.
  destruct (clamp_nr_blocks_spec page nr_blocks (scan.rs_nblocks scan) start
              HR Hmax Hcur Hnr ltac:(lia)) as (Hn & _ & Hend & _).
  fold n in Hn, Hend.
  unfold gpuscan_parallel_nextpage.
  assert (Hinit : (parallel_scan.phs_startblock ps =? InvalidBlockNumber) = false).
  { apply Z.eqb_neq. unfold InvalidBlockNumber. lia. }
  assert (Hvalid : (parallel_scan.phs_cblock ps =? InvalidBlockNumber) = false).
  { apply Z.eqb_neq. unfold InvalidBlockNumber. lia. }
  rewrite Hinit. cbn [mbind option_bind]. rewrite Hvalid.
  cbn [andb mbind option_bind]. fold page start n.
  rewrite (uint32_id (page + n)) by (unfold is_uint32; lia). fold next.
  destruct (next =? start) eqn:E; cbn [mbind option_bind];
    eexists; (split; [reflexivity |]); unfold nextpage_unlocked; cbn;
    repeat split.
Qed.

Lemma mod_wrap_once (N a : Z) : 0 < N -> 0 <= a < 2 * N ->
  a mod N = if N <=? a then a - N else a.
Proof.
  intros HN Ha. destruct (N <=? a) eqn:E.
  - apply Z.leb_le in E. symmetry. apply (Z.mod_unique a N 1); lia.
  - apply Z.leb_gt in E. apply Z.mod_small. lia.
Qed.

Lemma neg_mod_wrap (N a : Z) : 0 < N -> - N <= a < N ->
  a mod N = if a <? 0 then a + N else a.
Proof.
  intros HN Ha. destruct (a <? 0) eqn:E.
  - apply Z.ltb_lt in E. symmetry. apply (Z.mod_unique a N (-1)); lia.
  - apply Z.ltb_ge in E. apply Z.mod_small. lia.
Qed.

Lemma seqZ_shift (m n : Z) : seqZ m n = Z.add m <$> seqZ 0 n.
Proof. by rewrite fmap_add_seqZ, Z.add_0_r. Qed.

(** The number of blocks left at a valid cursor. *)
Lemma blocks_left_count N start page :
  0 <= start < N -> 0 <= page < N ->
  (start - page - 1) mod N + 1 = if page <? start then start - page else N - page + start.
Proof.
  intros Hs Hp. rewrite neg_mod_wrap by lia.
  destruct (page <? start) eqn:E; [apply Z.ltb_lt in E | apply Z.ltb_ge in E];
    destruct (start - page - 1 <? 0) eqn:E'; 
    [apply Z.ltb_lt in E' | apply Z.ltb_ge in E' | apply Z.ltb_lt in E' | apply Z.ltb_ge in E']; lia.
Qed.

Lemma blocks_left_step N ps n :
  let start := parallel_scan.phs_startblock ps in
  let page := parallel_scan.phs_cblock ps in
  let next := if N <=? page + n then 0 else page + n in
  N <= InvalidBlockNumber ->
  0 <= start < N -> 0 <= page < N ->
  0 < n -> page + n <= N -> (page < start -> page + n <= start) ->
  blocks_left N ps =
    seqZ page n ++
    blocks_left N
      {| parallel_scan.phs_syncscan := parallel_scan.phs_syncscan ps;
         parallel_scan.phs_startblock := start;
         parallel_scan.phs_cblock :=
           if next =? start then InvalidBlockNumber else next |}.
Proof.
  intros start page next HI Hs Hp Hn Hend Hbefore.
  unfold blocks_left. fold start page.
  cbn [parallel_scan.phs_startblock parallel_scan.phs_cblock].
  pose proof (blocks_left_count N start page Hs Hp) as HD.
  set (D := (start - page - 1) mod N + 1) in *.
  assert (HnD : n <= D) by (destruct (page <? start) eqn:E;
    [apply Z.ltb_lt in E | apply Z.ltb_ge in E]; lia).
  assert (Hpage : (page =? InvalidBlockNumber) = false) by (apply Z.eqb_neq; lia).
  rewrite Hpage.
  replace D with (n + (D - n)) by lia.
  rewrite seqZ_app, fmap_app by lia. f_equal.
  - rewrite (seqZ_shift page n).
    apply list_fmap_ext. intros k i [-> Hi]%lookup_seqZ.
    apply Z.mod_small. lia.
  - assert (Hnext : 0 <= next < N) by (subst next; destruct (N <=? page + n) eqn:E;
      [apply Z.leb_le in E | apply Z.leb_gt in E]; lia).
    destruct (next =? start) eqn:Enext.
    + apply Z.eqb_eq in Enext. rewrite Z.eqb_refl.
      assert (D - n = 0).
      { subst next. destruct (N <=? page + n) eqn:E;
          [apply Z.leb_le in E | apply Z.leb_gt in E];
          destruct (page <? start) eqn:E';
          [apply Z.ltb_lt in E' | apply Z.ltb_ge in E'
          | apply Z.ltb_lt in E' | apply Z.ltb_ge in E']; lia. }
      replace (D - n) with 0 by lia. reflexivity.
    + apply Z.eqb_neq in Enext.
      assert (Hnv : (next =? InvalidBlockNumber) = false) by (apply Z.eqb_neq; lia).
      rewrite Hnv.
      pose proof (blocks_left_count N start next Hs Hnext) as HD'.
      rewrite HD'.
      assert (HDn : (if next <? start then start - next else N - next + start)
                    = D - n).
      { subst next. destruct (N <=? page + n) eqn:E;
          [apply Z.leb_le in E | apply Z.leb_gt in E];
          destruct (page <? start) eqn:E';
          [apply Z.ltb_lt in E' | apply Z.ltb_ge in E'
          | apply Z.ltb_lt in E' | apply Z.ltb_ge in E'];
          destruct (_ <? start) eqn:E'';
          try apply Z.ltb_lt in E''; try apply Z.ltb_ge in E''; lia. }
      rewrite HDn.
      rewrite (seqZ_shift (0 + n) (D - n)), <- list_fmap_compose.
      apply list_fmap_ext. intros k i [-> Hi]%lookup_seqZ. cbn.
      subst next. destruct (N <=? page + n) eqn:E;
        [apply Z.leb_le in E | apply Z.leb_gt in E].
      * assert (page + n = N) by lia.
        match goal with
        | |- _ = ?x mod N => rewrite <- (Z.mod_add x 1 N) by lia
        end.
        f_equal. lia.
      * f_equal. lia.
Qed.

Lemma blocks_left_fresh N ps :
  let start := parallel_scan.phs_startblock ps in
  N <= InvalidBlockNumber -> 0 <= start < N ->
  parallel_scan.phs_cblock ps = start ->
  blocks_left N ps = seqZ start (N - start) ++ seqZ 0 start.
Proof.
  intros start HI Hs Hc. unfold blocks_left. rewrite Hc. fold start.
  assert (Hv : (start =? InvalidBlockNumber) = false) by (apply Z.eqb_neq; lia).
  rewrite Hv, blocks_left_count by lia.
  rewrite Z.ltb_irrefl. replace (N - start + start) with ((N - start) + start) by lia.
  rewrite seqZ_app, fmap_app by lia. f_equal.
  - rewrite (seqZ_shift start (N - start)).
    apply list_fmap_ext. intros k i [-> Hi]%lookup_seqZ. apply Z.mod_small. lia.
  - rewrite (seqZ_shift (0 + (N - start)) start), <- list_fmap_compose.
    rewrite <- (list_fmap_id (seqZ 0 start)) at 2.
    apply list_fmap_ext. intros k i [-> Hi]%lookup_seqZ. cbn.
    etrans; [| apply (Z.mod_small _ N); lia].
    match goal with
    | |- _ = ?x mod N => rewrite <- (Z.mod_add x 1 N) by lia
    end.
    f_equal. lia.
Qed.

Lemma blocks_left_NoDup N ps :
  cursor_valid N ps -> NoDup (blocks_left N ps).
Proof.
  intros [Hs Hc]. unfold blocks_left.
  destruct (_ =? InvalidBlockNumber) eqn:E; [constructor |].
  destruct Hc as [Hc | Hc]; [apply Z.eqb_neq in E; contradiction |].
  pose proof (blocks_left_count N _ _ Hs Hc) as HD.
  apply NoDup_fmap_2_strong; [| apply NoDup_seqZ].
  intros i j [Hi1 Hi2]%elem_of_seqZ [Hj1 Hj2]%elem_of_seqZ Heq.
  assert (Hi : 0 <= i < N) by (destruct (_ <? _) eqn:E';
    [apply Z.ltb_lt in E' | apply Z.ltb_ge in E']; lia).
  assert (Hj : 0 <= j < N) by (destruct (_ <? _) eqn:E';
    [apply Z.ltb_lt in E' | apply Z.ltb_ge in E']; lia).
  rewrite !mod_wrap_once in Heq by lia.
  destruct (N <=? _ + i) eqn:E1; destruct (N <=? _ + j) eqn:E2;
    try apply Z.leb_le in E1; try apply Z.leb_gt in E1;
    try apply Z.leb_le in E2; try apply Z.leb_gt in E2; try lia.
  all: destruct (_ <? _) eqn:E'; [apply Z.ltb_lt in E' | apply Z.ltb_ge in E']; lia.
Qed.

(** A call at an exhausted cursor. *)
Lemma nextpage_exhausted fuel scan ps ccache_refs nr_blocks :
  parallel_scan.phs_startblock ps <> InvalidBlockNumber ->
  parallel_scan.phs_cblock ps = InvalidBlockNumber ->
  exists r,
    gpuscan_parallel_nextpage fuel scan ps ccache_refs nr_blocks = Some r /\
    nextpage.parallel_scan r = ps /\
    scan.rs_cblock (nextpage.scan r) = InvalidBlockNumber /\
    scan.rs_numblocks (nextpage.scan r) = nr_blocks /\
    nextpage.report_page r = None /\
    nextpage.pds_column r = OK None /\
    reserved_blocks r = [].
Proof.
  intros Hstart Hcur. unfold gpuscan_parallel_nextpage.
  apply Z.eqb_neq in Hstart. rewrite Hstart. cbn [mbind option_bind].
  rewrite Hcur, Z.eqb_refl. cbn [mbind option_bind].
  eexists. split; [reflexivity |]. unfold nextpage_unlocked, reserved_blocks.
  cbn. destruct ps as [sync start cblock].
  cbn in Hcur. subst cblock.
  destruct (scan.rs_syncscan scan); repeat split.
Qed.

(** X1: once the shared cursor is exhausted it stays exhausted.  A call,
    with or without columnar cache, finds [phs_cblock] invalid, leaves the
    shared state as it is, reports no location, loads no cached chunk and
    hands the worker the invalid position; and however many calls follow,
    whatever they ask for, none is handed a block. *)
Theorem gpuscan_parallel_nextpage_exhausted (scan : HeapScanDesc)
    (ps : ParallelHeapScanDesc) :
  parallel_scan.phs_startblock ps <> InvalidBlockNumber ->
  parallel_scan.phs_cblock ps = InvalidBlockNumber ->
  (forall fuel ccache_refs nr_blocks, exists r,
     gpuscan_parallel_nextpage fuel scan ps ccache_refs nr_blocks = Some r /\
     nextpage.parallel_scan r = ps /\
     scan.rs_cblock (nextpage.scan r) = InvalidBlockNumber /\
     nextpage.report_page r = None /\
     nextpage.pds_column r = OK None) /\
  (forall requests,
     reservations scan ps requests
       = Some (replicate (length requests) [], ps)).
Proof.
  intros Hstart Hcur. split.
  - intros fuel ccache_refs nr_blocks.
    destruct (nextpage_exhausted fuel scan ps ccache_refs nr_blocks Hstart Hcur)
      as (r & Hr & Hps & Hpage & _ & Hrep & Hpds & _).
    by exists r.
  - intros requests. induction requests as [| nr_blocks requests IH];
      [reflexivity |].
    cbn [reservations].
    destruct (nextpage_exhausted 0 scan ps false nr_blocks Hstart Hcur)
      as (r & -> & Hps & _ & _ & _ & _ & Hblocks).
    cbn [mbind option_bind]. rewrite Hps, IH, Hblocks. reflexivity.
Qed.

(** X2: a run of calls by any workers, each asking for between 1 and
    RELSEG_SIZE-1 blocks, on a relation that ends at least one segment
    below 2^32 blocks and without columnar cache: every call returns, the
    cursor stays valid, and the blocks handed out so far followed by the
    blocks still to hand out are the blocks that were to hand out at the
    beginning -- no block is handed out twice and none is skipped.  A scan
    that began at its start block and has exhausted the cursor has handed
    out the whole relation once, from the start block round to the block
    before it. *)
Theorem reservations_cover (scan : HeapScanDesc) (ps : ParallelHeapScanDesc)
    (requests : list Z) :
  0 < RELSEG_SIZE ->
  scan.rs_nblocks scan + RELSEG_SIZE <= 2 ^ 32 ->
  Forall (fun nr_blocks => 0 < nr_blocks < RELSEG_SIZE) requests ->
  cursor_valid (scan.rs_nblocks scan) ps ->
  exists ranges ps',
    reservations scan ps requests = Some (ranges, ps') /\
    cursor_valid (scan.rs_nblocks scan) ps' /\
    parallel_scan.phs_startblock ps' = parallel_scan.phs_startblock ps /\
    concat ranges ++ blocks_left (scan.rs_nblocks scan) ps'
      = blocks_left (scan.rs_nblocks scan) ps /\
    NoDup (concat ranges) /\
    (parallel_scan.phs_cblock ps = parallel_scan.phs_startblock ps ->
     parallel_scan.phs_cblock ps' = InvalidBlockNumber ->
     concat ranges =
       seqZ (parallel_scan.phs_startblock ps)
            (scan.rs_nblocks scan - parallel_scan.phs_startblock ps)
       ++ seqZ 0 (parallel_scan.phs_startblock ps)).
Proof.
  intros HR Hmax Hreq Hvalid.
  assert (HI : scan.rs_nblocks scan <= InvalidBlockNumber)
    by (unfold InvalidBlockNumber; lia).
  assert (Hmain : exists ranges ps',
    reservations scan ps requests = Some (ranges, ps') /\
    cursor_valid (scan.rs_nblocks scan) ps' /\
    parallel_scan.phs_startblock ps' = parallel_scan.phs_startblock ps /\
    concat ranges ++ blocks_left (scan.rs_nblocks scan) ps'
      = blocks_left (scan.rs_nblocks scan) ps).
  { revert ps Hvalid.
    induction Hreq as [| nr_blocks requests Hnr _ IH]; intros ps Hvalid.
    { exists [], ps. split; [reflexivity |]. split; [exact Hvalid |].
      split; reflexivity. }
    cbn [reservations]. destruct Hvalid as [Hstart Hcur].
    destruct Hcur as [Hcur | Hcur].
    - destruct (nextpage_exhausted 0 scan ps false nr_blocks)
        as (r & -> & Hps & _ & _ & _ & _ & Hblocks);
        [unfold InvalidBlockNumber in *; lia | exact Hcur |].
      cbn [mbind option_bind]. rewrite Hps, Hblocks.
      destruct (IH ps) as (ranges & ps' & -> & Hv & Hs & Hleft);
        [split; [exact Hstart | by left] |].
      cbn [mbind option_bind]. exists ([] :: ranges), ps'.
      split; [reflexivity |]. split; [exact Hv |]. split; [exact Hs |].
      exact Hleft.
    - destruct (gpuscan_parallel_nextpage_plain 0 scan ps nr_blocks
                  HR Hmax Hnr Hstart Hcur) as (r & -> & Hpage & Hn & Hps).
      cbn [mbind option_bind].
      destruct (clamp_nr_blocks_spec (parallel_scan.phs_cblock ps) nr_blocks
                  (scan.rs_nblocks scan) (parallel_scan.phs_startblock ps)
                  HR Hmax Hcur Hnr ltac:(lia)) as (Hn0 & _ & Hend & Hbefore).
      set (n := clamp_nr_blocks _ _ _ _) in *.
      pose proof (blocks_left_step (scan.rs_nblocks scan) ps n HI Hstart Hcur
                    ltac:(lia) Hend Hbefore) as Hstep.
      rewrite <- Hps in Hstep.
      assert (Hv : cursor_valid (scan.rs_nblocks scan) (nextpage.parallel_scan r)).
      { rewrite Hps. split; [exact Hstart |].
        cbn [parallel_scan.phs_cblock].
        destruct (_ =? parallel_scan.phs_startblock ps); [by left | right].
        destruct (_ <=? _) eqn:E;
          [apply Z.leb_le in E | apply Z.leb_gt in E]; lia. }
      destruct (IH _ Hv) as (ranges & ps' & -> & Hv' & Hs' & Hleft).
      cbn [mbind option_bind].
      exists (reserved_blocks r :: ranges), ps'.
      split; [reflexivity |]. split; [exact Hv' |].
      split; [by rewrite Hs', Hps |].
      cbn [concat]. rewrite <- app_assoc, Hleft, Hstep.
      f_equal. unfold reserved_blocks. rewrite Hpage, Hn.
      assert (Hnv : (parallel_scan.phs_cblock ps =? InvalidBlockNumber) = false)
        by (apply Z.eqb_neq; lia).
      by rewrite Hnv. }
  destruct Hmain as (ranges & ps' & Hrun & Hv & Hs & Hleft).
  exists ranges, ps'. split; [exact Hrun |]. split; [exact Hv |].
  split; [exact Hs |]. split; [exact Hleft |]. split.
  - pose proof (blocks_left_NoDup _ _ Hvalid) as Hnd.
    rewrite <- Hleft in Hnd. by apply NoDup_app in Hnd as [Hnd _].
  - intros Hfresh Hdone.
    rewrite <- (blocks_left_fresh _ ps HI (proj1 Hvalid) Hfresh), <- Hleft.
    unfold blocks_left at 1. rewrite Hdone, Z.eqb_refl. by rewrite app_nil_r.
Qed.

(** X3: a reservation at a valid cursor, with or without columnar cache,
    on a relation that ends at least one segment below 2^32 blocks: the
    cursor stays valid with the same start block, and the range handed to
    the worker is no longer than asked for, lies in one storage segment,
    ends inside the relation and does not cross the start block. *)
Theorem gpuscan_parallel_nextpage_within_bounds (fuel : nat)
    (scan : HeapScanDesc) (ps : ParallelHeapScanDesc) (ccache_refs : bool)
    (nr_blocks : Z) (r : nextpage.t) :
  0 < RELSEG_SIZE ->
  scan.rs_nblocks scan + RELSEG_SIZE <= 2 ^ 32 ->
  0 < nr_blocks < RELSEG_SIZE ->
  cursor_valid (scan.rs_nblocks scan) ps ->
  gpuscan_parallel_nextpage fuel scan ps ccache_refs nr_blocks = Some r ->
  (exists pds_column, nextpage.pds_column r = OK pds_column) ->
  let page := scan.rs_cblock (nextpage.scan r) in
  let count := scan.rs_numblocks (nextpage.scan r) in
  let start := parallel_scan.phs_startblock ps in
  cursor_valid (scan.rs_nblocks scan) (nextpage.parallel_scan r) /\
  parallel_scan.phs_startblock (nextpage.parallel_scan r) = start /\
  page = parallel_scan.phs_cblock ps /\
  (page <> InvalidBlockNumber ->
     0 <= count <= nr_blocks /\
     same_segment page count /\
     page + count <= scan.rs_nblocks scan /\
     (page < start -> page + count <= start)).
Proof.
  intros HR Hmax Hnr Hvalid Hrun Hpds page count start.
  destruct (gpuscan_parallel_nextpage_reservation fuel scan ps ccache_refs
              nr_blocks r HR Hmax Hnr Hvalid Hrun Hpds) as (Hs & Hp & Hrange).
  fold page in Hp. fold start in Hs. fold count in Hrange.
  split; [| split; [exact Hs | split; [exact Hp |]]].
  - split; [rewrite Hs; exact (proj1 Hvalid) |].
    destruct (decide (parallel_scan.phs_cblock ps = InvalidBlockNumber))
      as [Hdone | Hlive].
    + destruct (nextpage_exhausted fuel scan ps ccache_refs nr_blocks)
        as (r' & Hr' & Hps' & _); [| exact Hdone |].
      { destruct Hvalid as [Hv _]. unfold InvalidBlockNumber. lia. }
      rewrite Hrun in Hr'. injection Hr' as <-. rewrite Hps'. by left.
    + destruct (Hrange Hlive) as (_ & _ & _ & _ & [Hc | [Hc _]]);
        [by left | by right].
  - intros Hlive. rewrite Hp in Hlive |- *.
    destruct (Hrange Hlive) as (Hc & Hseg & Hend & Hbefore & _).
    split; [exact Hc |]. split; [exact Hseg |]. split; [exact Hend | exact Hbefore].
Qed.

End parallel_cursor_props.

(** A relation of 20 blocks scanned from block 5 by workers asking for 8
    blocks each: 5..12, 13..19 (cut at the end of the relation), 0..4 (cut
    at the start block), then nothing. *)
Example reservations_sample :
  reservations (H := sample_storage) (sample_scan 20)
    (sample_parallel_scan 5 5) [8; 8; 8; 8]
  = Some ([seqZ 5 8; seqZ 13 7; seqZ 0 5; []],
          sample_parallel_scan 5 InvalidBlockNumber).
Proof. vm_compute. reflexivity. Qed.

Lemma gpuscan_parallel_nextpage_exhausted_witness :
  let ps := sample_parallel_scan 5 InvalidBlockNumber in
  parallel_scan.phs_startblock ps <> InvalidBlockNumber /\
  parallel_scan.phs_cblock ps = InvalidBlockNumber /\
  (forall fuel ccache_refs nr_blocks, exists r,
     gpuscan_parallel_nextpage (H := sample_storage) fuel (sample_scan 20) ps
       ccache_refs nr_blocks = Some r /\
     nextpage.parallel_scan r = ps /\
     scan.rs_cblock (nextpage.scan r) = InvalidBlockNumber /\
     nextpage.report_page r = None /\
     nextpage.pds_column r = OK None) /\
  (forall requests,
     reservations (H := sample_storage) (sample_scan 20) ps requests
       = Some (replicate (length requests) [], ps)).
Proof.
  assert (Hstart : parallel_scan.phs_startblock
                     (sample_parallel_scan 5 InvalidBlockNumber)
                   <> InvalidBlockNumber) by (vm_compute; discriminate).
  split; [exact Hstart |]. split; [reflexivity |].
  exact (gpuscan_parallel_nextpage_exhausted (H := sample_storage)
           (sample_scan 20) (sample_parallel_scan 5 InvalidBlockNumber)
           Hstart eq_refl).
Defined.

Lemma reservations_cover_witness :
  let scan := sample_scan 20 in
  let ps := sample_parallel_scan 5 5 in
  let requests := [8; 8; 8; 8] in
  0 < @RELSEG_SIZE sample_storage /\
  scan.rs_nblocks scan + @RELSEG_SIZE sample_storage <= 2 ^ 32 /\
  Forall (fun nr_blocks => 0 < nr_blocks < @RELSEG_SIZE sample_storage)
    requests /\
  cursor_valid (scan.rs_nblocks scan) ps /\
  exists ranges ps',
    reservations (H := sample_storage) scan ps requests = Some (ranges, ps') /\
    cursor_valid (scan.rs_nblocks scan) ps' /\
    parallel_scan.phs_startblock ps' = parallel_scan.phs_startblock ps /\
    concat ranges ++ blocks_left (scan.rs_nblocks scan) ps'
      = blocks_left (scan.rs_nblocks scan) ps /\
    NoDup (concat ranges) /\
    (parallel_scan.phs_cblock ps = parallel_scan.phs_startblock ps ->
     parallel_scan.phs_cblock ps' = InvalidBlockNumber ->
     concat ranges =
       seqZ (parallel_scan.phs_startblock ps)
            (scan.rs_nblocks scan - parallel_scan.phs_startblock ps)
       ++ seqZ 0 (parallel_scan.phs_startblock ps)).
Proof.
  assert (HR : 0 < @RELSEG_SIZE sample_storage) by (cbn; lia).
  assert (Hmax : scan.rs_nblocks (sample_scan 20) + @RELSEG_SIZE sample_storage
                 <= 2 ^ 32) by (cbn; lia).
  assert (Hreq : Forall (fun nr_blocks =>
                           0 < nr_blocks < @RELSEG_SIZE sample_storage)
                   [8; 8; 8; 8]) by (repeat constructor; cbn; lia).
  assert (Hvalid : cursor_valid (scan.rs_nblocks (sample_scan 20))
                     (sample_parallel_scan 5 5))
    by (split; [| right]; cbn; lia).
  split; [exact HR |]. split; [exact Hmax |]. split; [exact Hreq |].
  split; [exact Hvalid |].
  exact (reservations_cover (H := sample_storage) (sample_scan 20)
           (sample_parallel_scan 5 5) [8; 8; 8; 8] HR Hmax Hreq Hvalid).
Defined.

(** Eight blocks asked for two blocks before a segment boundary: two are
    handed out. *)
Example gpuscan_parallel_nextpage_segment_sample :
  (fun r => (scan.rs_cblock (nextpage.scan r),
             scan.rs_numblocks (nextpage.scan r),
             parallel_scan.phs_cblock (nextpage.parallel_scan r)))
    <$> gpuscan_parallel_nextpage (H := sample_storage) 0 (sample_scan 300000)
          (sample_parallel_scan 0 131070) false 8
  = Some (131070, 2, 131072).
Proof. vm_compute. reflexivity. Qed.

Lemma gpuscan_parallel_nextpage_within_bounds_witness :
  let scan := sample_scan 300000 in
  let ps := sample_parallel_scan 0 131070 in
  0 < @RELSEG_SIZE sample_storage /\
  scan.rs_nblocks scan + @RELSEG_SIZE sample_storage <= 2 ^ 32 /\
  0 < 8 < @RELSEG_SIZE sample_storage /\
  cursor_valid (scan.rs_nblocks scan) ps /\
  exists r,
    gpuscan_parallel_nextpage (H := sample_storage) 0 scan ps false 8 = Some r /\
    (exists pds_column, nextpage.pds_column r = OK pds_column) /\
    let page := scan.rs_cblock (nextpage.scan r) in
    let count := scan.rs_numblocks (nextpage.scan r) in
    let start := parallel_scan.phs_startblock ps in
    cursor_valid (scan.rs_nblocks scan) (nextpage.parallel_scan r) /\
    parallel_scan.phs_startblock (nextpage.parallel_scan r) = start /\
    page = parallel_scan.phs_cblock ps /\
    (page <> InvalidBlockNumber ->
       0 <= count <= 8 /\
       same_segment (H := sample_storage) page count /\
       page + count <= scan.rs_nblocks scan /\
       (page < start -> page + count <= start)).
Proof.
  assert (HR : 0 < @RELSEG_SIZE sample_storage) by (cbn; lia).
  assert (Hmax : scan.rs_nblocks (sample_scan 300000)
                 + @RELSEG_SIZE sample_storage <= 2 ^ 32) by (cbn; lia).
  assert (Hnr : 0 < 8 < @RELSEG_SIZE sample_storage) by (cbn; lia).
  assert (Hvalid : cursor_valid (scan.rs_nblocks (sample_scan 300000))
                     (sample_parallel_scan 0 131070))
    by (split; [| right]; cbn; lia).
  split; [exact HR |]. split; [exact Hmax |]. split; [exact Hnr |].
  split; [exact Hvalid |].
  eexists. split; [vm_compute; reflexivity |].
  assert (Hpds : exists pds_column : option pgstrom_data_store,
             OK None = OK pds_column) by (by exists None).
  split; [exact Hpds |].
  exact (gpuscan_parallel_nextpage_within_bounds (H := sample_storage) 0
           (sample_scan 300000) (sample_parallel_scan 0 131070) false 8 _
           HR Hmax Hnr Hvalid eq_refl Hpds).
Defined.

(** ** The qualifier code generator: when it fails *)

Section codegen_failure_props.
Context `{Codegen}.

Lemma foreach_total {A S} (l : list A) (body : S -> A -> result S) (s : S) :
  (forall s x, x ∈ l -> exists s', body s x = OK s') ->
  exists s', foreach l body s = OK s'.
Proof.
  revert s. induction l as [| x l IH]; intros s Hbody; [by exists s |].
  cbn [foreach]. destruct (Hbody s x) as [s1 ->]; [by left |].
  cbn. apply IH. intros s2 y Hy. apply Hbody. by right.
Qed.

(** A variable the generated code can load: a user column of the scanned
    relation whose type the device knows. *)
Lemma check_used_var_iff scanrelid var :
  check_used_var scanrelid var = OK () <->
  varno var = scanrelid /\ 0 < varattno var /\
  is_Some (pgstrom_devtype_lookup (vartype var)).
Proof.
  split.
  - intros (Hrel & Hatt & dtype & Hty)%check_used_var_OK. by rewrite Hty.
  - intros (Hrel & Hatt & dtype & Hty). unfold check_used_var.
    rewrite Hrel, Z.eqb_refl. cbn [negb].
    destruct (varattno var =? 0) eqn:E0; [lia |].
    destruct (varattno var <? 0) eqn:E1; [lia |].
    by rewrite Hty.
Qed.

(** X4: code generation for a present qualifier succeeds exactly when the
    expression generator succeeds and every variable it collected is a
    user column (attribute number 1 or more) of the scanned relation whose
    type the device knows; a reference to another relation, a whole-row
    or system-column reference, or a type without device support makes it
    fail. *)
Theorem codegen_gpuscan_quals_succeeds_iff (kern : StringInfo)
    (context : codegen_context) (scanrelid : Z) (quals : Node) :
  (exists kern' context',
     codegen_gpuscan_quals kern context scanrelid (Some quals)
       = OK (kern', context')) <->
  (exists expr_code context',
     pgstrom_codegen_expression quals context = OK (expr_code, context') /\
     Forall (fun var => varno var = scanrelid /\ 0 < varattno var /\
                        is_Some (pgstrom_devtype_lookup (vartype var)))
       (context.used_vars context')).
Proof.
  split.
  - intros (kern' & context' & Hrun). unfold codegen_gpuscan_quals in Hrun.
    bind_inv Hrun as [expr_code ctx] Ha. bind_inv Hrun as u Ha0.
    bind_inv Hrun as [tfunc cfunc] Ha1. injection Hrun as <- <-.
    exists expr_code, ctx. split; [exact Ha |].
    apply foreach_check_OK in Ha0.
    eapply Forall_impl; [exact Ha0 |]. intros var. apply check_used_var_iff.
  - intros (expr_code & ctx & Ha & Hvars). unfold codegen_gpuscan_quals.
    rewrite Ha. cbn [mbind result_bind].
    assert (Hcheck : foreach (context.used_vars ctx)
                       (fun _ var => check_used_var scanrelid var) () = OK ()).
    { apply foreach_check_OK. eapply Forall_impl; [exact Hvars |].
      intros var. apply check_used_var_iff. }
    rewrite Hcheck. cbn [mbind result_bind].
    assert (Hname : forall var, var ∈ context.used_vars ctx ->
                      exists type_name, devtype_name var = OK type_name).
    { intros var Hin. eapply Forall_forall in Hvars as (_ & _ & dtype & Hty);
        [| exact Hin].
      unfold devtype_name. rewrite Hty. eauto. }
    match goal with
    | |- context [if ?c then ?a else ?b] =>
        assert (Hbody : exists bufs, (if c then a else b) = OK bufs)
    end.
    { destruct (_ <=? 1).
      - apply foreach_total. intros [tfunc cfunc] var Hin.
        unfold quals_vref_var.
        eapply Forall_forall in Hvars as Hvar; [| exact Hin].
        destruct Hvar as (_ & Hatt & _).
        destruct (varattno var <=? 0) eqn:E; [lia |].
        destruct (Hname var Hin) as [type_name ->]. cbn. eauto.
      - unfold quals_vref_walk.
        destruct (foreach_total (context.used_vars ctx)
                    (quals_declare_var ctx) ([], 0)) as [[temp vmax] ->].
        { intros [temp vmax] var Hin. unfold quals_declare_var.
          destruct (Hname var Hin) as [type_name ->]. cbn. eauto. }
        cbn [mbind result_bind].
        match goal with
        | |- context [foreach ?l ?b ?s] =>
            destruct (foreach_total l b s) as [[tf cf] ->]
        end.
        { intros [tf cf] anum _. unfold quals_walk_attribute.
          pose proof (find_varattno (context.used_vars ctx) anum) as Hfind.
          destruct (find _ _) as [var |].
          - destruct Hfind as [_ Hin].
            destruct (Hname var Hin) as [type_name ->]. cbn. eauto.
          - cbn. eauto. }
        cbn. eauto. }
    destruct Hbody as [[tfunc cfunc] ->]. cbn. eauto.
Qed.

End codegen_failure_props.

(** ** The fallback predicate refers to the base relation only *)

Lemma fixup_varnode_to_origin_vars tlist node node' :
  tlist <> [] ->
  fixup_varnode_to_origin node tlist = OK node' ->
  forall v, v ∈ node_vars node' ->
    exists tle, tle ∈ tlist /\ v ∈ node_vars (expr tle).
Proof.
  intros Hne. revert node'.
  assert (Hlist : forall l l',
    Forall (fun n => forall n', fixup_varnode_to_origin n tlist = OK n' ->
              forall v, v ∈ node_vars n' ->
                exists tle, tle ∈ tlist /\ v ∈ node_vars (expr tle)) l ->
    fixup_list tlist l = OK l' ->
    forall v, v ∈ flat_map node_vars l' ->
      exists tle, tle ∈ tlist /\ v ∈ node_vars (expr tle)).
  { intros l l' IH Hl%fixup_list_OK v Hv.
    induction Hl as [| n n' l l' Hn Hl IHl]; [by apply elem_of_nil in Hv |].
    apply Forall_cons in IH as [IHn IH]. cbn [flat_map] in Hv.
    apply elem_of_app in Hv as [Hv | Hv]; [by eapply IHn | by apply IHl]. }
  induction node as [| | elems IH | | v | | f args IH | args IH]
    using Node_ind_nested; intros node' Hrun w Hw;
    try (injection Hrun as <-; by apply elem_of_nil in Hw).
  - cbn [fixup_varnode_to_origin] in Hrun. fold (fixup_list tlist) in Hrun.
    apply fmap_result_OK in Hrun as (l' & Hl & ->). by eapply Hlist.
  - cbn [fixup_varnode_to_origin] in Hrun.
    destruct tlist as [| tle0 tlist0]; [done |].
    bind_inv Hrun as tle Htle. injection Hrun as <-.
    unfold list_nth in Htle.
    destruct (varattno v - 1 <? 0); [discriminate |].
    destruct ((tle0 :: tlist0) !! Z.to_nat (varattno v - 1)) as [t |] eqn:El;
      [| discriminate].
    injection Htle as ->. exists tle. split; [| exact Hw].
    by eapply list_elem_of_lookup_2.
  - cbn [fixup_varnode_to_origin] in Hrun. fold (fixup_list tlist) in Hrun.
    apply fmap_result_OK in Hrun as (l' & Hl & ->). by eapply Hlist.
  - cbn [fixup_varnode_to_origin] in Hrun. fold (fixup_list tlist) in Hrun.
    apply fmap_result_OK in Hrun as (l' & Hl & ->). by eapply Hlist.
Qed.

(** X5: with a device projection in place, every variable of the
    predicate that [ExecInitGpuScan] prepares for the CPU fallback is a
    variable of the expression of some [custom_scan_tlist] entry: the
    references to positions of the projected row have been replaced, and
    the predicate reads no column that the projection does not read. *)
Theorem ExecInitGpuScan_dev_quals_vars (cscan : CustomScan)
    (kern_params_length rel_natts : Z) (gss : GpuScanState) :
  ExecInitGpuScan cscan kern_params_length rel_natts = OK gss ->
  custom_scan_tlist cscan <> [] ->
  exists quals,
    gss.dev_quals gss = Some quals /\
    forall v, v ∈ node_vars quals ->
      exists tle, tle ∈ custom_scan_tlist cscan /\ v ∈ node_vars (expr tle).
Proof.
  intros Hinit Hne.
  apply ExecInitGpuScan_OK in Hinit
    as (gs_info & raw & _ & Hraw & Hquals & _).
  exists (make_ands_explicit raw). split; [exact Hquals |].
  intros v Hv.
  assert (Hin : v ∈ flat_map node_vars raw).
  { destruct raw as [| n [| n2 raw]]; cbn in Hv |- *.
    - by apply elem_of_nil in Hv.
    - by rewrite app_nil_r.
    - exact Hv. }
  apply fixup_list_OK in Hraw. clear Hquals Hv.
  induction Hraw as [| n n' l l' Hn _ IH]; [by apply elem_of_nil in Hin |].
  cbn [flat_map] in Hin. apply elem_of_app in Hin as [Hin | Hin].
  - by eapply fixup_varnode_to_origin_vars.
  - by apply IH.
Qed.

Lemma ExecInitGpuScan_dev_quals_vars_witness :
  exists gss,
    ExecInitGpuScan sample_projected_cscan 64 3 = OK gss /\
    custom_scan_tlist sample_projected_cscan <> [] /\
    exists quals,
      gss.dev_quals gss = Some quals /\
      forall v, v ∈ node_vars quals ->
        exists tle, tle ∈ custom_scan_tlist sample_projected_cscan /\
                    v ∈ node_vars (expr tle).
Proof.
  eexists. split; [vm_compute; reflexivity |].
  assert (Hne : custom_scan_tlist sample_projected_cscan <> [])
    by (vm_compute; discriminate).
  split; [exact Hne |].
  exact (ExecInitGpuScan_dev_quals_vars sample_projected_cscan 64 3 _
           eq_refl Hne).
Defined.

(** ** Results of a task the device completed *)

Section accelerated_props.
Context `{HostEvaluator}.

Lemma set_curr_index_twice gss i j :
  set_curr_index (set_curr_index gss i) j = set_curr_index gss j.
Proof. reflexivity. Qed.

Lemma fetch_all_destination fuel gss gscan st pds_dst :
  task.cpu_fallback (gscan.task gscan) = false ->
  gscan.pds_dst gscan = Some pds_dst ->
  0 <= gss.curr_index gss ->
  (length (drop (Z.to_nat (gss.curr_index gss)) (pds.rows pds_dst)) < fuel)%nat ->
  exists gss',
    fetch_all fuel gss gscan st
      = (drop (Z.to_nat (gss.curr_index gss)) (pds.rows pds_dst), gss', st) /\
    gpuscan_next_tuple gss' gscan st = (None, gss', st).
Proof.
  intros Hfb Hdst. revert gss.
  induction fuel as [| fuel IH]; intros gss Hidx Hfuel; [lia |].
  cbn [fetch_all]. unfold gpuscan_next_tuple at 1. rewrite Hfb, Hdst.
  unfold PDS_fetch_tuple.
  destruct (pds.rows pds_dst !! Z.to_nat (gss.curr_index gss))
    as [tuple |] eqn:El.
  - rewrite (drop_S _ _ _ El) in Hfuel |- *. cbn [length] in Hfuel.
    destruct (IH (set_curr_index gss (gss.curr_index gss + 1)))
      as (gss' & Hrun & Hend).
    + cbn. lia.
    + cbn [set_curr_index gss.curr_index].
      replace (Z.to_nat (gss.curr_index gss + 1))
        with (S (Z.to_nat (gss.curr_index gss))) by lia.
      lia.
    + cbn [set_curr_index gss.curr_index] in Hrun.
      replace (Z.to_nat (gss.curr_index gss + 1))
        with (S (Z.to_nat (gss.curr_index gss))) in Hrun by lia.
      rewrite Hrun. by exists gss'.
  - apply lookup_ge_None in El. rewrite drop_ge by lia.
    exists (set_curr_index gss (gss.curr_index gss)). split; [reflexivity |].
    unfold gpuscan_next_tuple, PDS_fetch_tuple. rewrite Hfb, Hdst.
    cbn [set_curr_index gss.curr_index].
    apply lookup_ge_None in El. by rewrite El.
Qed.

(** X6: a task the device completed into a destination chunk gives back
    the tuples of that chunk, all of them and in order, and then nothing;
    the source chunk, the result buffer and the statistics play no part. *)
Theorem gpuscan_next_tuple_destination (gss : GpuScanState)
    (gscan : GpuScanTask) (gs_rtstat : GpuScanRuntimeStat) (fuel : nat)
    (pds_dst : pgstrom_data_store) :
  task.cpu_fallback (gscan.task gscan) = false ->
  gscan.pds_dst gscan = Some pds_dst ->
  gss.curr_index gss = 0 ->
  (length (pds.rows pds_dst) < fuel)%nat ->
  exists gss',
    fetch_all fuel gss gscan gs_rtstat = (pds.rows pds_dst, gss', gs_rtstat) /\
    gpuscan_next_tuple gss' gscan gs_rtstat = (None, gss', gs_rtstat).
Proof.
  intros Hfb Hdst Hidx Hfuel.
  destruct (fetch_all_destination fuel gss gscan gs_rtstat pds_dst Hfb Hdst)
    as (gss' & Hrun & Hend).
  - lia.
  - by rewrite Hidx.
  - rewrite Hidx in Hrun. by exists gss'.
Qed.

Lemma fetch_all_index_only fuel gss gscan st slots :
  task.cpu_fallback (gscan.task gscan) = false ->
  gscan.pds_dst gscan = None ->
  let kresults := kern.resultbuf (gscan.kern gscan) in
  let n := Z.to_nat (kresults.nitems kresults) in
  0 <= gss.curr_index gss ->
  (n <= length (kresults.results kresults))%nat ->
  mapM (KDS_REF_HTUP (gscan.pds_src gscan))
    (drop (Z.to_nat (gss.curr_index gss)) (take n (kresults.results kresults)))
    = Some slots ->
  (length slots < fuel)%nat ->
  exists gss',
    fetch_all fuel gss gscan st = (slots, gss', st) /\
    gpuscan_next_tuple gss' gscan st = (None, gss', st).
Proof.
  intros Hfb Hdst kresults n. revert gss slots.
  induction fuel as [| fuel IH]; intros gss slots Hidx Hn Hmap Hfuel; [lia |].
  cbn [fetch_all]. unfold gpuscan_next_tuple at 1. rewrite Hfb, Hdst.
  fold kresults.
  destruct (gss.curr_index gss <? kresults.nitems kresults) eqn:E.
  - apply Z.ltb_lt in E.
    assert (Hlt : (Z.to_nat (gss.curr_index gss) < n)%nat) by lia.
    destruct (kresults.results kresults !! Z.to_nat (gss.curr_index gss))
      as [off |] eqn:El; [| apply lookup_ge_None in El; lia].
    assert (El' : take n (kresults.results kresults)
                    !! Z.to_nat (gss.curr_index gss) = Some off)
      by (by rewrite lookup_take_lt).
    rewrite (drop_S _ _ _ El') in Hmap. cbn [mapM] in Hmap.
    unfold default. cbn [from_option id].
    destruct (KDS_REF_HTUP (gscan.pds_src gscan) off) as [tuple |];
      [| discriminate].
    cbn [mbind option_bind] in Hmap.
    destruct (mapM _ _) as [rest |] eqn:Erest; [| discriminate].
    cbn in Hmap. injection Hmap as <-. cbn [length] in Hfuel.
    destruct (IH (set_curr_index gss (gss.curr_index gss + 1)) rest)
      as (gss' & Hrun & Hend).
    + cbn. lia.
    + exact Hn.
    + cbn [set_curr_index gss.curr_index].
      replace (Z.to_nat (gss.curr_index gss + 1))
        with (S (Z.to_nat (gss.curr_index gss))) by lia.
      exact Erest.
    + lia.
    + rewrite Hrun. by exists gss'.
  - apply Z.ltb_ge in E.
    rewrite drop_ge in Hmap by (rewrite length_take; lia).
    injection Hmap as <-. exists gss. split; [reflexivity |].
    unfold gpuscan_next_tuple. rewrite Hfb, Hdst. fold kresults.
    apply Z.ltb_ge in E. by rewrite E.
Qed.

(** X7: an index-only task the device completed gives back the tuples of
    the source chunk at the offsets the kernel left in the result buffer,
    the first [nitems] of them, in the buffer's order, and then nothing;
    the statistics are not touched. *)
Theorem gpuscan_next_tuple_index_only (gss : GpuScanState)
    (gscan : GpuScanTask) (gs_rtstat : GpuScanRuntimeStat) (fuel : nat)
    (slots : list HeapTuple) :
  task.cpu_fallback (gscan.task gscan) = false ->
  gscan.pds_dst gscan = None ->
  gss.curr_index gss = 0 ->
  let kresults := kern.resultbuf (gscan.kern gscan) in
  let n := Z.to_nat (kresults.nitems kresults) in
  (n <= length (kresults.results kresults))%nat ->
  mapM (KDS_REF_HTUP (gscan.pds_src gscan))
    (take n (kresults.results kresults)) = Some slots ->
  (length slots < fuel)%nat ->
  exists gss',
    fetch_all fuel gss gscan gs_rtstat = (slots, gss', gs_rtstat) /\
    gpuscan_next_tuple gss' gscan gs_rtstat = (None, gss', gs_rtstat).
Proof.
  intros Hfb Hdst Hidx kresults n Hn Hmap Hfuel.
  apply (fetch_all_index_only fuel gss gscan gs_rtstat slots Hfb Hdst);
    [lia | exact Hn | by rewrite Hidx | exact Hfuel].
Qed.

End accelerated_props.

Lemma gpuscan_next_tuple_destination_witness :
  let pds_dst := sample_pds KDS_FORMAT_ROW 2 0 sample_projected_rows in
  task.cpu_fallback (gscan.task sample_destination_task) = false /\
  gscan.pds_dst sample_destination_task = Some pds_dst /\
  gss.curr_index (sample_gss true) = 0 /\
  (length (pds.rows pds_dst) < 3)%nat /\
  exists gss',
    fetch_all (H := sample_evaluator) 3 (sample_gss true)
      sample_destination_task sample_rtstat
      = (pds.rows pds_dst, gss', sample_rtstat) /\
    gpuscan_next_tuple (H := sample_evaluator) gss' sample_destination_task
      sample_rtstat = (None, gss', sample_rtstat).
Proof.
  assert (Hfuel : (length sample_projected_rows < 3)%nat) by (cbn; lia).
  split; [reflexivity |]. split; [reflexivity |]. split; [reflexivity |].
  split; [exact Hfuel |].
  exact (gpuscan_next_tuple_destination (H := sample_evaluator)
           (sample_gss true) sample_destination_task sample_rtstat 3
           (sample_pds KDS_FORMAT_ROW 2 0 sample_projected_rows)
           eq_refl eq_refl eq_refl Hfuel).
Defined.

Lemma gpuscan_next_tuple_index_only_witness :
  let kresults := kern.resultbuf (gscan.kern sample_index_only_task) in
  let n := Z.to_nat (kresults.nitems kresults) in
  let slots := sample_selected_rows in
  task.cpu_fallback (gscan.task sample_index_only_task) = false /\
  gscan.pds_dst sample_index_only_task = None /\
  gss.curr_index (sample_gss false) = 0 /\
  (n <= length (kresults.results kresults))%nat /\
  mapM (KDS_REF_HTUP (gscan.pds_src sample_index_only_task))
    (take n (kresults.results kresults)) = Some slots /\
  (length slots < 3)%nat /\
  exists gss',
    fetch_all (H := sample_evaluator) 3 (sample_gss false)
      sample_index_only_task sample_rtstat = (slots, gss', sample_rtstat) /\
    gpuscan_next_tuple (H := sample_evaluator) gss' sample_index_only_task
      sample_rtstat = (None, gss', sample_rtstat).
Proof.
  assert (Hn : (Z.to_nat (kresults.nitems
                  (kern.resultbuf (gscan.kern sample_index_only_task)))
                <= length (kresults.results
                     (kern.resultbuf (gscan.kern sample_index_only_task))))%nat)
    by (cbn; lia).
  assert (Hfuel : (length sample_selected_rows < 3)%nat) by (cbn; lia).
  split; [reflexivity |]. split; [reflexivity |]. split; [reflexivity |].
  split; [exact Hn |]. split; [reflexivity |]. split; [exact Hfuel |].
  exact (gpuscan_next_tuple_index_only (H := sample_evaluator)
           (sample_gss false) sample_index_only_task sample_rtstat 3
           sample_selected_rows
           eq_refl eq_refl eq_refl Hn eq_refl Hfuel).
Defined.

(** ** The driver calls of one task *)

Lemma trace_refl w : trace w w [].
Proof. split; [by rewrite app_nil_r | reflexivity]. Qed.

Lemma trace_trans w1 w2 w3 cs1 cs2 :
  trace w1 w2 cs1 -> trace w2 w3 cs2 -> trace w1 w3 (cs1 ++ cs2).
Proof.
  intros [Hc1 Hs1] [Hc2 Hs2]. split; [| congruence].
  by rewrite Hc2, Hc1, app_assoc.
Qed.

Lemma cuda_trace c w rc w' : cuda c w = (Ret rc, w') -> trace w w' [c].
Proof. intros [= _ <-]. by split. Qed.

Lemma cuda_void_trace c w u w' : cuda_void c w = (Ret u, w') -> trace w w' [c].
Proof. intros [= _ <-]. by split. Qed.

Lemma expect_success_Ret rc msg w u w' :
  expect_success rc msg w = (Ret u, w') -> rc = CUDA_SUCCESS /\ w' = w.
Proof. destruct rc; [intros [= _ <-]; by split | discriminate ..]. Qed.

Lemma emits_mret {A} P (a : A) : emits P (mret a).
Proof. intros w a' w' [= _ <-]. exists []. by rewrite app_nil_r. Qed.

Lemma emits_werror {A} P msg : emits P (@werror A msg).
Proof. intros w a w' Hr. discriminate. Qed.

Lemma emits_bind {A B} P (m : M A) (f : A -> M B) :
  emits P m -> (forall a, emits P (f a)) -> emits P (m ≫= f).
Proof.
  intros Hm Hf w b w' Hr. step Hr as a w1 Ha.
  apply Hm in Ha as (cs1 & Hc1 & HP1). apply Hf in Hr as (cs2 & Hc2 & HP2).
  exists (cs1 ++ cs2). rewrite Hc2, Hc1, app_assoc.
  split; [reflexivity | by apply Forall_app].
Qed.

Lemma emits_cuda P c : P c -> emits P (cuda c).
Proof. intros Hc w a w' [= _ <-]. exists [c]. split; [reflexivity | by constructor]. Qed.

Lemma emits_cuda_void P c : P c -> emits P (cuda_void c).
Proof. intros Hc w a w' [= _ <-]. exists [c]. split; [reflexivity | by constructor]. Qed.

Lemma emits_expect_success P rc msg : emits P (expect_success rc msg).
Proof. destruct rc; [apply emits_mret | apply emits_werror ..]. Qed.

Lemma emits_add_nitems_filtered P add : emits P (add_nitems_filtered add).
Proof. intros w a w' [= _ <-]. exists []. by rewrite app_nil_r. Qed.

Ltac emits_steps :=
  repeat first
    [ apply emits_mret | apply emits_werror | apply emits_expect_success
    | apply emits_add_nitems_filtered
    | apply emits_cuda | apply emits_cuda_void
    | apply emits_bind; [| intros ?] ].

Section process_task_calls.
Context `{StromError}.

(** [out_of_resource] exactly. *)
Lemma out_of_resource_trace retval gscan w r w' :
  out_of_resource retval gscan w = (Ret r, w') ->
  r = (retval, gscan) /\
  trace w w'
    ((if 0 <? retval then [wnotice "GpuScan: out of resource"] else [])
     ++ release_calls (kds.format (pds.kds (gscan.pds_src gscan)))).
Proof.
  intros Hr. unfold out_of_resource in Hr.
  step Hr as [] w1 H1. step Hr as [] w2 H2. injection Hr as <- <-.
  split; [reflexivity |]. apply trace_trans with w1.
  - destruct (0 <? retval); [by eapply cuda_void_trace |].
    injection H1 as <-. apply trace_refl.
  - unfold release_calls. destruct (decide _); [by eapply cuda_void_trace |].
    injection H2 as <-. apply trace_refl.
Qed.

(** The calls of [check_kernel_status]: result transfers, then the
    release. *)
Lemma check_kernel_status_calls enabled gscan w r w' :
  check_kernel_status enabled gscan w = (Ret r, w') ->
  r.1 = 0 /\
  exists post,
    world.calls w' = world.calls w ++ post
      ++ release_calls (kds.format (pds.kds (gscan.pds_src gscan))) /\
    Forall is_completion post.
Proof.
  intros Hr. unfold check_kernel_status in Hr.
  destruct (_ =? StromError_Success).
  - step Hr as [] w1 H1. step Hr as [] w2 H2.
    apply out_of_resource_trace in Hr as (-> & Hc & _).
    split; [reflexivity |].
    apply (emits_add_nitems_filtered is_completion) in H1 as (cs1 & Hc1 & HP1).
    assert (Q2 : emits is_completion
      match gscan.pds_dst gscan with
      | Some _ =>
          if 0 <? kern.nitems_out (gscan.kern gscan)
          then
            rc ← cuda (cuMemPrefetchAsync_dst_extra
                         (kern.extra_size (gscan.kern gscan)));
            _ ← expect_success rc "failed on cuMemPrefetchAsync";
            rc0 ← cuda (cuMemPrefetchAsync_dst_index
                          (kern.nitems_out (gscan.kern gscan)));
            expect_success rc0 "failed on cuMemPrefetchAsync"
          else mret ()
      | None =>
          rc ← cuda (cuMemPrefetchAsync_kresults
                       (kern.nitems_out (gscan.kern gscan)));
          expect_success rc "failed on cuMemPrefetchAsync"
      end).
    { destruct (gscan.pds_dst gscan); [destruct (0 <? _) |];
        emits_steps; exact I. }
    apply Q2 in H2 as (cs2 & Hc2 & HP2).
    exists (cs1 ++ cs2). cbn [app] in Hc. rewrite Hc, Hc2, Hc1.
    cbn [set_task gscan.pds_src]. rewrite <- !app_assoc.
    split; [reflexivity | by apply Forall_app].
  - step Hr as g w1 H1.
    apply out_of_resource_trace in Hr as (-> & Hc & _).
    split; [reflexivity |].
    assert (Hg : gscan.pds_src g = gscan.pds_src gscan /\
                 exists cs1, world.calls w1 = world.calls w ++ cs1 /\
                             Forall is_completion cs1).
    { destruct (enabled && _).
      - step H1 as need w2 H2. step H1 as [] w3 H3. injection H1 as <- <-.
        split; [reflexivity |].
        assert (Hw2 : w2 = w).
        { destruct (gscan.with_nvme_strom _); [| by injection H2 as _ <-].
          destruct (gscan.pds_dst gscan); [by injection H2 as _ <- | discriminate]. }
        subst w2. revert H3. clear H2.
        match goal with |- ?m w = _ -> _ => assert (Q : emits is_completion m) end.
        { destruct need; emits_steps; exact I. }
        intros H3. by apply Q in H3.
      - injection H1 as <- <-. split; [reflexivity |]. exists [].
        by rewrite app_nil_r. }
    destruct Hg as (Hsrc & cs1 & Hc1 & HP1).
    exists cs1. cbn [app] in Hc. rewrite Hc, Hc1, Hsrc, <- app_assoc.
    by split.
Qed.

(** The executor up to the point of synchronisation: either the device
    copy of a block chunk could not be allocated and the task comes back
    for a later retry, or the kernel was launched and waited for, and the
    status it left is looked at. *)
Lemma gpuscan_process_task_run enabled kernel_result gscan w r w' :
  gpuscan_process_task enabled kernel_result gscan w = (Ret r, w') ->
  let format := kds.format (pds.kds (gscan.pds_src gscan)) in
  exists g0 pre,
    (g0 = gscan \/
     (g0 = fillup_blocks gscan /\ gscan.with_nvme_strom gscan = true /\
      PDS_fillup_blocks ∈ pre /\ (gpuMemCopyFromSSD ∉ pre))) /\
    Forall is_setup pre /\
    ((r = (100001, g0) /\ format = KDS_FORMAT_BLOCK /\
      trace w w' (pre ++ [wnotice "GpuScan: out of resource"; gpuMemFree]))
     \/
     exists kern_fname w2,
       kern_fname_of format = Some kern_fname /\
       trace w w2 (pre ++ [cuLaunchKernel kern_fname; cuEventRecord;
                           cuEventSynchronize]) /\
       check_kernel_status enabled (set_kern g0 kernel_result) w2 = (Ret r, w')).
Proof.
  intros Hr format. unfold gpuscan_process_task in Hr. fold format in Hr.
  step Hr as kern_fname w1 H1.
  assert (E1 : kern_fname_of format = Some kern_fname /\ w1 = w).
  { destruct format; try discriminate; by injection H1 as <- <-. }
  destruct E1 as [Hname ->]. clear H1.
  step Hr as rc w2 H2. apply cuda_trace in H2.
  step Hr as [] w3 H3. apply expect_success_Ret in H3 as [_ ->].
  step Hr as [g0 m_kds_src] w4 H4.
  assert (E4 : exists cs4,
    trace w2 w4 cs4 /\ Forall is_setup cs4 /\
    (gpuMemCopyFromSSD ∉ cs4) /\
    gscan.pds_dst g0 = gscan.pds_dst gscan /\
    kds.format (pds.kds (gscan.pds_src g0)) = format /\
    kds.length (pds.kds (gscan.pds_src g0))
      = kds.length (pds.kds (gscan.pds_src gscan)) /\
    ((g0 = gscan /\ (m_kds_src = false -> format = KDS_FORMAT_BLOCK)) \/
     (g0 = fillup_blocks gscan /\ gscan.with_nvme_strom gscan = true /\
      m_kds_src = false /\ format = KDS_FORMAT_BLOCK /\
      PDS_fillup_blocks ∈ cs4))).
  { destruct (decide (format ≠ KDS_FORMAT_BLOCK)) as [Hf | Hf].
    { injection H4 as <- <- <-. exists []. split; [apply trace_refl |].
      split; [constructor |]. split; [apply not_elem_of_nil |].
      repeat (split; [reflexivity |]). left. by split. }
    assert (Hblock : format = KDS_FORMAT_BLOCK)
      by (destruct (decide (format = KDS_FORMAT_BLOCK)); [done | contradiction]).
    destruct (gscan.with_nvme_strom gscan) eqn:Envme.
    - step H4 as rc4 w5 H5. apply cuda_trace in H5.
      destruct rc4; try discriminate.
      + injection H4 as <- <- <-. eexists. split; [exact H5 |].
        split; [by repeat constructor |].
        split; [by intros ?%list_elem_of_singleton |].
        repeat (split; [reflexivity |]). left. by split.
      + step H4 as [] w6 H6. apply cuda_void_trace in H6.
        injection H4 as <- <- <-. eexists.
        split; [eapply trace_trans; [exact H5 | exact H6] |].
        split; [by repeat constructor |].
        split; [intros [? | ?%list_elem_of_singleton]%elem_of_cons; done |].
        repeat (split; [reflexivity |]). right.
        repeat (split; [reflexivity || exact Hblock |]).
        apply list_elem_of_further, list_elem_of_singleton. reflexivity.
    - injection H4 as <- <- <-. exists []. split; [apply trace_refl |].
      split; [constructor |]. split; [apply not_elem_of_nil |].
      repeat (split; [reflexivity |]). left. by split. }
  destruct E4 as (cs4 & T4 & S4 & N4 & Hdst & Hfmt & Hlen & Hg0). clear H4.
  step Hr as rc_alloc w5 H5.
  assert (E5 : exists cs5, trace w4 w5 cs5 /\ Forall is_setup cs5 /\
                 (gpuMemCopyFromSSD ∉ cs5) /\
                 (rc_alloc <> CUDA_SUCCESS -> m_kds_src = false)).
  { destruct m_kds_src.
    - injection H5 as <- <-. exists []. split; [apply trace_refl |].
      split; [constructor |]. split; [apply not_elem_of_nil | done].
    - apply cuda_trace in H5. eexists. split; [exact H5 |].
      split; [by repeat constructor |].
      split; [by intros ?%list_elem_of_singleton | done]. }
  destruct E5 as (cs5 & T5 & S5 & N5 & Halloc). clear H5.
  assert (T05 : trace w w5 ([cuModuleGetFunction kern_fname] ++ cs4 ++ cs5))
    by eauto using trace_trans.
  assert (S05 : Forall is_setup ([cuModuleGetFunction kern_fname] ++ cs4 ++ cs5)).
  { apply Forall_app. split; [by repeat constructor |]. by apply Forall_app. }
  assert (N05 : gpuMemCopyFromSSD ∉ [cuModuleGetFunction kern_fname] ++ cs4 ++ cs5).
  { rewrite !elem_of_app, list_elem_of_singleton. intros [? | [? | ?]]; done. }
  assert (Hblock : m_kds_src = false -> format = KDS_FORMAT_BLOCK).
  { destruct Hg0 as [[_ Hm] | (_ & _ & _ & Hb & _)]; [exact Hm | done]. }
  assert (Hfill : g0 = gscan \/
                  (g0 = fillup_blocks gscan /\
                   gscan.with_nvme_strom gscan = true /\
                   format = KDS_FORMAT_BLOCK /\
                   PDS_fillup_blocks ∈ [cuModuleGetFunction kern_fname]
                                        ++ cs4 ++ cs5)).
  { destruct Hg0 as [[-> _] | (-> & Hn & _ & Hb & Hin)]; [by left | right].
    repeat (split; [done |]). rewrite !elem_of_app. right. by left. }
  clear T4 T5 S4 S5 N4 N5 H2 Hg0 w2 w4.
  destruct rc_alloc; [| | discriminate].
  - step Hr as rc1 w6 H6. apply cuda_trace in H6.
    step Hr as [] w7 H7. apply expect_success_Ret in H7 as [_ ->].
    step Hr as [] w8 H8.
    assert (E8 : exists cs8, trace w6 w8 cs8 /\ Forall is_setup cs8 /\
                   (gscan.with_nvme_strom g0 = false ->
                    (gpuMemCopyFromSSD ∉ cs8))).
    { destruct (decide (format ≠ KDS_FORMAT_BLOCK)).
      - step H8 as rc8 w9 H9. apply cuda_trace in H9.
        apply expect_success_Ret in H8 as [_ ->]. eexists.
        split; [exact H9 |]. split; [by repeat constructor |].
        by intros _ ?%list_elem_of_singleton.
      - destruct (gscan.with_nvme_strom g0); cbn [negb] in H8.
        + apply cuda_void_trace in H8. eexists. split; [exact H8 |].
          split; [by repeat constructor | done].
        + step H8 as rc8 w9 H9. apply cuda_trace in H9.
          apply expect_success_Ret in H8 as [_ ->]. eexists.
          split; [exact H9 |]. split; [by repeat constructor |].
          by intros _ ?%list_elem_of_singleton. }
    destruct E8 as (cs8 & T8 & S8 & N8). clear H8.
    step Hr as [] w9 H9.
    assert (E9 : exists cs9, trace w8 w9 cs9 /\ Forall is_setup cs9 /\
                   (gpuMemCopyFromSSD ∉ cs9)).
    { destruct (gscan.pds_dst gscan).
      - step H9 as rc9 w10 H10. apply cuda_trace in H10.
        apply expect_success_Ret in H9 as [_ ->]. eexists.
        split; [exact H10 |]. split; [by repeat constructor |].
        by intros ?%list_elem_of_singleton.
      - injection H9 as <-. exists []. split; [apply trace_refl |].
        split; [constructor | apply not_elem_of_nil]. }
    destruct E9 as (cs9 & T9 & S9 & N9). clear H9.
    step Hr as rc2 w10 H10. apply cuda_trace in H10.
    step Hr as [] w11 H11. apply expect_success_Ret in H11 as [_ ->].
    step Hr as rc3 w12 H12. apply cuda_trace in H12.
    step Hr as [] w13 H13. apply expect_success_Ret in H13 as [_ ->].
    step Hr as rc4 w14 H14. apply cuda_trace in H14.
    step Hr as [] w15 H15. apply expect_success_Ret in H15 as [_ ->].
    exists g0,
      (([cuModuleGetFunction kern_fname] ++ cs4 ++ cs5)
       ++ [cuMemPrefetchAsync_kern] ++ cs8 ++ cs9).
    split; [| split].
    + destruct Hfill as [-> | (-> & Hn & Hb & Hin)]; [by left | right].
      split; [reflexivity |]. split; [exact Hn |]. split.
      * rewrite elem_of_app. by left.
      * rewrite elem_of_app. intros [? | Hrest]; [by apply N05 |].
        rewrite !elem_of_app in Hrest.
        destruct Hrest as [Hk%list_elem_of_singleton | [? | ?]];
          [done | by apply N8 | by apply N9].
    + apply Forall_app. split; [exact S05 |].
      apply Forall_app. split; [by repeat constructor |].
      by apply Forall_app.
    + right. exists kern_fname, w14. split; [exact Hname |].
      split; [| exact Hr].
      pose proof (trace_trans _ _ _ _ _ T05
                    (trace_trans _ _ _ _ _ H6
                       (trace_trans _ _ _ _ _ T8
                          (trace_trans _ _ _ _ _ T9
                             (trace_trans _ _ _ _ _ H10
                                (trace_trans _ _ _ _ _ H12 H14)))))) as T.
      match type of T with
      | trace _ _ ?l' =>
          match goal with
          | |- trace _ _ ?l =>
              replace l with l'
                by (cbn [app]; rewrite <- ?app_assoc; cbn [app];
                    rewrite <- ?app_assoc; reflexivity)
          end
      end.
      exact T.
  - apply out_of_resource_trace in Hr as (-> & T).
    change (0 <? 100001) with true in T. cbn match in T.
    assert (Hb : format = KDS_FORMAT_BLOCK) by (apply Hblock, Halloc; done).
    rewrite Hfmt, Hb in T. cbn in T.
    exists g0, ([cuModuleGetFunction kern_fname] ++ cs4 ++ cs5).
    split; [| split; [exact S05 |]].
    + destruct Hfill as [-> | (-> & Hn & _ & Hin)]; [by left | right]. done.
    + left. split; [reflexivity |]. split; [exact Hb |].
      eapply trace_trans; [exact T05 | exact T].
Qed.

Lemma Forall_is_completion_no_copy post :
  Forall is_completion post -> gpuMemCopyFromSSD ∉ post.
Proof.
  intros Hpost Hin. eapply Forall_forall in Hpost; [| exact Hin]. exact Hpost.
Qed.

(** X8: a task that comes back processed (return value 0) saw exactly one
    kernel launch, of the kernel function of its chunk format: first the
    preparations (kernel lookup, device memory, transfers towards the
    device), then the launch, the event record and the synchronisation,
    then only transfers of results back to the host, and last, for a
    block chunk and only for it, the release of its device copy. *)
Theorem gpuscan_process_task_launch_once (enabled : bool)
    (kernel_result : kern_gpuscan) (gscan gscan' : GpuScanTask)
    (w w' : world.t) :
  gpuscan_process_task enabled kernel_result gscan w = (Ret (0, gscan'), w') ->
  let format := kds.format (pds.kds (gscan.pds_src gscan)) in
  exists kern_fname pre post,
    kern_fname_of format = Some kern_fname /\
    world.calls w' =
      world.calls w ++ pre
        ++ [cuLaunchKernel kern_fname; cuEventRecord; cuEventSynchronize]
        ++ post ++ release_calls format /\
    Forall is_setup pre /\ Forall is_completion post.
Proof.
  intros Hr format.
  apply gpuscan_process_task_run in Hr
    as (g0 & pre & Hg0 & Hpre & [(Hret & _) | (kern_fname & w2 & Hname & T & Hr)]);
    [discriminate |].
  fold format in Hname.
  apply check_kernel_status_calls in Hr as (_ & post & Hcalls & Hpost).
  assert (Hfmt : kds.format (pds.kds (gscan.pds_src (set_kern g0 kernel_result)))
                 = format).
  { destruct Hg0 as [-> | (-> & _)]; reflexivity. }
  rewrite Hfmt in Hcalls. destruct T as [T _].
  exists kern_fname, pre, post. split; [exact Hname |].
  split; [| by split]. rewrite Hcalls, T, <- !app_assoc. reflexivity.
Qed.

(** X9: a task that does not come back processed was put off for lack of
    device memory: it is a block-chunk task, the return value is 100001,
    no kernel was launched and nothing was brought back -- the calls are
    preparations followed by the notice and the release --, the
    statistics are untouched, and the task is as it was, except that a
    bulk transfer may have been turned into an ordinary one by filling
    up the blocks. *)
Theorem gpuscan_process_task_deferred (enabled : bool)
    (kernel_result : kern_gpuscan) (gscan : GpuScanTask) (w w' : world.t)
    (r : Z * GpuScanTask) :
  gpuscan_process_task enabled kernel_result gscan w = (Ret r, w') ->
  r.1 <> 0 ->
  r.1 = 100001 /\
  kds.format (pds.kds (gscan.pds_src gscan)) = KDS_FORMAT_BLOCK /\
  (r.2 = gscan \/
   (r.2 = fillup_blocks gscan /\ gscan.with_nvme_strom gscan = true)) /\
  world.gs_rtstat w' = world.gs_rtstat w /\
  exists pre,
    world.calls w' =
      world.calls w ++ pre ++ [wnotice "GpuScan: out of resource"; gpuMemFree] /\
    Forall is_setup pre.
Proof.
  intros Hr Hret.
  apply gpuscan_process_task_run in Hr
    as (g0 & pre & Hg0 & Hpre & [(-> & Hfmt & T) | (kern_fname & w2 & _ & _ & Hr)]).
  - split; [reflexivity |]. split; [exact Hfmt |]. split.
    { destruct Hg0 as [-> | (-> & Hn & _)]; [by left | by right]. }
    destruct T as [Tc Ts]. split; [exact Ts |]. by exists pre.
  - apply check_kernel_status_calls in Hr as (Hzero & _). contradiction.
Qed.

(** X10: the bulk-transfer flag of a task is cleared by one thing only.
    If a task that went in marked for bulk transfer comes back without
    the mark, the blocks were filled up in host memory (none is left
    uncached, the tuples are the same) and no storage-to-device copy was
    issued for it. *)
Theorem gpuscan_process_task_iomap_fallback (enabled : bool)
    (kernel_result : kern_gpuscan) (gscan : GpuScanTask) (w w' : world.t)
    (r : Z * GpuScanTask) :
  gpuscan_process_task enabled kernel_result gscan w = (Ret r, w') ->
  gscan.with_nvme_strom gscan = true ->
  gscan.with_nvme_strom r.2 = false ->
  pds.nblocks_uncached (gscan.pds_src r.2) = 0 /\
  pds.rows (gscan.pds_src r.2) = pds.rows (gscan.pds_src gscan) /\
  exists cs,
    world.calls w' = world.calls w ++ cs /\
    PDS_fillup_blocks ∈ cs /\ (gpuMemCopyFromSSD ∉ cs).
Proof.
  intros Hr Hin Hout.
  apply gpuscan_process_task_run in Hr
    as (g0 & pre & Hg0 & Hpre & [(-> & Hfmt & T) | (kern_fname & w2 & _ & T & Hr)]).
  - cbn [snd] in Hout |- *.
    destruct Hg0 as [-> | (-> & _ & Hfill & Hcopy)]; [congruence |].
    split; [reflexivity |]. split; [reflexivity |].
    destruct T as [Tc _]. eexists. split; [exact Tc |]. split.
    + rewrite elem_of_app. by left.
    + rewrite elem_of_app. intros [? | Hn]; [done |].
      apply elem_of_cons in Hn as [? | ?%list_elem_of_singleton]; done.
  - pose proof Hr as Hcalls.
    apply check_kernel_status_calls in Hcalls as (_ & post & Hcalls & Hpost).
    apply check_kernel_status_Ret in Hr as (task' & cs & -> & _).
    cbn [snd set_task set_kern gscan.with_nvme_strom gscan.pds_src] in Hout |- *.
    destruct Hg0 as [-> | (-> & _ & Hfill & Hcopy)]; [congruence |].
    split; [reflexivity |]. split; [reflexivity |].
    destruct T as [Tc _]. rewrite Tc, <- !app_assoc in Hcalls.
    eexists. split; [exact Hcalls |]. split.
    + rewrite elem_of_app. by left.
    + apply Forall_is_completion_no_copy in Hpost.
      rewrite !elem_of_app. intros [? | [Hl | [? | Hrel]]]; try done.
      * repeat (apply elem_of_cons in Hl as [? | Hl]; [done |]).
        by apply elem_of_nil in Hl.
      * unfold release_calls in Hrel. destruct (decide _).
        -- by apply list_elem_of_singleton in Hrel.
        -- by apply elem_of_nil in Hrel.
Qed.

End process_task_calls.

(** The calls of three sample runs: a row chunk; a block chunk whose
    device copy cannot be allocated; a bulk-transfer block chunk whose
    i/o-mapped allocation fails. *)
Example gpuscan_process_task_calls_sample :
  let run gscan answers :=
    match gpuscan_process_task (H := sample_errors) true
            (sample_kernel_result 0 4 2) gscan
            (sample_world_answering answers) with
    | (Ret (retval, _), w') => Some (retval, world.calls w')
    | (Werror _, _) => None
    end in
  run (sample_task false (sample_pds KDS_FORMAT_ROW 4 0 sample_rows)) []
    = Some (0, [cuModuleGetFunction "gpuscan_exec_quals_row";
                cuMemPrefetchAsync_kern; cuMemPrefetchAsync_kds_src 65536;
                cuLaunchKernel "gpuscan_exec_quals_row";
                cuEventRecord; cuEventSynchronize;
                cuMemPrefetchAsync_kresults 2]) /\
  run (sample_task false (sample_pds KDS_FORMAT_BLOCK 10 0 sample_rows))
      [CUDA_SUCCESS; CUDA_ERROR_OUT_OF_MEMORY]
    = Some (100001, [cuModuleGetFunction "gpuscan_exec_quals_block";
                     gpuMemAlloc 65536;
                     wnotice "GpuScan: out of resource"; gpuMemFree]) /\
  run (sample_task false (sample_pds KDS_FORMAT_BLOCK 10 4 sample_rows))
      [CUDA_SUCCESS; CUDA_ERROR_OUT_OF_MEMORY]
    = Some (0, [cuModuleGetFunction "gpuscan_exec_quals_block";
                gpuMemAllocIOMap 65536; PDS_fillup_blocks; gpuMemAlloc 65536;
                cuMemPrefetchAsync_kern; cuMemcpyHtoDAsync 65536;
                cuMemPrefetchAsync_kds_dst_head;
                cuLaunchKernel "gpuscan_exec_quals_block";
                cuEventRecord; cuEventSynchronize;
                cuMemPrefetchAsync_dst_extra 0; cuMemPrefetchAsync_dst_index 2;
                gpuMemFree]).
Proof. vm_compute. repeat split. Qed.

Lemma gpuscan_process_task_launch_once_witness :
  let gscan := sample_task false (sample_pds KDS_FORMAT_ROW 4 0 sample_rows) in
  let format := kds.format (pds.kds (gscan.pds_src gscan)) in
  exists gscan' w',
    gpuscan_process_task (H := sample_errors) true (sample_kernel_result 0 4 2)
      gscan sample_world = (Ret (0, gscan'), w') /\
    exists kern_fname pre post,
      kern_fname_of format = Some kern_fname /\
      world.calls w' =
        world.calls sample_world ++ pre
          ++ [cuLaunchKernel kern_fname; cuEventRecord; cuEventSynchronize]
          ++ post ++ release_calls format /\
      Forall is_setup pre /\ Forall is_completion post.
Proof.
  eexists _, _.
  match goal with
  | |- ?run /\ _ => assert (Hrun : run) by (vm_compute; reflexivity)
  end.
  split; [exact Hrun |].
  exact (gpuscan_process_task_launch_once (H := sample_errors) _ _ _ _ _ _ Hrun).
Defined.

Lemma gpuscan_process_task_deferred_witness :
  let gscan := sample_task false (sample_pds KDS_FORMAT_BLOCK 10 0 sample_rows) in
  let w := sample_world_answering [CUDA_SUCCESS; CUDA_ERROR_OUT_OF_MEMORY] in
  exists r w',
    gpuscan_process_task (H := sample_errors) true (sample_kernel_result 0 4 2)
      gscan w = (Ret r, w') /\
    r.1 <> 0 /\
    r.1 = 100001 /\
    kds.format (pds.kds (gscan.pds_src gscan)) = KDS_FORMAT_BLOCK /\
    (r.2 = gscan \/
     (r.2 = fillup_blocks gscan /\ gscan.with_nvme_strom gscan = true)) /\
    world.gs_rtstat w' = world.gs_rtstat w /\
    exists pre,
      world.calls w' =
        world.calls w ++ pre
          ++ [wnotice "GpuScan: out of resource"; gpuMemFree] /\
      Forall is_setup pre.
Proof.
  eexists _, _.
  match goal with
  | |- ?run /\ _ => assert (Hrun : run) by (vm_compute; reflexivity)
  end.
  split; [exact Hrun |].
  assert (Hret : (100001 : Z) <> 0) by discriminate.
  split; [exact Hret |].
  exact (gpuscan_process_task_deferred (H := sample_errors) _ _ _ _ _ _
           Hrun Hret).
Defined.

Lemma gpuscan_process_task_iomap_fallback_witness :
  let gscan := sample_task false (sample_pds KDS_FORMAT_BLOCK 10 4 sample_rows) in
  let w := sample_world_answering [CUDA_SUCCESS; CUDA_ERROR_OUT_OF_MEMORY] in
  exists r w',
    gpuscan_process_task (H := sample_errors) true (sample_kernel_result 0 4 2)
      gscan w = (Ret r, w') /\
    gscan.with_nvme_strom gscan = true /\
    gscan.with_nvme_strom r.2 = false /\
    pds.nblocks_uncached (gscan.pds_src r.2) = 0 /\
    pds.rows (gscan.pds_src r.2) = pds.rows (gscan.pds_src gscan) /\
    exists cs,
      world.calls w' = world.calls w ++ cs /\
      PDS_fillup_blocks ∈ cs /\ (gpuMemCopyFromSSD ∉ cs).
Proof.
  eexists _, _.
  match goal with
  | |- ?run /\ _ => assert (Hrun : run) by (vm_compute; reflexivity)
  end.
  split; [exact Hrun |].
  match goal with
  | |- ?flag /\ _ => assert (Hin : flag) by (vm_compute; reflexivity)
  end.
  split; [exact Hin |].
  match goal with
  | |- ?flag /\ _ => assert (Hout : flag) by reflexivity
  end.
  split; [exact Hout |].
  exact (gpuscan_process_task_iomap_fallback (H := sample_errors) _ _ _ _ _ _
           Hrun Hin Hout).
Defined.

(** ** What the executor can raise *)

Lemma raises_mret {A} P (a : A) : raises P (mret a).
Proof. intros w msg w' Hr. discriminate. Qed.

Lemma raises_werror {A} (P : string -> Prop) msg : P msg -> raises P (@werror A msg).
Proof. intros HP w msg' w' [= <- _]. exact HP. Qed.

Lemma raises_bind {A B} P (m : M A) (f : A -> M B) :
  raises P m ->
  (forall w a w1, m w = (Ret a, w1) -> raises P (f a)) ->
  raises P (m ≫= f).
Proof.
  intros Hm Hf w msg w' Hr. unfold mbind, M_bind in Hr.
  destruct (m w) as [[a | msg1] w1] eqn:Em.
  - by eapply Hf.
  - injection Hr as <- <-. by eapply Hm.
Qed.

Lemma raises_cuda P c : raises P (cuda c).
Proof. intros w msg w' Hr. discriminate. Qed.

Lemma raises_cuda_void P c : raises P (cuda_void c).
Proof. intros w msg w' Hr. discriminate. Qed.

Lemma raises_add_nitems_filtered P add : raises P (add_nitems_filtered add).
Proof. intros w msg w' Hr. discriminate. Qed.

Lemma raises_expect_success (P : string -> Prop) rc msg :
  P msg -> raises P (expect_success rc msg).
Proof. intros HP. destruct rc; [apply raises_mret | by apply raises_werror ..]. Qed.

Ltac raises_steps :=
  repeat first
    [ apply raises_mret | apply raises_cuda | apply raises_cuda_void
    | apply raises_add_nitems_filtered
    | apply raises_expect_success; discriminate
    | apply raises_werror; discriminate
    | apply raises_bind; [| intros ? ? ? _] ].

Section process_task_raises.
Context `{StromError}.

Lemma out_of_resource_raises retval gscan :
  raises not_null_dereference (out_of_resource retval gscan).
Proof.
  unfold out_of_resource. apply raises_bind; [| intros ? ? ? _].
  { destruct (0 <? retval); raises_steps. }
  apply raises_bind; [| intros ? ? ? _]; [| apply raises_mret].
  destruct (decide _); raises_steps.
Qed.

Lemma check_kernel_status_raises enabled gscan :
  (gscan.with_nvme_strom gscan = true -> gscan.pds_dst gscan <> None) ->
  raises not_null_dereference (check_kernel_status enabled gscan).
Proof.
  intros Hdst. unfold check_kernel_status.
  destruct (_ =? StromError_Success).
  - apply raises_bind; [apply raises_add_nitems_filtered | intros ? ? ? _].
    apply raises_bind; [| intros ? ? ? _; apply out_of_resource_raises].
    destruct (gscan.pds_dst gscan); [destruct (0 <? _) |]; raises_steps.
  - apply raises_bind; [| intros ? ? ? _; apply out_of_resource_raises].
    destruct (enabled && _); [| apply raises_mret].
    apply raises_bind; [| intros ? need ? _].
    + cbn [set_task gscan.with_nvme_strom].
      destruct (gscan.with_nvme_strom gscan); [| apply raises_mret].
      destruct (gscan.pds_dst gscan); [apply raises_mret |].
      by destruct Hdst.
    + apply raises_bind; [| intros ? ? ? _; apply raises_mret].
      destruct need; raises_steps.
Qed.

Lemma gpuscan_process_task_raises enabled kernel_result gscan :
  (gscan.with_nvme_strom gscan = true -> gscan.pds_dst gscan <> None) ->
  raises not_null_dereference
    (gpuscan_process_task enabled kernel_result gscan).
Proof.
  intros Hdst. unfold gpuscan_process_task.
  apply raises_bind; [| intros ? kern_fname ? _].
  { destruct (kds.format _); raises_steps. }
  apply raises_bind; [apply raises_cuda | intros ? ? ? _].
  apply raises_bind; [raises_steps | intros ? ? ? _].
  apply raises_bind.
  { destruct (decide _); [apply raises_mret |].
    destruct (gscan.with_nvme_strom gscan); [| apply raises_mret].
    apply raises_bind; [apply raises_cuda | intros ? rc ? _].
    destruct rc; raises_steps. }
  intros wa [g0 m_kds_src] wb H4.
  assert (Hg0 : gscan.with_nvme_strom g0 = true -> gscan.pds_dst g0 <> None).
  { assert (Hcase : g0 = gscan \/ g0 = fillup_blocks gscan).
    { destruct (decide _); [injection H4 as <- <- <-; by left |].
      destruct (gscan.with_nvme_strom gscan);
        [| injection H4 as <- <- <-; by left].
      step H4 as rc wc H6. destruct rc; try discriminate.
      - injection H4 as <- <- <-. by left.
      - step H4 as [] wd H7. injection H4 as <- <- <-. by right. }
    destruct Hcase as [-> | ->]; [exact Hdst | discriminate]. }
  apply raises_bind; [destruct m_kds_src; raises_steps | intros ? rc_alloc ? _].
  destruct rc_alloc; [| apply out_of_resource_raises | raises_steps].
  apply raises_bind; [apply raises_cuda | intros ? ? ? _].
  apply raises_bind; [raises_steps | intros ? ? ? _].
  apply raises_bind; [| intros ? ? ? _].
  { destruct (decide _); [| destruct (negb _)]; raises_steps. }
  apply raises_bind; [| intros ? ? ? _].
  { destruct (gscan.pds_dst gscan); raises_steps. }
  do 3 (apply raises_bind; [apply raises_cuda | intros ? ? ? _];
        apply raises_bind; [raises_steps | intros ? ? ? _]).
  apply check_kernel_status_raises. exact Hg0.
Qed.

(** X11: the write-back test of line 2997 reads [pds_dst->nblocks_uncached]
    and an index-only task has no destination chunk; for a task made by
    [gpuscan_create_task] the test is never reached with a null pointer,
    whatever the kernel reports and whatever the driver answers, because
    only a block-chunk task is marked for bulk transfer and a block-chunk
    task always has a destination chunk. *)
Theorem gpuscan_process_task_no_null_dereference `{Layout} `{DeviceMemory}
    (gss : GpuScanState) (pds_src : pgstrom_data_store) (gscan : GpuScanTask)
    (enabled : bool) (kernel_result : kern_gpuscan) (w w' : world.t)
    (msg : string) :
  gpuscan_create_task gss pds_src = OK gscan ->
  (gscan.with_nvme_strom gscan = true ->
   exists pds_dst, gscan.pds_dst gscan = Some pds_dst) /\
  (gpuscan_process_task enabled kernel_result gscan w = (Werror msg, w') ->
   msg <> "pds_dst is NULL").
Proof.
  intros Hmake.
  assert (Hdst : gscan.with_nvme_strom gscan = true ->
                 exists pds_dst, gscan.pds_dst gscan = Some pds_dst).
  { apply gpuscan_create_task_OK in Hmake as (_ & _ & Hnvme & Hcase).
    intros Hn. rewrite Hn in Hnvme. symmetry in Hnvme.
    apply andb_true_iff in Hnvme as [Hblock%bool_decide_eq_true _].
    rewrite Hblock in Hcase. cbn in Hcase.
    destruct Hcase as (length & pds_dst & _ & _ & Hd & _). eauto. }
  split; [exact Hdst |].
  apply (gpuscan_process_task_raises enabled kernel_result gscan).
  intros Hn. destruct (Hdst Hn) as [pds_dst ->]. discriminate.
Qed.

End process_task_raises.

Lemma gpuscan_process_task_no_null_dereference_witness :
  exists gscan,
    gpuscan_create_task (H := sample_layout) (H0 := sample_device)
      (sample_gss false) (sample_pds KDS_FORMAT_BLOCK 10 4 sample_rows)
      = OK gscan /\
    (gscan.with_nvme_strom gscan = true ->
     exists pds_dst, gscan.pds_dst gscan = Some pds_dst) /\
    forall enabled kernel_result w w' msg,
      gpuscan_process_task (H := sample_errors) enabled kernel_result gscan w
        = (Werror msg, w') ->
      msg <> "pds_dst is NULL".
Proof.
  eexists.
  match goal with
  | |- ?made /\ _ => assert (Hmake : made) by (vm_compute; reflexivity)
  end.
  split; [exact Hmake |]. split.
  - exact (proj1 (gpuscan_process_task_no_null_dereference
                    (H := sample_errors) (H0 := sample_layout)
                    (H1 := sample_device) _ _ _ true
                    (sample_kernel_result 0 4 2) sample_world sample_world
                    "" Hmake)).
  - intros enabled kernel_result w w' msg.
    exact (proj2 (gpuscan_process_task_no_null_dereference
                    (H := sample_errors) (H0 := sample_layout)
                    (H1 := sample_device) _ _ _ enabled kernel_result w w'
                    msg Hmake)).
Defined.

(** ** The device target list *)

Lemma equal_refl a : equal a a = true.
Proof.
  induction a as [| | elems IH | | v | | f args IH | args IH]
    using Node_ind_nested; cbn [equal];
    rewrite ?bool_decide_eq_true_2, ?Z.eqb_refl by reflexivity;
    try reflexivity.
  all: match goal with
       | IH : Forall _ ?l |- _ => induction IH as [| n l Hn _ IHl]
       end; [reflexivity |]; by rewrite Hn.
Qed.

Lemma equal_eq a b : equal a b = true -> a = b.
Proof.
  revert b.
  assert (Hlist : forall l1,
    Forall (fun a => forall b, equal a b = true -> a = b) l1 ->
    forall l2,
      (fix equal_list (l1 l2 : list Node) {struct l1} : bool :=
         match l1, l2 with
         | [], [] => true
         | x :: l1, y :: l2 => equal x y && equal_list l1 l2
         | _, _ => false
         end) l1 l2 = true -> l1 = l2).
  { intros l1 IH. induction IH as [| n l1 Hn _ IHl]; intros [| m l2] Heq;
      try discriminate; [reflexivity |].
    apply andb_true_iff in Heq as [H1 H2]. f_equal; [by apply Hn | by apply IHl]. }
  induction a as [| | elems IH | | v | | f args IH | args IH]
    using Node_ind_nested; intros [] Heq; cbn [equal] in Heq;
    try discriminate.
  - by apply bool_decide_eq_true in Heq as ->.
  - by apply Z.eqb_eq in Heq as ->.
  - f_equal. by apply Hlist.
  - by apply bool_decide_eq_true in Heq as ->.
  - apply andb_true_iff in Heq as [Heq H3].
    apply andb_true_iff in Heq as [H1 H2].
    apply Z.eqb_eq in H1, H2, H3. destruct v, v0. cbn in *. by subst.
  - apply andb_true_iff in Heq as [H1 H2].
    apply Z.eqb_eq in H1 as ->. by apply bool_decide_eq_true in H2 as ->.
  - apply andb_true_iff in Heq as [H1 H2].
    apply Z.eqb_eq in H1 as ->. f_equal. by apply Hlist.
  - f_equal. by apply Hlist.
Qed.

Lemma equal_spec a b : equal a b = true <-> a = b.
Proof. split; [apply equal_eq | intros ->; apply equal_refl]. Qed.

Lemma existsb_equal expr0 (tlist : list TargetEntry) :
  existsb (fun tle => equal expr0 (expr tle)) tlist = true
  <-> expr0 ∈ expr <$> tlist.
Proof.
  rewrite existsb_exists, list_elem_of_fmap. split.
  - intros (tle & Hin%list_elem_of_In & Heq%equal_spec). eauto.
  - intros (tle & -> & Hin%list_elem_of_In). exists tle.
    split; [exact Hin | apply equal_refl].
Qed.

Lemma add_unique_expression_present expr0 tlist resjunk0 :
  expr0 ∈ expr <$> tlist ->
  add_unique_expression expr0 tlist resjunk0 = (false, tlist).
Proof.
  intros Hin%existsb_equal. unfold add_unique_expression. by rewrite Hin.
Qed.

Lemma add_unique_expression_absent expr0 tlist resjunk0 :
  expr0 ∉ expr <$> tlist ->
  add_unique_expression expr0 tlist resjunk0
  = (true, tlist ++ [{| expr := expr0;
                        resno := int16 (Z.of_nat (length tlist) + 1);
                        resjunk := resjunk0 |}]).
Proof.
  intros Hnot. unfold add_unique_expression.
  destruct (existsb _ _) eqn:E; [| reflexivity].
  by apply existsb_equal in E.
Qed.

Lemma tlist_numbered_snoc tlist expr0 resjunk0 :
  tlist_numbered tlist ->
  tlist_numbered (tlist ++ [{| expr := expr0;
                               resno := int16 (Z.of_nat (length tlist) + 1);
                               resjunk := resjunk0 |}]).
Proof.
  intros Hnum i tle Hi. apply lookup_app_Some in Hi as [Hi | [Hlen Hi]].
  - by apply Hnum.
  - apply list_lookup_singleton_Some in Hi as [Hi <-]. cbn.
    f_equal. lia.
Qed.

(** X12: [add_unique_expression] keeps the entries it finds, in place;
    it returns true exactly when the expression is not yet the
    expression of an entry, and then appends one entry with that
    expression, the given junk flag and the next number; afterwards the
    expression is there, and adding it again changes nothing.  Lists
    numbered by position stay so, and lists without a repeated expression
    stay so. *)
Theorem add_unique_expression_spec (expr0 : Node)
    (tlist : list TargetEntry) (resjunk0 : bool) :
  let added := (add_unique_expression expr0 tlist resjunk0).1 in
  let tlist' := (add_unique_expression expr0 tlist resjunk0).2 in
  (added = true <-> expr0 ∉ expr <$> tlist) /\
  tlist' = tlist ++
    (if added
     then [{| expr := expr0; resno := int16 (Z.of_nat (length tlist) + 1);
              resjunk := resjunk0 |}]
     else []) /\
  expr0 ∈ expr <$> tlist' /\
  (forall resjunk1,
     add_unique_expression expr0 tlist' resjunk1 = (false, tlist')) /\
  (tlist_numbered tlist -> tlist_numbered tlist') /\
  (NoDup (expr <$> tlist) -> NoDup (expr <$> tlist')).
Proof.
  intros added tlist'. subst added tlist'.
  destruct (decide (existsb (fun tle => equal expr0 (expr tle)) tlist = true))
    as [Hin | Hnot].
  - apply existsb_equal in Hin as Hin'.
    rewrite (add_unique_expression_present _ _ _ Hin'). cbn [fst snd].
    rewrite app_nil_r. split; [split; [discriminate | contradiction] |].
    split; [reflexivity |]. split; [exact Hin' |].
    split; [intros; by apply add_unique_expression_present | by split].
  - assert (Hnot' : expr0 ∉ expr <$> tlist) by (by rewrite <- existsb_equal).
    rewrite (add_unique_expression_absent _ _ _ Hnot'). cbn [fst snd].
    split; [by split |]. split; [reflexivity |].
    assert (Hthere : expr0 ∈ expr <$> tlist ++
              [{| expr := expr0; resno := int16 (Z.of_nat (length tlist) + 1);
                  resjunk := resjunk0 |}]).
    { rewrite fmap_app, elem_of_app. right. by apply list_elem_of_singleton. }
    split; [exact Hthere |].
    split; [intros; by apply add_unique_expression_present |].
    split; [apply tlist_numbered_snoc |].
    intros Hnd. rewrite fmap_app. apply NoDup_app. split; [exact Hnd |].
    split; [| apply NoDup_singleton].
    intros e He Heq%list_elem_of_singleton. cbn in Heq. by subst.
Qed.

Lemma grows_trans P l1 l2 l3 : grows P l1 l2 -> grows P l2 l3 -> grows P l1 l3.
Proof.
  induction 1 as [| l e j l' HP _ IH]; [done |].
  intros H3. eapply grows_step; [exact HP | by apply IH].
Qed.

Lemma grows_impl (P Q : Node -> bool -> Prop) l l' :
  (forall e j, P e j -> Q e j) -> grows P l l' -> grows Q l l'.
Proof.
  intros HPQ. induction 1 as [| l e j l' HP _ IH]; [constructor |].
  eapply grows_step; [by apply HPQ | exact IH].
Qed.

Lemma grows_one (P : Node -> bool -> Prop) l e j :
  P e j -> grows P l (add_unique_expression e l j).2.
Proof. intros HP. eapply grows_step; [exact HP | constructor]. Qed.

(** What a list that grew looks like. *)
Lemma grows_spec P l l' :
  grows P l l' ->
  exists new,
    l' = l ++ new /\
    Forall (fun tle => P (expr tle) (resjunk tle)) new /\
    (tlist_numbered l -> tlist_numbered l') /\
    (NoDup (expr <$> l) -> NoDup (expr <$> l')).
Proof.
  induction 1 as [l | l e j l' HP _ IH].
  { exists []. rewrite app_nil_r. by repeat split. }
  destruct IH as (new & -> & Hnew & Hnum & Hnd).
  destruct (add_unique_expression_spec e l j)
    as (_ & Hl & _ & _ & Hnum1 & Hnd1).
  cbn zeta in *. rewrite Hl in *. clear Hl.
  eexists. split; [by rewrite <- app_assoc |].
  split; [| split; [by intros ?; apply Hnum, Hnum1 |
                    by intros ?; apply Hnd, Hnd1]].
  apply Forall_app. split; [| exact Hnew].
  destruct (add_unique_expression e l j).1; by repeat constructor.
Qed.

Section projection_props.
Context `{Planner}.
Variable tupdesc : TupleDesc.

Lemma walk_list_grows (l : list Node) context :
  Forall (fun node => forall context,
            grows device_entry (projection_context.tlist_dev context)
              (projection_context.tlist_dev
                 (build_gpuscan_projection_walker tupdesc node context).2)) l ->
  grows device_entry (projection_context.tlist_dev context)
    (projection_context.tlist_dev
       (walk_list (build_gpuscan_projection_walker tupdesc) l context).2).
Proof.
  intros IH. revert context.
  induction IH as [| node l Hnode _ IHl]; intros context; [constructor |].
  cbn [walk_list]. specialize (Hnode context).
  destruct (build_gpuscan_projection_walker tupdesc node context)
    as [retval context1].
  cbn [snd] in Hnode. destruct retval; [exact Hnode |].
  eapply grows_trans; [exact Hnode | apply IHl].
Qed.

Lemma build_gpuscan_projection_walker_grows node context :
  grows device_entry (projection_context.tlist_dev context)
    (projection_context.tlist_dev
       (build_gpuscan_projection_walker tupdesc node context).2).
Proof.
  revert context.
  induction node as [| | elems IH | | v | | f args IH | args IH]
    using Node_ind_nested; intros context;
    cbn [build_gpuscan_projection_walker].
  5: { (* T_Var *)
    destruct (varattno v =? InvalidAttrNumber); [constructor |].
    match goal with
    | |- context [add_unique_expression ?e (projection_context.tlist_dev ?c) ?j] =>
        pose proof (grows_one device_entry (projection_context.tlist_dev c) e j)
          as Hg;
        assert (Hc : projection_context.tlist_dev c
                     = projection_context.tlist_dev context);
        [| destruct (add_unique_expression e (projection_context.tlist_dev c) j)
             as [added l'] eqn:Eadd]
    end.
    { destruct (_ || _); [reflexivity |].
      destruct (tupdesc !! _); [| reflexivity].
      destruct (_ || _); reflexivity. }
    rewrite Hc in Hg. cbn [snd] in Hg.
    destruct added; cbn; apply Hg; (split; [reflexivity | by left]). }
  all: destruct (_ && _); [cbn; constructor |].
  all: destruct (pgstrom_device_expression _) eqn:Edev;
    [ match goal with
      | |- context [add_unique_expression ?e ?l ?j] =>
          pose proof (grows_one device_entry l e j) as Hg;
          destruct (add_unique_expression e l j) as [added l'] eqn:Eadd
      end;
      cbn; apply Hg; (split; [reflexivity | by right]) |].
  all: destruct (expression_tree_walker _ _ _) as [retval context1] eqn:Ew;
    cbn [snd set_compatible_tlist set_depth projection_context.tlist_dev].
  all: cbn [expression_tree_walker] in Ew.
  all: try (injection Ew as <- <-; constructor).
  all: match goal with
       | IH : Forall _ ?l |- _ =>
           pose proof (walk_list_grows l
                         (set_depth context
                            (projection_context.depth context + 1)) IH) as Hg
       end;
       rewrite Ew in Hg; exact Hg.
Qed.

Lemma projection_walk_tlist_grows tlist context context' :
  projection_walk_tlist tupdesc tlist context = Some context' ->
  grows device_entry (projection_context.tlist_dev context)
    (projection_context.tlist_dev context').
Proof.
  revert context. induction tlist as [| tle tlist IH]; intros context Hrun.
  { injection Hrun as <-. constructor. }
  cbn [projection_walk_tlist] in Hrun.
  pose proof (build_gpuscan_projection_walker_grows (expr tle)
                (set_attnum context (projection_context.attnum context + 1)))
    as Hg.
  destruct (build_gpuscan_projection_walker _ _ _) as [retval context1].
  destruct retval; [discriminate |].
  eapply grows_trans; [exact Hg | by apply IH].
Qed.

Lemma projection_add_vars_grows vars_list resjunk0 tlist_dev tlist_dev' :
  projection_add_vars vars_list resjunk0 tlist_dev = Some tlist_dev' ->
  grows (qual_entry resjunk0) tlist_dev tlist_dev' /\
  Forall (fun var => varattno var <> InvalidAttrNumber /\
                     T_Var var ∈ expr <$> tlist_dev') vars_list.
Proof.
  revert tlist_dev.
  induction vars_list as [| var vars_list IH]; intros tlist_dev Hrun.
  { injection Hrun as <-. split; constructor. }
  cbn [projection_add_vars] in Hrun.
  destruct (varattno var =? InvalidAttrNumber) eqn:E; [discriminate |].
  apply Z.eqb_neq in E.
  destruct (add_unique_expression_spec (T_Var var) tlist_dev resjunk0)
    as (_ & _ & Hthere & _).
  pose proof (grows_one (qual_entry resjunk0) tlist_dev (T_Var var) resjunk0
                ltac:(by split)) as Hg.
  cbn zeta in Hthere.
  destruct (add_unique_expression (T_Var var) tlist_dev resjunk0)
    as [added l1].
  cbn [snd] in *. apply IH in Hrun as [Hg' Hall].
  split; [by eapply grows_trans |]. constructor; [| exact Hall].
  split; [exact E |].
  apply grows_spec in Hg' as (new & -> & _). rewrite fmap_app, elem_of_app.
  by left.
Qed.

Lemma take_while_filter_junk (keep junk : list TargetEntry) :
  Forall (fun tle => resjunk tle = false) keep ->
  Forall (fun tle => resjunk tle = true) junk ->
  take_while (fun tle => negb (resjunk tle)) (keep ++ junk) = keep /\
  filter (fun tle => resjunk tle = false) (keep ++ junk) = keep.
Proof.
  intros Hkeep Hjunk. split.
  - induction Hkeep as [| tle keep Htle _ IH]; cbn [app take_while].
    + destruct Hjunk as [| tle junk Htle _]; [reflexivity |].
      cbn [take_while]. by rewrite Htle.
    + by rewrite Htle, IH.
  - rewrite filter_app.
    assert (Hk : filter (fun tle => resjunk tle = false) keep = keep).
    { induction Hkeep as [| tle keep Htle _ IH]; [reflexivity |].
      rewrite filter_cons_True by exact Htle. by rewrite IH. }
    assert (Hj : filter (fun tle => resjunk tle = false) junk = []).
    { induction Hjunk as [| tle junk Htle _ IH]; [reflexivity |].
      rewrite filter_cons_False by congruence. exact IH. }
    by rewrite Hk, Hj, app_nil_r.
Qed.

(** The three stages of [build_gpuscan_projection], when none of them
    gives up. *)
Lemma build_gpuscan_projection_stages tlist host_quals dev_quals :
  build_gpuscan_projection tupdesc tlist host_quals dev_quals <> [] ->
  exists l1 l2,
    grows device_entry [] l1 /\
    grows (qual_entry false) l1 l2 /\
    grows (qual_entry true) l2
      (build_gpuscan_projection tupdesc tlist host_quals dev_quals) /\
    (host_quals <> [] ->
     Forall (fun var => varattno var <> InvalidAttrNumber /\
                        T_Var var ∈ expr <$> l2)
       (pull_vars_of_level host_quals)) /\
    (dev_quals <> [] ->
     Forall (fun var => varattno var <> InvalidAttrNumber /\
                        T_Var var ∈ expr <$>
                          build_gpuscan_projection tupdesc tlist host_quals
                            dev_quals)
       (pull_vars_of_level dev_quals)).
Proof.
  unfold build_gpuscan_projection.
  destruct (projection_walk_tlist _ _ _) as [context |] eqn:Ewalk; [| done].
  apply projection_walk_tlist_grows in Ewalk. cbn in Ewalk.
  set (l1 := projection_context.tlist_dev context) in *.
  assert (Hl1 : projection_context.tlist_dev
                  (if negb (Z.of_nat (length tupdesc)
                            =? projection_context.attnum context)
                   then set_compatible_tlist context false else context) = l1)
    by (by destruct (negb _)).
  rewrite Hl1.
  destruct (match host_quals with
            | [] => Some l1
            | _ :: _ => projection_add_vars (pull_vars_of_level host_quals)
                          false l1
            end) as [l2 |] eqn:Ehost; [| done].
  destruct (match dev_quals with
            | [] => Some l2
            | _ :: _ => projection_add_vars (pull_vars_of_level dev_quals)
                          true l2
            end) as [l3 |] eqn:Edev; [| done].
  destruct (projection_context.compatible_tlist _); [done |]. intros _.
  exists l1, l2. split; [exact Ewalk |].
  assert (Hhost : grows (qual_entry false) l1 l2 /\
                  (host_quals <> [] ->
                   Forall (fun var => varattno var <> InvalidAttrNumber /\
                                      T_Var var ∈ expr <$> l2)
                     (pull_vars_of_level host_quals))).
  { destruct host_quals; [injection Ehost as <-; split; [constructor | done] |].
    apply projection_add_vars_grows in Ehost as [Hg Hall]. by split. }
  assert (Hdev : grows (qual_entry true) l2 l3 /\
                 (dev_quals <> [] ->
                  Forall (fun var => varattno var <> InvalidAttrNumber /\
                                     T_Var var ∈ expr <$> l3)
                    (pull_vars_of_level dev_quals))).
  { destruct dev_quals; [injection Edev as <-; split; [constructor | done] |].
    apply projection_add_vars_grows in Edev as [Hg Hall]. by split. }
  destruct Hhost as [Hg2 Hh]. destruct Hdev as [Hg3 Hd]. by repeat split.
Qed.

(** X13: the device target list that [build_gpuscan_projection] returns
    is numbered by position (entry i has [resno] i, as a 16-bit number),
    holds no expression twice, holds only variables and expressions the
    device can run, and has its junk entries -- variables all -- at the
    end; so the entries before the first junk entry, which
    [ExecInitGpuScan] takes, are the non-junk entries, which the code
    generator takes. *)
Theorem build_gpuscan_projection_wf (tlist : list TargetEntry)
    (host_quals dev_quals : list Node) :
  let tlist_dev := build_gpuscan_projection tupdesc tlist host_quals dev_quals in
  tlist_numbered tlist_dev /\
  NoDup (expr <$> tlist_dev) /\
  Forall (fun tle => is_Var (expr tle) = true \/
                     pgstrom_device_expression (expr tle) = true) tlist_dev /\
  (exists keep junk,
     tlist_dev = keep ++ junk /\
     Forall (fun tle => resjunk tle = false) keep /\
     Forall (fun tle => resjunk tle = true /\ is_Var (expr tle) = true) junk) /\
  take_while (fun tle => negb (resjunk tle)) tlist_dev
    = filter (fun tle => resjunk tle = false) tlist_dev.
Proof.
  intros tlist_dev.
  destruct (decide (tlist_dev = [])) as [-> | Hne].
  { split; [by intros i tle Hi |]. split; [constructor |].
    split; [constructor |]. split; [| reflexivity].
    exists [], []. by repeat split. }
  destruct (build_gpuscan_projection_stages tlist host_quals dev_quals Hne)
    as (l1 & l2 & Hg1 & Hg2 & Hg3 & _).
  fold tlist_dev in Hg3.
  apply grows_spec in Hg1 as (n1 & -> & Hn1 & Hnum1 & Hnd1).
  apply grows_spec in Hg2 as (n2 & -> & Hn2 & Hnum2 & Hnd2).
  apply grows_spec in Hg3 as (n3 & Hl3 & Hn3 & Hnum3 & Hnd3).
  cbn [app] in *.
  assert (Hkeep : Forall (fun tle => resjunk tle = false) (n1 ++ n2)).
  { apply Forall_app. split.
    - eapply Forall_impl; [exact Hn1 |]. by intros tle [? _].
    - eapply Forall_impl; [exact Hn2 |]. by intros tle [? _]. }
  assert (Hjunk : Forall (fun tle => resjunk tle = true) n3).
  { eapply Forall_impl; [exact Hn3 |]. by intros tle [? _]. }
  split; [apply Hnum3, Hnum2, Hnum1; by intros i tle Hi |].
  split; [apply Hnd3, Hnd2, Hnd1; constructor |].
  split; [| split].
  - rewrite Hl3. repeat (apply Forall_app; split).
    + eapply Forall_impl; [exact Hn1 |]. by intros tle [_ ?].
    + eapply Forall_impl; [exact Hn2 |]. intros tle [_ ?]. by left.
    + eapply Forall_impl; [exact Hn3 |]. intros tle [_ ?]. by left.
  - exists (n1 ++ n2), n3. split; [exact Hl3 |]. split; [exact Hkeep |].
    eapply Forall_impl; [exact Hn3 |]. by intros tle [? ?].
  - rewrite Hl3.
    destruct (take_while_filter_junk _ _ Hkeep Hjunk) as [-> ->]. reflexivity.
Qed.

(** X14: when [build_gpuscan_projection] returns a device target list,
    no variable of the host quals or of the device quals is a whole-row
    reference, every variable of the host quals has an entry that is not
    junk, and every variable of the device quals has an entry. *)
Theorem build_gpuscan_projection_covers_quals (tlist : list TargetEntry)
    (host_quals dev_quals : list Node) :
  let tlist_dev := build_gpuscan_projection tupdesc tlist host_quals dev_quals in
  tlist_dev <> [] ->
  (host_quals <> [] ->
   Forall (fun var =>
             varattno var <> InvalidAttrNumber /\
             exists tle, tle ∈ tlist_dev /\ expr tle = T_Var var /\
                         resjunk tle = false)
     (pull_vars_of_level host_quals)) /\
  (dev_quals <> [] ->
   Forall (fun var =>
             varattno var <> InvalidAttrNumber /\
             exists tle, tle ∈ tlist_dev /\ expr tle = T_Var var)
     (pull_vars_of_level dev_quals)).
Proof.
  intros tlist_dev Hne.
  destruct (build_gpuscan_projection_stages tlist host_quals dev_quals Hne)
    as (l1 & l2 & Hg1 & Hg2 & Hg3 & Hhost & Hdev).
  fold tlist_dev in Hg3, Hdev.
  apply grows_spec in Hg1 as (n1 & -> & Hn1 & _).
  apply grows_spec in Hg2 as (n2 & -> & Hn2 & _).
  apply grows_spec in Hg3 as (n3 & Hl3 & _).
  cbn [app] in *. split.
  - intros Hq. eapply Forall_impl; [exact (Hhost Hq) |].
    intros var [Hatt (tle & Heq & Hin)%list_elem_of_fmap].
    split; [exact Hatt |]. exists tle. rewrite Hl3, elem_of_app.
    split; [by left |]. split; [done |].
    apply elem_of_app in Hin as [Hin | Hin].
    + eapply Forall_forall in Hn1 as [? _]; [| exact Hin]. done.
    + eapply Forall_forall in Hn2 as [? _]; [| exact Hin]. done.
  - intros Hq. eapply Forall_impl; [exact (Hdev Hq) |].
    intros var [Hatt (tle & Heq & Hin)%list_elem_of_fmap].
    split; [exact Hatt |]. by exists tle.
Qed.

(** A target list that is the relation's columns in order. *)
Lemma projection_walk_tlist_compatible tlist k context :
  projection_context.attnum context = Z.of_nat k ->
  projection_context.compatible_tlist context = true ->
  Forall (fun tle => exists var, expr tle = T_Var var /\
                                 varattno var <= Z.of_nat k)
    (projection_context.tlist_dev context) ->
  (forall i tle, tlist !! i = Some tle ->
     exists var attr,
       expr tle = T_Var var /\ varattno var = Z.of_nat (k + i) + 1 /\
       tupdesc !! (k + i)%nat = Some attr /\
       vartype var = pg_attribute.atttypid attr /\
       (vartypmod var = pg_attribute.atttypmod attr \/ vartypmod var = -1)) ->
  exists context',
    projection_walk_tlist tupdesc tlist context = Some context' /\
    projection_context.compatible_tlist context' = true /\
    projection_context.attnum context' = Z.of_nat (k + length tlist).
Proof.
  revert k context.
  induction tlist as [| tle tlist IH]; intros k context Hnum Hcompat Hdev Hcols.
  { exists context. split; [reflexivity |]. split; [exact Hcompat |].
    rewrite Hnum. f_equal. cbn. lia. }
  destruct (Hcols 0%nat tle eq_refl)
    as (var & attr & Hexpr & Hatt & Hattr & Hty & Hmod).
  rewrite Nat.add_0_r in Hatt, Hattr.
  apply lookup_lt_Some in Hattr as Hlt.
  cbn [projection_walk_tlist]. rewrite Hexpr.
  cbn [build_gpuscan_projection_walker set_attnum projection_context.attnum
       projection_context.tlist_dev projection_context.compatible_tlist
       projection_context.depth].
  rewrite Hnum.
  assert (E0 : (varattno var =? InvalidAttrNumber) = false)
    by (apply Z.eqb_neq; unfold InvalidAttrNumber; lia).
  assert (E1 : (varattno var =? Z.of_nat k + 1) = true) by (apply Z.eqb_eq; lia).
  assert (E2 : (Z.of_nat (length tupdesc) <? Z.of_nat k + 1) = false)
    by (apply Z.ltb_ge; lia).
  rewrite E0, E1, E2. cbn [negb orb].
  replace (Z.to_nat (Z.of_nat k + 1 - 1)) with k by lia. rewrite Hattr.
  assert (E3 : negb (vartype var =? pg_attribute.atttypid attr)
               || (negb (vartypmod var =? pg_attribute.atttypmod attr)
                   && negb (vartypmod var =? -1)) = false).
  { rewrite Hty, Z.eqb_refl. cbn [negb orb].
    destruct Hmod as [-> | ->]; rewrite Z.eqb_refl; cbn [negb andb];
      [reflexivity | apply andb_false_r]. }
  rewrite E3. cbn [projection_context.tlist_dev].
  assert (Hnew : T_Var var ∉ expr <$> projection_context.tlist_dev context).
  { intros (tle0 & Heq & Hin)%list_elem_of_fmap.
    eapply Forall_forall in Hdev as (var0 & Hv0 & Hle); [| exact Hin].
    rewrite Hv0 in Heq. injection Heq as ->. lia. }
  rewrite (add_unique_expression_absent _ _ _ Hnew). cbn [negb].
  destruct (IH (S k)
              (set_tlist_dev
                 {| projection_context.attnum := Z.of_nat k + 1;
                    projection_context.depth := projection_context.depth context;
                    projection_context.compatible_tlist :=
                      projection_context.compatible_tlist context;
                    projection_context.tlist_dev :=
                      projection_context.tlist_dev context |}
                 (projection_context.tlist_dev context ++
                  [{| expr := T_Var var;
                      resno := int16 (Z.of_nat (length
                                 (projection_context.tlist_dev context)) + 1);
                      resjunk := false |}])))
    as (context' & Hrun & Hc & Hn).
  - cbn. lia.
  - exact Hcompat.
  - cbn [set_tlist_dev projection_context.tlist_dev]. apply Forall_app. split.
    + eapply Forall_impl; [exact Hdev |]. intros t (v & ? & ?). exists v.
      split; [done | lia].
    + constructor; [| constructor]. exists var. split; [reflexivity | lia].
  - intros i t Hi. destruct (Hcols (S i) t Hi) as (v & a & ? & ? & ? & ? & ?).
    exists v, a. replace (S k + i)%nat with (k + S i)%nat by lia. done.
  - exists context'. split; [exact Hrun |]. split; [exact Hc |].
    rewrite Hn. f_equal. cbn [length]. lia.
Qed.

(** X15: a target list that is the relation's columns in their order --
    entry i a plain variable of attribute i with the column's type and
    either the column's type modifier or none, and as many entries as the
    relation has columns -- needs no device projection:
    [build_gpuscan_projection] returns NIL whatever the quals are. *)
Theorem build_gpuscan_projection_compatible (tlist : list TargetEntry)
    (host_quals dev_quals : list Node) :
  length tlist = length tupdesc ->
  (forall i tle, tlist !! i = Some tle ->
     exists var attr,
       expr tle = T_Var var /\ varattno var = Z.of_nat i + 1 /\
       tupdesc !! i = Some attr /\
       vartype var = pg_attribute.atttypid attr /\
       (vartypmod var = pg_attribute.atttypmod attr \/ vartypmod var = -1)) ->
  build_gpuscan_projection tupdesc tlist host_quals dev_quals = [].
Proof.
  intros Hlen Hcols. unfold build_gpuscan_projection.
  destruct (projection_walk_tlist_compatible tlist 0
              {| projection_context.attnum := 0;
                 projection_context.depth := 0;
                 projection_context.compatible_tlist := true;
                 projection_context.tlist_dev := [] |})
    as (context' & -> & Hc & Hn); [reflexivity | reflexivity | constructor | |].
  { intros i tle Hi. destruct (Hcols i tle Hi) as (v & a & ?). by exists v, a. }
  rewrite Hn, Hlen. cbn [Nat.add]. rewrite Z.eqb_refl. cbn [negb].
  rewrite Hc.
  destruct (match host_quals with [] => _ | _ :: _ => _ end); [| reflexivity].
  destruct (match dev_quals with [] => _ | _ :: _ => _ end); reflexivity.
Qed.

End projection_props.

(** [SELECT a, b WHERE c > 30]: the two columns, then [c] as junk.
    [SELECT a, b, c WHERE c > 30]: no device projection.
    [SELECT c, a WHERE c > 30]: the two columns in the asked order.
    A whole-row variable in the qual: no device projection. *)
Example build_gpuscan_projection_samples :
  let build := build_gpuscan_projection (H := sample_planner) sample_tupdesc in
  build [sample_column 1 1; sample_column 2 2] [] [sample_base_qual]
    = [ sample_column 1 1; sample_column 2 2;
        {| expr := T_Var (mkVar 1 3 23); resno := 3; resjunk := true |} ] /\
  build [sample_column 1 1; sample_column 2 2; sample_column 3 3] []
        [sample_base_qual] = [] /\
  build [sample_column 3 1; sample_column 1 2] [] [sample_base_qual]
    = [sample_column 3 1; sample_column 1 2] /\
  build [sample_column 1 1] [] [T_Var (mkVar 1 0 23)] = [].
Proof. vm_compute. repeat split. Qed.

Lemma build_gpuscan_projection_covers_quals_witness :
  let tlist_dev :=
    build_gpuscan_projection (H := sample_planner) sample_tupdesc
      [sample_column 1 1; sample_column 2 2] [sample_base_qual]
      [sample_base_qual] in
  tlist_dev <> [] /\
  ([sample_base_qual] <> [] ->
   Forall (fun var =>
             varattno var <> InvalidAttrNumber /\
             exists tle, tle ∈ tlist_dev /\ expr tle = T_Var var /\
                         resjunk tle = false)
     (@pull_vars_of_level sample_planner [sample_base_qual])) /\
  ([sample_base_qual] <> [] ->
   Forall (fun var =>
             varattno var <> InvalidAttrNumber /\
             exists tle, tle ∈ tlist_dev /\ expr tle = T_Var var)
     (@pull_vars_of_level sample_planner [sample_base_qual])).
Proof.
  assert (Hne : build_gpuscan_projection (H := sample_planner) sample_tupdesc
                  [sample_column 1 1; sample_column 2 2] [sample_base_qual]
                  [sample_base_qual] <> [])
    by (vm_compute; discriminate).
  split; [exact Hne |].
  exact (build_gpuscan_projection_covers_quals (H := sample_planner)
           sample_tupdesc [sample_column 1 1; sample_column 2 2]
           [sample_base_qual] [sample_base_qual] Hne).
Defined.

Lemma build_gpuscan_projection_compatible_witness :
  let tlist := [sample_column 1 1; sample_column 2 2; sample_column 3 3] in
  length tlist = length sample_tupdesc /\
  (forall i tle, tlist !! i = Some tle ->
     exists var attr,
       expr tle = T_Var var /\ varattno var = Z.of_nat i + 1 /\
       sample_tupdesc !! i = Some attr /\
       vartype var = pg_attribute.atttypid attr /\
       (@vartypmod sample_planner var = pg_attribute.atttypmod attr \/
        @vartypmod sample_planner var = -1)) /\
  build_gpuscan_projection (H := sample_planner) sample_tupdesc tlist
    [] [sample_base_qual] = [].
Proof.
  assert (Hcols : forall i tle,
    [sample_column 1 1; sample_column 2 2; sample_column 3 3] !! i = Some tle ->
    exists var attr,
      expr tle = T_Var var /\ varattno var = Z.of_nat i + 1 /\
      sample_tupdesc !! i = Some attr /\
      vartype var = pg_attribute.atttypid attr /\
      (@vartypmod sample_planner var = pg_attribute.atttypmod attr \/
       @vartypmod sample_planner var = -1)).
  { intros [| [| [| i]]] tle [= <-]; eexists _, _; cbn;
      (split; [reflexivity |]); (split; [reflexivity |]);
      (split; [reflexivity |]); (split; [reflexivity |]); by left. }
  assert (Hlen : length [sample_column 1 1; sample_column 2 2; sample_column 3 3]
                 = length sample_tupdesc) by reflexivity.
  split; [exact Hlen |]. split; [exact Hcols |].
  exact (build_gpuscan_projection_compatible (H := sample_planner)
           sample_tupdesc
           [sample_column 1 1; sample_column 2 2; sample_column 3 3]
           [] [sample_base_qual] Hlen Hcols).
Defined.

(** ** The planner's target list in the executor *)

Section projection_executor_props.
Context `{Planner} `{HostEvaluator}.

Lemma build_gpuscan_projection_junk_last tupdesc tlist host_quals dev_quals :
  let tlist_dev := build_gpuscan_projection tupdesc tlist host_quals dev_quals in
  take_while (fun tle => negb (resjunk tle)) tlist_dev
    = filter (fun tle => resjunk tle = false) tlist_dev.
Proof.
  intros tlist_dev.
  destruct (decide (tlist_dev = [])) as [-> | Hne]; [reflexivity |].
  destruct (build_gpuscan_projection_stages tupdesc tlist host_quals dev_quals
              Hne) as (l1 & l2 & Hg1 & Hg2 & Hg3 & _).
  fold tlist_dev in Hg3.
  apply grows_spec in Hg1 as (n1 & -> & Hn1 & _).
  apply grows_spec in Hg2 as (n2 & -> & Hn2 & _).
  apply grows_spec in Hg3 as (n3 & -> & Hn3 & _).
  cbn [app].
  assert (Hkeep : Forall (fun tle => resjunk tle = false) (n1 ++ n2)).
  { apply Forall_app. split.
    - eapply Forall_impl; [exact Hn1 |]. by intros tle [? _].
    - eapply Forall_impl; [exact Hn2 |]. by intros tle [? _]. }
  assert (Hjunk : Forall (fun tle => resjunk tle = true) n3).
  { eapply Forall_impl; [exact Hn3 |]. by intros tle [? _]. }
  destruct (take_while_filter_junk _ _ Hkeep Hjunk) as [-> ->]. reflexivity.
Qed.

(** X16: for a plan whose [custom_scan_tlist] is a device target list
    made by [build_gpuscan_projection], the state that [ExecInitGpuScan]
    prepares is consistent: the fallback projection consists of exactly
    the non-junk entries, the scan descriptor counts exactly those, and
    so every tuple the CPU fallback projects has the scan descriptor's
    number of columns. *)
Theorem ExecInitGpuScan_projection_consistent (tupdesc : TupleDesc)
    (tlist : list TargetEntry) (host_quals dev_quals : list Node)
    (cscan : CustomScan) (kern_params_length rel_natts : Z)
    (gss : GpuScanState) :
  custom_scan_tlist cscan
    = build_gpuscan_projection tupdesc tlist host_quals dev_quals ->
  custom_scan_tlist cscan <> [] ->
  ExecInitGpuScan cscan kern_params_length rel_natts = OK gss ->
  let dev_tlist :=
    filter (fun tle => resjunk tle = false) (custom_scan_tlist cscan) in
  gss.dev_projection gss = true /\
  gss.base_proj gss = Some dev_tlist /\
  gss.scan_natts gss = Z.of_nat (length dev_tlist) /\
  forall base_tuple,
    Z.of_nat (length (fallback_project (gss.base_proj gss) base_tuple))
      = gss.scan_natts gss.
Proof.
  intros Hplan Hne Hinit dev_tlist.
  pose proof (build_gpuscan_projection_junk_last tupdesc tlist host_quals
                dev_quals) as Hjunk.
  cbn zeta in Hjunk. rewrite <- Hplan in Hjunk. fold dev_tlist in Hjunk.
  unfold ExecInitGpuScan in Hinit.
  bind_inv Hinit as gs_info Hinfo. bind_inv Hinit as raw Hraw.
  injection Hinit as <-. cbn [gss.dev_projection gss.base_proj gss.scan_natts].
  destruct (custom_scan_tlist cscan) as [| tle0 tlist0] eqn:Etl; [done |].
  rewrite Hjunk. split; [reflexivity |]. split; [reflexivity |].
  split; [reflexivity |].
  intros base_tuple. unfold fallback_project, ExecProject.
  by rewrite length_fmap.
Qed.

End projection_executor_props.

Lemma ExecInitGpuScan_projection_consistent_witness :
  let tlist := [sample_column 1 1; sample_column 2 2] in
  let cscan :=
    form_gpuscan_info
      {| flags := 0; custom_exprs := []; custom_private := [];
         custom_scan_tlist :=
           build_gpuscan_projection (H := sample_planner) sample_tupdesc
             tlist [] [sample_base_qual] |}
      sample_gs_info in
  exists gss,
    custom_scan_tlist cscan
      = build_gpuscan_projection (H := sample_planner) sample_tupdesc
          tlist [] [sample_base_qual] /\
    custom_scan_tlist cscan <> [] /\
    ExecInitGpuScan cscan 64 3 = OK gss /\
    let dev_tlist :=
      filter (fun tle => resjunk tle = false) (custom_scan_tlist cscan) in
    gss.dev_projection gss = true /\
    gss.base_proj gss = Some dev_tlist /\
    gss.scan_natts gss = Z.of_nat (length dev_tlist) /\
    forall base_tuple,
      Z.of_nat (length (fallback_project (H := sample_evaluator)
                          (gss.base_proj gss) base_tuple))
        = gss.scan_natts gss.
Proof.
  eexists.
  match goal with
  | |- ?plan /\ _ => assert (Hplan : plan) by reflexivity
  end.
  split; [exact Hplan |].
  match goal with
  | |- ?ne /\ _ => assert (Hne : ne) by (vm_compute; discriminate)
  end.
  split; [exact Hne |].
  match goal with
  | |- ?init /\ _ => assert (Hinit : init) by (vm_compute; reflexivity)
  end.
  split; [exact Hinit |].
  exact (ExecInitGpuScan_projection_consistent (H := sample_planner)
           (H0 := sample_evaluator) sample_tupdesc _ _ _ _ _ _ _
           Hplan Hne Hinit).
Defined.

(** ** EPQ recheck and CPU fallback *)

Section recheck_props.
Context `{HostEvaluator}.

Lemma ExecReCheckGpuScan_retval gss slot :
  (ExecReCheckGpuScan gss slot).1 = ExecQual (gss.dev_quals gss) slot.
Proof.
  unfold ExecReCheckGpuScan. destruct (gss.base_proj gss); [| reflexivity].
  by destruct (ExecQual _ _).
Qed.

(** X17: the EPQ recheck and the CPU fallback agree.  A tuple that fails
    the recheck is left in the slot as it was; and the tuples the CPU
    fallback returns for a chunk are the tuples of the chunk that pass
    the recheck, in order, each as the recheck leaves it in the slot. *)
Theorem ExecReCheckGpuScan_fallback (gss : GpuScanState)
    (gscan : GpuScanTask) (gs_rtstat : GpuScanRuntimeStat) (fuel : nat) :
  task.cpu_fallback (gscan.task gscan) = true ->
  gss.curr_index gss = 0 ->
  (length (pds.rows (gscan.pds_src gscan)) < fuel)%nat ->
  (forall slot, (ExecReCheckGpuScan gss slot).1 = false ->
                (ExecReCheckGpuScan gss slot).2 = slot) /\
  (fetch_all fuel gss gscan gs_rtstat).1.1
    = (fun slot => (ExecReCheckGpuScan gss slot).2)
        <$> filter (fun slot => (ExecReCheckGpuScan gss slot).1 = true)
              (pds.rows (gscan.pds_src gscan)).
Proof.
  intros Hfb Hidx Hfuel. split.
  - intros slot Hfail. rewrite ExecReCheckGpuScan_retval in Hfail.
    unfold ExecReCheckGpuScan. rewrite Hfail. by destruct (gss.base_proj gss).
  - pose proof (fetch_all_fallback fuel gss gscan gs_rtstat Hfb) as Hfa.
    rewrite Hidx in Hfa. cbn [Z.to_nat drop] in Hfa. cbn zeta in Hfa.
    destruct (Hfa ltac:(lia) Hfuel) as (gss' & st' & Hrun & _). rewrite Hrun.
    cbn [fst].
    rewrite (list_filter_iff (passes (gss.dev_quals gss))
               (fun slot => (ExecReCheckGpuScan gss slot).1 = true)).
    2: { intros slot. unfold passes. by rewrite ExecReCheckGpuScan_retval. }
    apply list_fmap_ext. intros i slot Hslot.
    apply list_elem_of_lookup_2, list_elem_of_filter in Hslot as [Hpass _].
    rewrite ExecReCheckGpuScan_retval in Hpass.
    unfold ExecReCheckGpuScan, fallback_project. rewrite Hpass.
    by destruct (gss.base_proj gss).
Qed.

End recheck_props.

Lemma ExecReCheckGpuScan_fallback_witness :
  exists gss,
    ExecInitGpuScan sample_projected_cscan 64 3 = OK gss /\
    task.cpu_fallback (gscan.task sample_fallback_task) = true /\
    gss.curr_index gss = 0 /\
    (length (pds.rows (gscan.pds_src sample_fallback_task)) < 5)%nat /\
    (forall slot,
       (ExecReCheckGpuScan (H := sample_evaluator) gss slot).1 = false ->
       (ExecReCheckGpuScan (H := sample_evaluator) gss slot).2 = slot) /\
    (fetch_all (H := sample_evaluator) 5 gss sample_fallback_task
       sample_rtstat).1.1
      = (fun slot => (ExecReCheckGpuScan (H := sample_evaluator) gss slot).2)
          <$> filter (fun slot =>
                        (ExecReCheckGpuScan (H := sample_evaluator) gss slot).1
                        = true)
                (pds.rows (gscan.pds_src sample_fallback_task)).
Proof.
  eexists. split; [vm_compute; reflexivity |].
  assert (Hfuel : (length (pds.rows (gscan.pds_src sample_fallback_task)) < 5)%nat)
    by (cbn; lia).
  split; [reflexivity |].
  match goal with
  | |- ?idx /\ _ => assert (Hidx : idx) by reflexivity
  end.
  split; [exact Hidx |]. split; [exact Hfuel |].
  exact (ExecReCheckGpuScan_fallback (H := sample_evaluator) _
           sample_fallback_task sample_rtstat 5 eq_refl Hidx Hfuel).
Defined.
(** ** The serial scan, chunk by chunk *)

Section serial_scan_props.
Context `{Storage} `{HeapAccess} `{DeviceMemory}.

Lemma blocks_read_app events events' :
  blocks_read (events ++ events') = blocks_read events ++ blocks_read events'.
Proof. unfold blocks_read. apply flat_map_app. Qed.

(** A step of [n] blocks of a serial scan standing at a block. *)
Lemma serial_blocks_left_step (scan : heapscan.t) (n : Z) :
  let rs_nblocks := scan.rs_nblocks (heapscan.desc scan) in
  let start := heapscan.rs_startblock scan in
  let page := scan.rs_cblock (heapscan.desc scan) in
  let next := if rs_nblocks <=? page + n then 0 else page + n in
  let scan' :=
    set_rs_cblock scan (if next =? start then InvalidBlockNumber else next) in
  0 < CCACHE_CHUNK_NBLOCKS ->
  serial_scan scan -> heapscan.rs_inited scan = true ->
  page <> InvalidBlockNumber ->
  0 < n -> page + n <= rs_nblocks -> (page < start -> page + n <= start) ->
  serial_scan scan' /\
  serial_blocks_left scan = seqZ page n ++ serial_blocks_left scan' /\
  (length (serial_blocks_left scan') < length (serial_blocks_left scan))%nat.
Proof.
  destruct scan as [[rs_nblocks sync page numblocks] inited start parallel].
  cbn. intros HC (Hser & Hn0 & Hmax & Hv) -> Hpage Hn Hend Hbefore.
  cbn in Hser, Hn0, Hmax, Hv.
  destruct Hv as [Hs [Hc | Hc]]; cbn in Hs, Hc; [contradiction |].
  set (next := if rs_nblocks <=? page + n then 0 else page + n).
  assert (Hnext : 0 <= next < rs_nblocks).
  { subst next. destruct (rs_nblocks <=? page + n) eqn:E;
      [apply Z.leb_le in E | apply Z.leb_gt in E]; lia. }
  match goal with
  | |- _ /\ ?l = _ ++ ?l' /\ _ =>
      assert (Hstep : l = seqZ page n ++ l')
  end.
  { unfold serial_blocks_left. cbn.
    rewrite (blocks_left_step rs_nblocks _ n); cbn;
      [| unfold InvalidBlockNumber; lia | lia ..].
    fold next. reflexivity. }
  split; [| split; [exact Hstep |]].
  - unfold serial_scan, set_rs_cblock, cursor_valid. cbn.
    split; [exact Hser |]. split; [lia |]. split; [lia |].
    split; [lia |].
    destruct (next =? start); [by left | right; lia].
  - rewrite Hstep, length_app, length_seqZ. lia.
Qed.

(** The head of a round, for a serial scan: the loop is left at the end
    of the scan, and otherwise the scan stands at a block. *)
Lemma scan_init_serial (st : chunk_loop.t) :
  0 < CCACHE_CHUNK_NBLOCKS ->
  serial_scan (chunk_loop.scan st) ->
  match scan_init st with
  | inr (e, st') =>
      st' = st /\ serial_blocks_left (chunk_loop.scan st) = [] /\
      (e = loop_out \/ e = loop_break)
  | inl st' =>
      chunk_loop.pds st' = chunk_loop.pds st /\
      chunk_loop.pds_column st' = chunk_loop.pds_column st /\
      chunk_loop.events st' = chunk_loop.events st /\
      serial_scan (chunk_loop.scan st') /\
      heapscan.rs_inited (chunk_loop.scan st') = true /\
      scan.rs_cblock (heapscan.desc (chunk_loop.scan st'))
        <> InvalidBlockNumber /\
      serial_blocks_left (chunk_loop.scan st')
        = serial_blocks_left (chunk_loop.scan st)
  end.
Proof.
  destruct st as [[[rs_nblocks sync page numblocks] inited start parallel]
                    pds pds_column events].
  unfold scan_init, serial_scan, serial_blocks_left, serial_cursor,
    cursor_valid, blocks_left.
  cbn. intros HC (-> & Hn0 & Hmax & Hv).
  destruct inited; cbn.
  - destruct (page =? InvalidBlockNumber) eqn:E.
    + by repeat split; try right.
    + apply Z.eqb_neq in E. cbn. rewrite (proj2 (Z.eqb_neq _ _) E).
      repeat split; try done; try tauto; lia.
  - destruct (rs_nblocks =? 0) eqn:E.
    + by repeat split; try left.
    + pose proof E as E'. apply Z.eqb_neq in E'.
      destruct Hv as [Hv | Hv]; [contradiction |]. cbn.
      unfold InvalidBlockNumber.
      repeat split; try done; try tauto; try lia.
Qed.

Lemma serial_blocks_left_NoDup (scan : heapscan.t) :
  serial_scan scan -> NoDup (serial_blocks_left scan).
Proof.
  destruct scan as [[rs_nblocks sync page numblocks] inited start parallel].
  unfold serial_scan, serial_blocks_left, serial_cursor. cbn.
  intros (_ & Hn0 & Hmax & Hv). destruct inited.
  - by apply blocks_left_NoDup.
  - destruct (rs_nblocks =? 0) eqn:E.
    + unfold blocks_left. cbn. constructor.
    + apply Z.eqb_neq in E. destruct Hv as [Hv | Hv]; [contradiction |].
      apply blocks_left_NoDup. split; cbn; [lia | right; lia].
Qed.

(** The move to the next position, for a serial scan standing at a block:
    either nothing happens, or a columnar chunk is taken for the blocks
    it covers and the loop is left with it, or its load fails. *)
Lemma scan_next_position_serial (fuel : nat) (gts : GpuTaskState)
    (st : chunk_loop.t) :
  0 < CCACHE_CHUNK_NBLOCKS ->
  serial_scan (chunk_loop.scan st) ->
  heapscan.rs_inited (chunk_loop.scan st) = true ->
  scan.rs_cblock (heapscan.desc (chunk_loop.scan st)) <> InvalidBlockNumber ->
  exists o, scan_next_position fuel gts st = Some o /\
    match o with
    | inl st' => st' = st
    | inr (e, st') =>
        serial_scan (chunk_loop.scan st') /\
        blocks_read (chunk_loop.events st')
          ++ serial_blocks_left (chunk_loop.scan st')
        = blocks_read (chunk_loop.events st)
          ++ serial_blocks_left (chunk_loop.scan st) /\
        e <> loop_out /\
        (e = loop_break -> is_Some (chunk_loop.pds_column st'))
    end.
Proof.
  intros HC Hser Hin Hpage. unfold scan_next_position.
  pose proof Hser as (Hpar & Hn0 & Hmax & Hv). rewrite Hpar.
  rewrite Hin in Hv. destruct Hv as [Hs [Hc | Hc]];
    unfold serial_cursor in Hs, Hc; cbn in Hs, Hc; rewrite Hin in Hc;
    [contradiction |].
  set (page := scan.rs_cblock (heapscan.desc (chunk_loop.scan st))) in *.
  set (rs_nblocks := scan.rs_nblocks (heapscan.desc (chunk_loop.scan st))) in *.
  set (start := heapscan.rs_startblock (chunk_loop.scan st)) in *.
  rewrite (uint32_id (page + CCACHE_CHUNK_NBLOCKS)) by (unfold is_uint32; lia).
  destruct (_ && _) eqn:Etest; [| by eexists].
  destruct (pgstrom_ccache_get_chunk page) as [cc_chunk |]; [| by eexists].
  destruct (pgstrom_ccache_load_chunk cc_chunk) as [pds_column | msg].
  2: { eexists. split; [reflexivity |]. split; [exact Hser |].
       split; [reflexivity |]. by split. }
  apply andb_prop in Etest as [Etest Hend]. apply Z.leb_le in Hend.
  apply andb_prop in Etest as [_ Hbefore].
  apply orb_prop in Hbefore.
  destruct (serial_blocks_left_step (chunk_loop.scan st) CCACHE_CHUNK_NBLOCKS
              HC Hser Hin Hpage HC) as (Hser' & Hstep & _).
  { fold page rs_nblocks. lia. }
  { fold page start. destruct Hbefore as [Hb | Hb]; apply Z.leb_le in Hb; lia. }
  fold page rs_nblocks start in Hser', Hstep.
  eexists. split; [reflexivity |]. cbn [chunk_loop.scan chunk_loop.events
    chunk_loop.pds_column].
  split; [exact Hser' |]. split; [| split; [done | by eexists]].
  rewrite Hstep, !blocks_read_app, <- !app_assoc. f_equal.
  cbn. rewrite app_nil_r.
  destruct (scan.rs_syncscan _); cbn; by rewrite ?app_nil_r.
Qed.

(** The move to the next block after a serial scan took the block it
    stood at. *)
Lemma scan_next_block_serial (scan : heapscan.t) (events : list scan_event) :
  0 < CCACHE_CHUNK_NBLOCKS ->
  serial_scan scan -> heapscan.rs_inited scan = true ->
  scan.rs_cblock (heapscan.desc scan) <> InvalidBlockNumber ->
  serial_scan (scan_next_block scan events).1 /\
  blocks_read (scan_next_block scan events).2 = blocks_read events /\
  serial_blocks_left scan
    = scan.rs_cblock (heapscan.desc scan)
        :: serial_blocks_left (scan_next_block scan events).1.
Proof.
  intros HC Hser Hin Hpage.
  pose proof Hser as (Hpar & Hn0 & Hmax & Hv).
  rewrite Hin in Hv. destruct Hv as [Hs [Hc | Hc]];
    unfold serial_cursor in Hs, Hc; cbn in Hs, Hc; rewrite Hin in Hc;
    [contradiction |].
  destruct (serial_blocks_left_step scan 1 HC Hser Hin Hpage)
    as (Hser' & Hstep & _); [lia .. |].
  unfold scan_next_block.
  rewrite (uint32_id (_ + 1)) by (unfold is_uint32; lia).
  destruct scan as [[rs_nblocks sync page numblocks] inited start parallel].
  cbn in *.
  set (next := if rs_nblocks <=? page + 1 then 0 else page + 1) in *.
  unfold set_rs_cblock, set_rs_numblocks in *. cbn in *.
  split; [| split].
  - destruct (numblocks =? InvalidBlockNumber); cbn;
      destruct (next =? start); exact Hser'.
  - destruct (numblocks =? InvalidBlockNumber); cbn; destruct sync;
      unfold blocks_read; rewrite ?flat_map_app; cbn; by rewrite ?app_nil_r.
  - rewrite Hstep. cbn.
    destruct (numblocks =? InvalidBlockNumber); cbn;
      destruct (next =? start); reflexivity.
Qed.

(** The load of the block a serial scan stands at: the block is taken and
    the scan moves on by one, or the loop is left because the chunk could
    not be made or has no room for the block. *)
Lemma scan_load_block_serial (gts : GpuTaskState) (st : chunk_loop.t) :
  0 < CCACHE_CHUNK_NBLOCKS ->
  serial_scan (chunk_loop.scan st) ->
  heapscan.rs_inited (chunk_loop.scan st) = true ->
  scan.rs_cblock (heapscan.desc (chunk_loop.scan st)) <> InvalidBlockNumber ->
  match scan_load_block gts st with
  | inl st' =>
      serial_scan (chunk_loop.scan st') /\
      chunk_loop.pds_column st' = chunk_loop.pds_column st /\
      blocks_read (chunk_loop.events st')
        ++ serial_blocks_left (chunk_loop.scan st')
      = blocks_read (chunk_loop.events st)
        ++ serial_blocks_left (chunk_loop.scan st) /\
      (length (serial_blocks_left (chunk_loop.scan st'))
       < length (serial_blocks_left (chunk_loop.scan st)))%nat
  | inr (e, st') =>
      chunk_loop.scan st' = chunk_loop.scan st /\
      chunk_loop.events st' = chunk_loop.events st /\
      chunk_loop.pds_column st' = chunk_loop.pds_column st /\
      e <> loop_out /\
      (e = loop_break ->
       exists pds page,
         chunk_loop.pds st' = Some pds /\
         PDS_exec_heapscan (gts.nvme_sstate gts) page pds = None)
  end.
Proof.
  intros HC Hser Hin Hpage. unfold scan_load_block.
  destruct (match chunk_loop.pds st with Some _ => _ | None => _ end)
    as [pds | msg]; [| by repeat split].
  apply Z.eqb_neq in Hpage. rewrite Hpage. apply Z.eqb_neq in Hpage.
  destruct (PDS_exec_heapscan _ _ pds) as [pds' |] eqn:Eload.
  2: { repeat split; try done. intros _. by eexists _, _. }
  cbn [chunk_loop.scan chunk_loop.events chunk_loop.pds_column
       chunk_loop.pds].
  match goal with
  | |- context [scan_next_block ?sc ?ev] =>
      destruct (scan_next_block_serial sc ev HC Hser Hin Hpage)
        as (Hser' & Hev & Hstep);
      destruct (scan_next_block sc ev) as [scan' events']
  end.
  cbn [fst snd] in Hser', Hev, Hstep.
  cbn [chunk_loop.scan chunk_loop.events chunk_loop.pds_column].
  split; [exact Hser' |]. split; [done |]. split.
  - rewrite Hev, Hstep, blocks_read_app, <- app_assoc. reflexivity.
  - rewrite Hstep. cbn. lia.
Qed.

Lemma scan_round_serial (fuel : nat) (gts : GpuTaskState)
    (st : chunk_loop.t) :
  0 < CCACHE_CHUNK_NBLOCKS ->
  serial_scan (chunk_loop.scan st) ->
  chunk_loop.pds_column st = None ->
  exists o, scan_round fuel gts st = Some o /\
    match o with
    | inl st' =>
        serial_scan (chunk_loop.scan st') /\
        chunk_loop.pds_column st' = None /\
        blocks_read (chunk_loop.events st')
          ++ serial_blocks_left (chunk_loop.scan st')
        = blocks_read (chunk_loop.events st)
          ++ serial_blocks_left (chunk_loop.scan st) /\
        (length (serial_blocks_left (chunk_loop.scan st'))
         < length (serial_blocks_left (chunk_loop.scan st)))%nat
    | inr (e, st') =>
        serial_scan (chunk_loop.scan st') /\
        blocks_read (chunk_loop.events st')
          ++ serial_blocks_left (chunk_loop.scan st')
        = blocks_read (chunk_loop.events st)
          ++ serial_blocks_left (chunk_loop.scan st) /\
        serial_exit gts e st'
    end.
Proof.
  intros HC Hser Hcol. unfold scan_round.
  pose proof (scan_init_serial st HC Hser) as Hinit.
  destruct (scan_init st) as [st1 | [e st1]].
  2: { destruct Hinit as (-> & Hleft & He). eexists. split; [reflexivity |].
       split; [exact Hser |]. split; [reflexivity |].
       destruct He as [-> | ->]; cbn; [done | by left]. }
  destruct Hinit as (Hpds & Hcol1 & Hev1 & Hser1 & Hin1 & Hpage1 & Hleft1).
  destruct (scan_next_position_serial fuel gts st1 HC Hser1 Hin1 Hpage1)
    as (o & -> & Ho).
  destruct o as [st2 | [e st2]].
  2: { destruct Ho as (Hser2 & Hinv & Hout & Hbreak).
       eexists. split; [reflexivity |]. split; [exact Hser2 |].
       split; [by rewrite Hinv, Hev1, Hleft1 |].
       destruct e; cbn; [done | | done].
       intros Hnone. destruct (Hbreak eq_refl) as [? Hsome]. congruence. }
  subst st2.
  pose proof (scan_load_block_serial gts st1 HC Hser1 Hin1 Hpage1) as Hload.
  eexists. split; [reflexivity |].
  destruct (scan_load_block gts st1) as [st3 | [e st3]].
  - destruct Hload as (Hser3 & Hcol3 & Hinv & Hlen).
    split; [exact Hser3 |]. split; [congruence |].
    split; [by rewrite Hinv, Hev1, Hleft1 | by rewrite <- Hleft1].
  - destruct Hload as (Hscan & Hev & Hcol3 & Hout & Hbreak).
    rewrite Hscan, Hev, Hev1, Hleft1. split; [exact Hser1 |].
    split; [reflexivity |].
    destruct e; cbn; [done | | done].
    intros _. right. by apply Hbreak.
Qed.

Lemma scan_loop_serial (fuel : nat) (gts : GpuTaskState)
    (st : chunk_loop.t) :
  0 < CCACHE_CHUNK_NBLOCKS ->
  serial_scan (chunk_loop.scan st) ->
  chunk_loop.pds_column st = None ->
  (length (serial_blocks_left (chunk_loop.scan st)) <= fuel)%nat ->
  exists e st',
    scan_loop fuel gts st = Some (e, st') /\
    serial_scan (chunk_loop.scan st') /\
    blocks_read (chunk_loop.events st')
      ++ serial_blocks_left (chunk_loop.scan st')
    = blocks_read (chunk_loop.events st)
      ++ serial_blocks_left (chunk_loop.scan st) /\
    serial_exit gts e st'.
Proof.
  intros HC. revert st.
  induction fuel as [| fuel IH]; intros st Hser Hcol Hfuel; cbn [scan_loop].
  all: match goal with
       | |- context [scan_round ?f ?g ?s] =>
           destruct (scan_round_serial f g s HC Hser Hcol) as (o & -> & Ho)
       end.
  all: destruct o as [st' | [e st']]; try (by eexists _, _).
  - destruct Ho as (_ & _ & _ & Hlen). lia.
  - destruct Ho as (Hser' & Hcol' & Hinv & Hlen).
    destruct (IH st' Hser' Hcol' ltac:(lia)) as (e & st'' & -> & ? & Hinv' & ?).
    eexists _, _. split; [reflexivity |]. split; [done |].
    split; [by rewrite Hinv', Hinv | done].
Qed.

(** One call of a serial scan. *)
Lemma gpuscanExecScanChunk_serial (fuel : nat) (gts : GpuTaskState) :
  0 < CCACHE_CHUNK_NBLOCKS ->
  serial_scan (current_scan gts) ->
  (length (serial_blocks_left (current_scan gts)) <= fuel)%nat ->
  exists res gts' events,
    gpuscanExecScanChunk fuel gts = Some (res, gts', events) /\
    serial_scan (current_scan gts') /\
    blocks_read events ++ serial_blocks_left (current_scan gts')
      = serial_blocks_left (current_scan gts) /\
    ((forall s page pds, PDS_exec_heapscan s page pds = None ->
                         0 < kds.nitems (pds.kds pds)) ->
     res = OK None -> serial_blocks_left (current_scan gts') = []).
Proof.
  intros HC Hser Hfuel. unfold gpuscanExecScanChunk.
  set (scan := current_scan gts) in *.
  set (nvme := match gts.ss_currentScanDesc gts with
               | None => PDS_init_heapscan_state
               | Some _ => gts.nvme_sstate gts
               end).
  replace (match gts.ss_currentScanDesc gts with
           | None => (heap_beginscan, PDS_init_heapscan_state)
           | Some scan0 => (scan0, gts.nvme_sstate gts)
           end) with (scan, nvme)
    by (subst scan nvme; unfold current_scan;
        by destruct (gts.ss_currentScanDesc gts)).
  cbn zeta.
  match goal with
  | |- context [scan_loop fuel ?g ?st] =>
      destruct (scan_loop_serial fuel g st HC Hser eq_refl Hfuel)
        as (e & st' & -> & Hser' & Hinv & Hexit)
  end.
  cbn [mbind option_bind chunk_loop.events chunk_loop.scan blocks_read
       flat_map app] in Hinv |- *.
  cbn [gts.nvme_sstate] in Hexit.
  destruct e as [| | msg].
  - eexists _, _, _. split; [reflexivity |].
    split; [exact Hser' |]. split; [exact Hinv |]. intros _ _. exact Hexit.
  - destruct (chunk_loop.pds_column st') as [pds_column |] eqn:Ecol;
      [| destruct (chunk_loop.pds st') as [pds |] eqn:Epds;
         [destruct (kds.nitems (pds.kds pds) =? 0) eqn:Enitems |]].
    all: eexists _, _, _; (split; [reflexivity |]).
    all: split; [exact Hser' |]; split; [exact Hinv |]; try done.
    + intros Hroom _. destruct (Hexit Ecol) as [Hend | (p & page & Hp & Hno)];
        [exact Hend |].
      rewrite Epds in Hp. injection Hp as <-.
      apply Hroom in Hno. apply Z.eqb_eq in Enitems. lia.
    + intros _ _. destruct (Hexit Ecol) as [Hend | (p & page & Hp & _)];
        [exact Hend | congruence].
  - eexists _, _, _. split; [reflexivity |].
    split; [exact Hser' |]. by split; [exact Hinv |].
Qed.

(** X18: a serial scan (no shared cursor), with or without columnar
    cache, over any number of calls with fuel for the blocks left: every
    call returns, and the blocks read so far -- from the heap or as part
    of a columnar chunk -- followed by the blocks still to read are the
    blocks that were to read at the beginning, so that no block is read
    twice and none is skipped.  If [PDS_exec_heapscan] refuses a block
    only to a chunk that holds something, a call that returns no chunk
    means the scan is complete: every block has been read.  For a scan
    that had not begun these are all blocks of the relation, from the
    start block round to the block before it. *)
Theorem gpuscanExecScanChunk_serial_cover (calls fuel : nat)
    (gts : GpuTaskState) :
  let scan := current_scan gts in
  let rs_nblocks := scan.rs_nblocks (heapscan.desc scan) in
  let start := heapscan.rs_startblock scan in
  0 < CCACHE_CHUNK_NBLOCKS ->
  serial_scan scan ->
  (length (serial_blocks_left scan) <= fuel)%nat ->
  exists results gts' events,
    gpuscan_scan_calls calls fuel gts = Some (results, gts', events) /\
    serial_scan (current_scan gts') /\
    blocks_read events ++ serial_blocks_left (current_scan gts')
      = serial_blocks_left scan /\
    NoDup (blocks_read events) /\
    ((forall s page pds, PDS_exec_heapscan s page pds = None ->
                         0 < kds.nitems (pds.kds pds)) ->
     OK None ∈ results -> blocks_read events = serial_blocks_left scan) /\
    (heapscan.rs_inited scan = false ->
     serial_blocks_left scan
       = if rs_nblocks =? 0 then []
         else seqZ start (rs_nblocks - start) ++ seqZ 0 start).
Proof.
  intros scan rs_nblocks start HC Hser Hfuel.
  assert (Hrun : exists results gts' events,
    gpuscan_scan_calls calls fuel gts = Some (results, gts', events) /\
    serial_scan (current_scan gts') /\
    blocks_read events ++ serial_blocks_left (current_scan gts')
      = serial_blocks_left scan /\
    ((forall s page pds, PDS_exec_heapscan s page pds = None ->
                         0 < kds.nitems (pds.kds pds)) ->
     OK None ∈ results -> blocks_read events = serial_blocks_left scan)).
  { subst scan. clear rs_nblocks start.
    revert gts Hser Hfuel. induction calls as [| calls IH]; intros gts Hser Hfuel.
    - eexists _, _, _. split; [reflexivity |]. split; [exact Hser |].
      split; [reflexivity |]. intros _ Hin. by apply not_elem_of_nil in Hin.
    - cbn [gpuscan_scan_calls].
      destruct (gpuscanExecScanChunk_serial fuel gts HC Hser Hfuel)
        as (res & gts1 & events & -> & Hser1 & Hinv & Hend).
      cbn [mbind option_bind].
      destruct res as [pds | msg].
      2: { eexists _, _, _. split; [reflexivity |]. split; [exact Hser1 |].
           split; [exact Hinv |]. intros _ Hin.
           apply list_elem_of_singleton in Hin. discriminate. }
      assert (Hfuel1 : (length (serial_blocks_left (current_scan gts1))
                        <= fuel)%nat).
      { rewrite <- Hinv, length_app in Hfuel. lia. }
      destruct (IH gts1 Hser1 Hfuel1)
        as (results & gts' & events' & -> & Hser' & Hinv' & Hend').
      cbn [mbind option_bind].
      eexists _, _, _. split; [reflexivity |]. split; [exact Hser' |].
      split; [by rewrite blocks_read_app, <- app_assoc, Hinv', Hinv |].
      intros Hroom [Heq | Hin]%elem_of_cons.
      + injection Heq as <-. specialize (Hend Hroom eq_refl). rewrite Hend in Hinv', Hinv.
        apply app_eq_nil in Hinv' as [Hnil _].
        by rewrite blocks_read_app, Hnil, app_nil_r, <- Hinv, app_nil_r.
      + by rewrite blocks_read_app, (Hend' Hroom Hin), Hinv. }
  destruct Hrun as (results & gts' & events & Hrun & Hser' & Hinv & Hend).
  exists results, gts', events. split; [exact Hrun |]. split; [exact Hser' |].
  split; [exact Hinv |]. split; [| split; [exact Hend |]].
  - pose proof (serial_blocks_left_NoDup scan Hser) as Hnd.
    rewrite <- Hinv in Hnd. by apply NoDup_app in Hnd as [? _].
  - intros Hin. unfold serial_blocks_left.
    destruct Hser as (_ & Hn0 & Hmax & Hv). rewrite Hin in Hv.
    fold rs_nblocks start in Hv, Hn0, Hmax.
    destruct (rs_nblocks =? 0) eqn:E.
    + unfold blocks_left, serial_cursor. cbn. rewrite Hin.
      fold rs_nblocks. by rewrite E.
    + apply Z.eqb_neq in E. destruct Hv as [Hv | Hv]; [contradiction |].
      apply blocks_left_fresh.
      * unfold InvalidBlockNumber. lia.
      * exact Hv.
      * unfold serial_cursor. cbn. rewrite Hin. fold rs_nblocks.
        apply Z.eqb_neq in E. by rewrite E.
Qed.

End serial_scan_props.

Section serial_scan_sample.
#[local] Existing Instance sample_cached_storage.
#[local] Existing Instance sample_heap.
#[local] Existing Instance sample_device.

(** The relation of ten blocks scanned from block 6, with the chunk of
    blocks 0..3 in the columnar cache: three blocks fill a row chunk, the
    scan wraps, takes the columnar chunk for blocks 0..3 and puts the row
    chunk with block 9 aside, resumes it with blocks 4 and 5, and ends. *)
Example gpuscanExecScanChunk_serial_sample :
  (fun r => match r with
            | Some (results, gts, events) =>
                Some ((fun res => match res with
                                  | OK (Some pds) =>
                                      Some (kds.format (pds.kds pds),
                                            kds.nitems (pds.kds pds))
                                  | _ => None
                                  end) <$> results,
                      blocks_read events)
            | None => None
            end) (gpuscan_scan_calls 4 10 (sample_gts true))
  = Some ([Some (KDS_FORMAT_ROW, 3); Some (KDS_FORMAT_COLUMN, 2);
           Some (KDS_FORMAT_ROW, 3); None],
          [6; 7; 8; 9; 0; 1; 2; 3; 4; 5]).
Proof. vm_compute. reflexivity. Qed.

Lemma gpuscanExecScanChunk_serial_cover_witness :
  let gts := sample_gts true in
  let scan := current_scan gts in
  let rs_nblocks := scan.rs_nblocks (heapscan.desc scan) in
  let start := heapscan.rs_startblock scan in
  0 < CCACHE_CHUNK_NBLOCKS /\
  serial_scan scan /\
  (length (serial_blocks_left scan) <= 10)%nat /\
  exists results gts' events,
    gpuscan_scan_calls 4 10 gts = Some (results, gts', events) /\
    serial_scan (current_scan gts') /\
    blocks_read events ++ serial_blocks_left (current_scan gts')
      = serial_blocks_left scan /\
    NoDup (blocks_read events) /\
    ((forall s page pds, PDS_exec_heapscan s page pds = None ->
                         0 < kds.nitems (pds.kds pds)) ->
     OK None ∈ results -> blocks_read events = serial_blocks_left scan) /\
    (heapscan.rs_inited scan = false ->
     serial_blocks_left scan
       = if rs_nblocks =? 0 then []
         else seqZ start (rs_nblocks - start) ++ seqZ 0 start).
Proof.
  assert (HC : 0 < CCACHE_CHUNK_NBLOCKS) by (cbn; lia).
  assert (Hser : serial_scan (current_scan (sample_gts true))).
  { split; [reflexivity |]. split; [cbn; lia |]. split; [cbn; lia |].
    cbn. right. lia. }
  assert (Hfuel : (length (serial_blocks_left (current_scan (sample_gts true)))
                   <= 10)%nat) by (vm_compute; lia).
  split; [exact HC |]. split; [exact Hser |]. split; [exact Hfuel |].
  exact (gpuscanExecScanChunk_serial_cover 4 10 (sample_gts true)
           HC Hser Hfuel).
Defined.

End serial_scan_sample.
(** ** A worker of a parallel scan *)

Section parallel_worker_props.
Context `{Storage} `{HeapAccess} `{DeviceMemory}.

Lemma nextpages_app events events' :
  nextpages (events ++ events') = nextpages events ++ nextpages events'.
Proof. unfold nextpages. apply flat_map_app. Qed.

(** Every result of [gpuscan_parallel_nextpage] is made at [out_unlock]. *)
Lemma gpuscan_parallel_nextpage_inv fuel scan ps ccache_refs nr_blocks r :
  gpuscan_parallel_nextpage fuel scan ps ccache_refs nr_blocks = Some r ->
  exists ps' page n cc_chunk phs_cblock report_page,
    r = nextpage_unlocked scan ps' page n cc_chunk phs_cblock report_page.
Proof.
  unfold gpuscan_parallel_nextpage. intros Hr.
  apply bind_Some in Hr as (ps' & _ & Hr).
  apply bind_Some in Hr as ([[[n cc] c] rp] & _ & Hr).
  injection Hr as <-. by eexists _, _, _, _, _, _.
Qed.

(** What a reservation leaves in the worker's descriptor. *)
Lemma gpuscan_parallel_nextpage_worker fuel scan ps ccache_refs nr_blocks r :
  0 < RELSEG_SIZE ->
  scan.rs_nblocks scan + RELSEG_SIZE <= 2 ^ 32 ->
  0 < nr_blocks < RELSEG_SIZE ->
  cursor_valid (scan.rs_nblocks scan) ps ->
  gpuscan_parallel_nextpage fuel scan ps ccache_refs nr_blocks = Some r ->
  scan.rs_nblocks (nextpage.scan r) = scan.rs_nblocks scan /\
  match nextpage.pds_column r with
  | ERROR _ => nextpage.scan r = scan
  | OK _ =>
      cursor_valid (scan.rs_nblocks scan) (nextpage.parallel_scan r) /\
      (scan.rs_cblock (nextpage.scan r) = InvalidBlockNumber \/
       (0 <= scan.rs_cblock (nextpage.scan r) /\
        0 <= scan.rs_numblocks (nextpage.scan r) /\
        scan.rs_cblock (nextpage.scan r) + scan.rs_numblocks (nextpage.scan r)
          <= scan.rs_nblocks scan))
  end.
Proof.
  intros HR Hmax Hnr Hvalid Hrun.
  pose proof (gpuscan_parallel_nextpage_reservation fuel scan ps ccache_refs
                nr_blocks r HR Hmax Hnr Hvalid Hrun) as Hres.
  destruct (gpuscan_parallel_nextpage_inv _ _ _ _ _ _ Hrun)
    as (ps' & page & n & cc & c & rp & Hr).
  split.
  { rewrite Hr. unfold nextpage_unlocked. cbn.
    by destruct (match cc with Some _ => _ | None => _ end). }
  destruct (nextpage.pds_column r) as [pds_column | msg] eqn:Ecol.
  2: { rewrite Hr in Ecol |- *. unfold nextpage_unlocked in *. cbn in *.
       by rewrite Ecol. }
  destruct (Hres ltac:(by eexists)) as (Hstart & Hpage & Hrange).
  destruct (decide (parallel_scan.phs_cblock ps = InvalidBlockNumber))
    as [Hdone | Hlive].
  - destruct (nextpage_exhausted fuel scan ps ccache_refs nr_blocks)
      as (r' & Hr' & Hps' & Hc' & _); [| exact Hdone |].
    { destruct Hvalid as [Hv _]. unfold InvalidBlockNumber. lia. }
    rewrite Hrun in Hr'. injection Hr' as <-. rewrite Hps'.
    split; [exact Hvalid | by left].
  - destruct (Hrange Hlive) as (Hcount & _ & Hend & _ & Hcur).
    destruct Hvalid as [Hs [Hc | Hc]]; [contradiction |].
    split.
    + split; [by rewrite Hstart |].
      destruct Hcur as [Hcur | [Hcur _]]; [by left | by right].
    + right. rewrite Hpage. lia.
Qed.

(** The move to the next block after a worker took the block it stood
    at, one of those it holds. *)
Lemma scan_next_block_parallel (scan : heapscan.t) (events : list scan_event) :
  let c := scan.rs_cblock (heapscan.desc scan) in
  let n := scan.rs_numblocks (heapscan.desc scan) in
  1 < RELSEG_SIZE ->
  parallel_worker scan -> heapscan.rs_inited scan = true ->
  c <> InvalidBlockNumber -> n <> 0 ->
  parallel_worker (scan_next_block scan events).1 /\
  heapscan.rs_inited (scan_next_block scan events).1 = true /\
  blocks_read (scan_next_block scan events).2 = blocks_read events /\
  nextpages (scan_next_block scan events).2 = nextpages events /\
  (exists rest,
     own_blocks scan = c :: rest /\
     sublist (own_blocks (scan_next_block scan events).1) rest) /\
  (blocks_ahead (scan_next_block scan events).1 < blocks_ahead scan)%nat.
Proof.
  destruct scan as [[rs_nblocks sync c n] inited start parallel].
  unfold blocks_ahead, parallel_worker, own_blocks, scan_next_block,
    set_rs_cblock, set_rs_numblocks. cbn.
  intros HR (Hpar & Hmax & Hown) -> Hc Hn.
  destruct (Hown eq_refl) as [Hinv | (Hc0 & Hn0 & Hend)]; [contradiction |].
  rewrite (uint32_id (c + 1)) by (unfold is_uint32; lia).
  rewrite (uint32_id (n - 1)) by (unfold is_uint32; lia).
  assert (En : (n =? InvalidBlockNumber) = false)
    by (apply Z.eqb_neq; unfold InvalidBlockNumber; lia).
  assert (Ec : (c =? InvalidBlockNumber) = false) by by apply Z.eqb_neq.
  rewrite En, Ec. cbn.
  set (next := if rs_nblocks <=? c + 1 then 0 else c + 1).
  assert (Hnext : 0 <= next /\ next + (n - 1) <= rs_nblocks /\
                  seqZ next (n - 1) = seqZ (c + 1) (n - 1)).
  { subst next. destruct (rs_nblocks <=? c + 1) eqn:E;
      [apply Z.leb_le in E | apply Z.leb_gt in E].
    - assert (n = 1) by lia. subst n. split; [lia |]. split; [lia | done].
    - split; [lia |]. split; [lia | done]. }
  destruct Hnext as (Hnext0 & Hnextend & Hseq).
  assert (Hlen : length (seqZ c n) = S (length (seqZ (c + 1) (n - 1)))).
  { rewrite !length_seqZ. lia. }
  split; [| split; [| split; [| split; [| split]]]].
  6: { rewrite Hlen. destruct (next =? start) eqn:E; cbn; [lia |].
       destruct (next =? InvalidBlockNumber); cbn; [lia |].
       rewrite Hseq. lia. }
  - destruct (next =? start); cbn; (split; [exact Hpar |]); (split; [done |]);
      intros _; [by left | right; lia].
  - by destruct (next =? start).
  - destruct sync; [| done]. unfold blocks_read. rewrite flat_map_app. cbn.
    by rewrite app_nil_r.
  - destruct sync; [| done]. unfold nextpages. rewrite flat_map_app. cbn.
    by rewrite app_nil_r.
  - exists (seqZ (c + 1) (n - 1)). split.
    + rewrite (seqZ_cons c n) by lia. by f_equal.
    + destruct (next =? start) eqn:E; cbn.
      * apply sublist_nil_l.
      * destruct (next =? InvalidBlockNumber); cbn;
          [apply sublist_nil_l | by rewrite Hseq].
Qed.

(** The head of a round, for a parallel worker. *)
Lemma scan_init_parallel (st : chunk_loop.t) :
  parallel_worker (chunk_loop.scan st) ->
  match scan_init st with
  | inr (e, st') => st' = st /\ forall msg, e <> loop_error msg
  | inl st' =>
      chunk_loop.pds st' = chunk_loop.pds st /\
      chunk_loop.pds_column st' = chunk_loop.pds_column st /\
      chunk_loop.events st' = chunk_loop.events st /\
      parallel_worker (chunk_loop.scan st') /\
      heapscan.rs_inited (chunk_loop.scan st') = true /\
      own_blocks (chunk_loop.scan st') = own_blocks (chunk_loop.scan st) /\
      blocks_ahead (chunk_loop.scan st') = blocks_ahead (chunk_loop.scan st)
  end.
Proof.
  destruct st as [[[rs_nblocks sync c n] inited start parallel]
                    pds pds_column events].
  unfold blocks_ahead, parallel_worker, scan_init, own_blocks. cbn.
  intros ((ps & -> & Hvalid) & Hmax & Hown).
  destruct inited; cbn.
  - destruct (c =? InvalidBlockNumber) eqn:E; cbn; [done |].
    rewrite E. cbn. repeat split; try done. by eexists.
  - destruct (rs_nblocks =? 0); cbn; [done |].
    repeat split; try done; [by eexists | by left].
Qed.

(** The move to the next position, for a parallel worker without
    NVMe-Strom: a worker that holds no block reserves eight. *)
Lemma scan_next_position_parallel (fuel : nat) (gts : GpuTaskState)
    (st : chunk_loop.t) (own : list Z) o :
  8 < RELSEG_SIZE ->
  gts.nvme_sstate gts = None ->
  parallel_worker (chunk_loop.scan st) ->
  heapscan.rs_inited (chunk_loop.scan st) = true ->
  reads_reserved own (chunk_loop.events st) (chunk_loop.scan st) ->
  scan_next_position fuel gts st = Some o ->
  match o with
  | inl st' =>
      parallel_worker (chunk_loop.scan st') /\
      heapscan.rs_inited (chunk_loop.scan st') = true /\
      scan.rs_numblocks (heapscan.desc (chunk_loop.scan st')) <> 0 /\
      reads_reserved own (chunk_loop.events st') (chunk_loop.scan st')
  | inr (e, st') =>
      ((forall msg, e <> loop_error msg) ->
       parallel_worker (chunk_loop.scan st')) /\
      reads_reserved own (chunk_loop.events st') (chunk_loop.scan st')
  end.
Proof.
  intros HR Hnvme Hworker Hin Hinv. unfold scan_next_position.
  pose proof Hworker as ((ps & Hps & Hvalid) & Hmax & Hown).
  rewrite Hps, Hnvme.
  destruct (scan.rs_numblocks _ =? 0) eqn:En.
  2: { intros [= <-]. apply Z.eqb_neq in En.
       split; [exact Hworker |]. by split; [| split]. }
  destruct (chunk_loop.pds_column st) as [pds_column |];
    [intros [= <-]; by split |].
  intros Hrun. apply bind_Some in Hrun as (r & Hr & Hrun).
  destruct (gpuscan_parallel_nextpage_worker fuel _ ps _ 8 r
              ltac:(lia) Hmax ltac:(lia) Hvalid Hr) as (Hnb & Hres).
  set (scan' := {| heapscan.desc := nextpage.scan r;
                   heapscan.rs_inited := _;
                   heapscan.rs_startblock := _;
                   heapscan.rs_parallel := _ |}) in Hrun.
  assert (Hown' : own_blocks scan' = reserved_blocks r).
  { unfold own_blocks, reserved_blocks. subst scan'. cbn. rewrite Hin. cbn.
    by destruct (_ =? InvalidBlockNumber). }
  assert (Hinv' : reads_reserved own
                    (chunk_loop.events st ++ [parallel_nextpage r]) scan').
  { unfold reads_reserved in *.
    rewrite blocks_read_app, nextpages_app, fmap_app, concat_app, Hown'.
    cbn. rewrite !app_nil_r.
    assert (Hempty : own_blocks (chunk_loop.scan st) = []).
    { unfold own_blocks. apply Z.eqb_eq in En. rewrite En.
      by destruct (_ && _). }
    rewrite Hempty, app_nil_r in Hinv. rewrite app_assoc.
    by apply sublist_app. }
  destruct (nextpage.pds_column r) as [pds_column | msg].
  2: { injection Hrun as <-. split; [| exact Hinv'].
       intros Hmsg. by destruct (Hmsg msg). }
  destruct Hres as (Hvalid' & Hrange).
  assert (Hworker' : parallel_worker scan').
  { subst scan'. unfold parallel_worker. cbn. rewrite Hnb.
    split; [by eexists |]. split; [exact Hmax |]. by intros _. }
  destruct (scan.rs_numblocks (heapscan.desc scan') =? 0) eqn:En'.
  - injection Hrun as <-. by split.
  - injection Hrun as <-. apply Z.eqb_neq in En'.
    split; [exact Hworker' |]. by split; [| split].
Qed.

(** The load of the block a parallel worker stands at. *)
Lemma scan_load_block_parallel (gts : GpuTaskState) (st : chunk_loop.t)
    (own : list Z) :
  1 < RELSEG_SIZE ->
  parallel_worker (chunk_loop.scan st) ->
  heapscan.rs_inited (chunk_loop.scan st) = true ->
  scan.rs_numblocks (heapscan.desc (chunk_loop.scan st)) <> 0 ->
  reads_reserved own (chunk_loop.events st) (chunk_loop.scan st) ->
  match scan_load_block gts st with
  | inl st' | inr (_, st') =>
      parallel_worker (chunk_loop.scan st') /\
      reads_reserved own (chunk_loop.events st') (chunk_loop.scan st')
  end.
Proof.
  intros HR Hworker Hin Hn Hinv. unfold scan_load_block.
  destruct (match chunk_loop.pds st with Some _ => _ | None => _ end)
    as [pds | msg]; [| by split].
  destruct (_ =? InvalidBlockNumber) eqn:Ec; [by split |].
  apply Z.eqb_neq in Ec.
  destruct (PDS_exec_heapscan _ _ pds) as [pds' |]; [| by split].
  cbn [chunk_loop.scan chunk_loop.events].
  match goal with
  | |- context [scan_next_block ?sc ?ev] =>
      destruct (scan_next_block_parallel sc ev HR Hworker Hin Ec Hn)
        as (Hworker' & _ & Hreads & Hpages & (rest & Hown & Hrest) & _);
      destruct (scan_next_block sc ev) as [scan' events']
  end.
  cbn [fst snd] in Hworker', Hreads, Hpages, Hrest.
  cbn [chunk_loop.scan chunk_loop.events].
  split; [exact Hworker' |].
  unfold reads_reserved in *.
  rewrite Hreads, Hpages, blocks_read_app, nextpages_app, app_nil_r.
  etrans; [| exact Hinv]. rewrite Hown, <- app_assoc.
  apply sublist_app; [done |]. cbn. by apply sublist_skip.
Qed.

Lemma scan_round_parallel (fuel : nat) (gts : GpuTaskState)
    (st : chunk_loop.t) (own : list Z) o :
  8 < RELSEG_SIZE ->
  gts.nvme_sstate gts = None ->
  parallel_worker (chunk_loop.scan st) ->
  reads_reserved own (chunk_loop.events st) (chunk_loop.scan st) ->
  scan_round fuel gts st = Some o ->
  match o with
  | inl st' =>
      parallel_worker (chunk_loop.scan st') /\
      reads_reserved own (chunk_loop.events st') (chunk_loop.scan st')
  | inr (e, st') =>
      ((forall msg, e <> loop_error msg) ->
       parallel_worker (chunk_loop.scan st')) /\
      reads_reserved own (chunk_loop.events st') (chunk_loop.scan st')
  end.
Proof.
  intros HR Hnvme Hworker Hinv. unfold scan_round.
  pose proof (scan_init_parallel st Hworker) as Hinit.
  destruct (scan_init st) as [st1 | [e st1]].
  2: { destruct Hinit as (-> & _). intros [= <-]. by split. }
  destruct Hinit as (_ & _ & Hev1 & Hworker1 & Hin1 & Hown1 & _).
  assert (Hinv1 : reads_reserved own (chunk_loop.events st1)
                    (chunk_loop.scan st1)).
  { unfold reads_reserved in *. by rewrite Hev1, Hown1. }
  pose proof (scan_next_position_parallel fuel gts st1 own) as Hnext.
  destruct (scan_next_position fuel gts st1) as [[st2 | [e st2]] |];
    [| | discriminate].
  2: { intros [= <-]. exact (Hnext _ HR Hnvme Hworker1 Hin1 Hinv1 eq_refl). }
  destruct (Hnext _ HR Hnvme Hworker1 Hin1 Hinv1 eq_refl)
    as (Hworker2 & Hin2 & Hn2 & Hinv2).
  intros [= <-].
  pose proof (scan_load_block_parallel gts st2 own ltac:(lia)
                Hworker2 Hin2 Hn2 Hinv2) as Hload.
  destruct (scan_load_block gts st2) as [st3 | [e st3]]; [done |].
  destruct Hload as [? ?]. by split; [intros _ |].
Qed.

Lemma scan_loop_parallel (fuel : nat) (gts : GpuTaskState)
    (st : chunk_loop.t) (own : list Z) e st' :
  8 < RELSEG_SIZE ->
  gts.nvme_sstate gts = None ->
  parallel_worker (chunk_loop.scan st) ->
  reads_reserved own (chunk_loop.events st) (chunk_loop.scan st) ->
  scan_loop fuel gts st = Some (e, st') ->
  ((forall msg, e <> loop_error msg) ->
   parallel_worker (chunk_loop.scan st')) /\
  reads_reserved own (chunk_loop.events st') (chunk_loop.scan st').
Proof.
  intros HR Hnvme. revert st.
  induction fuel as [| fuel IH]; intros st Hworker Hinv; cbn [scan_loop].
  all: match goal with
       | |- context [scan_round ?f ?g ?s] =>
           pose proof (scan_round_parallel f g s own) as Hround;
           destruct (scan_round f g s) as [[st1 | [e1 st1]] |];
           [| | discriminate]
       end.
  all: try (intros [= <- <-];
            exact (Hround _ HR Hnvme Hworker Hinv eq_refl)).
  destruct (Hround _ HR Hnvme Hworker Hinv eq_refl) as (Hworker1 & Hinv1).
  by apply IH.
Qed.

(** Without columnar cache the reservation always returns, and what it
    hands to the worker is taken from what the cursor had to hand out. *)
Lemma scan_next_position_parallel_total (fuel : nat) (gts : GpuTaskState)
    (st : chunk_loop.t) :
  8 < RELSEG_SIZE ->
  gts.nvme_sstate gts = None ->
  gts.ccache_refs gts = false ->
  parallel_worker (chunk_loop.scan st) ->
  heapscan.rs_inited (chunk_loop.scan st) = true ->
  exists o, scan_next_position fuel gts st = Some o /\
    match o with
    | inl st' =>
        blocks_ahead (chunk_loop.scan st') = blocks_ahead (chunk_loop.scan st)
    | inr _ => True
    end.
Proof.
  intros HR Hnvme Hcc Hworker Hin. unfold scan_next_position.
  pose proof Hworker as ((ps & Hps & Hvalid) & Hmax & Hown).
  rewrite Hps, Hnvme, Hcc.
  destruct (scan.rs_numblocks _ =? 0) eqn:En; [| by eexists].
  destruct (chunk_loop.pds_column st) as [pds_column |]; [by eexists |].
  set (scan := chunk_loop.scan st) in *.
  assert (Hempty : own_blocks scan = []).
  { unfold own_blocks. apply Z.eqb_eq in En. rewrite En.
    by destruct (_ && _). }
  assert (Hr : exists r,
    gpuscan_parallel_nextpage fuel (heapscan.desc scan) ps false 8 = Some r /\
    scan.rs_nblocks (nextpage.scan r) = scan.rs_nblocks (heapscan.desc scan) /\
    (length (reserved_blocks r)
     + length (blocks_left (scan.rs_nblocks (heapscan.desc scan))
                 (nextpage.parallel_scan r))
     = length (blocks_left (scan.rs_nblocks (heapscan.desc scan)) ps))%nat).
  { assert (HR0 : 0 < RELSEG_SIZE) by lia.
    assert (H8 : 0 < 8 < RELSEG_SIZE) by lia.
    destruct Hvalid as [Hs [Hc | Hc]].
    - destruct (nextpage_exhausted fuel (heapscan.desc scan) ps false 8)
        as (r & Hr & Hps' & _ & _ & _ & _ & Hres); [| exact Hc |].
      { unfold InvalidBlockNumber. lia. }
      exists r. split; [exact Hr |].
      destruct (gpuscan_parallel_nextpage_worker fuel _ ps _ 8 r
                  HR0 Hmax H8 ltac:(by split; [| left]) Hr)
        as (Hnb & _).
      split; [exact Hnb |]. by rewrite Hres, Hps'.
    - destruct (gpuscan_parallel_nextpage_plain fuel (heapscan.desc scan) ps 8
                  HR0 Hmax H8 Hs Hc)
        as (r & Hr & Hpage & Hcount & Hps').
      exists r. split; [exact Hr |].
      destruct (gpuscan_parallel_nextpage_worker fuel _ ps _ 8 r
                  HR0 Hmax H8 ltac:(by split; [| right]) Hr)
        as (Hnb & _).
      split; [exact Hnb |].
      destruct (clamp_nr_blocks_spec (parallel_scan.phs_cblock ps) 8
                  (scan.rs_nblocks (heapscan.desc scan))
                  (parallel_scan.phs_startblock ps)
                  HR0 Hmax Hc H8 ltac:(lia))
        as (Hn & _ & Hend & Hbefore).
      rewrite (blocks_left_step _ ps
                 (clamp_nr_blocks (parallel_scan.phs_cblock ps) 8
                    (scan.rs_nblocks (heapscan.desc scan))
                    (parallel_scan.phs_startblock ps)));
        [| unfold InvalidBlockNumber; lia | lia ..].
      rewrite length_app, Hps'. f_equal.
      unfold reserved_blocks. rewrite Hpage, Hcount.
      assert (Hv : (parallel_scan.phs_cblock ps =? InvalidBlockNumber) = false)
        by (apply Z.eqb_neq; unfold InvalidBlockNumber; lia).
      by rewrite Hv. }
  destruct Hr as (r & -> & Hnb & Hlen). cbn [mbind option_bind].
  destruct (nextpage.pds_column r); [| by eexists].
  match goal with
  | |- context [if ?c then _ else _] => destruct c
  end; eexists; (split; [reflexivity |]); [done |].
  cbn [chunk_loop.scan]. unfold blocks_ahead. cbn. fold scan.
  rewrite Hps, Hempty, Hnb, <- Hlen. cbn. f_equal.
  unfold own_blocks, reserved_blocks. cbn. rewrite Hin. cbn.
  by destruct (_ =? InvalidBlockNumber).
Qed.

Lemma scan_load_block_parallel_total (gts : GpuTaskState)
    (st : chunk_loop.t) :
  1 < RELSEG_SIZE ->
  parallel_worker (chunk_loop.scan st) ->
  heapscan.rs_inited (chunk_loop.scan st) = true ->
  scan.rs_numblocks (heapscan.desc (chunk_loop.scan st)) <> 0 ->
  match scan_load_block gts st with
  | inl st' =>
      (blocks_ahead (chunk_loop.scan st') < blocks_ahead (chunk_loop.scan st))%nat
  | inr _ => True
  end.
Proof.
  intros HR Hworker Hin Hn. unfold scan_load_block.
  destruct (match chunk_loop.pds st with Some _ => _ | None => _ end)
    as [pds | msg]; [| done].
  destruct (_ =? InvalidBlockNumber) eqn:Ec; [done |].
  apply Z.eqb_neq in Ec.
  destruct (PDS_exec_heapscan _ _ pds) as [pds' |]; [| done].
  cbn [chunk_loop.scan chunk_loop.events].
  match goal with
  | |- context [scan_next_block ?sc ?ev] =>
      destruct (scan_next_block_parallel sc ev HR Hworker Hin Ec Hn)
        as (_ & _ & _ & _ & _ & Hlt);
      destruct (scan_next_block sc ev) as [scan' events']
  end.
  exact Hlt.
Qed.

Lemma scan_loop_parallel_total (fuel : nat) (gts : GpuTaskState)
    (st : chunk_loop.t) :
  8 < RELSEG_SIZE ->
  gts.nvme_sstate gts = None ->
  gts.ccache_refs gts = false ->
  parallel_worker (chunk_loop.scan st) ->
  (blocks_ahead (chunk_loop.scan st) <= fuel)%nat ->
  is_Some (scan_loop fuel gts st).
Proof.
  intros HR Hnvme Hcc. revert st.
  assert (Hround : forall fuel st,
    parallel_worker (chunk_loop.scan st) ->
    exists o, scan_round fuel gts st = Some o /\
      match o with
      | inl st' =>
          parallel_worker (chunk_loop.scan st') /\
          (blocks_ahead (chunk_loop.scan st')
           < blocks_ahead (chunk_loop.scan st))%nat
      | inr _ => True
      end).
  { intros f st Hworker. unfold scan_round.
    pose proof (scan_init_parallel st Hworker) as Hinit.
    destruct (scan_init st) as [st1 | [e st1]]; [| by eexists].
    destruct Hinit as (_ & _ & _ & Hworker1 & Hin1 & _ & Hahead1).
    destruct (scan_next_position_parallel_total f gts st1 HR Hnvme Hcc
                Hworker1 Hin1) as (o & Ho & Hahead2).
    pose proof (scan_next_position_parallel f gts st1
                  (blocks_read (chunk_loop.events st1)
                   ++ own_blocks (chunk_loop.scan st1)) o HR Hnvme Hworker1 Hin1
                  ltac:(by apply sublist_inserts_r) Ho) as Hnext.
    rewrite Ho. destruct o as [st2 | [e st2]]; [| by eexists].
    destruct Hnext as (Hworker2 & Hin2 & Hn2 & Hinv2).
    eexists. split; [reflexivity |].
    pose proof (scan_load_block_parallel gts st2 _ ltac:(lia)
                  Hworker2 Hin2 Hn2 Hinv2) as Hload.
    pose proof (scan_load_block_parallel_total gts st2 ltac:(lia)
                  Hworker2 Hin2 Hn2) as Hlt.
    destruct (scan_load_block gts st2) as [st3 | [e st3]]; [| done].
    split; [by destruct Hload | lia]. }
  induction fuel as [| fuel IH]; intros st Hworker Hfuel; cbn [scan_loop].
  all: match goal with
       | |- context [scan_round ?f _ _] =>
           destruct (Hround f st Hworker) as (o & -> & Ho)
       end.
  all: destruct o as [st' | [e st']]; try done.
  - destruct Ho as [_ Hlt]. lia.
  - destruct Ho as [Hworker' Hlt]. apply IH; [done | lia].
Qed.

(** X19: a worker of a parallel scan without NVMe-Strom reads from the
    heap only blocks it holds: over a call, the blocks it read followed
    by the blocks it is left with are found, in that order, among the
    blocks it held when called followed by the blocks of the reservations
    it made during the call ([gpuscan_parallel_nextpage], eight blocks
    asked for each time); and the worker is again as a call expects it.
    Without columnar cache the call returns, given fuel for the blocks
    ahead. *)
Theorem gpuscanExecScanChunk_parallel_reads (fuel : nat)
    (gts : GpuTaskState) (scan : heapscan.t) :
  8 < RELSEG_SIZE ->
  gts.ss_currentScanDesc gts = Some scan ->
  gts.nvme_sstate gts = None ->
  parallel_worker scan ->
  (forall res gts' events,
     gpuscanExecScanChunk fuel gts = Some (res, gts', events) ->
     exists scan',
       gts.ss_currentScanDesc gts' = Some scan' /\
       reads_reserved (own_blocks scan) events scan' /\
       ((exists pds, res = OK pds) -> parallel_worker scan')) /\
  (gts.ccache_refs gts = false ->
   (blocks_ahead scan <= fuel)%nat ->
   is_Some (gpuscanExecScanChunk fuel gts)).
Proof.
  intros HR Hscan Hnvme Hworker. unfold gpuscanExecScanChunk.
  rewrite Hscan. cbn zeta.
  set (g := {| gts.ss_currentScanDesc := Some scan;
               gts.outer_pds_suspend := None;
               gts.nvme_sstate := gts.nvme_sstate gts;
               gts.ccache_refs := gts.ccache_refs gts |}).
  set (st := {| chunk_loop.scan := scan;
                chunk_loop.pds := gts.outer_pds_suspend gts;
                chunk_loop.pds_column := None;
                chunk_loop.events := [] |}).
  split.
  - intros res gts' events Hrun.
    apply bind_Some in Hrun as ([e st'] & Hloop & Hrun).
    destruct (scan_loop_parallel fuel g st (own_blocks scan) e st' HR Hnvme
                Hworker) as (Hworker' & Hinv); [| exact Hloop |].
    { unfold reads_reserved. cbn. by rewrite app_nil_r. }
    exists (chunk_loop.scan st').
    destruct e as [| | msg]; cbn in Hrun.
    + injection Hrun as <- <- <-. split; [done |]. split; [exact Hinv |].
      intros _. by apply Hworker'.
    + destruct (chunk_loop.pds_column st') as [pds_column |];
        [| destruct (chunk_loop.pds st') as [pds |];
           [destruct (kds.nitems (pds.kds pds) =? 0) |]].
      all: injection Hrun as <- <- <-.
      all: split; [done |]; split; [exact Hinv |].
      all: intros _; by apply Hworker'.
    + injection Hrun as <- <- <-. split; [done |]. split; [done |].
      by intros [? ?].
  - intros Hcc Hfuel.
    destruct (scan_loop_parallel_total fuel g st HR Hnvme Hcc Hworker Hfuel)
      as ([e st'] & ->).
    by eexists.
Qed.

End parallel_worker_props.

Section parallel_worker_sample.
#[local] Existing Instance sample_storage.
#[local] Existing Instance sample_heap.
#[local] Existing Instance sample_device.

(** The only worker of a parallel scan of twenty blocks from block 5: it
    reserves eight blocks at a time (the second reservation is cut at the
    end of the relation, the third at the start block) and reads each
    block it reserved, three to a chunk; its own start block is block 5
    too, so it stops after block 4. *)
Example gpuscanExecScanChunk_parallel_sample :
  (fun r => match r with
            | Some (results, gts, events) =>
                Some (length results,
                      reserved_blocks <$> nextpages events,
                      blocks_read events)
            | None => None
            end) (gpuscan_scan_calls 8 20 sample_parallel_gts)
  = Some (8%nat,
          [seqZ 5 8; seqZ 13 7; seqZ 0 5],
          seqZ 5 15 ++ seqZ 0 5).
Proof. vm_compute. reflexivity. Qed.

Lemma gpuscanExecScanChunk_parallel_reads_witness :
  let gts := sample_parallel_gts in
  let scan := default heap_beginscan (gts.ss_currentScanDesc gts) in
  8 < RELSEG_SIZE /\
  gts.ss_currentScanDesc gts = Some scan /\
  gts.nvme_sstate gts = None /\
  parallel_worker scan /\
  (forall res gts' events,
     gpuscanExecScanChunk 20 gts = Some (res, gts', events) ->
     exists scan',
       gts.ss_currentScanDesc gts' = Some scan' /\
       reads_reserved (own_blocks scan) events scan' /\
       ((exists pds, res = OK pds) -> parallel_worker scan')) /\
  (gts.ccache_refs gts = false ->
   (blocks_ahead scan <= 20)%nat ->
   is_Some (gpuscanExecScanChunk 20 gts)).
Proof.
  assert (HR : 8 < RELSEG_SIZE) by (cbn; lia).
  assert (Hworker : parallel_worker
                      (default heap_beginscan
                         (gts.ss_currentScanDesc sample_parallel_gts))).
  { split; [| split; [cbn; lia | by intros [=]]].
    eexists. split; [reflexivity |]. split; cbn; [lia | right; lia]. }
  split; [exact HR |]. split; [reflexivity |]. split; [reflexivity |].
  split; [exact Hworker |].
  exact (gpuscanExecScanChunk_parallel_reads 20 sample_parallel_gts _
           HR eq_refl eq_refl Hworker).
Defined.

End parallel_worker_sample.
(** ** Pulling up the outer scan *)

Section pullup_props.
Context `{Planner}.

Lemma pullup_outer_path_candidate (outer_path : Path) :
  pullup_outer_path outer_path = OK true <-> pullup_candidate outer_path.
Proof.
  split.
  - induction outer_path as [path | path methods | path subpath IH dummypp];
      cbn; intros Hrun.
    all: destruct (decide (path.pathtype path = T_SeqScan)) as [Hseq | _];
      [by apply candidate_seqscan |].
    + by destruct (decide (_ = T_Result)).
    + destruct (pgstrom_path_is_gpuscan (T_CustomPath path methods)) eqn:Hgpu;
        [by apply candidate_gpuscan |].
      cbn in Hgpu. rewrite Hgpu in Hrun.
      by destruct (decide (_ = T_Result)).
    + destruct (decide (_ = T_Result)) as [Hres |]; [| done].
      destruct dummypp; [| done]. apply candidate_dummy; auto.
  - induction 1 as [p Hseq | p Hgpu | path subpath Hres _ IH].
    + destruct p; cbn in *; by rewrite decide_True.
    + destruct p as [| path methods |]; cbn in Hgpu; try done.
      cbn. destruct (decide (_ = T_SeqScan)); [done |]. by rewrite Hgpu.
    + cbn. rewrite decide_False, decide_True by (done || by rewrite Hres).
      exact IH.
Qed.

(** X20: [pgstrom_pullup_outer_scan] pulls a path up exactly when pulling
    up is enabled, the path is a sequential scan or a GpuScan, possibly
    under dummy projections, every restriction clause of the path's
    relation can run on the device, and every expression of the path's
    target is a column (not a whole-row reference) or can run on the
    device.  It then hands back the relation's index and the conjunction
    of all the restriction clauses, in order, or no qualifier if there is
    none.  With pulling up disabled the answer is always false. *)
Theorem pgstrom_pullup_outer_scan_spec (enable_pullup_outer_scan : bool)
    (outer_path : Path) (outer_relid : Z) (outer_quals : option Node) :
  let baserel := path.parent (path_of outer_path) in
  (pgstrom_pullup_outer_scan enable_pullup_outer_scan outer_path
     = OK (Some (outer_relid, outer_quals)) <->
   enable_pullup_outer_scan = true /\
   pullup_candidate outer_path /\
   Forall (fun clause => pgstrom_device_expression clause = true)
     (rel.baserestrictinfo baserel) /\
   Forall device_target (path.pathtarget (path_of outer_path)) /\
   outer_relid = rel.relid baserel /\
   outer_quals = match rel.baserestrictinfo baserel with
                 | [] => None
                 | clauses => Some (make_flat_ands_explicit clauses)
                 end) /\
  pgstrom_pullup_outer_scan false outer_path = OK None.
Proof.
  intros baserel. split; [| done].
  unfold pgstrom_pullup_outer_scan. fold baserel.
  assert (Htarget : forall l,
    forallb (fun expr => match expr with
                         | T_Var var => negb (varattno var =? InvalidAttrNumber)
                         | _ => pgstrom_device_expression expr
                         end) l = true <-> Forall device_target l).
  { intros l. etrans; [symmetry; apply Is_true_true |].
    rewrite forallb_True. apply Forall_proper; [| done].
    intros expr. unfold device_target.
    destruct expr; rewrite ?Is_true_true; try done.
    rewrite negb_true_iff. apply Z.eqb_neq. }
  assert (Hquals : forall l,
    forallb pgstrom_device_expression l = true <->
    Forall (fun clause => pgstrom_device_expression clause = true) l).
  { intros l. etrans; [symmetry; apply Is_true_true |].
    rewrite forallb_True. apply Forall_proper; [| done].
    intros expr. apply Is_true_true. }
  split.
  - destruct enable_pullup_outer_scan; cbn [negb]; [| done].
    destruct (pullup_outer_path outer_path) as [[|] | msg] eqn:Hpath;
      cbn; try done.
    destruct (forallb pgstrom_device_expression _) eqn:Hq; cbn; [| done].
    destruct (forallb _ (path.pathtarget _)) eqn:Ht; cbn; [| done].
    intros [= <- <-]. split; [done |].
    split; [by apply pullup_outer_path_candidate |].
    split; [by apply Hquals |]. split; [by apply Htarget |].
    split; [done |]. by destruct (rel.baserestrictinfo baserel).
  - intros (-> & Hpath & Hq & Ht & -> & ->). cbn [negb].
    apply pullup_outer_path_candidate in Hpath. rewrite Hpath. cbn.
    apply Hquals in Hq. rewrite Hq. cbn.
    apply Htarget in Ht. rewrite Ht. cbn.
    by destruct (rel.baserestrictinfo baserel).
Qed.

End pullup_props.

Section pullup_sample.
#[local] Existing Instance sample_planner.

(** A dummy projection over a sequential scan of relation 1 restricted by
    [c > 30] is pulled up with that clause; over an index scan it is not. *)
Example pgstrom_pullup_outer_scan_sample :
  let baserel := {| rel.relid := 1; rel.baserestrictinfo := [sample_base_qual] |} in
  let target := [T_Var (mkVar 1 1 23); T_Var (mkVar 1 3 23)] in
  let scan pathtype :=
    T_Path {| path.pathtype := pathtype; path.parent := baserel;
              path.pathtarget := target |} in
  let projection subpath :=
    T_ProjectionPath {| path.pathtype := T_Result; path.parent := baserel;
                        path.pathtarget := target |} subpath true in
  pgstrom_pullup_outer_scan true (projection (scan T_SeqScan))
    = OK (Some (1, Some sample_base_qual)) /\
  pgstrom_pullup_outer_scan true (projection (scan (T_OtherPlan 20)))
    = OK None.
Proof. by vm_compute. Qed.

End pullup_sample.
(** ** The coordinate memory of a parallel scan *)

Lemma MAXALIGN_spec (len : Z) :
  0 <= len -> len + 7 < 2 ^ 64 ->
  MAXALIGN len = 8 * ((len + 7) / 8) /\ len <= MAXALIGN len < len + 8.
Proof.
  intros H0 Hmax. unfold MAXALIGN.
  rewrite (uint64_id (len + 7)) by (unfold is_uint64; lia).
  assert (Heq : Z.land (len + 7) (uint64 (Z.lnot 7)) = 8 * ((len + 7) / 8)).
  { unfold uint64. rewrite <- (Z.land_ones (Z.lnot 7) 64) by lia.
    rewrite (Z.land_comm (Z.lnot 7)), Z.land_assoc,
      (Z.land_ones (len + 7) 64) by lia.
    rewrite Z.mod_small by lia.
    rewrite <- Z.ldiff_land. change 7 with (Z.ones 3) at 2.
    rewrite Z.ldiff_ones_r by lia.
    rewrite Z.shiftr_div_pow2, Z.shiftl_mul_pow2 by lia.
    change (2 ^ 3) with 8. lia. }
  rewrite Heq. split; [reflexivity |].
  pose proof (Z.div_mod (len + 7) 8 ltac:(lia)) as Hdm.
  pose proof (Z.mod_pos_bound (len + 7) 8 ltac:(lia)) as Hm. lia.
Qed.

Section coordinate_memory_props.
Context `{CoordinateMemory}.

(** X21: the master backend keeps inside the coordinate memory it asked
    for, and the workers look where the master wrote.  For a node that
    [ExecGpuScanEstimateDSM] sized, [ExecGpuScanInitDSM] puts the shared
    state (of [ss_length] bytes, enough for the structure) and the
    parallel scan descriptor inside the estimated size, the descriptor
    after the state, and [ExecGpuScanInitWorker] finds both at the same
    addresses -- also for a node that is not a GpuScan, for which the
    estimate includes a shared state that is not made. *)
Theorem ExecGpuScanInitDSM_layout (is_gpuscan ss_currentRelation : bool)
    (pcxt_seg_handle coordinate : Z) :
  0 <= sizeof_GpuScanSharedState ->
  0 <= heap_parallelscan_estimate ->
  0 <= coordinate ->
  coordinate + sizeof_GpuScanSharedState + 7 + heap_parallelscan_estimate
    < 2 ^ 64 ->
  let required := ExecGpuScanEstimateDSM ss_currentRelation in
  let master :=
    ExecGpuScanInitDSM is_gpuscan ss_currentRelation pcxt_seg_handle
      coordinate in
  (forall addr gs_sstate,
     dsm.gs_sstate master.1 = Some addr -> master.2 = Some gs_sstate ->
     gs_sstate.ss_handle gs_sstate = pcxt_seg_handle /\
     sizeof_GpuScanSharedState <= gs_sstate.ss_length gs_sstate /\
     area_within addr (gs_sstate.ss_length gs_sstate) coordinate required /\
     forall pscan, dsm.pscan master.1 = Some pscan ->
                   addr + gs_sstate.ss_length gs_sstate <= pscan) /\
  (forall pscan,
     dsm.pscan master.1 = Some pscan ->
     area_within pscan heap_parallelscan_estimate coordinate required) /\
  (is_gpuscan = true <-> is_Some (dsm.gs_sstate master.1)) /\
  (is_gpuscan = true <-> is_Some master.2) /\
  (ss_currentRelation = true <-> is_Some (dsm.pscan master.1)) /\
  ExecGpuScanInitWorker is_gpuscan ss_currentRelation coordinate = master.1.
Proof.
  intros Hs He Hc Hmax required master.
  destruct (MAXALIGN_spec sizeof_GpuScanSharedState Hs ltac:(lia))
    as (_ & Halign).
  subst required master.
  unfold ExecGpuScanInitDSM, ExecGpuScanInitWorker, ExecGpuScanEstimateDSM,
    createGpuScanSharedState, area_within.
  rewrite !(uint64_id (_ + _)) by (unfold is_uint64; lia).
  destruct is_gpuscan, ss_currentRelation; cbn.
  all: repeat split; try done; try (by intros [? [=]]); try (by eexists).
  all: repeat match goal with
              | Heq : Some _ = Some _ |- _ => injection Heq as <-
              end.
  all: cbn; try done; try lia.
  all: intros ? [= <-]; lia.
Qed.

End coordinate_memory_props.

Lemma ExecGpuScanInitDSM_layout_witness :
  let H := sample_coordinate_memory in
  let coordinate := 4096 in
  0 <= sizeof_GpuScanSharedState /\
  0 <= heap_parallelscan_estimate /\
  0 <= coordinate /\
  coordinate + sizeof_GpuScanSharedState + 7 + heap_parallelscan_estimate
    < 2 ^ 64 /\
  ExecGpuScanEstimateDSM true = 148 /\
  ExecGpuScanInitDSM true true 7 coordinate
    = ({| dsm.gs_sstate := Some 4096; dsm.pscan := Some 4144 |},
       Some {| gs_sstate.ss_handle := 7; gs_sstate.ss_length := 48;
               gs_sstate.gs_rtstat :=
                 {| rtstat.nitems_filtered := 0;
                    rtstat.ccache_count := 0 |} |}) /\
  area_within 4144 heap_parallelscan_estimate coordinate
    (ExecGpuScanEstimateDSM true).
Proof.
  cbv zeta.
  assert (Hs : 0 <= @sizeof_GpuScanSharedState sample_coordinate_memory)
    by (cbn; lia).
  assert (He : 0 <= @heap_parallelscan_estimate sample_coordinate_memory)
    by (cbn; lia).
  assert (Hc : 0 <= 4096) by lia.
  assert (Hmax : 4096 + @sizeof_GpuScanSharedState sample_coordinate_memory
                 + 7 + @heap_parallelscan_estimate sample_coordinate_memory
                 < 2 ^ 64) by (cbn; lia).
  split; [exact Hs |]. split; [exact He |]. split; [exact Hc |].
  split; [exact Hmax |]. split; [reflexivity |]. split; [reflexivity |].
  exact (proj1 (proj2 (ExecGpuScanInitDSM_layout (H := sample_coordinate_memory)
                         true true 7 4096 Hs He Hc Hmax))
           4144 eq_refl).
Defined.
(** ** The definitions given to the device code *)

(** X22: what the device code is told about a plan.  For the state that
    [ExecInitGpuScan] makes of a GpuScan plan, the session definitions
    are: the kernel is required; a device projection exists exactly when
    [custom_scan_tlist] is not NIL; the number of projected fields is the
    number of its non-junk entries, or the number of columns of the
    relation when there is no device projection; the extra size is the
    plan's; and qualifiers are announced always, also for a plan without
    device qualifiers, because the executor makes a (constant true)
    predicate of an empty list. *)
Theorem assign_gpuscan_session_info_of_plan (cscan : CustomScan)
    (kern_params_length rel_natts : Z) (gss : GpuScanState)
    (gs_info : GpuScanInfo) (buf : StringInfo) :
  ExecInitGpuScan cscan kern_params_length rel_natts = OK gss ->
  deform_gpuscan_info cscan = OK gs_info ->
  let dev_projection :=
    bool_decide (custom_scan_tlist cscan <> []) in
  let nfields :=
    if dev_projection
    then Z.of_nat (length (filter (fun tle => resjunk tle = false)
                             (custom_scan_tlist cscan)))
    else rel_natts in
  assign_gpuscan_session_info buf true gss =
    buf ++
    [text ("#define GPUSCAN_KERNEL_REQUIRED                1" +:+ LF)] ++
    (if dev_projection
     then [text ("#define GPUSCAN_HAS_DEVICE_PROJECTION          1" +:+ LF)]
     else []) ++
    [text ("#define GPUSCAN_DEVICE_PROJECTION_NFIELDS      "
             +:+ fmt_d nfields +:+ LF +:+
           "#define GPUSCAN_DEVICE_PROJECTION_EXTRA_SIZE   "
             +:+ fmt_d (gs_info.proj_extra_sz gs_info) +:+ LF);
     text ("#define GPUSCAN_HAS_WHERE_QUALS                1" +:+ LF)].
Proof.
  intros Hinit Hinfo. unfold ExecInitGpuScan in Hinit.
  rewrite Hinfo in Hinit. cbn [mbind result_bind] in Hinit.
  destruct (fixup_varnode_to_origin _ _ ≫= as_List) as [dev_quals_raw | msg];
    [| discriminate].
  cbn [mbind result_bind] in Hinit. injection Hinit as <-.
  unfold assign_gpuscan_session_info, appendStringInfo,
    appendStringInfoString. cbn.
  destruct (custom_scan_tlist cscan) as [| tle tlist]; cbn;
    by rewrite <- ?app_assoc.
Qed.

Lemma assign_gpuscan_session_info_of_plan_witness :
  exists gss gs_info,
    ExecInitGpuScan sample_projected_cscan 64 3 = OK gss /\
    deform_gpuscan_info sample_projected_cscan = OK gs_info /\
    data (assign_gpuscan_session_info [] true gss)
    = "#define GPUSCAN_KERNEL_REQUIRED                1" +:+ LF +:+
      "#define GPUSCAN_HAS_DEVICE_PROJECTION          1" +:+ LF +:+
      "#define GPUSCAN_DEVICE_PROJECTION_NFIELDS      2" +:+ LF +:+
      "#define GPUSCAN_DEVICE_PROJECTION_EXTRA_SIZE   0" +:+ LF +:+
      "#define GPUSCAN_HAS_WHERE_QUALS                1" +:+ LF.
Proof.
  destruct (ExecInitGpuScan sample_projected_cscan 64 3) as [gss | msg] eqn:Hinit;
    [| vm_compute in Hinit; discriminate].
  destruct (deform_gpuscan_info sample_projected_cscan) as [gs_info | msg]
    eqn:Hinfo; [| vm_compute in Hinfo; discriminate].
  exists gss, gs_info. split; [reflexivity |]. split; [reflexivity |].
  rewrite (assign_gpuscan_session_info_of_plan sample_projected_cscan 64 3
             gss gs_info [] Hinit Hinfo).
  vm_compute in Hinfo. injection Hinfo as <-.
  vm_compute. reflexivity.
Defined.
(** ** The code generator for the device projection *)



Section projection_codegen_props.
Context `{Codegen} `{Catalog}.
Variable scanrelid : Z.
Variable tupdesc : TupleDesc.











End projection_codegen_props.

Section projection_codegen_sample.
#[local] Existing Instance sample_codegen.
#[local] Existing Instance sample_catalog.

(** For the target list [c, <expression>, ctid] the tuple reader stores the
    system column first, then the column read while walking the tuple, then
    the expression. *)
Example codegen_gpuscan_projection_slots_sample :
  (fun r => match r with
            | OK (bufs, _) => Some (omap slot_written (pbufs.tbody bufs),
                                    omap slot_written (pbufs.cbody bufs))
            | ERROR _ => None
            end)
    (codegen_gpuscan_projection_buffers 1 sample_tupdesc sample_context
       sample_projection_tlist) = Some ([2; 0; 1], [2; 0; 1]).
Proof. vm_compute. reflexivity. Qed.


End projection_codegen_sample.

(** ** The KVAR_xx variables of the device projection *)





Section projection_kvar_props.
Context `{Codegen} `{Catalog}.
Variable scanrelid : Z.
Variable tupdesc : TupleDesc.





End projection_kvar_props.

Section projection_kvar_sample.
#[local] Existing Instance sample_codegen.
#[local] Existing Instance sample_catalog.

(** For the target list [c, c > 30, ctid] over relation 1 only KVAR_3 is
    needed: column c of the expression. *)
Example codegen_gpuscan_projection_kvars_sample :
  (fun r => match r with
            | OK (bufs, _) =>
                Some (omap kvar_declared (pbufs.tdecl bufs),
                      omap kvar_loaded (pbufs.tbody bufs),
                      omap kvar_loaded (pbufs.cbody bufs))
            | ERROR _ => None
            end)
    (codegen_gpuscan_projection_buffers 1 sample_tupdesc sample_context
       sample_projection_tlist) = Some ([3], [3], [3]).
Proof. vm_compute. reflexivity. Qed.


End projection_kvar_sample.
